(* ===== verification/_CoqProject ===== *)
-Q . S2P
Prelude.v
GoStrings.v
GoNum.v
GoTime.v
GoPath.v
Workload.v
KeyValue.v
AgentParse.v
AgentClient.v
AgentServer.v
AgentTypes.v
AgentRun.v
Grpc.v
Kube.v
Crd.v
OperatorPod.v
VKStatus.v
Cluster.v
ClientSet.v
Informers.v
Reconcile.v
DeepCopy.v
VKReader.v
VKProvider.v
VKOptions.v
VKNode.v
Configurator.v
RateLimit.v
Tail.v
TailStop.v
TailReader.v
Watch.v
Files.v
Fetcher.v
Codec.v
ApiJson.v
VKCommand.v
VKRun.v
Programs.v
Deployment.v
EndToEnd.v
Lifecycle.v
