(* ===== verification/Prelude.v ===== *)
(** * Verification of slurm-bridge-operator

    The project runs Slurm jobs from Kubernetes. A user creates a
    SlurmBridgeJob with a batch script; four programs carry it out.

    - The _operator_ (cmd/bridge-operator, pkg/slurm-bridge-operator)
      reconciles SlurmBridgeJobs. For a job it creates a sizing pod, whose
      labels carry the request and whose resource list makes the scheduler
      account for it; it copies what the sizing pod reports into the job's
      status, creates a worker pod with one container per Slurm job, and in
      the end a Kubernetes job that fetches the results.
    - The _virtual kubelet_ (cmd/slurm-virtual-kubelet,
      pkg/slurm-virtual-kubelet) stands for one Slurm partition as a node.
      The sizing pods scheduled to it are submitted to the Slurm agent; pod
      status and logs come from the Slurm jobs.
    - The _Slurm agent_ (cmd/slurm-agent, pkg/slurm-agent) is a gRPC service
      on a Slurm login machine. It runs [sbatch], [scontrol], [sacct],
      [sinfo] and [scancel] and parses what they print.
    - The _configurator_ (cmd/configurator, pkg/configurator) keeps one
      virtual kubelet pod running per Slurm partition.

    ** The files

    Below, a file of the development, what it models, and what its theorems
    show. The definitions keep the names of the Go functions; where a Go
    method and a field collide the module name sets them apart.

    - Prelude (this file): machine integers, the outcome [res] of a Go call
      (a value, an error, a panic), the state monad [M] with the notations
      for it, the tactics and the general lemmas.
    - GoStrings, GoNum, GoTime, GoPath: the functions of Go's [strings],
      [strconv], [time] and [path/filepath] the program calls, executable,
      with the laws used ([Split]/[Join], [Fields] of a printed record,
      printing and parsing of integers and of instants, clean absolute
      paths).
    - Workload: the messages of pkg/workload and the client interface
      [WorkloadManager] as a class. Protobuf times are the class
      [ProtoTime], their documented laws [ProtoTimeLaws].
    - KeyValue: the texts [scontrol] prints, as data with a printer, and how
      the string functions take them apart. A record consists of words, those
      with one equals sign are its fields and the others say nothing.
    - AgentParse: pkg/slurm-agent/parse.go and the reflective field setters
      of slurm.go. [ParseDuration] is characterised exactly; printed
      listings of jobs (with fields missing or skipped, as in the listings
      of slurm_test.go), steps, nodes and partitions are read back; no text
      makes a parser panic.
    - AgentClient: pkg/slurm-agent/slurm.go, the calls of the Slurm
      binaries over the class [SlurmHost], a machine that runs commands.
    - AgentServer: pkg/slurm-agent/api/slurm.go, every handler of the
      service. A request uid is submitted once, the answers are those the
      binaries printed. [SubmitSteps] models [SubmitJob] handlers that run
      concurrently as a step relation: a handler that runs alone refines
      the handler of the service, interleavings issue ids only for the uid
      they answer, and two handlers with one uid can both submit.
    - AgentTypes: the integers in the agent's answers fit their protobuf
      types, whatever the binaries print.
    - AgentRun: the agent from its calls of [Serve] to its end, with the
      calls in flight, as a step relation. A stop that ends with the return
      of [main] loses no call and no job; every run of a stop is bounded, and
      it ends so unless a handler panics or a stream ends the process.
    - Grpc: workload_grpc.pb.go, the generated client, the handlers that
      decode a request and the service description between them, over a
      connection with the laws [CodecLaws], [UnaryLaws] and [GrpcLaws]. An
      answer the client gets is one of the agent's handler to the message it
      sent, and a file stream delivers the file. Nothing is assumed of a call
      that fails in the transport, so nothing is shown about retries.
    - Kube, Crd: the Kubernetes objects and the custom resource with its
      validation, labels, affinity, and the virtual kubelet's configuration
      (apis/kubecluster.org/v1alpha1, pkg/common).
    - OperatorPod: pkg/slurm-bridge-operator/parse.go and pod.go. The
      [#SBATCH] header of a script is read to the directives it contains;
      the resource list is exact as long as the numbers fit 64 bits, with the
      count of tasks the code takes every array expression for.
    - VKStatus: pkg/slurm-virtual-kubelet/status.go: phase, start time and
      container statuses of a pod from its Slurm jobs.
    - Cluster: the Kubernetes API as the class [KubeAPI], the meaning of its
      calls for the stored objects as the class [KubeStore], and a concrete
      server [store_api] that satisfies it.
    - ClientSet: the generated client of the custom resource under
      pkg/client: how a clientset is made from a configuration, the requests
      of its methods, its fake and the listers. It asks for a version no
      server serves, so none of its calls succeeds.
    - Informers: the shared informer factory of pkg/client as a step
      relation of its callers and goroutines. An informer is run once,
      [Shutdown] is final and returns when the stop channels are closed, and
      the informers of such a clientset never sync.
    - Reconcile: slurmbridgejob_controller.go and result.go. What one call
      creates in each stage, that it touches nothing but its job, and that
      the results of an ended job are fetched once.
    - DeepCopy: zz_generated.deepcopy.go over a heap of cells. A copy reads
      the same and lies in new cells, so the reconciler's changes of the
      status, which refine those on values, do not reach the cache.
    - VKReader: reader.go. Reading delivers the streams' bytes in order.
    - VKProvider: provider.go. The life of a pod from [CreatePod] over any
      other calls to its status and deletion.
    - VKOptions: the options, labels and validation of the virtual kubelet.
    - VKNode: node.go: the node's capacity, and when a sizing pod passes the
      scheduler's checks of affinity, taints and resources on it: exactly on
      the nodes of its partition with the CPUs and memory it needs free; the
      loop that refreshes the node.
    - Configurator: configurator.go. A reconciliation converges to the
      partitions the agent reports.
    - RateLimit: pkg/tail/ratelimiter, the leaky bucket with its 64-bit
      floating point level and the memory store of buckets.
    - Tail: tail.go and util.go of pkg/tail, following a file line by line
      over the class [TailOS]. What is sent is always a prefix of the lines
      of the file, and with no failing call every line is sent.
    - TailStop: what [StopAtEOF] does to a follower. It returns, within a
      number of turns that is computed from the rest of the file, whatever
      fails, and only an unfinished last line stays unsent.
    - TailReader: pkg/common/tail, the buffer between the follower and the
      agent's [TailFile] handler, as a step relation of the two goroutines.
      The bytes read are those of the file; one interleaving ends early.
    - Watch: pkg/tail/watch, what a follower waits for. All watchers of the
      process and the tracker they share are a step relation, with an
      executable scheduler: the tracker's counts are right in every
      interleaving, a call alone on its file hears of every event, two
      followers of one file can stall each other, and so can one follower
      whose file was truncated stall itself.
    - Files: pkg/filesystem and pkg/slurm-virtual-kubelet/util/files over a
      file system as the class [Filesystem] with the laws [FsLaws].
      [ReplaceFile] is atomic under every failure.
    - Fetcher: cmd/result-fetcher with its command line. Together with the
      operator's container and the agent's handler, the results of a job
      reach the mounted volume, when the path needs no quoting in a shell.
    - Codec: the scheme and the two codec packages of the virtual kubelet,
      strict decoding with the lenient decoder behind it.
    - ApiJson: the API types as JSON: the struct tags as tables, reading and
      writing by them, the schema of the CRD, and the generated OpenAPI
      definitions. The API server accepts the statuses the operator writes
      and gives them back; what a user may create, the operator can read.
    - VKCommand: the command of the virtual kubelet
      (cmd/slurm-virtual-kubelet/app, pkg/common/flag, configfiles): both
      parses of the flags, the configuration file, flag precedence.
    - VKRun: what the command starts (virtual-kubelet.go, the rest of
      app/server.go, manager/resource.go): the connections, the certificates,
      and the process with its goroutines as a step relation. The log server
      speaks HTTPS with the certificates in the files or not at all, and the
      library touches pods only when the provider is there and the node
      ready; an HTTP request may come too early.
    - Programs: the main programs of the agent, the configurator and the
      operator up to the calls that serve, and what the operator watches.
    - Deployment: the configurator, the command and the node together. The
      partition a virtual kubelet is deployed for reaches the name, the labels
      and the capacity of the node it registers, which the configurator does
      not list, and the kubelet dials the agent the configurator dialled,
      except over a Unix socket.
    - EndToEnd: the API server and the agent together. What a
      SlurmBridgeJob says reaches [sbatch], but for the group, the generic
      resources and the licenses, what [scontrol] says reaches the
      SlurmBridgeJob's status, and a sizing pod is submitted once even
      by virtual kubelets that restart.
    - Lifecycle: a job from its creation to its worker pod, through all the
      components.

    ** Conventions

    A Go function that can fail or panic returns [res A]; one with effects is
    [M W A], a function from a state [W] to an outcome and a state. [W] is
    abstract where the code calls something outside the repository: what it
    may do is the argument of a class ([SlurmHost], [KubeAPI],
    [WorkloadManager]), what the proofs need of it a second class of laws,
    and the examples use a concrete instance. A mutable Go object that
    several calls share is a field of the state. Nil maps and pointers are
    options where the code can see the difference. Go's [int] and [int64]
    are integers with [wrap64] after every operation that can overflow.
    Log lines have no effect and are left out, and error texts are kept.
    Iteration over a Go map, whose order is not specified, takes the order
    as an argument, and the theorems hold for every order.

    Go 1.21 is the language version of the module file, so the variable of a
    [for] loop is one variable for all iterations; [range_pointers] of
    VKProvider depends on it.

    ** Recursion

    The recursions are structural with these exceptions. [apply_params]
    (OperatorPod) takes at least one word per turn and is given as much fuel
    as there are words; [readLoop] (VKReader) goes to the next stream at
    every turn and is given the number of streams left, with the theorem
    that this is enough; [partition_loop] (Tail) gets one turn per chunk of the
    string, which is enough as well; the integer printers and parsers recurse
    on the digits. The follower waits for the file to appear, for input and
    for changes, so its loops take fuel, and running out of it is an outcome
    of its own: the safety theorems hold for every fuel, and the theorems on
    progress and termination give the fuel a line ([line_fuel]) or a whole
    file ([end_fuel]) needs.
    The endless loops of the program ([WatchPartitions], the file
    streams) are functions of the list of events they meet.

    ** Not modelled

    The pflag parser (a parameter of VKCommand), cobra, signal handling and
    the serving of grpc and HTTP requests, which are library calls, the
    serializers of the API machinery (parameters of Codec), the informers and
    controllers of client-go, controller-runtime and virtual-kubelet (classes
    of VKRun and Programs). The serialization of pkg/workload is the protobuf
    library's (the class [Codec] of Grpc). Registering types with a scheme is
    a call of the API machinery, and the schema of a Kubernetes volume, most
    of the CRD, is a parameter of ApiJson. The [fsnotify] library is a class
    of Watch. The gotail command has no part in the programs, and winfile is
    for Windows. The manifest lists what is left out with the reasons. *)

From Stdlib Require Export Ascii.
From stdpp Require Export base tactics list strings gmap fin_maps pretty option.

Declare Scope go_scope.
Delimit Scope go_scope with go.

(** ** Machine integers

    A Go [int64] (and [int] on the 64-bit targets of the project) is the
    [Z] in [[-2^63, 2^63)]; every operation that can leave that range is
    followed by [wrap64]. *)

Definition int64_min : Z := -9223372036854775808.
Definition int64_max : Z := 9223372036854775807.

Definition wrap64 (z : Z) : Z := (z + 2 ^ 63) `mod` 2 ^ 64 - 2 ^ 63.
Definition wrap32 (z : Z) : Z := (z + 2 ^ 31) `mod` 2 ^ 32 - 2 ^ 31.

Definition in_int64 (z : Z) : Prop := (int64_min <= z <= int64_max)%Z.

Infix "+64" := (fun x y => wrap64 (x + y)) (at level 50, left associativity) : go_scope.
Infix "-64" := (fun x y => wrap64 (x - y)) (at level 50, left associativity) : go_scope.
Infix "*64" := (fun x y => wrap64 (x * y)) (at level 40, left associativity) : go_scope.

Lemma wrap64_range z : in_int64 (wrap64 z).
Proof.
  unfold in_int64, int64_min, int64_max, wrap64.
  pose proof (Z.mod_pos_bound (z + 2 ^ 63) (2 ^ 64)). lia.
Qed.

Lemma wrap64_id z : in_int64 z -> wrap64 z = z.
Proof.
  unfold in_int64, int64_min, int64_max, wrap64. intros H.
  rewrite Z.mod_small; lia.
Qed.

Lemma wrap64_idemp z : wrap64 (wrap64 z) = wrap64 z.
Proof. apply wrap64_id, wrap64_range. Qed.

Lemma wrap64_cong x y : (x `mod` 2 ^ 64 = y `mod` 2 ^ 64)%Z -> wrap64 x = wrap64 y.
Proof.
  intros H. unfold wrap64. f_equal.
  by rewrite (Z.add_mod x), (Z.add_mod y), H by lia.
Qed.

Lemma wrap64_mod z : (wrap64 z `mod` 2 ^ 64 = z `mod` 2 ^ 64)%Z.
Proof.
  unfold wrap64. rewrite Zminus_mod_idemp_l. f_equal. lia.
Qed.

Lemma wrap64_add_l x y : wrap64 (wrap64 x + y) = wrap64 (x + y).
Proof.
  apply wrap64_cong. rewrite (Z.add_mod (wrap64 x)), wrap64_mod by lia.
  by rewrite <- Z.add_mod by lia.
Qed.

Lemma wrap64_add_r x y : wrap64 (x + wrap64 y) = wrap64 (x + y).
Proof. by rewrite Z.add_comm, wrap64_add_l, Z.add_comm. Qed.

Lemma wrap64_mul_l x y : wrap64 (wrap64 x * y) = wrap64 (x * y).
Proof.
  apply wrap64_cong. rewrite (Z.mul_mod (wrap64 x)), wrap64_mod by lia.
  by rewrite <- Z.mul_mod by lia.
Qed.

Lemma wrap64_mul_r x y : wrap64 (x * wrap64 y) = wrap64 (x * y).
Proof. by rewrite Z.mul_comm, wrap64_mul_l, Z.mul_comm. Qed.

(** ** Errors

    A Go [error] value. Package-level sentinels ([errors.New] at top level)
    are compared by identity and carry their name; [ErrWrap] is
    [github.com/pkg/errors.Wrap], which [errors.Is] sees through; [ErrFmt]
    is an [Errorf] that prints a cause without wrapping it, [ErrFmt2] the
    print of two. *)

Inductive num_err := ErrSyntax | ErrRange.

(** The outcomes of the Kubernetes API server and of the operating system
    that the program tells apart. *)
Inductive api_reason := NotFound | AlreadyExists | Conflict | ApiOther.
Inductive os_reason := NotExist | OsOther.

Inductive error :=
  | EOF
  | ErrSentinel (name : string)
  | ErrNew (msg : string)
  | ErrFmt (msg : string) (cause : error)
  | ErrFmt2 (first second : error)
  | ErrWrap (cause : error) (msg : string)
  | ErrNum (fn input : string) (e : num_err)
  | ErrTime (input elem : string)
  | ErrAPI (r : api_reason)
  | ErrOS (r : os_reason)
  | ErrExternal (what : string).

#[export] Instance num_err_eq_dec : EqDecision num_err.
Proof. solve_decision. Defined.
#[export] Instance api_reason_eq_dec : EqDecision api_reason.
Proof. solve_decision. Defined.
#[export] Instance os_reason_eq_dec : EqDecision os_reason.
Proof. solve_decision. Defined.
#[export] Instance error_eq_dec : EqDecision error.
Proof. solve_decision. Defined.

(** [errors.Is]: the target is somewhere on the chain of wrapped causes. *)
Fixpoint errors_Is (err target : error) : bool :=
  bool_decide (err = target) ||
  match err with ErrWrap cause _ => errors_Is cause target | _ => false end.

(** [errors.Wrap] on a possibly nil error: nil stays nil. *)
Definition errors_Wrap (err : option error) (msg : string) : option error :=
  (fun e => ErrWrap e msg) <$> err.

(** [apierrors.IsNotFound] and [os.IsNotExist]. *)
Definition IsNotFound (e : error) : bool := bool_decide (e = ErrAPI NotFound).
Definition IsNotExist (e : error) : bool := bool_decide (e = ErrOS NotExist).

Lemma errors_Is_refl e : errors_Is e e = true.
Proof.
  destruct e; cbn [errors_Is]; rewrite bool_decide_eq_true_2 by done; reflexivity.
Qed.

Lemma errors_Is_wrap e msg t : errors_Is e t = true -> errors_Is (ErrWrap e msg) t = true.
Proof. intros H. cbn [errors_Is]. rewrite H. apply orb_true_r. Qed.

(** ** Results

    A call returning [(T, error)] either returns a value, returns an error,
    or panics. *)

Inductive panic :=
  | IndexOutOfRange
  | NilDeref
  | NilMapWrite
  | PanicWith (msg : string)
  | ProcessExit (msg : string).

Inductive res (A : Type) :=
  | Ok (a : A)
  | Err (e : error)
  | Panic (p : panic).
Arguments Ok {A} a.
Arguments Err {A} e.
Arguments Panic {A} p.

#[export] Instance panic_eq_dec : EqDecision panic.
Proof. solve_decision. Defined.
#[export] Instance res_eq_dec {A} `{EqDecision A} : EqDecision (res A).
Proof. solve_decision. Defined.

#[export] Instance res_ret : MRet res := fun A a => Ok a.
#[export] Instance res_bind : MBind res := fun A B f m =>
  match m with Ok a => f a | Err e => Err e | Panic p => Panic p end.
#[export] Instance res_fmap : FMap res := fun A B f m =>
  match m with Ok a => Ok (f a) | Err e => Err e | Panic p => Panic p end.

Definition is_ok {A} (r : res A) : bool := match r with Ok _ => true | _ => false end.
Definition no_panic {A} (r : res A) : Prop := match r with Panic _ => False | _ => True end.

(** [errors.Wrap] on the way out of a failing call. *)
Definition wrap_err {A} (r : res A) (msg : string) : res A :=
  match r with Err e => Err (ErrWrap e msg) | _ => r end.

Definition of_option {A} (p : panic) (o : option A) : res A :=
  match o with Some a => Ok a | None => Panic p end.

(** Indexing a slice: out of range panics. *)
Definition index {A} (l : list A) (i : nat) : res A := of_option IndexOutOfRange (l !! i).

Lemma bind_Ok_inv {A B} (m : res A) (f : A -> res B) b :
  m ≫= f = Ok b -> exists a, m = Ok a /\ f a = Ok b.
Proof. destruct m; simpl; intros H; try discriminate. eauto. Qed.

Lemma wrap_err_Ok_inv {A} (m : res A) msg a : wrap_err m msg = Ok a -> m = Ok a.
Proof. destruct m; simpl; congruence. Qed.

Lemma no_panic_bind {A B} (m : res A) (f : A -> res B) :
  no_panic m -> (forall a, m = Ok a -> no_panic (f a)) -> no_panic (m ≫= f).
Proof. destruct m; simpl; auto. Qed.

Lemma no_panic_wrap {A} (m : res A) msg : no_panic m -> no_panic (wrap_err m msg).
Proof. by destruct m. Qed.

(** Mapping a fallible function over a list, stopping at the first failure. *)
Fixpoint mapR {A B} (f : A -> res B) (l : list A) : res (list B) :=
  match l with
  | [] => Ok []
  | x :: l' => y ← f x; ys ← mapR f l'; Ok (y :: ys)
  end.

Lemma mapR_Forall2 {A B} (f : A -> res B) l ys :
  mapR f l = Ok ys <-> Forall2 (fun x y => f x = Ok y) l ys.
Proof.
  revert ys. induction l as [|x l IH]; intros ys; simpl.
  - split; [intros [= <-]; constructor | by inversion 1].
  - split.
    + intros (y & Hy & H)%bind_Ok_inv. apply bind_Ok_inv in H as (ys' & Hys & [= <-]).
      constructor; [done | by apply IH].
    + inversion 1 as [|? ? ? ? Hy Hl]; subst. rewrite Hy. simpl.
      apply IH in Hl. by rewrite Hl.
Qed.

Lemma mapR_length {A B} (f : A -> res B) l ys : mapR f l = Ok ys -> length ys = length l.
Proof. rewrite mapR_Forall2. intros H. symmetry. by eapply Forall2_length. Qed.

Lemma mapR_total {A B} (f : A -> res B) (g : A -> B) l :
  Forall (fun x => f x = Ok (g x)) l -> mapR f l = Ok (g <$> l).
Proof. induction 1 as [|x l Hx _ IH]; [done|]. simpl. by rewrite Hx, IH. Qed.

Lemma mapR_no_panic {A B} (f : A -> res B) l :
  (forall x, no_panic (f x)) -> no_panic (mapR f l).
Proof.
  intros Hf. induction l as [|x l IH]; simpl; [done|].
  apply no_panic_bind; [apply Hf|]. intros y _. apply no_panic_bind; [done|]. done.
Qed.

(** ** Stateful calls

    [M S A] is a call that may change the state [S] it runs in. A failing
    call keeps the changes it made before failing. *)

Definition M (S A : Type) : Type := S -> res A * S.

#[export] Instance M_ret {S} : MRet (M S) := fun A a s => (Ok a, s).
#[export] Instance M_bind {S} : MBind (M S) := fun A B f m s =>
  match m s with
  | (Ok a, s') => f a s'
  | (Err e, s') => (Err e, s')
  | (Panic p, s') => (Panic p, s')
  end.

Definition lift {S A} (r : res A) : M S A := fun s => (r, s).
Definition fail {S A} (e : error) : M S A := lift (Err e).
Definition panicM {S A} (p : panic) : M S A := lift (Panic p).
Definition get {S} : M S S := fun s => (Ok s, s).
Definition put {S} (s : S) : M S unit := fun _ => (Ok tt, s).
Definition modify {S} (f : S -> S) : M S unit := fun s => (Ok tt, f s).

(** [attempt m] hands the error of [m] to the caller as a value, the way
    [v, err := m()] does; a panic still propagates. *)
Definition attempt {S A} (m : M S A) : M S (A + error) := fun s =>
  match m s with
  | (Ok a, s') => (Ok (inl a), s')
  | (Err e, s') => (Ok (inr e), s')
  | (Panic p, s') => (Panic p, s')
  end.

Definition wrapM {S A} (m : M S A) (msg : string) : M S A := fun s =>
  let '(r, s') := m s in (wrap_err r msg, s').

(** [defer]: [d] runs however [m] ends. *)
Definition deferred {S A} (m : M S A) (d : M S unit) : M S A :=
  fun s => let '(r, s') := m s in (r, (d s').2).

Definition when {S} (b : bool) (m : M S unit) : M S unit := if b then m else mret tt.

(** A [for] loop over a list whose body may fail. *)
Fixpoint forM {S A} (l : list A) (body : A -> M S unit) : M S unit :=
  match l with
  | [] => mret tt
  | x :: l' => body x ;; forM l' body
  end.

Lemma M_bind_run {S A B} (m : M S A) (f : A -> M S B) s a s' :
  m s = (Ok a, s') -> (m ≫= f) s = f a s'.
Proof. unfold mbind, M_bind. by intros ->. Qed.

Lemma M_bind_err {S A B} (m : M S A) (f : A -> M S B) s e s' :
  m s = (Err e, s') -> (m ≫= f) s = (Err e, s').
Proof. unfold mbind, M_bind. by intros ->. Qed.

(** Case analysis on a bind in a hypothesis: which of the two calls decided
    the outcome. *)
Lemma M_bind_Ok_inv {S A B} (m : M S A) (f : A -> M S B) s b s'' :
  (m ≫= f) s = (Ok b, s'') -> exists a s', m s = (Ok a, s') /\ f a s' = (Ok b, s'').
Proof.
  unfold mbind, M_bind. destruct (m s) as [[a|e|p] s']; intros H; try discriminate. eauto.
Qed.

Lemma attempt_inl {S A} (m : M S A) s a s' : attempt m s = (Ok (inl a), s') -> m s = (Ok a, s').
Proof. unfold attempt. destruct (m s) as [[x|e|p] s1]; intros [=]; by subst. Qed.

(** An invariant of the state kept by every step of a call is kept by the call. *)
Definition keeps {S A} (P : S -> Prop) (m : M S A) : Prop := forall s, P s -> P (m s).2.

Lemma keeps_ret {S A} (P : S -> Prop) (a : A) : keeps P (mret a).
Proof. by intros s. Qed.
Lemma keeps_lift {S A} (P : S -> Prop) (r : res A) : keeps P (lift r).
Proof. by intros s. Qed.
Lemma keeps_get {S} (P : S -> Prop) : keeps P get.
Proof. by intros s. Qed.
Lemma keeps_bind {S A B} (P : S -> Prop) (m : M S A) (f : A -> M S B) :
  keeps P m -> (forall a, keeps P (f a)) -> keeps P (m ≫= f).
Proof.
  intros Hm Hf s Hs. unfold mbind, M_bind. specialize (Hm s Hs).
  destruct (m s) as [[a|e|p] s']; simpl in *; auto. by apply Hf.
Qed.
Lemma keeps_attempt {S A} (P : S -> Prop) (m : M S A) : keeps P m -> keeps P (attempt m).
Proof.
  intros Hm s Hs. unfold attempt. specialize (Hm s Hs). by destruct (m s) as [[a|e|p] s'].
Qed.
Lemma keeps_wrapM {S A} (P : S -> Prop) (m : M S A) msg : keeps P m -> keeps P (wrapM m msg).
Proof. intros Hm s Hs. unfold wrapM. specialize (Hm s Hs). by destruct (m s). Qed.
Lemma keeps_when {S} (P : S -> Prop) b (m : M S unit) : keeps P m -> keeps P (when b m).
Proof. destruct b; [done|intros _; apply keeps_ret]. Qed.
Lemma keeps_forM {S A} (P : S -> Prop) (l : list A) body :
  (forall x, keeps P (body x)) -> keeps P (forM l body).
Proof.
  intros Hb. induction l as [|x l IH]; [apply keeps_ret|].
  apply keeps_bind; [apply Hb|]. intros _. apply IH.
Qed.

(** What holds of the outcome and the final state of a call. The lemmas
    decompose it along the calls the call is made of. *)
Definition wp {S A} (m : M S A) (Q : res A -> S -> Prop) (s : S) : Prop := Q (m s).1 (m s).2.

(** The postcondition of the first call of a bind. *)
Definition after {S A B} (f : A -> M S B) (Q : res B -> S -> Prop) (r : res A) (s : S) : Prop :=
  match r with Ok a => wp (f a) Q s | Err e => Q (Err e) s | Panic p => Q (Panic p) s end.

(** The outcome of [attempt]. *)
Definition attempted {A} (r : res A) : res (A + error) :=
  match r with Ok a => Ok (inl a) | Err e => Ok (inr e) | Panic p => Panic p end.

Lemma wp_mono {S A} (m : M S A) (P Q : res A -> S -> Prop) s :
  wp m P s -> (forall r s', P r s' -> Q r s') -> wp m Q s.
Proof. unfold wp. auto. Qed.
Lemma wp_ret {S A} (a : A) (Q : res A -> S -> Prop) s : Q (Ok a) s -> wp (mret a) Q s.
Proof. done. Qed.
Lemma wp_bind {S A B} (m : M S A) (f : A -> M S B) Q s : wp m (after f Q) s -> wp (m ≫= f) Q s.
Proof. unfold wp, after, mbind, M_bind. by destruct (m s) as [[a|e|p] s']. Qed.
Lemma wp_attempt {S A} (m : M S A) Q s : wp m (fun r => Q (attempted r)) s -> wp (attempt m) Q s.
Proof. unfold wp, attempt, attempted. by destruct (m s) as [[a|e|p] s']. Qed.

(** Remembering which call had the outcome. *)
Lemma wp_eqn {S A} (m : M S A) Q s : wp m Q s -> wp m (fun r s' => m s = (r, s') /\ Q r s') s.
Proof. unfold wp. by destruct (m s). Qed.

(** A relation between the states before and after, for calls that change
    the state: one that is reflexive and transitive holds for a call when it
    holds for its steps. *)
Definition steps {S A} (R : S -> S -> Prop) (m : M S A) : Prop := forall s, R s (m s).2.

Section steps.
Context {S : Type} (R : S -> S -> Prop) `{PO : !PreOrder R}.

Lemma steps_ret {A} (a : A) : steps R (mret a).
Proof. intros s. apply PO. Qed.
Lemma steps_lift {A} (r : res A) : steps R (lift r).
Proof. intros s. apply PO. Qed.
Lemma steps_bind {A B} (m : M S A) (f : A -> M S B) :
  steps R m -> (forall a, steps R (f a)) -> steps R (m ≫= f).
Proof.
  intros Hm Hf s. unfold mbind, M_bind. specialize (Hm s).
  destruct (m s) as [[a|e|p] s']; simpl in *; [|done..]. etrans; [done|apply Hf].
Qed.
Lemma steps_attempt {A} (m : M S A) : steps R m -> steps R (attempt m).
Proof. intros Hm s. unfold attempt. specialize (Hm s). by destruct (m s) as [[a|e|p] s']. Qed.
Lemma steps_wrapM {A} (m : M S A) msg : steps R m -> steps R (wrapM m msg).
Proof. intros Hm s. unfold wrapM. specialize (Hm s). by destruct (m s). Qed.
Lemma steps_when b (m : M S unit) : steps R m -> steps R (when b m).
Proof. destruct b; [done|intros _; apply steps_ret]. Qed.
Lemma steps_forM {A} (l : list A) body : (forall x, steps R (body x)) -> steps R (forM l body).
Proof.
  intros Hb. induction l as [|x l IH]; [apply steps_ret|].
  apply steps_bind; [apply Hb|]. intros _. apply IH.
Qed.
End steps.

Create HintDb go.
#[export] Hint Resolve keeps_ret keeps_lift keeps_get keeps_bind keeps_attempt
  keeps_wrapM keeps_when keeps_forM : go.
#[export] Hint Resolve no_panic_bind no_panic_wrap mapR_no_panic : go.
#[export] Hint Resolve wrap64_range errors_Is_refl : go.

(** ** Tactics *)

(** Split every [m ≫= f = Ok _] (pure or stateful) of the context into the
    two successful calls it is made of. *)
Ltac inv_bind :=
  repeat match goal with
  | H : (_ ≫= _) = Ok _ |- _ =>
      let a := fresh "a" in let Ha := fresh "H" in
      apply bind_Ok_inv in H as (a & Ha & H)
  | H : (_ ≫= _) _ = (Ok _, _) |- _ =>
      let a := fresh "a" in let s := fresh "s" in let Ha := fresh "H" in
      apply M_bind_Ok_inv in H as (a & s & Ha & H)
  | H : wrap_err _ _ = Ok _ |- _ => apply wrap_err_Ok_inv in H
  | H : Ok _ = Ok _ |- _ => injection H; clear H; intros; subst
  | H : (Ok _, _) = (Ok _, _) |- _ => injection H; clear H; intros; subst
  | H : Err _ = Ok _ |- _ => discriminate H
  | H : Panic _ = Ok _ |- _ => discriminate H
  end.

(** Unfold the monad of a concrete call applied to a state. *)
Ltac run_monad :=
  cbn [mbind M_bind mret M_ret res_bind res_ret attempt lift fail panicM get put modify
       wrapM wrap_err when fmap res_fmap].

(** A decidable fact about a concrete input, by evaluating the decision. *)
Ltac by_compute := apply (bool_decide_unpack _); vm_compute; exact I.

(** Prove [steps R m] from the steps of the calls [m] is made of; the leaves
    are proved by [leaf]. *)
Ltac by_steps leaf :=
  repeat first
    [ leaf
    | apply steps_bind; [typeclasses eauto| |intros ?]
    | apply steps_attempt | apply steps_wrapM | apply steps_when; [typeclasses eauto|]
    | apply steps_forM; [typeclasses eauto|intros ?]
    | apply steps_ret; typeclasses eauto | apply steps_lift; typeclasses eauto
    | match goal with
      | |- steps _ (if ?b then _ else _) => destruct b
      | |- steps _ (match ?x with _ => _ end) => destruct x
      | |- steps _ (let _ := _ in _) => cbv zeta
      end ].
