(* ===== verification/GoStrings.v ===== *)
(** * Go's [strings] package

    The functions of Go's standard [strings] package that the program calls,
    on byte strings ([string] is a list of 8-bit characters, as a Go string
    is), with the laws the components use: [Split] and [Join] invert each
    other, [Fields] recovers the words of a printed record, trimming leaves
    a text that has no outer white space alone. *)

From S2P Require Import Prelude.

Definition LF : string := String "010"%char "".
(** A text in double quotes, [%q] where nothing needs escaping. *)
Definition quoted (s : string) : string := String "034"%char s +:+ String "034"%char "".

(** ** Prefixes and slices *)

Definition HasPrefix (s p : string) : bool := String.prefix p s.

Fixpoint str_drop (n : nat) (s : string) : string :=
  match n, s with S n', String _ s' => str_drop n' s' | _, _ => s end.

Fixpoint str_take (n : nat) (s : string) : string :=
  match n, s with S n', String c s' => String c (str_take n' s') | _, _ => "" end.

Definition str_len (s : string) : Z := Z.of_nat (String.length s).

Definition TrimPrefix (s p : string) : string :=
  if HasPrefix s p then str_drop (String.length p) s else s.

Definition HasSuffix (s p : string) : bool :=
  let n := String.length s in let k := String.length p in
  (k <=? n)%nat && bool_decide (str_drop (n - k) s = p).

(** [strings.IndexByte]: the first position of the byte, or -1. *)
Fixpoint IndexByte (s : string) (c : ascii) : Z :=
  match s with
  | "" => -1
  | String b s' =>
      if bool_decide (b = c) then 0
      else let i := IndexByte s' c in if (i =? -1)%Z then -1 else i + 1
  end.

(** ** Splitting

    [split_by m] cuts a string at every position where the matcher [m]
    recognises a separator of [m s > 0] bytes, leftmost first and without
    overlap. The [skip] counter drops the bytes of a separator that has
    been recognised. *)

Definition cons_head (c : ascii) (l : list string) : list string :=
  match l with [] => [String c ""] | h :: t => String c h :: t end.

Fixpoint split_by (m : string -> nat) (skip : nat) (s : string) : list string :=
  match s with
  | "" => [""]
  | String c s' =>
      match skip with
      | S k => split_by m k s'
      | O => match m s with
             | O => cons_head c (split_by m 0 s')
             | S k => "" :: split_by m k s'
             end
      end
  end.

Definition match_sep (sep s : string) : nat :=
  if String.prefix sep s then String.length sep else 0.

(** [strings.Split] for a separator that is not empty. *)
Definition Split (s sep : string) : list string := split_by (match_sep sep) 0 s.

(** [strings.SplitN(s, sep, 2)]: at most one cut. *)
Fixpoint split_once (sep s : string) : option (string * string) :=
  match s with
  | "" => None
  | String c s' =>
      if String.prefix sep s then Some ("", str_drop (String.length sep) s)
      else (fun p => (String c p.1, p.2)) <$> split_once sep s'
  end.
Definition SplitN2 (s sep : string) : list string :=
  match split_once sep s with Some (a, b) => [a; b] | None => [s] end.

Definition Contains (s sub : string) : bool :=
  bool_decide (sub = "") || bool_decide (is_Some (split_once sub s)).

Fixpoint Join (l : list string) (sep : string) : string :=
  match l with
  | [] => ""
  | [x] => x
  | x :: l' => x +:+ sep +:+ Join l' sep
  end.

(** ** White space

    The UTF-8 encodings of the runes [unicode.IsSpace] accepts: the six
    ASCII ones, U+0085, U+00A0, U+1680, U+2000 to U+200A, U+2028, U+2029,
    U+202F, U+205F and U+3000. A lead byte of UTF-8 is never a continuation
    byte, so these byte patterns mean those runes wherever they occur. *)

Definition space_len (s : string) : nat :=
  match s with
  | "" => 0
  | String c s' =>
      if Ascii.is_space c then 1
      else match c, s' with
           | "194"%char, String d _ =>
               if bool_decide (d ∈ ["133"; "160"]%char) then 2 else 0
           | "225"%char, String "154"%char (String "128"%char _) => 3
           | "226"%char, String "128"%char (String d _) =>
               if bool_decide (d ∈ ["128"; "129"; "130"; "131"; "132"; "133"; "134"; "135";
                                    "136"; "137"; "138"; "168"; "169"; "175"]%char)
               then 3 else 0
           | "226"%char, String "129"%char (String "159"%char _) => 3
           | "227"%char, String "128"%char (String "128"%char _) => 3
           | _, _ => 0
           end
  end.

(** [strings.Fields]: the maximal pieces without white space. *)
Definition nonempty (s : string) : bool := negb (bool_decide (s = "")).
Definition Fields (s : string) : list string :=
  List.filter nonempty (split_by space_len 0 s).

Fixpoint all_space (skip : nat) (s : string) : bool :=
  match s with
  | "" => true
  | String _ s' =>
      match skip with
      | S k => all_space k s'
      | O => match space_len s with O => false | S k => all_space k s' end
      end
  end.

Fixpoint trim_left_space (skip : nat) (s : string) : string :=
  match s with
  | "" => ""
  | String _ s' =>
      match skip with
      | S k => trim_left_space k s'
      | O => match space_len s with O => s | S k => trim_left_space k s' end
      end
  end.

Fixpoint trim_right_space (s : string) : string :=
  match s with
  | "" => ""
  | String c s' => if all_space 0 s then "" else String c (trim_right_space s')
  end.

Definition TrimSpace (s : string) : string := trim_right_space (trim_left_space 0 s).

(** [strings.TrimLeft], [TrimRight] and [Trim] with a cutset of one byte. *)
Fixpoint TrimLeftByte (s : string) (c : ascii) : string :=
  match s with
  | "" => ""
  | String b s' => if bool_decide (b = c) then TrimLeftByte s' c else s
  end.
Fixpoint all_byte (s : string) (c : ascii) : bool :=
  match s with "" => true | String b s' => bool_decide (b = c) && all_byte s' c end.
Fixpoint TrimRightByte (s : string) (c : ascii) : string :=
  match s with
  | "" => ""
  | String b s' => if all_byte s c then "" else String b (TrimRightByte s' c)
  end.
Definition TrimByte (s : string) (c : ascii) : string := TrimRightByte (TrimLeftByte s c) c.

(** [strings.ToLower], as far as a comparison with an ASCII constant sees
    it: ASCII letters, and the two other runes whose lower case is ASCII,
    U+0130 (to "i") and U+212A (to "k"). Other bytes stay as they are. *)
Definition lower_byte (c : ascii) : ascii :=
  let n := nat_of_ascii c in
  if (65 <=? n)%nat && (n <=? 90)%nat then ascii_of_nat (n + 32) else c.
Fixpoint ToLower (s : string) : string :=
  match s with
  | "" => ""
  | String "196"%char (String "176"%char s') => String "i"%char (ToLower s')
  | String "226"%char (String "132"%char (String "170"%char s')) => String "k"%char (ToLower s')
  | String c s' => String (lower_byte c) (ToLower s')
  end.

(** [strings.Replace(s, old, new, -1)] for single-byte [old] and [new]. *)
Fixpoint ReplaceByte (s : string) (old new : ascii) : string :=
  match s with
  | "" => ""
  | String c s' => String (if bool_decide (c = old) then new else c) (ReplaceByte s' old new)
  end.

(** All texts of a list, one after the other. *)
Definition cat (l : list string) : string := foldr String.append "" l.

(** ** Laws *)

Lemma cat_cons a l : cat (a :: l) = a +:+ cat l.
Proof. done. Qed.


Lemma str_app_nil_r s : s +:+ "" = s.
Proof. induction s as [|c s IH]; [done|]. by change (String c (s +:+ "") = String c s); rewrite IH. Qed.

Lemma str_app_assoc a b c : (a +:+ b) +:+ c = a +:+ (b +:+ c).
Proof. induction a as [|x a IH]; [done|]. by change (String x ((a +:+ b) +:+ c) = String x (a +:+ (b +:+ c))); rewrite IH. Qed.

Lemma str_app_cons c a b : String c a +:+ b = String c (a +:+ b).
Proof. done. Qed.

Lemma str_app_empty b : "" +:+ b = b.
Proof. done. Qed.

Lemma length_str_app a b : String.length (a +:+ b) = (String.length a + String.length b)%nat.
Proof. induction a as [|x a IH]; [done|]. by rewrite ?str_app_cons; simpl; rewrite IH. Qed.

Lemma prefix_app p s : String.prefix p (p +:+ s) = true.
Proof.
  induction p as [|c p IH]; [by destruct s|]. rewrite ?str_app_cons. simpl.
  by destruct (ascii_dec c c).
Qed.

Lemma prefix_inv p s : String.prefix p s = true -> s = p +:+ str_drop (String.length p) s.
Proof.
  revert s. induction p as [|c p IH]; intros s; [done|].
  destruct s as [|d s]; simpl; [done|].
  destruct (ascii_dec c d) as [->|]; [|done].
  intros H%IH. rewrite ?str_app_cons. by f_equal.
Qed.

Lemma str_drop_app p s : str_drop (String.length p) (p +:+ s) = s.
Proof. by induction p as [|c p IH]. Qed.

Lemma str_take_app p s : str_take (String.length p) (p +:+ s) = p.
Proof.
  induction p as [|c p IH]; [by destruct s|]. rewrite ?str_app_cons. simpl. by rewrite IH.
Qed.

Lemma str_drop_app_S p c s : str_drop (S (String.length p)) (p +:+ String c s) = s.
Proof. by induction p as [|b p IH]. Qed.

Lemma TrimPrefix_app p s : TrimPrefix (p +:+ s) p = s.
Proof. unfold TrimPrefix, HasPrefix. by rewrite prefix_app, str_drop_app. Qed.

(** *** Split and Join *)

Definition app_head (b : string) (l : list string) : list string :=
  match l with [] => [b] | h :: t => (b +:+ h) :: t end.

Lemma split_by_nonempty m k s : split_by m k s <> [].
Proof.
  revert k. induction s as [|c s IH]; intros k; simpl; [done|].
  destruct k as [|k]; [|apply IH]. destruct (m (String c s)); [|done].
  by destruct (split_by m 0 s).
Qed.

Lemma Join_cons_head c l sep : l <> [] -> Join (cons_head c l) sep = String c (Join l sep).
Proof. destruct l as [|h [|h' t]]; [done|done|]. intros _. by simpl. Qed.

Lemma Join_cons x l sep : l <> [] -> Join (x :: l) sep = x +:+ sep +:+ Join l sep.
Proof. by destruct l. Qed.

Lemma Join_split_by sep k s :
  (k <= String.length s)%nat -> Join (split_by (match_sep sep) k s) sep = str_drop k s.
Proof.
  revert k. induction s as [|c s IH]; intros k Hk; simpl in *.
  - by assert (k = 0%nat) as -> by lia.
  - destruct k as [|k]; simpl; [|apply IH; lia].
    destruct (match_sep sep (String c s)) as [|k] eqn:E.
    + rewrite Join_cons_head by apply split_by_nonempty. by rewrite IH by lia.
    + unfold match_sep in E. destruct (String.prefix sep (String c s)) eqn:Ep; [|done].
      apply prefix_inv in Ep. rewrite E in Ep. simpl in Ep.
      assert (k <= String.length s)%nat as Hks.
      { apply (f_equal String.length) in Ep. rewrite length_str_app in Ep. simpl in Ep. lia. }
      rewrite Join_cons by apply split_by_nonempty. rewrite IH by done.
      by rewrite str_app_empty.
Qed.

(** Cutting and gluing with the same separator is the identity. *)
Lemma Join_Split s sep : Join (Split s sep) sep = s.
Proof. unfold Split. by rewrite Join_split_by by lia. Qed.

(** [clear m b t]: no separator starts inside [b] when [t] follows. *)
Fixpoint clear (m : string -> nat) (b t : string) : Prop :=
  match b with "" => True | String c b' => m (String c (b' +:+ t)) = 0%nat /\ clear m b' t end.

Lemma split_by_clear m b t :
  clear m b t -> split_by m 0 (b +:+ t) = app_head b (split_by m 0 t).
Proof.
  induction b as [|c b IH]; simpl.
  - intros _. rewrite str_app_empty. pose proof (split_by_nonempty m 0 t).
    by destruct (split_by m 0 t).
  - intros [Hm Hb]. rewrite ?str_app_cons. simpl. rewrite Hm, IH by done.
    by destruct (split_by m 0 t).
Qed.

Lemma split_by_skip m p t : split_by m (String.length p) (p +:+ t) = split_by m 0 t.
Proof. induction p as [|c p IH]; [done|]. rewrite ?str_app_cons. simpl. done. Qed.

Lemma split_by_sep m c p t :
  m (String c (p +:+ t)) = S (String.length p) ->
  split_by m 0 (String c (p +:+ t)) = "" :: split_by m 0 t.
Proof. intros Hm. simpl. by rewrite Hm, split_by_skip. Qed.

Fixpoint str_forall (p : ascii -> bool) (s : string) : bool :=
  match s with "" => true | String c s' => p c && str_forall p s' end.

Definition plain_byte (c : ascii) : bool :=
  let n := nat_of_ascii c in (33 <=? n)%nat && (n <=? 126)%nat.
Definition not_byte (c b : ascii) : bool := negb (bool_decide (b = c)).
Definition lacks (c : ascii) (s : string) : Prop := str_forall (not_byte c) s = true.

Lemma str_forall_app p a b : str_forall p (a +:+ b) = str_forall p a && str_forall p b.
Proof.
  induction a as [|c a IH]; [done|]. rewrite ?str_app_cons. simpl. by rewrite IH, andb_assoc.
Qed.

Lemma str_forall_mono (p q : ascii -> bool) s :
  (forall c, p c = true -> q c = true) -> str_forall p s = true -> str_forall q s = true.
Proof.
  intros Hpq. induction s as [|c s IH]; simpl; [done|].
  intros [Hc Hs]%andb_prop. by rewrite (Hpq c Hc), IH.
Qed.

Lemma match_sep_ne c p b s : not_byte c b = true -> match_sep (String c p) (String b s) = 0%nat.
Proof.
  unfold not_byte, match_sep. intros H. simpl.
  destruct (ascii_dec c b) as [->|]; [|done].
  by rewrite bool_decide_eq_true_2 in H by done.
Qed.

Lemma match_sep_app sep s : match_sep sep (sep +:+ s) = String.length sep.
Proof. unfold match_sep. by rewrite prefix_app. Qed.

Lemma lacks_clear c p b t : lacks c b -> clear (match_sep (String c p)) b t.
Proof.
  unfold lacks. induction b as [|x b IH]; simpl; [done|].
  intros [Hx Hb]%andb_prop. split; [by apply match_sep_ne | by apply IH].
Qed.

Lemma Split_lacks c p b : lacks c b -> Split b (String c p) = [b].
Proof.
  intros H. unfold Split. rewrite <- (str_app_nil_r b) at 1.
  rewrite split_by_clear by by apply lacks_clear. simpl. by rewrite str_app_nil_r.
Qed.

Lemma Split_cons c p b t :
  lacks c b -> Split (b +:+ String c p +:+ t) (String c p) = b :: Split t (String c p).
Proof.
  intros H. unfold Split. rewrite split_by_clear by by apply lacks_clear.
  change (String c p +:+ t) with (String c (p +:+ t)).
  rewrite split_by_sep by apply (match_sep_app (String c p)). simpl.
  by rewrite str_app_nil_r.
Qed.

Lemma Split_cons1 c b t :
  lacks c b -> Split (b +:+ String c t) (String c "") = b :: Split t (String c "").
Proof. apply (Split_cons c ""). Qed.

(** What lacks the separator stays with the first part. *)
Lemma Split_app c p b t : lacks c b -> Split (b +:+ t) (String c p) = app_head b (Split t (String c p)).
Proof. intros H. unfold Split. apply split_by_clear. by apply lacks_clear. Qed.

(** Cutting a join at its separator returns the parts, when no part contains
    the first byte of the separator. *)
Lemma Split_Join c p l :
  l <> [] -> Forall (lacks c) l -> Split (Join l (String c p)) (String c p) = l.
Proof.
  intros Hne H. induction H as [|x l Hx Hl IH]; [done|].
  destruct l as [|y l]; [by apply Split_lacks|].
  rewrite Join_cons by done. rewrite Split_cons by done. by rewrite IH.
Qed.

Lemma Split_nonempty s sep : Split s sep <> [].
Proof. apply split_by_nonempty. Qed.

Lemma lacks_app c a b : lacks c (a +:+ b) <-> lacks c a /\ lacks c b.
Proof. unfold lacks. rewrite str_forall_app. apply andb_true_iff. Qed.

Lemma lacks_Join c sep l : lacks c sep -> Forall (lacks c) l -> lacks c (Join l sep).
Proof.
  intros Hs H. induction H as [|x l Hx Hl IH]; [done|].
  destruct l; [done|]. rewrite Join_cons by done. by rewrite !lacks_app.
Qed.

Lemma plain_lacks c s : plain_byte c = false -> str_forall plain_byte s = true -> lacks c s.
Proof.
  intros Hc. apply str_forall_mono. intros b Hb. unfold not_byte.
  apply negb_true_iff, bool_decide_eq_false_2. congruence.
Qed.

Lemma IndexByte_lacks c s : lacks c s -> IndexByte s c = (-1)%Z.
Proof.
  unfold lacks. induction s as [|b s IH]; simpl; [done|].
  intros [Hb Hs]%andb_prop. unfold not_byte in Hb. apply negb_true_iff in Hb.
  rewrite Hb, IH by done. done.
Qed.

Lemma IndexByte_app c a b :
  lacks c a -> IndexByte (a +:+ String c b) c = str_len a.
Proof.
  unfold lacks, str_len. induction a as [|x a IH].
  - intros _. rewrite str_app_empty. simpl. by rewrite bool_decide_eq_true_2 by done.
  - simpl. intros [Hx Ha]%andb_prop. unfold not_byte in Hx. apply negb_true_iff in Hx.
    rewrite ?str_app_cons. simpl. rewrite Hx, IH by done.
    rewrite (proj2 (Z.eqb_neq _ _)); lia.
Qed.

Lemma IndexByte_lower_bound s c : (-1 <= IndexByte s c)%Z.
Proof.
  induction s as [|b s IH]; simpl; [done|]. case_bool_decide; [lia|].
  destruct (IndexByte s c =? -1)%Z; lia.
Qed.

(** The position found splits the string around the first occurrence. *)
Lemma IndexByte_spec s c :
  (IndexByte s c = -1 /\ lacks c s)%Z \/
  (exists a b, s = a +:+ String c b /\ lacks c a /\ IndexByte s c = str_len a).
Proof.
  induction s as [|b s IH]; [by left|].
  destruct (decide (b = c)) as [->|Hne].
  - right. exists "", s. split; [done|]. split; [done|]. simpl.
    by rewrite bool_decide_eq_true_2 by done.
  - destruct IH as [[Hi Hl]|(x & y & -> & Hl & Hi)].
    + left. simpl. rewrite bool_decide_eq_false_2, Hi by done. split; [done|].
      unfold lacks. simpl. unfold not_byte at 1. by rewrite bool_decide_eq_false_2.
    + right. exists (String b x), y. rewrite ?str_app_cons.
      assert (lacks c (String b x)) as Hl'.
      { unfold lacks. simpl. unfold not_byte at 1. by rewrite bool_decide_eq_false_2. }
      split; [done|]. split; [done|]. rewrite <- str_app_cons. by apply IndexByte_app.
Qed.

(** *** Cutting a string *)

Lemma str_take_drop n s : str_take n s +:+ str_drop n s = s.
Proof. revert s. induction n as [|n IH]; intros [|c s]; [done..|]. simpl. rewrite str_app_cons. by rewrite IH. Qed.

Lemma length_str_take n s : (n <= String.length s)%nat -> String.length (str_take n s) = n.
Proof. revert s. induction n as [|n IH]; intros [|c s] H; simpl in *; [lia..|]. rewrite IH; lia. Qed.

Lemma length_str_drop n s : String.length (str_drop n s) = (String.length s - n)%nat.
Proof. revert s. induction n as [|n IH]; intros [|c s]; simpl; [done..|]. apply IH. Qed.

Lemma str_drop_drop m n s : str_drop m (str_drop n s) = str_drop (n + m) s.
Proof.
  revert s. induction n as [|n IH]; intros s; [done|]. destruct s as [|c s]; [by destruct m|]. apply IH.
Qed.

Lemma HasSuffix_app t s p : HasSuffix s p = true -> HasSuffix (t +:+ s) p = true.
Proof.
  unfold HasSuffix. rewrite length_str_app. intros [Hk%Nat.leb_le Hd%bool_decide_eq_true]%andb_prop.
  apply andb_true_intro. split; [apply Nat.leb_le; lia|]. apply bool_decide_eq_true_2.
  replace (String.length t + String.length s - String.length p) with (String.length t + (String.length s - String.length p)) by lia.
  by rewrite <- str_drop_drop, str_drop_app.
Qed.

Lemma str_take_all n s : (String.length s <= n)%nat -> str_take n s = s.
Proof. revert s. induction n as [|n IH]; intros [|c s] H; simpl in *; [done|lia|done|]. rewrite IH; [done|lia]. Qed.

Lemma str_app_inj a b c d : String.length a = String.length c -> a +:+ b = c +:+ d -> a = c /\ b = d.
Proof.
  revert c. induction a as [|x a IH]; intros [|y c] Hl H; try discriminate Hl; [done|].
  rewrite !str_app_cons in H. injection H as -> H. injection Hl as Hl. destruct (IH c Hl H) as [-> ->]. done.
Qed.

Lemma lacks_cons c b s : lacks c (String b s) <-> b <> c /\ lacks c s.
Proof.
  unfold lacks. cbn [str_forall]. rewrite andb_true_iff. unfold not_byte at 1.
  by rewrite negb_true_iff, bool_decide_eq_false.
Qed.

(** [split_once] with a separator of one byte finds its first occurrence. *)
Lemma split_once_byte c s :
  match split_once (String c "") s with
  | Some (a, b) => s = a +:+ String c "" +:+ b /\ lacks c a
  | None => lacks c s
  end.
Proof.
  induction s as [|x s IH]; [done|]. cbn [split_once String.prefix].
  destruct (ascii_dec c x) as [<-|Hne].
  - by destruct s.
  - destruct (split_once (String c "") s) as [[a b]|]; simpl.
    + destruct IH as [-> Ha]. split; [by rewrite str_app_cons|]. by apply lacks_cons.
    + by apply lacks_cons.
Qed.

(** The first occurrence of a byte cuts a string in one way only. *)
Lemma lacks_cut c a b a' b' :
  lacks c a -> lacks c a' -> a +:+ String c b = a' +:+ String c b' -> a = a' /\ b = b'.
Proof.
  revert a'. induction a as [|x a IH]; intros [|y a'] Ha Ha' H;
    rewrite ?str_app_empty, ?str_app_cons in H; injection H; intros.
  - by subst.
  - subst. by apply lacks_cons in Ha' as [? _].
  - subst. by apply lacks_cons in Ha as [? _].
  - subst. apply lacks_cons in Ha as [_ Ha], Ha' as [_ Ha'].
    by destruct (IH a') as [-> ->].
Qed.

Lemma TrimRightByte_line c s : lacks c s -> TrimRightByte (s +:+ String c "") c = s.
Proof.
  intros H. induction s as [|x s IH]; [simpl; by rewrite bool_decide_eq_true_2|].
  apply lacks_cons in H as [Hx Hs]. rewrite str_app_cons. cbn [TrimRightByte]. rewrite IH by done.
  destruct (all_byte _ c) eqn:Hall; [|done]. exfalso. simpl in Hall.
  by rewrite bool_decide_eq_false_2 in Hall.
Qed.

(** *** Words and white space *)

Definition plain (s : string) : Prop := str_forall plain_byte s = true.
Definition word (s : string) : Prop := plain s /\ s <> "".
Definition blank (s : string) : Prop := str_forall Ascii.is_space s = true.

#[export] Instance plain_dec s : Decision (plain s).
Proof. unfold plain. apply _. Defined.
#[export] Instance blank_dec s : Decision (blank s).
Proof. unfold blank. apply _. Defined.
#[export] Instance lacks_dec c s : Decision (lacks c s).
Proof. unfold lacks. apply _. Defined.
#[export] Instance word_dec s : Decision (word s).
Proof. unfold word. apply _. Defined.

Lemma space_len_plain c s : plain_byte c = true -> space_len (String c s) = 0%nat.
Proof. destruct c as [[] [] [] [] [] [] [] []]; by intros Hc. Qed.

Lemma space_len_space c s : Ascii.is_space c = true -> space_len (String c s) = 1%nat.
Proof. intros H. simpl. by rewrite H. Qed.

Lemma plain_clear b t : plain b -> clear space_len b t.
Proof.
  unfold plain. induction b as [|c b IH]; simpl; [done|].
  intros [Hc Hb]%andb_prop. split; [by apply space_len_plain | by apply IH].
Qed.

Lemma Fields_blank_app g t : blank g -> Fields (g +:+ t) = Fields t.
Proof.
  unfold blank, Fields. induction g as [|c g IH]; [done|]. cbn [str_forall].
  intros [Hc Hg]%andb_prop. rewrite ?str_app_cons.
  change (String c (g +:+ t)) with (String c ("" +:+ (g +:+ t))).
  rewrite split_by_sep by by apply space_len_space.
  cbn [List.filter nonempty]. by rewrite IH.
Qed.

Lemma nonempty_true s : s <> "" -> nonempty s = true.
Proof. intros H. unfold nonempty. by rewrite bool_decide_eq_false_2. Qed.

Lemma Fields_word_app w g t :
  word w -> blank g -> g <> "" -> Fields (w +:+ g +:+ t) = w :: Fields t.
Proof.
  intros [Hw Hne] Hg Hgne. destruct g as [|c g]; [done|].
  rewrite <- (Fields_blank_app g t) by (unfold blank in *; simpl in Hg; by apply andb_prop in Hg as [_ ?]).
  unfold Fields at 1. rewrite split_by_clear by by apply plain_clear.
  rewrite ?str_app_cons. change (String c (g +:+ t)) with (String c ("" +:+ (g +:+ t))).
  unfold blank in Hg. simpl in Hg. apply andb_prop in Hg as [Hc _].
  rewrite split_by_sep by by apply space_len_space.
  simpl. rewrite str_app_nil_r. by rewrite nonempty_true.
Qed.

Lemma Fields_word w : word w -> Fields w = [w].
Proof.
  intros [Hw Hne]. unfold Fields. rewrite <- (str_app_nil_r w) at 1.
  rewrite split_by_clear by by apply plain_clear. simpl.
  by rewrite str_app_nil_r, nonempty_true.
Qed.

(** The fields of words set apart by blanks are the words. *)
Lemma Fields_Join ws g : Forall word ws -> blank g -> g <> "" -> Fields (Join ws g) = ws.
Proof.
  intros Hw Hg Hne. induction Hw as [|w ws Hw Hws IH]; [done|].
  destruct ws as [|w' ws]; [by apply Fields_word|].
  rewrite Join_cons by done. by rewrite Fields_word_app, IH.
Qed.

(** *** Trimming *)

Definition ascii_byte (c : ascii) : bool := (nat_of_ascii c <? 128)%nat.
Definition ascii_text (s : string) : Prop := str_forall ascii_byte s = true.
#[export] Instance ascii_text_dec s : Decision (ascii_text s).
Proof. unfold ascii_text. apply _. Defined.

Lemma space_len_ascii c s :
  ascii_byte c = true -> space_len (String c s) = if Ascii.is_space c then 1%nat else 0%nat.
Proof. destruct c as [[] [] [] [] [] [] [] []]; by intros Hc. Qed.

Lemma all_space_ascii s : ascii_text s -> all_space 0 s = str_forall Ascii.is_space s.
Proof.
  unfold ascii_text. induction s as [|c s IH]; [done|]. cbn [str_forall all_space].
  intros [Hc Hs]%andb_prop. rewrite space_len_ascii by done.
  destruct (Ascii.is_space c); [by apply IH|done].
Qed.

Lemma trim_right_space_last s c :
  ascii_text s -> plain_byte c = true -> trim_right_space (s +:+ String c "") = s +:+ String c "".
Proof.
  assert (Hlast : forall a, plain_byte a = true -> Ascii.is_space a = false).
  { by intros [[] [] [] [] [] [] [] []]. }
  assert (Hasc : forall a, plain_byte a = true -> ascii_byte a = true).
  { by intros [[] [] [] [] [] [] [] []]. }
  unfold ascii_text. intros Hs Hc. induction s as [|x s IH].
  - rewrite str_app_empty. cbn [trim_right_space all_space].
    by rewrite space_len_plain.
  - cbn [str_forall] in Hs. apply andb_prop in Hs as [Hx Hs].
    rewrite ?str_app_cons. cbn [trim_right_space].
    rewrite all_space_ascii.
    + cbn [str_forall]. rewrite str_forall_app. cbn [str_forall].
      rewrite (Hlast c Hc), !andb_false_r. by rewrite IH.
    + unfold ascii_text. cbn [str_forall]. rewrite Hx, str_forall_app, Hs.
      cbn [str_forall]. by rewrite (Hasc c Hc).
Qed.

(** A text that starts and ends with a visible character is left alone. *)
Lemma TrimSpace_id a s c :
  plain_byte a = true -> ascii_text s -> plain_byte c = true ->
  TrimSpace (String a s +:+ String c "") = String a s +:+ String c "".
Proof.
  intros Ha Hs Hc. unfold TrimSpace. rewrite ?str_app_cons.
  cbn [trim_left_space]. rewrite space_len_plain by done.
  rewrite <- str_app_cons. apply trim_right_space_last; [|done].
  unfold ascii_text in *. cbn [str_forall]. rewrite Hs.
  by destruct a as [[] [] [] [] [] [] [] []].
Qed.

Lemma trim_left_space_blank g s : blank g -> trim_left_space 0 (g +:+ s) = trim_left_space 0 s.
Proof.
  unfold blank. induction g as [|c g IH]; [done|]. cbn [str_forall].
  intros [Hc Hg]%andb_prop. rewrite ?str_app_cons. cbn [trim_left_space].
  rewrite space_len_space by done. by apply IH.
Qed.

#[global] Arguments space_len : simpl never.
