(* ===== verification/GoNum.v ===== *)
(** * Go's [strconv] package

    [ParseInt] and [Atoi] in base 10 and [FormatInt]/[Itoa], with the values
    they return next to an error (0 on a syntax error, the nearest bound on
    a range error: callers of the program that drop the error use them), and
    the round trip between printing and parsing. *)

From S2P Require Import Prelude GoStrings.

Definition digit_val (c : ascii) : option Z :=
  let n := Z.of_nat (nat_of_ascii c) in
  if bool_decide (48 <= n <= 57)%Z then Some (n - 48)%Z else None.

(** The loop of [strconv.ParseUint] in base 10, [maxVal = 2^bits - 1]: the
    digits are checked left to right, and a value past the bound stops the
    loop before the rest of the text is looked at. *)
Fixpoint scan_digits (maxVal n : Z) (s : string) : Z * option num_err :=
  match s with
  | "" => (n, None)
  | String c s' =>
      match digit_val c with
      | None => (0, Some ErrSyntax)
      | Some d =>
          if bool_decide (maxVal < n * 10 + d)%Z then (maxVal, Some ErrRange)
          else scan_digits maxVal (n * 10 + d) s'
      end
  end%Z.

Definition ParseUint (bits : Z) (s : string) : Z * option num_err :=
  match s with "" => (0%Z, Some ErrSyntax) | _ => scan_digits (2 ^ bits - 1) 0 s end.

(** [strconv.ParseInt(s, 10, bits)]; bit size 0 means [int], 64 bits. *)
Definition ParseInt_bits (bits : Z) (s : string) : Z * option num_err :=
  match s with
  | "" => (0, Some ErrSyntax)
  | String c s' =>
      let neg := bool_decide (c = "-"%char) in
      let body := if neg || bool_decide (c = "+"%char) then s' else s in
      let cutoff := 2 ^ (bits - 1) in
      match ParseUint bits body with
      | (_, Some ErrSyntax) => (0, Some ErrSyntax)
      | (un, _) =>
          if negb neg && bool_decide (cutoff <= un) then (cutoff - 1, Some ErrRange)
          else if neg && bool_decide (cutoff < un) then (- cutoff, Some ErrRange)
          else ((if neg then - un else un), None)
      end
  end%Z.

Definition ParseInt (s : string) : Z * option num_err := ParseInt_bits 64 s.

(** The call as a fallible one; [fn] is the function named in the error. *)
Definition num_res (fn s : string) (r : Z * option num_err) : res Z :=
  match r with (v, None) => Ok v | (_, Some e) => Err (ErrNum fn s e) end.

Definition ParseIntR (s : string) : res Z := num_res "ParseInt" s (ParseInt s).
Definition AtoiR (s : string) : res Z := num_res "Atoi" s (ParseInt s).

(** [strconv.Atoi] with the error dropped ([x, _ := strconv.Atoi(s)]). *)
Definition ParseInt_ (s : string) : Z := (ParseInt s).1.

(** [strconv.FormatInt(n, 10)], [strconv.Itoa] and the verb [%d]. *)
Definition FormatInt (n : Z) : string := pretty n.

Example parse_int_ex1 : ParseInt "-12" = ((-12)%Z, None).
Proof. reflexivity. Qed.
Example parse_int_ex2 : ParseInt "9223372036854775808" = (int64_max, Some ErrRange).
Proof. reflexivity. Qed.
Example parse_int_ex3 : ParseInt "12x" = (0%Z, Some ErrSyntax).
Proof. reflexivity. Qed.
Example parse_int_ex4 : ParseInt "99999999999999999999x" = (int64_max, Some ErrRange).
Proof. reflexivity. Qed.

(** ** Ranges *)

Lemma digit_val_range c d : digit_val c = Some d -> (0 <= d <= 9)%Z.
Proof. unfold digit_val. case_bool_decide; intros [= <-]; lia. Qed.

Lemma scan_digits_range maxVal n s :
  (0 <= n <= maxVal)%Z -> (0 <= (scan_digits maxVal n s).1 <= maxVal)%Z.
Proof.
  revert n. induction s as [|c s IH]; intros n Hn; simpl; [done|].
  destruct (digit_val c) as [d|] eqn:Hd; simpl; [|lia].
  apply digit_val_range in Hd. case_bool_decide; simpl; [lia|]. apply IH. lia.
Qed.

Lemma scan_digits_err maxVal n s e :
  (scan_digits maxVal n s).2 = Some e ->
  (e = ErrSyntax /\ (scan_digits maxVal n s).1 = 0%Z) \/
  (e = ErrRange /\ (scan_digits maxVal n s).1 = maxVal).
Proof.
  revert n. induction s as [|c s IH]; intros n; simpl; [done|].
  destruct (digit_val c) as [d|]; simpl; [|intros [= <-]; by left].
  case_bool_decide; simpl; [intros [= <-]; by right|apply IH].
Qed.

Lemma ParseInt_range s : in_int64 (ParseInt s).1.
Proof.
  unfold in_int64, int64_min, int64_max, ParseInt, ParseInt_bits.
  destruct s as [|c s]; [simpl; lia|].
  set (body := if _ || _ then s else String c s).
  assert (0 <= (ParseUint 64 body).1 <= 2 ^ 64 - 1)%Z as Hr.
  { unfold ParseUint. destruct body; [simpl; lia|]. apply scan_digits_range. lia. }
  clearbody body. destruct (ParseUint 64 body) as [un [[]|]]; simpl in *; [lia| |];
    destruct (bool_decide (c = "-"%char)); simpl;
    repeat case_bool_decide; simpl; lia.
Qed.

Lemma ParseIntR_range s v : ParseIntR s = Ok v -> in_int64 v.
Proof.
  unfold ParseIntR, num_res. pose proof (ParseInt_range s) as Hr.
  destruct (ParseInt s) as [v' [e|]]; [done|]. by intros [= <-].
Qed.

Lemma ParseIntR_no_panic s : no_panic (ParseIntR s).
Proof. unfold ParseIntR, num_res. by destruct (ParseInt s) as [? [|]]. Qed.
Lemma AtoiR_no_panic s : no_panic (AtoiR s).
Proof. unfold AtoiR, num_res. by destruct (ParseInt s) as [? [|]]. Qed.
#[export] Hint Resolve ParseIntR_no_panic AtoiR_no_panic : go.

(** A number that parses has no other byte than digits after its sign. *)
Definition is_digit (c : ascii) : bool := bool_decide (is_Some (digit_val c)).
Definition digits (s : string) : Prop := str_forall is_digit s = true.

Lemma scan_digits_ok maxVal n s v : scan_digits maxVal n s = (v, None) -> digits s.
Proof.
  unfold digits. revert n. induction s as [|c s IH]; intros n; simpl; [done|].
  unfold is_digit at 1. destruct (digit_val c) as [d|]; [|done].
  case_bool_decide; [done|]. intros Hs. by rewrite (IH _ Hs).
Qed.

(** A text with another byte than a sign and digits is a syntax error or,
    past the bound, a range error: it never parses. *)
Lemma ParseIntR_ok_chars s v :
  ParseIntR s = Ok v ->
  str_forall (fun c => is_digit c || bool_decide (c ∈ ["+"; "-"]%char)) s = true.
Proof.
  unfold ParseIntR, num_res, ParseInt, ParseInt_bits. destruct s as [|c s]; [done|].
  set (sgn := bool_decide (c = "-"%char) || bool_decide (c = "+"%char)).
  assert (Hw : forall b, digits b ->
    str_forall (fun c => is_digit c || bool_decide (c ∈ ["+"; "-"]%char)) b = true).
  { intros b. apply str_forall_mono. by intros x ->. }
  assert (Hu : forall b un, ParseUint 64 b = (un, None) -> digits b).
  { intros b un. unfold ParseUint. destruct b; [done|]. apply scan_digits_ok. }
  destruct (ParseUint 64 (if sgn then s else String c s)) as [un [[]|]] eqn:E; [done| |].
  - unfold ParseUint in E. destruct (if sgn then s else String c s) as [|x y] eqn:Es; [done|].
    pose proof (scan_digits_err (2 ^ 64 - 1) 0 (String x y) ErrRange) as He.
    rewrite E in He. destruct (He eq_refl) as [[? _]|[_ Hun]]; [done|]. simpl in Hun. subst un.
    destruct (bool_decide (c = "-"%char)); simpl; intros ?; done.
  - apply Hu in E. intros _. destruct sgn eqn:Hs; [|by apply Hw].
    cbn [str_forall]. rewrite Hw by done. subst sgn. rewrite andb_true_r.
    apply orb_prop in Hs. apply orb_true_iff. right. apply bool_decide_eq_true_2.
    destruct Hs as [Hs|Hs]; apply bool_decide_eq_true in Hs as ->; set_solver.
Qed.

(** ** Round trip *)

Fixpoint dec_val (n : Z) (s : string) : option Z :=
  match s with
  | "" => Some n
  | String c s' => match digit_val c with Some d => dec_val (n * 10 + d) s' | None => None end
  end%Z.

Lemma dec_val_mono n s v : (0 <= n)%Z -> dec_val n s = Some v -> (n <= v)%Z.
Proof.
  revert n. induction s as [|c s IH]; intros n Hn; simpl; [intros [= ->]; lia|].
  destruct (digit_val c) as [d|] eqn:Hd; [|done]. apply digit_val_range in Hd.
  intros H. apply IH in H; lia.
Qed.

Lemma scan_digits_dec_val maxVal n s v :
  (0 <= n)%Z -> dec_val n s = Some v -> (v <= maxVal)%Z -> scan_digits maxVal n s = (v, None).
Proof.
  revert n. induction s as [|c s IH]; intros n Hn; simpl; [by intros [= ->]|].
  destruct (digit_val c) as [d|] eqn:Hd; [|done]. apply digit_val_range in Hd as Hdr.
  intros Hv Hm. pose proof (dec_val_mono (n * 10 + d) s v ltac:(lia) Hv).
  rewrite bool_decide_eq_false_2 by lia. apply IH; [lia|done|done].
Qed.

(** A byte that is no digit after a number in range is a syntax error. *)
Lemma scan_digits_stops maxVal n s v c t :
  (0 <= n)%Z -> dec_val n s = Some v -> (v <= maxVal)%Z -> digit_val c = None ->
  scan_digits maxVal n (s +:+ String c t) = (0%Z, Some ErrSyntax).
Proof.
  intros Hn Hv Hm Hc. revert n Hn Hv. induction s as [|d s IH]; intros n Hn Hv.
  - rewrite str_app_empty. cbn. by rewrite Hc.
  - rewrite str_app_cons. simpl in *. destruct (digit_val d) as [x|] eqn:Hd; [|done]. apply digit_val_range in Hd as Hdr.
    pose proof (dec_val_mono (n * 10 + x) s v ltac:(lia) Hv). rewrite bool_decide_eq_false_2 by lia. apply IH; [lia|done].
Qed.

Lemma digit_char x : (x < 10)%N -> digit_val (pretty_N_char x) = Some (Z.of_N x).
Proof.
  intros Hx. assert (x = 0 \/ x = 1 \/ x = 2 \/ x = 3 \/ x = 4 \/ x = 5 \/ x = 6 \/ x = 7 \/
    x = 8 \/ x = 9)%N as H by lia.
  by repeat (destruct H as [->|H]; [done|]); rewrite H.
Qed.

(** Printing [x] in front of [s] and reading from 0 reads [s] from [x]. *)
Lemma dec_val_pretty_N_go x s :
  (0 < x)%N -> dec_val 0 (pretty_N_go x s) = dec_val (Z.of_N x) s.
Proof.
  revert s. induction (N.lt_wf_0 x) as [x _ IH]; intros s Hx.
  rewrite pretty_N_go_step by done.
  pose proof (N.mod_lt x 10 ltac:(lia)). pose proof (N.div_mod x 10 ltac:(lia)) as Hdm.
  assert (Hstep : forall m, dec_val m (String (pretty_N_char (x `mod` 10)%N) s)
    = dec_val (m * 10 + Z.of_N (x `mod` 10)%N) s).
  { intros m. cbn [dec_val]. by rewrite digit_char. }
  destruct (decide (x / 10 = 0)%N) as [H0|Hne].
  - rewrite H0, pretty_N_go_0, Hstep. f_equal. lia.
  - rewrite IH; [|apply N.div_lt; lia|lia]. rewrite Hstep. f_equal. lia.
Qed.

Lemma dec_val_pretty_N (x : N) : dec_val 0 (pretty x) = Some (Z.of_N x).
Proof.
  unfold pretty, pretty_N. case_decide as H; [by subst|].
  by rewrite dec_val_pretty_N_go by lia.
Qed.

Lemma dec_val_head n s v : dec_val n s = Some v -> s <> "" ->
  exists c s', s = String c s' /\ c <> "-"%char /\ c <> "+"%char.
Proof.
  destruct s as [|c s]; [done|]. simpl. intros H _. exists c, s. split; [done|].
  split; intros ->; done.
Qed.

Lemma pretty_N_nonempty (x : N) : pretty x <> "".
Proof.
  unfold pretty, pretty_N. case_decide; [done|].
  assert (Hlen : forall y s, (String.length s <= String.length (pretty_N_go y s))%nat).
  { intros y. induction (N.lt_wf_0 y) as [y _ IH]; intros s.
    destruct (decide (y = 0)%N) as [->|]; [by rewrite pretty_N_go_0|].
    rewrite pretty_N_go_step by lia. etrans; [|apply IH, N.div_lt; lia]. simpl. lia. }
  rewrite pretty_N_go_step by lia. intros Heq.
  pose proof (Hlen (x / 10)%N (String (pretty_N_char (x `mod` 10)%N) "")) as Hl.
  rewrite Heq in Hl. simpl in Hl. lia.
Qed.

Lemma ParseUint_pretty_N (x : N) :
  (Z.of_N x < 2 ^ 64)%Z -> ParseUint 64 (pretty x) = (Z.of_N x, None).
Proof.
  intros Hx. unfold ParseUint. pose proof (pretty_N_nonempty x).
  destruct (pretty x) as [|c s] eqn:E; [done|]. rewrite <- E.
  apply scan_digits_dec_val; [lia|apply dec_val_pretty_N|lia].
Qed.

Lemma FormatInt_nonneg n : (0 <= n)%Z -> FormatInt n = pretty (Z.to_N n).
Proof. unfold FormatInt, pretty, pretty_Z. destruct n; [done|done|lia]. Qed.

Lemma FormatInt_neg n : (n < 0)%Z -> FormatInt n = String "-"%char (pretty (Z.to_N (- n))).
Proof. unfold FormatInt, pretty at 1, pretty_Z. destruct n; [lia|lia|done]. Qed.

(** Parsing what was printed gives the number back. *)
Theorem ParseInt_FormatInt n : in_int64 n -> ParseInt (FormatInt n) = (n, None).
Proof.
  unfold in_int64, int64_min, int64_max. intros Hn. unfold ParseInt, ParseInt_bits.
  destruct (decide (0 <= n)%Z) as [Hpos|Hneg].
  - rewrite FormatInt_nonneg by done.
    pose proof (ParseUint_pretty_N (Z.to_N n) ltac:(lia)) as Hu.
    destruct (dec_val_head 0 (pretty (Z.to_N n)) _ (dec_val_pretty_N _) (pretty_N_nonempty _))
      as (c & s & Es & Hm & Hp).
    rewrite Es in *. rewrite !bool_decide_eq_false_2 by done. cbn [orb negb andb]. rewrite Hu.
    rewrite bool_decide_eq_false_2 by lia. f_equal. lia.
  - rewrite FormatInt_neg by lia. rewrite bool_decide_eq_true_2 by done. cbn [orb negb andb].
    rewrite (ParseUint_pretty_N (Z.to_N (- n))) by lia.
    rewrite bool_decide_eq_false_2 by lia. f_equal. lia.
Qed.

Corollary ParseIntR_FormatInt n : in_int64 n -> ParseIntR (FormatInt n) = Ok n.
Proof. intros H. unfold ParseIntR. by rewrite ParseInt_FormatInt. Qed.
Corollary AtoiR_FormatInt n : in_int64 n -> AtoiR (FormatInt n) = Ok n.
Proof. intros H. unfold AtoiR. by rewrite ParseInt_FormatInt. Qed.

(** With the error dropped, a number with something behind it is 0. *)
Lemma ParseInt_junk n c t : (0 <= n <= int64_max)%Z -> digit_val c = None -> ParseInt_ (FormatInt n +:+ String c t) = 0%Z.
Proof.
  unfold int64_max. intros Hn Hc. unfold ParseInt_, ParseInt, ParseInt_bits. rewrite FormatInt_nonneg by lia.
  destruct (dec_val_head 0 (pretty (Z.to_N n)) _ (dec_val_pretty_N _) (pretty_N_nonempty _)) as (d & s & Es & Hm & Hp).
  rewrite Es, str_app_cons. rewrite !bool_decide_eq_false_2 by done. cbn [orb negb]. rewrite <- str_app_cons, <- Es.
  unfold ParseUint. destruct (pretty (Z.to_N n) +:+ String c t) as [|? ?] eqn:E; [done|]. rewrite <- E.
  by rewrite (scan_digits_stops _ _ _ (Z.of_N (Z.to_N n))) by (done || apply dec_val_pretty_N || lia).
Qed.

(** What a printed number is made of. *)
Definition int_byte (c : ascii) : bool := is_digit c || bool_decide (c ∈ ["+"; "-"]%char).

Lemma FormatInt_bytes n : in_int64 n ->
  str_forall int_byte (FormatInt n) = true.
Proof. intros H. eapply ParseIntR_ok_chars. by apply ParseIntR_FormatInt. Qed.

Lemma FormatInt_plain n : in_int64 n -> plain (FormatInt n).
Proof.
  intros H. eapply str_forall_mono; [|by apply FormatInt_bytes].
  intros [[] [] [] [] [] [] [] []]; vm_compute; done.
Qed.

Lemma FormatInt_nonempty n : FormatInt n <> "".
Proof.
  destruct (decide (0 <= n)%Z).
  - rewrite FormatInt_nonneg by done. apply pretty_N_nonempty.
  - by rewrite FormatInt_neg by lia.
Qed.

Lemma FormatInt_word n : in_int64 n -> word (FormatInt n).
Proof. split; [by apply FormatInt_plain|apply FormatInt_nonempty]. Qed.

Lemma FormatInt_lacks n c : in_int64 n ->
  is_digit c = false -> c <> "+"%char -> c <> "-"%char -> lacks c (FormatInt n).
Proof.
  intros H Hd Hp Hm. eapply str_forall_mono; [|by apply FormatInt_bytes].
  intros b Hb. unfold not_byte. unfold int_byte in Hb. apply negb_true_iff, bool_decide_eq_false_2. intros ->.
  rewrite Hd in Hb. simpl in Hb. apply bool_decide_eq_true in Hb.
  rewrite !elem_of_cons, elem_of_nil in Hb. by destruct Hb as [?|[?|?]].
Qed.

Lemma pretty_N_lacks (x : N) c : is_digit c = false -> lacks c (pretty x).
Proof.
  intros Hc. pose proof (dec_val_pretty_N x) as H. unfold lacks.
  revert H. generalize 0%Z as k. generalize (pretty x) as s. intros s.
  induction s as [|b s IH]; intros k; simpl; [done|].
  destruct (digit_val b) eqn:Eb; [|done]. intros Hs. rewrite (IH _ Hs), andb_true_r.
  unfold not_byte. apply negb_true_iff, bool_decide_eq_false_2. intros ->.
  unfold is_digit in Hc. by rewrite Eb in Hc.
Qed.

Lemma FormatInt_nonneg_lacks n c : (0 <= n)%Z -> is_digit c = false -> lacks c (FormatInt n).
Proof. intros Hn Hc. rewrite FormatInt_nonneg by done. by apply pretty_N_lacks. Qed.

#[export] Hint Resolve ParseIntR_FormatInt AtoiR_FormatInt FormatInt_plain FormatInt_nonempty
  FormatInt_word : go.
