(* ===== verification/GoTime.v ===== *)
(** * Go's [time] package

    Instants, durations, and [time.Parse] for the one layout the program
    uses, [2006-01-02T15:04:05]: which texts it accepts, what instant they
    denote, and that a printed instant is read back. *)

From S2P Require Import Prelude GoStrings GoNum.
#[local] Open Scope Z_scope.

(** ** Instants and durations *)

(** [time.Time] in UTC: seconds since the Unix epoch and nanoseconds. *)
Record Time := mkTime { t_sec : Z; t_nsec : Z }.
#[export] Instance Time_eq_dec : EqDecision Time.
Proof. solve_decision. Defined.

(** The zero [time.Time], 0001-01-01T00:00:00Z. *)
Definition zero_time : Time := mkTime (-62135596800) 0.
Definition IsZero (t : Time) : bool := bool_decide (t = zero_time).
Definition Before (t u : Time) : bool :=
  bool_decide (t_sec t < t_sec u) || (bool_decide (t_sec t = t_sec u) && bool_decide (t_nsec t < t_nsec u)).

(** [time.Duration]: nanoseconds in an [int64]. *)
Definition Second : Z := 1000000000.
Definition Minute : Z := 60 * Second.
Definition Hour : Z := 60 * Minute.

(** [int64(d.Seconds())] for durations below 2^53 nanoseconds, where the
    conversion through [float64] is exact: truncation towards zero. *)
Definition DurationSeconds (d : Z) : Z := Z.quot d Second.

Lemma Before_irrefl t : Before t t = false.
Proof.
  unfold Before. rewrite !(bool_decide_eq_false_2 (_ < _)) by lia. by rewrite andb_false_r.
Qed.

Lemma Before_spec t u :
  Before t u = true <-> t_sec t < t_sec u \/ (t_sec t = t_sec u /\ t_nsec t < t_nsec u).
Proof.
  unfold Before. rewrite orb_true_iff, andb_true_iff, !bool_decide_eq_true. done.
Qed.

Lemma Before_total t u : Before t u = false -> Before u t = false -> t = u.
Proof.
  rewrite <- !not_true_iff_false, !Before_spec. destruct t, u; simpl. intros H1 H2.
  f_equal; lia.
Qed.

Lemma Before_trans t u v : Before t u = true -> Before u v = true -> Before t v = true.
Proof. rewrite !Before_spec. lia. Qed.

Lemma Before_not_trans t u v : Before u t = false -> Before v u = false -> Before v t = false.
Proof. rewrite <- !not_true_iff_false, !Before_spec. lia. Qed.

(** ** The civil calendar *)

Definition isLeap (y : Z) : bool :=
  bool_decide (y `mod` 4 = 0) && (negb (bool_decide (y `mod` 100 = 0)) || bool_decide (y `mod` 400 = 0)).

Definition daysIn (m y : Z) : Z :=
  if bool_decide (m = 2) then (if isLeap y then 29 else 28)
  else if bool_decide (m ∈ [4; 6; 9; 11]) then 30 else 31.

(** Days from the Unix epoch to a date of the proleptic Gregorian calendar. *)
Definition days_from_civil (y m d : Z) : Z :=
  let y' := if bool_decide (m <= 2) then y - 1 else y in
  let era := y' / 400 in
  let yoe := y' - era * 400 in
  let doy := (153 * (if bool_decide (m <= 2) then m + 9 else m - 3) + 2) / 5 + d - 1 in
  let doe := yoe * 365 + yoe / 4 - yoe / 100 + doy in
  era * 146097 + doe - 719468.

(** [time.Date(y, m, d, hh, mm, ss, ns, time.UTC)] for fields in range. *)
Definition Date (y m d hh mm ss ns : Z) : Time :=
  mkTime (days_from_civil y m d * 86400 + hh * 3600 + mm * 60 + ss) ns.

Example date_epoch : Date 1970 1 1 0 0 0 0 = mkTime 0 0.
Proof. reflexivity. Qed.
Example date_zero : Date 1 1 1 0 0 0 0 = zero_time.
Proof. reflexivity. Qed.
Example date_sacct : Date 2019 2 20 11 16 55 0 = mkTime 1550661415 0.
Proof. reflexivity. Qed.

(** ** Parsing *)

(** The scanner reads a text from the left; [None] stands for any error. *)
Definition getnum (fixed : bool) (s : string) : option (Z * string) :=
  match s with
  | "" => None
  | String a s1 =>
      x ← digit_val a;
      match s1 with
      | String b s2 =>
          match digit_val b with
          | Some y => Some (x * 10 + y, s2)
          | None => if fixed then None else Some (x, s1)
          end
      | "" => if fixed then None else Some (x, s1)
      end
  end.

Definition getyear (s : string) : option (Z * string) :=
  match s with
  | String a (String b (String c (String d s'))) =>
      x ← digit_val a; y ← digit_val b; z ← digit_val c; w ← digit_val d;
      Some (x * 1000 + y * 100 + z * 10 + w, s')
  | _ => None
  end.

Definition skip_byte (c : ascii) (s : string) : option string :=
  match s with String b s' => if bool_decide (b = c) then Some s' else None | "" => None end.

(** The fractional seconds [time.Parse] accepts after the seconds although
    the layout has none: a comma or period and digits, of which nine count. *)
Fixpoint take_digits (s : string) : list Z * string :=
  match s with
  | String c s' =>
      match digit_val c with
      | Some d => let '(ds, r) := take_digits s' in (d :: ds, r)
      | None => ([], s)
      end
  | "" => ([], "")
  end.

Fixpoint nanos (places : nat) (ds : list Z) : Z :=
  match places, ds with
  | S p, d :: ds' => d * 10 ^ Z.of_nat p + nanos p ds'
  | _, _ => 0
  end.

Definition getfrac (s : string) : Z * string :=
  match s with
  | String c (String d _ as s') =>
      if bool_decide (c ∈ ["."; ","]%char) && is_digit d then
        let '(ds, r) := take_digits s' in (nanos 9 ds, r)
      else (0, s)
  | _ => (0, s)
  end.

Definition in_range (lo hi n : Z) : option unit :=
  if bool_decide (lo <= n < hi) then Some tt else None.

(** [time.Parse("2006-01-02T15:04:05", s)]. *)
Definition parse_datetime (s : string) : option Time :=
  '(y, s) ← getyear s; s ← skip_byte "-" s;
  '(mo, s) ← getnum true s; _ ← in_range 1 13 mo; s ← skip_byte "-" s;
  '(d, s) ← getnum true s; s ← skip_byte "T" s;
  '(hh, s) ← getnum false s; _ ← in_range 0 24 hh; s ← skip_byte ":" s;
  '(mi, s) ← getnum true s; _ ← in_range 0 60 mi; s ← skip_byte ":" s;
  '(ss, s) ← getnum true s; _ ← in_range 0 60 ss;
  let '(ns, s) := getfrac s in
  if bool_decide (s = "") then
    _ ← in_range 1 (daysIn mo y + 1) d;
    Some (Date y mo d hh mi ss ns)
  else None.

Definition time_Parse (s : string) : res Time :=
  match parse_datetime s with Some t => Ok t | None => Err (ErrTime s "2006-01-02T15:04:05") end.

(** ** Printing and the round trip *)

Definition digit_of (d : Z) : ascii := ascii_of_nat (Z.to_nat (48 + d)).
Definition pad2 (n : Z) : string := String (digit_of (n / 10)) (String (digit_of (n `mod` 10)) "").
Definition pad4 (n : Z) : string := pad2 (n / 100) +:+ pad2 (n `mod` 100).

(** A date and time of day as Slurm prints it. *)
Record civil := mkCivil { cv_y : Z; cv_mo : Z; cv_d : Z; cv_h : Z; cv_mi : Z; cv_s : Z }.

Definition civil_ok (c : civil) : Prop :=
  0 <= cv_y c < 10000 /\ 1 <= cv_mo c < 13 /\ 1 <= cv_d c < daysIn (cv_mo c) (cv_y c) + 1 /\
  0 <= cv_h c < 24 /\ 0 <= cv_mi c < 60 /\ 0 <= cv_s c < 60.
#[export] Instance civil_ok_dec c : Decision (civil_ok c).
Proof. unfold civil_ok. apply _. Defined.

Definition civil_time (c : civil) : Time :=
  Date (cv_y c) (cv_mo c) (cv_d c) (cv_h c) (cv_mi c) (cv_s c) 0.

Definition print_civil (c : civil) : string :=
  pad4 (cv_y c) +:+ "-" +:+ pad2 (cv_mo c) +:+ "-" +:+ pad2 (cv_d c) +:+ "T" +:+
  pad2 (cv_h c) +:+ ":" +:+ pad2 (cv_mi c) +:+ ":" +:+ pad2 (cv_s c).

Lemma digit_val_of d : 0 <= d <= 9 -> digit_val (digit_of d) = Some d.
Proof.
  intros Hd. assert (d = 0 \/ d = 1 \/ d = 2 \/ d = 3 \/ d = 4 \/ d = 5 \/ d = 6 \/ d = 7 \/
    d = 8 \/ d = 9) as H by lia.
  by repeat (destruct H as [->|H]; [done|]); rewrite H.
Qed.

Lemma getnum_pad2 fixed n s : 0 <= n < 100 -> getnum fixed (pad2 n +:+ s) = Some (n, s).
Proof.
  intros Hn. unfold pad2. rewrite ?str_app_cons, ?str_app_empty. cbn [getnum].
  rewrite !digit_val_of by (Z.to_euclidean_division_equations; lia).
  cbn. do 2 f_equal. Z.to_euclidean_division_equations; lia.
Qed.

Lemma getyear_pad4 n s : 0 <= n < 10000 -> getyear (pad4 n +:+ s) = Some (n, s).
Proof.
  intros Hn. unfold pad4, pad2. rewrite ?str_app_cons, ?str_app_empty, ?str_app_cons.
  cbn [getyear].
  rewrite !digit_val_of by (Z.to_euclidean_division_equations; lia).
  cbn. do 2 f_equal. Z.to_euclidean_division_equations; lia.
Qed.

Lemma skip_byte_app c s : skip_byte c (String c "" +:+ s) = Some s.
Proof. rewrite ?str_app_cons, ?str_app_empty. cbn. by rewrite bool_decide_eq_true_2. Qed.

#[local] Ltac read_step := cbn [mbind option_bind].

Lemma parse_datetime_print c : civil_ok c -> parse_datetime (print_civil c) = Some (civil_time c).
Proof.
  intros (Hy & Hmo & Hd & Hh & Hmi & Hs). unfold parse_datetime, print_civil.
  assert (daysIn (cv_mo c) (cv_y c) <= 31).
  { unfold daysIn. repeat case_match; lia. }
  assert (forall lo hi n, lo <= n < hi -> in_range lo hi n = Some tt) as Hin.
  { intros lo hi n Hr. unfold in_range. by rewrite bool_decide_eq_true_2. }
  rewrite getyear_pad4 by lia. read_step. rewrite skip_byte_app. read_step.
  rewrite getnum_pad2 by lia. read_step. rewrite Hin by lia. read_step.
  rewrite skip_byte_app. read_step. rewrite getnum_pad2 by lia. read_step.
  rewrite skip_byte_app. read_step. rewrite getnum_pad2 by lia. read_step.
  rewrite Hin by lia. read_step. rewrite skip_byte_app. read_step.
  rewrite getnum_pad2 by lia. read_step. rewrite Hin by lia. read_step.
  rewrite skip_byte_app. read_step. rewrite <- (str_app_nil_r (pad2 (cv_s c))).
  rewrite getnum_pad2 by lia. read_step. rewrite Hin by lia. read_step. cbn [getfrac].
  rewrite bool_decide_eq_true_2 by done. by rewrite Hin by lia.
Qed.

Lemma time_Parse_print c : civil_ok c -> time_Parse (print_civil c) = Ok (civil_time c).
Proof. intros H. unfold time_Parse. by rewrite parse_datetime_print. Qed.

Lemma time_Parse_no_panic s : no_panic (time_Parse s).
Proof. unfold time_Parse. by destruct (parse_datetime s). Qed.
#[export] Hint Resolve time_Parse_no_panic : go.

(** The bytes of a printed time. *)
Definition civil_byte (b : ascii) : bool := is_digit b || bool_decide (b ∈ ["-"; "T"; ":"]%char).

Lemma is_digit_of d : 0 <= d <= 9 -> is_digit (digit_of d) = true.
Proof. intros H. unfold is_digit. by rewrite digit_val_of. Qed.

Lemma pad2_bytes n : 0 <= n < 100 -> str_forall civil_byte (pad2 n) = true.
Proof.
  intros Hn. unfold pad2. cbn [str_forall]. unfold civil_byte.
  by rewrite !is_digit_of by (Z.to_euclidean_division_equations; lia).
Qed.

Lemma print_civil_bytes c : civil_ok c -> str_forall civil_byte (print_civil c) = true.
Proof.
  intros (Hy & Hmo & Hd & Hh & Hmi & Hs).
  assert (daysIn (cv_mo c) (cv_y c) <= 31).
  { unfold daysIn. repeat case_match; lia. }
  unfold print_civil, pad4. rewrite !str_forall_app.
  by rewrite !pad2_bytes by (Z.to_euclidean_division_equations; lia).
Qed.

Lemma print_civil_lacks b c : civil_byte b = false -> civil_ok c -> lacks b (print_civil c).
Proof.
  intros Hb Hc. eapply str_forall_mono; [|by apply print_civil_bytes].
  intros x Hx. unfold not_byte. apply negb_true_iff, bool_decide_eq_false_2. congruence.
Qed.

Lemma print_civil_head c : civil_ok c -> exists d s, is_digit d = true /\ print_civil c = String d s.
Proof.
  intros (Hy & _). eexists _, _. split; [|reflexivity].
  apply is_digit_of. Z.to_euclidean_division_equations; lia.
Qed.

(** No printed time reads as a word. *)
Lemma lower_digit d s : is_digit d = true -> ToLower (String d s) = String d (ToLower s).
Proof. by destruct d as [[] [] [] [] [] [] [] []]. Qed.

Example time_ex1 : time_Parse "2019-02-20T11:16:55" = Ok (mkTime 1550661415 0).
Proof. reflexivity. Qed.
Example time_ex2 : is_ok (time_Parse "2019-02-30T11:16:55") = false.
Proof. reflexivity. Qed.
Example time_ex3 : is_ok (time_Parse "20 Feb 20109 11:16:55") = false.
Proof. reflexivity. Qed.
Example time_ex4 : time_Parse "2019-02-20T1:16:55.25" = Ok (mkTime 1550625415 250000000).
Proof. reflexivity. Qed.
