(* ===== verification/GoPath.v ===== *)
(** * Go's [path/filepath] package on Unix

    The lexical functions the program calls: [Clean], [Join], [Dir], [Base],
    [IsAbs] and [Abs]. A clean absolute path is a slash and elements that are
    no dots, joined by slashes; the lemmas read the functions on such paths. *)

From S2P Require Import Prelude GoStrings.

Definition slash : string := "/".
Definition IsAbs (path : string) : bool := HasPrefix path slash.

(** [Clean] drops empty and dot elements and takes [..] as the parent of the
    elements kept so far, [out], the last one first. *)
Fixpoint clean_elements (rooted : bool) (out elems : list string) : list string :=
  match elems with
  | [] => rev out
  | e :: elems' =>
      if bool_decide (e = "") || bool_decide (e = ".") then clean_elements rooted out elems'
      else if bool_decide (e = "..") then
        match out with
        | h :: out' =>
            if bool_decide (h = "..") then clean_elements rooted (e :: out) elems'
            else clean_elements rooted out' elems'
        | [] => clean_elements rooted (if rooted then [] else [e]) elems'
        end
      else clean_elements rooted (e :: out) elems'
  end.

Definition Clean (path : string) : string :=
  let rooted := IsAbs path in
  let body := Join (clean_elements rooted [] (Split path slash)) slash in
  if rooted then slash +:+ body else if nonempty body then body else ".".

(** [Join] of two elements; empty ones in front are ignored. *)
Definition filepath_Join (a b : string) : string :=
  if nonempty a then Clean (a +:+ slash +:+ b) else if nonempty b then Clean b else "".

(** The part behind the last slash. *)
Definition last_element (path : string) : string := List.last (Split path slash) "".

Definition Base (path : string) : string :=
  if bool_decide (path = "") then "."
  else
    let path := TrimRightByte path "/" in
    if nonempty path then last_element path else slash.

Definition Dir (path : string) : string :=
  Clean (str_take (String.length path - String.length (last_element path)) path).

(** [Abs] with the current working directory [cwd]. *)
Definition Abs (cwd path : string) : string :=
  if IsAbs path then Clean path else filepath_Join cwd path.

Example clean_examples :
  Clean <$> ["a//b/./c/.."; "/../x"; "../../a/../b"; "/"; ""; "a/.."; "/a/b/"] =
  ["a/b"; "/x"; "../../b"; "/"; "."; "."; "/a/b"].
Proof. vm_compute. reflexivity. Qed.
Example base_dir_examples :
  (Base <$> ["/a/b"; "/a/b//"; "/"; ""; "c"], Dir <$> ["/a/b"; "/a/b/"; "/x"; "c"; "a/b"]) =
  (["b"; "b"; "/"; "."; "c"], ["/a"; "/a/b"; "/"; "."; "a"]).
Proof. vm_compute. reflexivity. Qed.

(** ** Clean absolute paths *)

(** An element of a clean absolute path. *)
Definition element (e : string) : Prop := lacks "/" e /\ e <> "" /\ e <> "." /\ e <> "..".

Definition abs_path (es : list string) : string := slash +:+ Join es slash.
Definition clean_abs (path : string) : Prop := exists es, Forall element es /\ path = abs_path es.

Lemma Split_abs es : Forall element es -> es <> [] -> Split (abs_path es) slash = "" :: es.
Proof.
  intros He Hne. unfold abs_path, slash. change ("/" +:+ Join es "/") with ("" +:+ String "/" (Join es "/")).
  rewrite Split_cons1 by done. f_equal. apply (Split_Join "/" ""); [done|].
  eapply list.Forall_impl; [done|]. by intros e [He0 _].
Qed.

Lemma IsAbs_abs es : IsAbs (abs_path es) = true.
Proof. apply prefix_app. Qed.

Lemma clean_elements_elements out es :
  Forall element es -> clean_elements true out es = rev out ++ es.
Proof.
  revert out. induction es as [|e es IH]; intros out He; [by rewrite app_nil_r|].
  apply list.Forall_cons in He as [(Hl & He & Hd & Hdd) Hes]. cbn [clean_elements].
  rewrite !bool_decide_eq_false_2 by done. cbn [orb]. rewrite IH by done. cbn [rev]. by rewrite <- app_assoc.
Qed.

(** What [Clean] leaves of a rooted path are elements. *)
Lemma clean_elements_rooted out es :
  Forall element out -> Forall (lacks "/") es -> Forall element (clean_elements true out es).
Proof.
  intros Ho Hl. revert out Ho. induction Hl as [|e es Hl _ IH]; intros out Ho; cbn [clean_elements].
  - by apply Forall_rev.
  - do 2 case_bool_decide; cbn [orb]; try by apply IH. case_bool_decide.
    + destruct Ho as [|h out (? & ? & ? & Hdd) Ho]; [by apply IH|].
      rewrite bool_decide_eq_false_2 by done. by apply IH.
    + apply IH. by constructor.
Qed.

Lemma Split_lacks_all c s : Forall (lacks c) (Split s (String c "")).
Proof.
  remember (String.length s) as n eqn:Hn. revert s Hn. induction n as [n IH] using lt_wf_ind. intros s ->.
  pose proof (split_once_byte c s) as Hcut. destruct (split_once (String c "") s) as [[a b]|].
  - destruct Hcut as [-> Ha]. rewrite str_app_cons, str_app_empty, Split_cons1 by done. constructor; [done|].
    eapply IH; [|done]. rewrite !length_str_app. cbn. lia.
  - rewrite Split_lacks by done. by repeat constructor.
Qed.

(** [Clean] of a rooted path is clean and absolute, and [Clean] leaves such
    a path alone. *)
Lemma Clean_rooted path : IsAbs path = true -> clean_abs (Clean path).
Proof.
  intros Ha. unfold Clean. rewrite Ha. eexists. split; [|done].
  apply clean_elements_rooted; [constructor|apply Split_lacks_all].
Qed.

Lemma Clean_abs_path es : Forall element es -> Clean (abs_path es) = abs_path es.
Proof.
  intros He. unfold Clean. rewrite IsAbs_abs. unfold abs_path at 2. f_equal.
  destruct es as [|e es]; [done|]. rewrite Split_abs by done.
  change (clean_elements true [] ("" :: e :: es)) with (clean_elements true [] (e :: es)).
  by rewrite clean_elements_elements.
Qed.

Lemma Clean_clean path : clean_abs path -> Clean path = path.
Proof. intros (es & He & ->). by apply Clean_abs_path. Qed.

Lemma clean_abs_IsAbs path : clean_abs path -> IsAbs path = true.
Proof. intros (es & _ & ->). apply IsAbs_abs. Qed.

(** Joining a relative path to an absolute one. *)
Lemma filepath_Join_abs a b : IsAbs a = true -> clean_abs (filepath_Join a b).
Proof.
  intros Ha. unfold filepath_Join. destruct a as [|c a]; [done|]. cbn [nonempty].
  rewrite nonempty_true by done. apply Clean_rooted. unfold IsAbs, HasPrefix, slash in *.
  rewrite str_app_cons. cbn [String.prefix] in *. destruct (ascii_dec "/" c); [|done]. by destruct (a +:+ _).
Qed.

Lemma abs_path_snoc es e : es <> [] -> abs_path (es ++ [e]) = abs_path es +:+ slash +:+ e.
Proof.
  intros Hne. unfold abs_path. rewrite str_app_assoc. f_equal.
  induction es as [|x es IH]; [done|]. destruct es as [|y es]; [done|].
  rewrite <- app_comm_cons, !Join_cons by done. by rewrite IH, !str_app_assoc.
Qed.

Lemma Join_child es e :
  Forall element es -> element e -> es <> [] -> filepath_Join (abs_path es) e = abs_path (es ++ [e]).
Proof.
  intros Hes He Hne. unfold filepath_Join. rewrite nonempty_true by done.
  rewrite <- abs_path_snoc by done. apply Clean_abs_path. apply Forall_app. split; [done|]. by constructor.
Qed.

Lemma element_tail e : element e -> exists t b, e = t +:+ String b "" /\ b <> "/"%char.
Proof.
  intros (Hl & Hne & _ & _). induction e as [|c e IH]; [done|]. apply lacks_cons in Hl as [Hc Hl].
  destruct e as [|d e]; [by exists "", c|]. destruct IH as (t & b & Ht & Hb); [done..|].
  exists (String c t), b. by rewrite Ht, str_app_cons.
Qed.

Lemma Base_abs_path es e : Forall element (es ++ [e]) -> Base (abs_path (es ++ [e])) = e.
Proof.
  intros H. unfold Base. rewrite bool_decide_eq_false_2 by done.
  assert (Htrim : TrimRightByte (abs_path (es ++ [e])) "/" = abs_path (es ++ [e])).
  { assert (Hend : exists p, abs_path (es ++ [e]) = p +:+ e).
    { destruct es as [|x es]; [by exists slash|]. rewrite abs_path_snoc by done. eexists. by rewrite <- str_app_assoc. }
    destruct Hend as [p ->]. apply Forall_app in H as [_ [He _]%list.Forall_cons].
    apply element_tail in He as (t & b & -> & Hb). rewrite <- str_app_assoc.
    generalize (p +:+ t). intros q. induction q as [|c q IH].
    - rewrite str_app_empty. cbn [TrimRightByte all_byte]. by rewrite bool_decide_eq_false_2.
    - rewrite str_app_cons. cbn [TrimRightByte]. rewrite IH. assert (Hall : all_byte (q +:+ String b "") "/" = false).
      { clear IH. induction q as [|d q IH]; [|by rewrite str_app_cons; cbn [all_byte]; rewrite IH, andb_false_r].
        rewrite str_app_empty. cbn [all_byte]. by rewrite bool_decide_eq_false_2. }
      cbn [all_byte]. by rewrite Hall, andb_false_r. }
  rewrite Htrim, nonempty_true by done. unfold last_element. rewrite Split_abs; [|done|by destruct es].
  cbn [List.last]. destruct (es ++ [e]) eqn:Hes; [by destruct es|]. rewrite <- Hes. apply last_last.
Qed.

Lemma Base_clean_abs path : clean_abs path -> path <> slash -> Base path <> "" /\ lacks "/" (Base path).
Proof.
  intros (es & He & ->) Hne. induction es as [|e es _] using rev_ind; [done|].
  rewrite Base_abs_path by done. apply Forall_app in He as [_ [(Hl & He & _) _]%list.Forall_cons]. done.
Qed.

Lemma length_last_Join es : (String.length (List.last es "") <= String.length (Join es slash))%nat.
Proof.
  induction es as [|x es IH]; [done|]. destruct es as [|y es]; [done|]. rewrite Join_cons by done.
  rewrite !length_str_app. cbn [List.last] in *. lia.
Qed.

(** The directory of an absolute path is clean and absolute. *)
Lemma Dir_abs path : clean_abs path -> clean_abs (Dir path).
Proof.
  intros (es & He & ->). apply Clean_rooted.
  assert (Hlen : (String.length (last_element (abs_path es)) < String.length (abs_path es))%nat).
  { unfold last_element. destruct es as [|e es]; [vm_compute; lia|]. rewrite Split_abs by done.
    change (List.last ("" :: e :: es) "") with (List.last (e :: es) "").
    pose proof (length_last_Join (e :: es)). unfold abs_path. rewrite length_str_app.
    change (String.length slash) with 1%nat. lia. }
  unfold abs_path in *. unfold slash in *. rewrite str_app_cons in *. cbn [String.length] in *.
  destruct (S _ - _)%nat eqn:Hk; [lia|]. cbn [str_take]. unfold IsAbs, HasPrefix, slash. cbn. by destruct (str_take _ _).
Qed.
