(* ===== verification/Workload.v ===== *)
(** * The [workload] API (pkg/workload)

    The messages of the gRPC service between the Kubernetes side and the
    Slurm agent, the [JobStatus] enumeration with its name tables, and the
    service itself as an interface: [WorkloadManager] is what a client of
    the agent may call, [AgentServer] implements it. Times cross the wire
    through [golang/protobuf] and [timestamppb], which are not part of the
    repository: they are the class [ProtoTime], with their documented laws
    in [ProtoTimeLaws] and a concrete instance for the examples. *)

From S2P Require Import Prelude GoStrings GoNum GoTime.

(** ** Enumerations *)

(** A proto3 enumeration is open: a message can carry a number the
    program has no constant for. *)
Inductive JobStatus :=
  | JobStatus_COMPLETED
  | JobStatus_CANCELLED
  | JobStatus_FAILED
  | JobStatus_TIMEOUT
  | JobStatus_PENDING
  | JobStatus_RUNNING
  | JobStatus_UNKNOWN
  | JobStatus_other (n : Z).

#[export] Instance JobStatus_eq_dec : EqDecision JobStatus.
Proof. solve_decision. Defined.

(** [JobStatus_value]: the constant of a name. *)
Definition JobStatus_value (s : string) : option JobStatus :=
  if bool_decide (s = "COMPLETED") then Some JobStatus_COMPLETED
  else if bool_decide (s = "CANCELLED") then Some JobStatus_CANCELLED
  else if bool_decide (s = "FAILED") then Some JobStatus_FAILED
  else if bool_decide (s = "TIMEOUT") then Some JobStatus_TIMEOUT
  else if bool_decide (s = "PENDING") then Some JobStatus_PENDING
  else if bool_decide (s = "RUNNING") then Some JobStatus_RUNNING
  else if bool_decide (s = "UNKNOWN") then Some JobStatus_UNKNOWN
  else None.

(** [JobStatus_name] and [String()]: an unknown number prints as itself. *)
Definition JobStatus_String (x : JobStatus) : string :=
  match x with
  | JobStatus_COMPLETED => "COMPLETED"
  | JobStatus_CANCELLED => "CANCELLED"
  | JobStatus_FAILED => "FAILED"
  | JobStatus_TIMEOUT => "TIMEOUT"
  | JobStatus_PENDING => "PENDING"
  | JobStatus_RUNNING => "RUNNING"
  | JobStatus_UNKNOWN => "UNKNOWN"
  | JobStatus_other n => FormatInt n
  end.

Inductive TailAction := TailAction_Start | TailAction_ReadToEndAndClose.
#[export] Instance TailAction_eq_dec : EqDecision TailAction.
Proof. solve_decision. Defined.

(** ** Times on the wire *)

Record Timestamp := mkTimestamp { ts_Seconds : Z; ts_Nanos : Z }.
Record Duration := mkDuration { du_Seconds : Z; du_Nanos : Z }.
#[export] Instance Timestamp_eq_dec : EqDecision Timestamp.
Proof. solve_decision. Defined.
#[export] Instance Duration_eq_dec : EqDecision Duration.
Proof. solve_decision. Defined.

Class ProtoTime := {
  TimestampProto : Time -> res Timestamp;
  DurationProto : Z -> Duration;
  AsTime : option Timestamp -> Time;
  TimestampIsValid : option Timestamp -> bool;
  DurationString : option Duration -> string;
}.

(** What the documentation of those packages says and the program relies on. *)
Class ProtoTimeLaws `{ProtoTime} := {
  TimestampProto_AsTime : forall t ts, TimestampProto t = Ok ts -> AsTime (Some ts) = t;
  TimestampProto_valid : forall t ts, TimestampProto t = Ok ts -> TimestampIsValid (Some ts) = true;
  TimestampProto_no_panic : forall t, no_panic (TimestampProto t);
  TimestampIsValid_nil : TimestampIsValid None = false;
}.

(** ** Messages *)

Record SubmitJobRequest := mkSubmitJobRequest {
  sj_Script : string;
  sj_Partition : string;
  sj_ClientId : string;
  sj_RunAsUser : string;
  sj_RunAsGroup : string;
  sj_Uid : string;
  sj_CpufsPerTask : Z;
  sj_MemPerCpu : Z;
  sj_NtasksPerNode : Z;
  sj_Array : string;
  sj_Ntasks : Z;
  sj_Nodes : Z;
  sj_JobName : string;
  sj_WorkingDir : string;
}.

Record SubmitJobResponse := mkSubmitJobResponse { sjr_JobId : Z }.
Record CancelJobRequest := mkCancelJobRequest { cj_JobId : Z }.
Record CancelJobResponse := mkCancelJobResponse {}.
Record JobInfoRequest := mkJobInfoRequest { jir_JobId : Z }.
Record JobStepsRequest := mkJobStepsRequest { jsr_JobId : Z }.
Record OpenFileRequest := mkOpenFileRequest { of_Path : string }.
Record ResourcesRequest := mkResourcesRequest { rr_Partition : string }.
Record PartitionRequest := mkPartitionRequest { pr_Partition : string }.
Record NodesRequest := mkNodesRequest { nr_Nodes : list string }.
Record PartitionResponse := mkPartitionResponse { presp_Nodes : list string }.
Record PartitionsResponse := mkPartitionsResponse { psr_Partition : list string }.

Record Node := mkNode {
  n_Cpus : Z;
  n_Memory : Z;
  n_Gpus : Z;
  n_GpuType : string;
  n_AlloCpus : Z;
  n_AlloMemory : Z;
  n_AlloGpus : Z;
}.
Record NodesResponse := mkNodesResponse { nresp_Nodes : list Node }.

Record Feature := mkFeature { f_Name : string; f_Version : string; f_Quantity : Z }.

Record ResourcesResponse := mkResourcesResponse {
  rsp_Nodes : Z;
  rsp_CpuPerNode : Z;
  rsp_MemPerNode : Z;
  rsp_WallTime : Z;
  rsp_Features : list Feature;
}.

Record WorkloadInfoResponse := mkWorkloadInfoResponse {
  wi_Name : string; wi_Version : string; wi_Uid : Z
}.

Record SingularityOptions := mkSingularityOptions {
  so_App : string;
  so_AllowUnsigned : bool;
  so_Binds : list string;
  so_ClearEnv : bool;
  so_FakeRoot : bool;
  so_HostName : string;
  so_Ipc : bool;
  so_Pid : bool;
  so_NoPrivs : bool;
  so_Writable : bool;
}.

Record SubmitJobContainerRequest := mkSubmitJobContainerRequest {
  sc_ImageName : string;
  sc_Nodes : Z;
  sc_CpuPerNode : Z;
  sc_MemPerNode : Z;
  sc_WallTime : Z;
  sc_Partition : string;
  sc_ClientId : string;
  sc_Options : option SingularityOptions;
}.
Record SubmitJobContainerResponse := mkSubmitJobContainerResponse { scr_JobId : Z }.

Record TailFileRequest := mkTailFileRequest { tf_Action : TailAction; tf_Path : string }.

Record JobInfo := mkJobInfo {
  ji_Id : string;
  ji_UserId : string;
  ji_Name : string;
  ji_ExitCode : string;
  ji_Status : JobStatus;
  ji_SubmitTime : option Timestamp;
  ji_StartTime : option Timestamp;
  ji_RunTime : option Duration;
  ji_TimeLimit : option Duration;
  ji_WorkingDir : string;
  ji_StdOut : string;
  ji_StdErr : string;
  ji_Partition : string;
  ji_NodeList : string;
  ji_BatchHost : string;
  ji_NumNodes : string;
  ji_ArrayId : string;
  ji_Reason : string;
  ji_EndTime : option Timestamp;
}.
Record JobInfoResponse := mkJobInfoResponse { jresp_Info : list JobInfo }.

Record JobStepInfo := mkJobStepInfo {
  js_Id : string;
  js_Name : string;
  js_ExitCode : Z;
  js_Status : JobStatus;
  js_StartTime : option Timestamp;
  js_EndTime : option Timestamp;
}.
Record JobStepsResponse := mkJobStepsResponse { jsresp_JobSteps : list JobStepInfo }.

(** A chunk of a streamed file: its bytes. *)
Record Chunk := mkChunk { ch_Content : string }.

#[export] Instance JobInfo_eq_dec : EqDecision JobInfo.
Proof. solve_decision. Defined.
#[export] Instance SubmitJobRequest_eq_dec : EqDecision SubmitJobRequest.
Proof. solve_decision. Defined.

(** A getter of a message pointer: the zero value on nil. *)
Definition getter {T A} (zero : A) (field : T -> A) (x : option T) : A :=
  match x with Some x => field x | None => zero end.

Definition GetId : option JobInfo -> string := getter "" ji_Id.
Definition GetUserId : option JobInfo -> string := getter "" ji_UserId.
Definition GetExitCode : option JobInfo -> string := getter "" ji_ExitCode.
Definition GetReason : option JobInfo -> string := getter "" ji_Reason.
Definition GetEndTime : option JobInfo -> option Timestamp := getter None ji_EndTime.

(** ** The service

    The unary calls of [WorkloadManagerClient] as a client in an
    environment [W] sees them. *)

Class WorkloadManager (W : Type) := {
  rpc_SubmitJob : SubmitJobRequest -> M W SubmitJobResponse;
  rpc_CancelJob : CancelJobRequest -> M W CancelJobResponse;
  rpc_JobInfo : JobInfoRequest -> M W JobInfoResponse;
  rpc_Partition : PartitionRequest -> M W PartitionResponse;
  rpc_Partitions : M W PartitionsResponse;
  rpc_Nodes : NodesRequest -> M W NodesResponse;
}.

(** ** Facts *)

(** The two name tables are inverse to each other on the declared values. *)
Lemma JobStatus_value_String s x : JobStatus_value s = Some x -> JobStatus_String x = s.
Proof. unfold JobStatus_value. intros H. by repeat (case_bool_decide; [naive_solver|]). Qed.

Lemma JobStatus_String_value x :
  (forall n, x <> JobStatus_other n) -> JobStatus_value (JobStatus_String x) = Some x.
Proof. intros H. destruct x; try done. by destruct (H n). Qed.

(** A concrete reading of the time classes, for the examples: an instant in
    the years 1 to 9999 converts, anything else is refused. *)
Definition timestamp_ok (s n : Z) : bool :=
  bool_decide (-62135596800 <= s < 253402300800 /\ 0 <= n < 1000000000)%Z.

Definition proto_time_impl : ProtoTime := {|
  TimestampProto t :=
    if timestamp_ok (t_sec t) (t_nsec t) then Ok (mkTimestamp (t_sec t) (t_nsec t))
    else Err (ErrExternal "timestamp out of range");
  DurationProto d := mkDuration (Z.quot d Second) (Z.rem d Second);
  AsTime ts := match ts with Some ts => mkTime (ts_Seconds ts) (ts_Nanos ts) | None => mkTime 0 0 end;
  TimestampIsValid ts :=
    match ts with Some ts => timestamp_ok (ts_Seconds ts) (ts_Nanos ts) | None => false end;
  DurationString d := match d with Some d => FormatInt (du_Seconds d) +:+ "s" | None => "" end;
|}.

Lemma proto_time_impl_laws : ProtoTimeLaws (H := proto_time_impl).
Proof.
  split; try done.
  - intros [s n] ts. simpl. by destruct (timestamp_ok s n); intros [= <-].
  - intros [s n] ts. simpl. by destruct (timestamp_ok s n) eqn:E; intros [= <-].
  - intros [s n]. simpl. by destruct (timestamp_ok s n).
Qed.
