(* ===== verification/KeyValue.v ===== *)
(** * The key=value texts Slurm prints

    [scontrol show] prints records as blocks of [Key=value] words, set apart
    by a space or by a line break with an indentation, the blocks by an empty
    line. The lemmas say how the string functions of the parsers take such
    texts apart again. *)

From S2P Require Import Prelude GoStrings.

Definition LFLF : string := LF +:+ LF.

(** ** Words and blocks *)

Inductive gap := Sp | Nl.
Definition gap_text (g : gap) : string := match g with Sp => " " | Nl => LF +:+ "   " end.

Fixpoint block_text (w : string) (rest : list (gap * string)) : string :=
  match rest with
  | [] => w
  | (g, w') :: rest' => w +:+ gap_text g +:+ block_text w' rest'
  end.

Record kv := mkKv { kv_key : string; kv_val : string }.
Definition kv_text (x : kv) : string := kv_key x +:+ "=" +:+ kv_val x.
Definition kv_wf (x : kv) : Prop :=
  word (kv_key x) /\ lacks "=" (kv_key x) /\ plain (kv_val x) /\ lacks "=" (kv_val x).
#[export] Instance kv_wf_dec x : Decision (kv_wf x).
Proof. unfold kv_wf. apply _. Defined.

(** How often a byte occurs. *)
Fixpoint count_byte (c : ascii) (s : string) : nat :=
  match s with
  | "" => 0
  | String a s' => (if bool_decide (a = c) then 1 else 0) + count_byte c s'
  end%nat.

(** A word of a listing is a field, or another word: one without [=], such
    as the rest of a name with a space in it, or one with more than one, such
    as [TRES=cpu=2,node=1]. *)
Inductive item := Field (x : kv) | Other (w : string).
Definition item_text (i : item) : string := match i with Field x => kv_text x | Other w => w end.
Definition item_kv (i : item) : option kv := match i with Field x => Some x | Other _ => None end.
Definition item_wf (i : item) : Prop :=
  match i with Field x => kv_wf x | Other w => word w /\ count_byte "=" w <> 1%nat end.
#[export] Instance item_wf_dec i : Decision (item_wf i).
Proof. destruct i; unfold item_wf; apply _. Defined.

(** A block: its first word and the words after it. [b_kvs] are its fields. *)
Record block := mkBlock { b_first : item; b_rest : list (gap * item) }.
Definition b_items (b : block) : list item := b_first b :: (b_rest b).*2.
Definition b_kvs (b : block) : list kv := omap item_kv (b_items b).
Definition print_block (b : block) : string :=
  block_text (item_text (b_first b)) (prod_map id item_text <$> b_rest b).
Definition block_wf (b : block) : Prop := Forall item_wf (b_items b).
#[export] Instance block_wf_dec b : Decision (block_wf b).
Proof. unfold block_wf. apply _. Defined.

(** A block of fields only, and one whose fields are all set apart by a space. *)
Definition kv_block (x : kv) (l : list (gap * kv)) : block := mkBlock (Field x) (prod_map id Field <$> l).
Definition line_block (x : kv) (l : list kv) : block := kv_block x (pair Sp <$> l).

(** A word as an item, for writing a listing down. *)
Definition item_of (w : string) : item := match Split w "=" with [k; v] => Field (mkKv k v) | _ => Other w end.

(** ** Taking a block apart *)

Lemma plain_app a b : plain (a +:+ b) <-> plain a /\ plain b.
Proof. unfold plain. by rewrite str_forall_app, andb_true_iff. Qed.

Lemma kv_text_word x : kv_wf x -> word (kv_text x).
Proof.
  intros ([Hp Hn] & _ & Hv & _). unfold kv_text. split; [by rewrite !plain_app|].
  by destruct (kv_key x).
Qed.

Lemma Split_kv x : kv_wf x -> Split (kv_text x) "=" = [kv_key x; kv_val x].
Proof.
  intros (_ & Hk & _ & Hv). unfold kv_text. change ("=" +:+ kv_val x) with (String "=" (kv_val x)).
  by rewrite Split_cons1, (Split_lacks "=" "").
Qed.

Lemma item_text_word i : item_wf i -> word (item_text i).
Proof. destruct i; [apply kv_text_word|by intros []]. Qed.

(** A separator of one byte cuts a text into one part more than it occurs. *)
Lemma split_byte_length c s : length (Split s (String c "")) = S (count_byte c s).
Proof.
  unfold Split. induction s as [|a s IH]; [done|]. cbn [split_by count_byte].
  case_bool_decide as E.
  - subst a. pose proof (match_sep_app (String c "") s) as Hm. rewrite str_app_cons, str_app_empty in Hm. rewrite Hm.
    cbn [String.length length]. by rewrite IH.
  - assert (match_sep (String c "") (String a s) = 0%nat) as ->.
    { unfold match_sep, HasPrefix. cbn [String.prefix]. by destruct (ascii_dec c a) as [->|]. }
    destruct (split_by _ 0 s) as [|h t] eqn:Hs; [by destruct (split_by_nonempty _ _ _ Hs)|exact IH].
Qed.

Lemma gap_blank g : blank (gap_text g) /\ gap_text g <> "".
Proof. by destruct g. Qed.

Lemma Fields_block_text w rest :
  word w -> Forall word rest.*2 -> Fields (block_text w rest) = w :: rest.*2.
Proof.
  revert w. induction rest as [|[g w'] rest IH]; intros w Hw Hr; simpl; [by apply Fields_word|].
  inversion Hr; subst. destruct (gap_blank g).
  by rewrite Fields_word_app, IH.
Qed.

Lemma prod_map_snd {A B} (f : A -> B) (l : list (gap * A)) : (prod_map id f <$> l).*2 = f <$> l.*2.
Proof. induction l as [|[g x] l IH]; csimpl; [done|]. by rewrite IH. Qed.

Lemma block_words b : block_wf b ->
  word (item_text (b_first b)) /\ Forall word (prod_map id item_text <$> b_rest b).*2.
Proof.
  intros H. inversion H; subst. split; [by apply item_text_word|].
  rewrite prod_map_snd. apply Forall_fmap. eapply Forall_impl; [|done]. intros x Hx.
  by apply item_text_word.
Qed.

Lemma Fields_print_block b : block_wf b -> Fields (print_block b) = item_text <$> b_items b.
Proof.
  intros H. destruct (block_words b H). unfold print_block.
  by rewrite Fields_block_text, prod_map_snd.
Qed.

(** Folding a function over the words of a block that looks at [key=value]:
    the other words do not matter. *)
Lemma foldl_kvs {A} (f : A -> string -> A) (g : A -> string -> string -> A) l a :
  (forall a w, f a w = match Split w "=" with [k; v] => g a k v | _ => a end) ->
  Forall item_wf l -> foldl f a (item_text <$> l) = foldl (fun a x => g a (kv_key x) (kv_val x)) a (omap item_kv l).
Proof.
  intros Hf Hl. revert a. induction Hl as [|i l Hi _ IH]; intros a; csimpl; [done|].
  rewrite IH, Hf. destruct i as [x|w]; csimpl; [by rewrite Split_kv|]. destruct Hi as [_ Hc].
  pose proof (split_byte_length "=" w) as Hlen. destruct (Split w "=") as [|k [|v [|y l']]]; try done.
  injection Hlen as E. by destruct Hc.
Qed.

(** ** Several blocks *)

Lemma plain_lacks_LF w : plain w -> lacks "010" w.
Proof. by apply plain_lacks. Qed.

Lemma clear_app m a b t : clear m a (b +:+ t) -> clear m b t -> clear m (a +:+ b) t.
Proof.
  induction a as [|c a IH]; [done|]. rewrite ?str_app_cons. cbn [clear].
  rewrite str_app_assoc. intros [Hc Ha] Hb. auto.
Qed.

Lemma gap_clear g c t : plain_byte c = true -> clear (match_sep LFLF) (gap_text g) (String c t).
Proof. destruct g; [|done]. intros Hc. split; [done|]. by repeat split. Qed.

Lemma word_head w : word w -> exists c s, w = String c s /\ plain_byte c = true.
Proof.
  intros [Hp Hn]. destruct w as [|c w]; [done|]. exists c, w. split; [done|].
  unfold plain in Hp. simpl in Hp. by apply andb_prop in Hp as [? _].
Qed.

Lemma block_text_head w rest :
  word w -> exists c s, block_text w rest = String c s /\ plain_byte c = true.
Proof.
  intros Hw. destruct (word_head w Hw) as (c & s & -> & Hc). destruct rest as [|[g w'] rest]; simpl; eauto.
Qed.

Lemma block_text_clear w rest t :
  word w -> Forall word rest.*2 -> clear (match_sep LFLF) (block_text w rest) t.
Proof.
  revert w. induction rest as [|[g w'] rest IH]; intros w Hw Hr; simpl.
  - apply lacks_clear, plain_lacks_LF, Hw.
  - inversion Hr; subst. apply clear_app; [apply lacks_clear, plain_lacks_LF, Hw|].
    apply clear_app; [|by apply IH].
    destruct (block_text_head w' rest) as (c & s & -> & Hc); [done|]. by apply gap_clear.
Qed.

Lemma Split_clear_Join c p l :
  l <> [] -> (forall b t, b ∈ l -> clear (match_sep (String c p)) b t) ->
  Split (Join l (String c p)) (String c p) = l.
Proof.
  intros Hne Hl. unfold Split. induction l as [|x l IH]; [done|].
  destruct l as [|y l].
  - cbn [Join]. rewrite <- (str_app_nil_r x), split_by_clear by (apply Hl; by left).
    by rewrite str_app_nil_r; cbn; rewrite str_app_nil_r.
  - rewrite Join_cons by done. rewrite split_by_clear by (apply Hl; by left).
    rewrite str_app_cons, split_by_sep.
    + rewrite IH; [by cbn; rewrite str_app_nil_r|done|]. intros b t Hb. apply Hl. by right.
    + exact (match_sep_app (String c p) _).
Qed.

Lemma print_block_clear b t : block_wf b -> clear (match_sep LFLF) (print_block b) t.
Proof. intros H. destruct (block_words b H). by apply block_text_clear. Qed.

Lemma Split_blocks bs :
  bs <> [] -> Forall block_wf bs -> Split (Join (print_block <$> bs) LFLF) LFLF = print_block <$> bs.
Proof.
  intros Hne Hbs. apply Split_clear_Join; [by destruct bs|].
  intros b t (x & -> & Hx)%list_elem_of_fmap. rewrite list.Forall_forall in Hbs.
  by apply print_block_clear, Hbs.
Qed.

(** ** Texts with visible ends *)

Definition visible_ends (s : string) : Prop :=
  ascii_text s /\
  (exists c t, s = String c t /\ plain_byte c = true) /\
  (exists t c, s = t +:+ String c "" /\ plain_byte c = true).

Lemma ascii_text_app a b : ascii_text (a +:+ b) <-> ascii_text a /\ ascii_text b.
Proof. unfold ascii_text. by rewrite str_forall_app, andb_true_iff. Qed.

Lemma blank_ascii g : blank g -> ascii_text g.
Proof. apply str_forall_mono. by intros [[] [] [] [] [] [] [] []]. Qed.

Lemma trim_right_blank g : blank g -> trim_right_space g = "".
Proof.
  intros Hg. destruct g as [|c g]; [done|]. cbn [trim_right_space].
  by rewrite all_space_ascii, Hg by by apply blank_ascii.
Qed.

Lemma trim_right_space_blank s c g :
  ascii_text s -> plain_byte c = true -> blank g ->
  trim_right_space (s +:+ String c g) = s +:+ String c "".
Proof.
  intros Hs Hc Hg. assert (Hsp : Ascii.is_space c = false).
  { revert Hc. by destruct c as [[] [] [] [] [] [] [] []]. }
  assert (Hac : ascii_byte c = true). { revert Hc. by destruct c as [[] [] [] [] [] [] [] []]. }
  pose proof (blank_ascii g Hg) as Hga. induction s as [|x s IH].
  - rewrite !str_app_empty. cbn [trim_right_space all_space]. rewrite space_len_plain by done.
    by rewrite trim_right_blank.
  - unfold ascii_text in Hs. cbn [str_forall] in Hs. apply andb_prop in Hs as [Hx Hs].
    rewrite !str_app_cons. cbn [trim_right_space]. rewrite all_space_ascii.
    + cbn [str_forall]. rewrite str_forall_app. cbn [str_forall].
      rewrite Hsp, !andb_false_r. by rewrite IH.
    + unfold ascii_text. cbn [str_forall]. rewrite Hx, str_forall_app, Hs. cbn [str_forall].
      by rewrite Hac, Hga.
Qed.

(** Trimming removes the blank end of a text and nothing else. *)
Lemma TrimSpace_ends_blank s g : visible_ends s -> blank g -> TrimSpace (s +:+ g) = s.
Proof.
  intros (Ha & (c & t & -> & Hc) & (t' & c' & E & Hc')) Hg. unfold TrimSpace.
  rewrite str_app_cons. cbn [trim_left_space]. rewrite space_len_plain by done.
  rewrite <- str_app_cons. rewrite E in *. apply ascii_text_app in Ha as [Ha _].
  rewrite str_app_assoc, str_app_cons, str_app_empty. by apply trim_right_space_blank.
Qed.

Lemma TrimSpace_ends s : visible_ends s -> TrimSpace s = s.
Proof. intros H. rewrite <- (str_app_nil_r s) at 1. by apply TrimSpace_ends_blank. Qed.

Lemma visible_ends_app a g b :
  visible_ends a -> ascii_text g -> visible_ends b -> visible_ends (a +:+ g +:+ b).
Proof.
  intros (Ha & (c & t & -> & Hc) & _) Hg (Hb & _ & (t' & c' & -> & Hc')). split_and!.
  - apply ascii_text_app. split; [done|]. by apply ascii_text_app.
  - eauto.
  - exists ((String c t) +:+ g +:+ t'), c'. by rewrite !str_app_assoc.
Qed.

Lemma str_last c s : exists t d, String c s = t +:+ String d "" .
Proof.
  revert c. induction s as [|x s IH]; intros c; [by exists "", c|].
  destruct (IH x) as (t & d & ->). by exists (String c t), d.
Qed.

Lemma word_visible w : word w -> visible_ends w.
Proof.
  intros Hw. destruct (word_head w Hw) as (c & s & E & Hc). split_and!; [| by eauto |].
  - destruct Hw as [Hp _]. revert Hp. apply str_forall_mono. by intros [[] [] [] [] [] [] [] []].
  - rewrite E. destruct (str_last c s) as (t & d & E'). exists t, d. split; [done|].
    destruct Hw as [Hp _]. rewrite E, E', plain_app in Hp. destruct Hp as [_ Hd].
    unfold plain in Hd. simpl in Hd. by apply andb_prop in Hd as [? _].
Qed.

Lemma block_text_visible w rest :
  word w -> Forall word rest.*2 -> visible_ends (block_text w rest).
Proof.
  revert w. induction rest as [|[g w'] rest IH]; intros w Hw Hr; simpl; [by apply word_visible|].
  inversion Hr; subst. apply visible_ends_app; [by apply word_visible|by destruct g|by apply IH].
Qed.

Lemma Join_visible l sep :
  l <> [] -> ascii_text sep -> Forall visible_ends l -> visible_ends (Join l sep).
Proof.
  intros Hne Hsep Hl. induction Hl as [|x l Hx Hl IH]; [done|]. destruct l as [|y l]; [done|].
  rewrite Join_cons by done. apply visible_ends_app; [done..|]. by apply IH.
Qed.

Lemma TrimSpace_block b g : block_wf b -> blank g -> TrimSpace (print_block b +:+ g) = print_block b.
Proof. intros H. destruct (block_words b H). by apply TrimSpace_ends_blank, block_text_visible. Qed.

(** A listing: blocks with empty lines between them, and a blank end. *)
Definition print_blocks (bs : list block) : string := Join (print_block <$> bs) LFLF.

Lemma TrimSpace_blocks bs g :
  bs <> [] -> Forall block_wf bs -> blank g ->
  TrimSpace (print_blocks bs +:+ g) = Join (print_block <$> bs) LFLF.
Proof.
  intros Hne Hbs Hg. apply TrimSpace_ends_blank; [|done]. apply Join_visible; [by destruct bs|done|].
  apply Forall_fmap. eapply Forall_impl; [|done]. intros b Hb. simpl.
  destruct (block_words b Hb). by apply block_text_visible.
Qed.

(** ** Looking keys up *)

Definition kv_map (l : list kv) : gmap string string :=
  foldl (fun m x => <[kv_key x := kv_val x]> m) ∅ l.

Lemma kv_fold_lookup l (m : gmap string string) k :
  k ∉ kv_key <$> l -> foldl (fun m x => <[kv_key x := kv_val x]> m) m l !! k = m !! k.
Proof.
  revert m. induction l as [|x l IH]; intros m Hk; csimpl in *; [done|].
  apply not_elem_of_cons in Hk as [? ?]. by rewrite IH, lookup_insert_ne by congruence.
Qed.

Lemma kv_fold_ext l (m1 m2 : gmap string string) k :
  m1 !! k = m2 !! k ->
  foldl (fun m x => <[kv_key x := kv_val x]> m) m1 l !! k =
  foldl (fun m x => <[kv_key x := kv_val x]> m) m2 l !! k.
Proof.
  revert m1 m2. induction l as [|x l IH]; intros m1 m2 E; csimpl; [done|].
  apply IH. by rewrite !lookup_insert, E.
Qed.

Lemma kv_fold_insert_ne l (m : gmap string string) k j v : j <> k ->
  foldl (fun m x => <[kv_key x := kv_val x]> m) m l !! k =
  foldl (fun m x => <[kv_key x := kv_val x]> m) (<[j := v]> m) l !! k.
Proof. intros H. apply kv_fold_ext. by rewrite lookup_insert_ne. Qed.

(** With distinct keys, every pair of the block is looked up. *)
Lemma kv_map_lookup l x : NoDup (kv_key <$> l) -> x ∈ l -> kv_map l !! kv_key x = Some (kv_val x).
Proof.
  unfold kv_map. generalize (∅ : gmap string string). induction l as [|y l IH]; intros m Hd Hx; [by inversion Hx|].
  csimpl in *. apply list.NoDup_cons in Hd as [Hy Hd]. apply elem_of_cons in Hx as [->|Hx].
  - by rewrite kv_fold_lookup, lookup_insert_eq.
  - by apply IH.
Qed.

Lemma kv_map_lookup_None l k : k ∉ kv_key <$> l -> kv_map l !! k = None.
Proof. intros H. unfold kv_map. by rewrite kv_fold_lookup. Qed.

(** ** Texts whose first and last byte differ from a given one *)

Definition ends_ne (c : ascii) (s : string) : Prop :=
  (exists a t, s = String a t /\ a <> c) /\ (exists t b, s = t +:+ String b "" /\ b <> c).

Lemma lacks_ends_ne c s : lacks c s -> s <> "" -> ends_ne c s.
Proof.
  intros Hl Hn. destruct s as [|a s]; [done|]. destruct (str_last a s) as (t & b & E). split.
  - exists a, s. split; [done|]. intros ->. unfold lacks, not_byte in Hl. simpl in Hl.
    by rewrite bool_decide_eq_true_2 in Hl.
  - exists t, b. split; [done|]. intros ->. rewrite E, lacks_app in Hl. destruct Hl as [_ Hl].
    unfold lacks, not_byte in Hl. simpl in Hl. by rewrite bool_decide_eq_true_2 in Hl.
Qed.

Lemma ends_ne_app c a g b : ends_ne c a -> ends_ne c b -> ends_ne c (a +:+ g +:+ b).
Proof.
  intros [(x & t & -> & Hx) _] [_ (t' & y & -> & Hy)]. split; [by eexists _, _|].
  exists (String x t +:+ g +:+ t'), y. by rewrite !str_app_assoc.
Qed.

Lemma Join_ends_ne c l sep : l <> [] -> Forall (ends_ne c) l -> ends_ne c (Join l sep).
Proof.
  intros Hne Hl. induction Hl as [|x l Hx Hl IH]; [done|]. destruct l as [|y l]; [done|].
  rewrite Join_cons by done. apply ends_ne_app; [done|]. by apply IH.
Qed.

Lemma all_byte_ends c b t : b <> c -> all_byte (t +:+ String b "") c = false.
Proof.
  intros Hb. induction t as [|x t IH]; rewrite ?str_app_empty, ?str_app_cons; simpl.
  - by rewrite bool_decide_eq_false_2.
  - by rewrite IH, andb_false_r.
Qed.

Lemma all_byte_app a b c : all_byte (a +:+ b) c = all_byte a c && all_byte b c.
Proof. induction a as [|x a IH]; [done|]. rewrite str_app_cons. simpl. by rewrite IH, andb_assoc. Qed.

Lemma TrimRightByte_ends c s : (exists t b, s = t +:+ String b "" /\ b <> c) ->
  TrimRightByte (s +:+ String c "") c = s.
Proof.
  intros (t & b & -> & Hb). induction t as [|x t IH].
  - rewrite str_app_empty, str_app_cons, str_app_empty. cbn [TrimRightByte all_byte].
    by rewrite (bool_decide_eq_false_2 (b = c)), bool_decide_eq_true_2.
  - rewrite !str_app_cons. cbn [TrimRightByte]. rewrite IH.
    change (String x ((t +:+ String b "") +:+ String c "")) with ((String x t +:+ String b "") +:+ String c "").
    rewrite all_byte_app, all_byte_ends by done. done.
Qed.

(** Trimming undoes one final separator. *)
Lemma TrimByte_ends c s : ends_ne c s -> TrimByte (s +:+ String c "") c = s.
Proof.
  intros [(a & t & -> & Ha) Hr]. unfold TrimByte. rewrite str_app_cons. cbn [TrimLeftByte].
  rewrite bool_decide_eq_false_2 by done. rewrite <- str_app_cons. by apply TrimRightByte_ends.
Qed.
