(* ===== verification/AgentParse.v ===== *)
(** * Parsers of the Slurm agent (pkg/slurm-agent/parse.go, slurm.go)

    The texts [scontrol], [sacct] and [sinfo] print, turned into the agent's
    records: durations, partition resources, partition names, node and
    partition descriptions, job steps and job descriptions. The theorems
    characterise the accepted durations exactly, give round trips from
    printed records, and show that no text makes a parser panic. *)

From S2P Require Import Prelude GoStrings GoNum GoTime KeyValue.

(** [JobInfo] of slurm.go: a job as [scontrol show jobid] describes it. *)
Record JobInfo := mkJobInfo {
  si_ID : string;
  si_UserID : string;
  si_ArrayJobID : string;
  si_Name : string;
  si_ExitCode : string;
  si_State : string;
  si_SubmitTime : option Time;
  si_StartTime : option Time;
  si_RunTime : option Z;
  si_TimeLimit : option Z;
  si_WorkDir : string;
  si_StdOut : string;
  si_StdErr : string;
  si_Partition : string;
  si_NodeList : string;
  si_BatchHost : string;
  si_NumNodes : string;
  si_Reason : string;
}.

(** [JobStepInfo]: a step as [sacct] describes it. *)
Record JobStepInfo := mkJobStepInfo {
  ss_ID : string;
  ss_Name : string;
  ss_StartedAt : option Time;
  ss_FinishedAt : option Time;
  ss_ExitCode : Z;
  ss_State : string;
}.

Record Feature := mkFeature { sf_Name : string; sf_Version : string; sf_Quantity : Z }.

Record Resources := mkResources {
  sr_Nodes : Z;
  sr_MemPerNode : Z;
  sr_CPUPerNode : Z;
  sr_WallTime : Z;
  sr_Features : list Feature;
}.

Record Node := mkNode {
  sn_Cpus : Z;
  sn_Memory : Z;
  sn_Gpus : Z;
  sn_GpuType : string;
  sn_AlloCpus : Z;
  sn_AlloMemory : Z;
  sn_AlloGpus : Z;
}.

Record Partition := mkPartition { sp_Nodes : list string }.

#[export] Instance JobInfo_eq_dec : EqDecision JobInfo.
Proof. solve_decision. Defined.
#[export] Instance JobStepInfo_eq_dec : EqDecision JobStepInfo.
Proof. solve_decision. Defined.

(** ** Durations *)

Definition unlimited : string := "UNLIMITED".
Definition ErrDurationIsUnlimited : error := ErrSentinel "duration is unlimited".

Definition parse_part (s what : string) : res Z :=
  wrap_err (ParseIntR s) ("invalid amount of " +:+ what).

(** The components of a duration, in the order the code reads them. *)
Definition duration_parts (parts : list string) : res (Z * Z * Z * Z) :=
  p0 ← index parts 0;
  let i := IndexByte p0 "-"%char in
  if negb (i =? -1)%Z then
    days ← parse_part (str_take (Z.to_nat i) p0) "days";
    hours ← parse_part (str_drop (Z.to_nat (i + 1)) p0) "hours";
    minutes ← (if (1 <? length parts)%nat then p ← index parts 1; parse_part p "minutes" else Ok 0%Z);
    seconds ← (if (2 <? length parts)%nat then p ← index parts 2; parse_part p "seconds" else Ok 0%Z);
    Ok (days, hours, minutes, seconds)
  else
    match length parts with
    | 1 => minutes ← parse_part p0 "minutes"; Ok (0, 0, minutes, 0)%Z
    | 2 => minutes ← parse_part p0 "minutes";
           p1 ← index parts 1; seconds ← parse_part p1 "seconds"; Ok (0, 0, minutes, seconds)%Z
    | 3 => hours ← parse_part p0 "hours";
           p1 ← index parts 1; minutes ← parse_part p1 "minutes";
           p2 ← index parts 2; seconds ← parse_part p2 "seconds"; Ok (0, hours, minutes, seconds)%Z
    | _ => Ok (0, 0, 0, 0)%Z
    end.

Definition ParseDuration (duration : string) : res Z :=
  if bool_decide (duration = unlimited) || bool_decide (duration = "") then Err ErrDurationIsUnlimited
  else
    let parts := Split duration ":" in
    if (3 <? length parts)%nat then Err (ErrNew "invalid duration format")
    else
      '(days, hours, minutes, seconds) ← duration_parts parts;
      let d := 0%Z in
      let d := (d +64 ((Hour * 24)%Z *64 days))%go in
      let d := (d +64 (Hour *64 hours))%go in
      let d := (d +64 (Minute *64 minutes))%go in
      let d := (d +64 (Second *64 seconds))%go in
      Ok d.

(** ** Partition resources *)

Definition field_map := gmap string (list string).

(** [fMap]: the comma-separated values of every [key=value] word. *)
Definition add_field (m : gmap string (list string)) (f : string) : gmap string (list string) :=
  match Split f "=" with
  | [k; v] => <[k := default [] (m !! k) ++ Split v ","]> m
  | _ => m
  end.
Definition fields_of (text : string) : gmap string (list string) :=
  foldl add_field ∅ (Fields text).

(** A count that may be [UNLIMITED], in which case the partition's total is
    used when there is one, and -1 otherwise. *)
Definition parse_count (m : gmap string (list string)) (key : string) (total : option string)
    (what what_total : string) (zero : Z) : res Z :=
  match m !! key with
  | None => Ok zero
  | Some vs =>
      v ← index vs 0;
      if bool_decide (v = unlimited) then
        match total ≫= (fun t => m !! t) with
        | Some ts => t ← index ts 0; wrap_err (ParseIntR t) what_total
        | None => Ok (-1)%Z
        end
      else wrap_err (ParseIntR v) what
  end.

Definition parseResources (partitionInfo : string) : res Resources :=
  let m := fields_of (TrimSpace partitionInfo) in
  wall ← match m !! "MaxTime" with
         | None => Ok 0%Z
         | Some vs =>
             v ← index vs 0;
             match ParseDuration v with
             | Err e => if errors_Is e ErrDurationIsUnlimited then Ok (-1)%Z
                        else Err (ErrWrap e "could not parse duration")
             | r => r
             end
         end;
  cpus ← parse_count m "MaxCPUsPerNode" (Some "TotalCPUs")
           "could not parse max cpus num" "could not parse total cpus" 0;
  mem ← parse_count m "MaxMemPerNode" None "could not parse max mem" "" 0;
  nodes ← parse_count m "MaxNodes" (Some "TotalNodes")
            "could not parse max nodes" "could not parse total nodes" 0;
  Ok (mkResources nodes mem cpus wall []).

(** ** Partition names, partitions and nodes *)



Definition name_of_block (p : string) : string :=
  foldl (fun name f =>
    match Split f "=" with
    | [k; v] => if bool_decide (k = "PartitionName") then v else name
    | _ => name
    end) "" (Fields p).

Definition parsePartitionsNames (raw : string) : list string :=
  name_of_block <$> Split (TrimSpace raw) LFLF.

Definition parsePartition (raw : string) : Partition :=
  foldl (fun p f =>
    match Split f "=" with
    | [k; v] => if bool_decide (k = "Nodes") then mkPartition (sp_Nodes p ++ Split v ",") else p
    | _ => p
    end) (mkPartition []) (Fields raw).

Definition node_field (node : Node) (f : string) : Node :=
  match Split f "=" with
  | [k; v] =>
      let '(mkNode cpus mem gpus gt ac am ag) := node in
      if bool_decide (k = "CPUTot") then mkNode (ParseInt_ v) mem gpus gt ac am ag
      else if bool_decide (k = "CPUAlloc") then mkNode cpus mem gpus gt (ParseInt_ v) am ag
      else if bool_decide (k = "RealMemory") then mkNode cpus (ParseInt_ v) gpus gt ac am ag
      else if bool_decide (k = "AllocMem") then mkNode cpus mem gpus gt ac (ParseInt_ v) ag
      else node
  | _ => node
  end.
Definition parseNode (raw : string) : Node :=
  foldl node_field (mkNode 0 0 0 "" 0 0 0) (Fields raw).

(** ** Job steps *)

Definition parseTime (timeStr : string) : res (option Time) :=
  if bool_decide (timeStr = "") || bool_decide (ToLower timeStr = "unknown") then Ok None
  else t ← time_Parse timeStr; Ok (Some t).

Definition parse_step (l : string) : res JobStepInfo :=
  match Split l "|" with
  | [s0; s1; s2; s3; s4; s5; _] =>
      startedAt ← parseTime s0;
      finishedAt ← parseTime s1;
      match Split s2 ":" with
      | [c0; _] =>
          exitCode ← AtoiR c0;
          Ok (mkJobStepInfo s4 s5 startedAt finishedAt exitCode s3)
      | _ => Err (ErrNew "exit code must contain 2 sections")
      end
  | _ => Err (ErrNew "output must contain 6 sections")
  end.

Definition parseSacctResponse (raw : string) : res (list JobStepInfo) :=
  mapR parse_step (Split (TrimByte raw "010"%char) LF).

(** ** Job descriptions *)

(** The [slurm-agent] tags of [JobInfo], in the order of its fields. *)
Definition job_tags : list string :=
  ["JobId"; "UserId"; "ArrayJobId"; "JobName"; "ExitCode"; "JobState"; "SubmitTime"; "StartTime";
   "RunTime"; "TimeLimit"; "WorkDir"; "StdOut"; "StdErr"; "Partition"; "NodeList"; "BatchHost";
   "NumNodes"; "Reason"].

Inductive field_value := VStr (s : string) | VTime (t : option Time) | VDur (d : Z).

(** [reflect.ValueOf(ji).Elem().Field(i).Set(val)], the field being the one
    with tag [tag]. *)
Definition set_field (tag : string) (val : field_value) (ji : JobInfo) : JobInfo :=
  let str name old := match val with VStr s => if bool_decide (tag = name) then s else old | _ => old end in
  let tim name old := match val with VTime t => if bool_decide (tag = name) then t else old | _ => old end in
  let dur name old := match val with VDur d => if bool_decide (tag = name) then Some d else old | _ => old end in
  {| si_ID := str "JobId" (si_ID ji);
     si_UserID := str "UserId" (si_UserID ji);
     si_ArrayJobID := str "ArrayJobId" (si_ArrayJobID ji);
     si_Name := str "JobName" (si_Name ji);
     si_ExitCode := str "ExitCode" (si_ExitCode ji);
     si_State := str "JobState" (si_State ji);
     si_SubmitTime := tim "SubmitTime" (si_SubmitTime ji);
     si_StartTime := tim "StartTime" (si_StartTime ji);
     si_RunTime := dur "RunTime" (si_RunTime ji);
     si_TimeLimit := dur "TimeLimit" (si_TimeLimit ji);
     si_WorkDir := str "WorkDir" (si_WorkDir ji);
     si_StdOut := str "StdOut" (si_StdOut ji);
     si_StdErr := str "StdErr" (si_StdErr ji);
     si_Partition := str "Partition" (si_Partition ji);
     si_NodeList := str "NodeList" (si_NodeList ji);
     si_BatchHost := str "BatchHost" (si_BatchHost ji);
     si_NumNodes := str "NumNodes" (si_NumNodes ji);
     si_Reason := str "Reason" (si_Reason ji) |}.

Definition fill_tag (fields : gmap string string) (ji : JobInfo) (tag : string) : res JobInfo :=
  match fields !! tag with
  | None => Ok ji
  | Some sField =>
      if bool_decide (tag ∈ ["SubmitTime"; "StartTime"]) then
        t ← wrap_err (parseTime sField) ("could not parse time: " +:+ sField);
        Ok (set_field tag (VTime t) ji)
      else if bool_decide (tag ∈ ["RunTime"; "TimeLimit"]) then
        match ParseDuration sField with
        | Ok d => Ok (set_field tag (VDur d) ji)
        | Err e => if errors_Is e ErrDurationIsUnlimited then Ok ji
                   else Err (ErrWrap e ("could not parse duration: " +:+ sField))
        | Panic p => Panic p
        end
      else Ok (set_field tag (VStr sField) ji)
  end.

Fixpoint fill_tags (fields : gmap string string) (tags : list string) (ji : JobInfo) : res JobInfo :=
  match tags with
  | [] => Ok ji
  | tag :: tags' => ji' ← fill_tag fields ji tag; fill_tags fields tags' ji'
  end.

Definition fillFromSlurmFields (fields : gmap string string) (ji : JobInfo) : res JobInfo :=
  fill_tags fields job_tags ji.

Definition zero_JobInfo : JobInfo :=
  mkJobInfo "" "" "" "" "" "" None None None None "" "" "" "" "" "" "" "".

Definition add_slurm_field (m : gmap string string) (f : string) : gmap string string :=
  match Split f "=" with [k; v] => <[k := v]> m | _ => m end.
Definition slurm_fields (raw : string) : gmap string string := foldl add_slurm_field ∅ (Fields raw).

Definition jobInfoFromScontrolResponse (jobInfo : string) : res (list JobInfo) :=
  mapR (fun raw => fillFromSlurmFields (slurm_fields raw) zero_JobInfo)
    (Split (TrimSpace jobInfo) LFLF).

(** ** Durations: the accepted texts *)

(** The formats the comment on [ParseDuration] lists, over texts of numbers. *)
Inductive dur_syntax :=
  | DMin (m : string)
  | DMinSec (m s : string)
  | DHourMinSec (h m s : string)
  | DDayHour (d h : string)
  | DDayHourMin (d h m : string)
  | DDayHourMinSec (d h m s : string).

Definition dur_print (x : dur_syntax) : string :=
  match x with
  | DMin m => m
  | DMinSec m s => m +:+ ":" +:+ s
  | DHourMinSec h m s => h +:+ ":" +:+ m +:+ ":" +:+ s
  | DDayHour d h => d +:+ "-" +:+ h
  | DDayHourMin d h m => (d +:+ "-" +:+ h) +:+ ":" +:+ m
  | DDayHourMinSec d h m s => (d +:+ "-" +:+ h) +:+ ":" +:+ m +:+ ":" +:+ s
  end.

Definition num_text (s : string) : Prop := is_ok (ParseIntR s) = true.

Definition dur_wf (x : dur_syntax) : Prop :=
  match x with
  | DMin m => num_text m /\ lacks "-" m
  | DMinSec m s => num_text m /\ lacks "-" m /\ num_text s
  | DHourMinSec h m s => num_text h /\ lacks "-" h /\ num_text m /\ num_text s
  | DDayHour d h => num_text d /\ lacks "-" d /\ num_text h
  | DDayHourMin d h m => num_text d /\ lacks "-" d /\ num_text h /\ num_text m
  | DDayHourMinSec d h m s => num_text d /\ lacks "-" d /\ num_text h /\ num_text m /\ num_text s
  end.

#[export] Instance num_text_dec s : Decision (num_text s).
Proof. unfold num_text. apply _. Defined.
#[export] Instance dur_wf_dec x : Decision (dur_wf x).
Proof. destruct x; simpl; apply _. Defined.

(** Days, hours, minutes and seconds of a duration. *)
Definition dur_fields (x : dur_syntax) : Z * Z * Z * Z :=
  match x with
  | DMin m => (0, 0, ParseInt_ m, 0)
  | DMinSec m s => (0, 0, ParseInt_ m, ParseInt_ s)
  | DHourMinSec h m s => (0, ParseInt_ h, ParseInt_ m, ParseInt_ s)
  | DDayHour d h => (ParseInt_ d, ParseInt_ h, 0, 0)
  | DDayHourMin d h m => (ParseInt_ d, ParseInt_ h, ParseInt_ m, 0)
  | DDayHourMinSec d h m s => (ParseInt_ d, ParseInt_ h, ParseInt_ m, ParseInt_ s)
  end%Z.

Definition dur_nanos (f : Z * Z * Z * Z) : Z :=
  let '(d, h, m, s) := f in
  ((((d * 24 + h) * 60 + m) * 60 + s) * Second)%Z.

Lemma num_text_ok s : num_text s <-> ParseIntR s = Ok (ParseInt_ s).
Proof.
  unfold num_text, ParseIntR, num_res, ParseInt_. destruct (ParseInt s) as [v [e|]]; simpl; done.
Qed.

Lemma ParseIntR_num s v : ParseIntR s = Ok v -> num_text s /\ v = ParseInt_ s.
Proof.
  intros H. assert (num_text s) as Hn by (unfold num_text; by rewrite H).
  split; [done|]. apply num_text_ok in Hn. congruence.
Qed.

Lemma num_text_lacks c s :
  is_digit c = false -> c <> "+"%char -> c <> "-"%char -> num_text s -> lacks c s.
Proof.
  intros Hd Hp Hm [v Hv]%num_text_ok%(ex_intro (fun v => ParseIntR s = Ok v) _).
  apply ParseIntR_ok_chars in Hv. revert Hv. apply str_forall_mono. intros b Hb.
  apply negb_true_iff, bool_decide_eq_false_2. intros ->.
  rewrite Hd in Hb. simpl in Hb. apply bool_decide_eq_true in Hb.
  rewrite !elem_of_cons, elem_of_nil in Hb. by destruct Hb as [?|[?|?]].
Qed.

Lemma num_text_colon s : num_text s -> lacks ":" s.
Proof. by apply num_text_lacks. Qed.

Lemma parse_part_inv s what v : parse_part s what = Ok v -> num_text s /\ v = ParseInt_ s.
Proof. intros H%wrap_err_Ok_inv. by apply ParseIntR_num. Qed.

Lemma parse_part_num s what : num_text s -> parse_part s what = Ok (ParseInt_ s).
Proof. intros H%num_text_ok. unfold parse_part. by rewrite H. Qed.

Lemma dash_cut a b :
  lacks "-" a ->
  IndexByte (a +:+ "-" +:+ b) "-" = str_len a /\
  str_take (Z.to_nat (str_len a)) (a +:+ "-" +:+ b) = a /\
  str_drop (Z.to_nat (str_len a + 1)) (a +:+ "-" +:+ b) = b.
Proof.
  intros H. change ("-" +:+ b) with (String "-" b).
  split; [by apply IndexByte_app|]. unfold str_len. rewrite Nat2Z.id. split; [apply str_take_app|].
  replace (Z.to_nat (Z.of_nat (String.length a) + 1)) with (S (String.length a)) by lia.
  apply str_drop_app_S.
Qed.

Ltac use_parts :=
  repeat match goal with
  | H : parse_part _ _ = Ok _ |- _ => apply parse_part_inv in H as [? ->]
  end.

Lemma duration_parts_sound parts f :
  (length parts <= 3)%nat -> parts <> [] -> duration_parts parts = Ok f ->
  exists x, dur_wf x /\ Join parts ":" = dur_print x /\ f = dur_fields x.
Proof.
  intros Hlen Hne. unfold duration_parts. destruct parts as [|p0 rest]; [done|].
  cbn [index of_option lookup list_lookup mbind res_bind].
  destruct (IndexByte_spec p0 "-") as [[Hi Hl]|(a & b & -> & Hl & _)].
  - rewrite Hi. destruct rest as [|p1 [|p2 [|]]]; cbn; intros H; inv_bind; use_parts; [| | |simpl in Hlen; lia].
    + by exists (DMin p0).
    + by exists (DMinSec p0 p1).
    + by exists (DHourMinSec p0 p1 p2).
  - change (a +:+ String "-" b) with (a +:+ "-" +:+ b).
    destruct (dash_cut a b Hl) as (-> & -> & ->).
    rewrite (proj2 (Z.eqb_neq _ _)) by (unfold str_len; lia).
    destruct rest as [|p1 [|p2 [|]]]; cbn; intros H; inv_bind; use_parts; [| | |simpl in Hlen; lia].
    + by exists (DDayHour a b).
    + by exists (DDayHourMin a b p1).
    + by exists (DDayHourMinSec a b p1 p2).
Qed.

Lemma lacks_dash a b : num_text a -> num_text b -> lacks ":" (a +:+ "-" +:+ b).
Proof. intros Ha Hb. rewrite !lacks_app. split_and!; [by apply num_text_colon|done|by apply num_text_colon]. Qed.

(** The rest of a duration whose first component is [d-h]. *)
Lemma duration_parts_dash d h rest :
  lacks "-" d -> num_text d -> num_text h ->
  duration_parts ((d +:+ "-" +:+ h) :: rest) =
    (minutes ← (if (0 <? length rest)%nat then p ← index rest 0; parse_part p "minutes" else Ok 0%Z);
     seconds ← (if (1 <? length rest)%nat then p ← index rest 1; parse_part p "seconds" else Ok 0%Z);
     Ok (ParseInt_ d, ParseInt_ h, minutes, seconds)).
Proof.
  intros Hl Hd Hh. unfold duration_parts. cbn [index of_option lookup list_lookup mbind res_bind].
  destruct (dash_cut d h Hl) as (-> & -> & ->).
  rewrite (proj2 (Z.eqb_neq _ _)) by (unfold str_len; lia). cbn [negb].
  rewrite !parse_part_num by done. by destruct rest as [|? [|]].
Qed.

Lemma dur_print_parts x : dur_wf x ->
  exists parts, dur_print x = Join parts ":" /\ parts <> [] /\ (length parts <= 3)%nat /\
    Forall (lacks ":") parts /\ duration_parts parts = Ok (dur_fields x).
Proof.
  destruct x as [m|m s|h m s|d h|d h m|d h m s]; simpl; intros Hx; destruct_and?.
  - exists [m]. split_and!; [done|done|simpl; lia|auto using num_text_colon|].
    unfold duration_parts. cbn. rewrite IndexByte_lacks by done. cbn. by rewrite !parse_part_num.
  - exists [m; s]. split_and!; [done|done|simpl; lia|auto using num_text_colon|].
    unfold duration_parts. cbn. rewrite IndexByte_lacks by done. cbn. by rewrite !parse_part_num.
  - exists [h; m; s]. split_and!; [done|done|simpl; lia|auto using num_text_colon|].
    unfold duration_parts. cbn. rewrite IndexByte_lacks by done. cbn. by rewrite !parse_part_num.
  - exists [d +:+ "-" +:+ h].
    split_and!; [done|done|simpl; lia|auto using lacks_dash|].
    by rewrite duration_parts_dash.
  - exists [d +:+ "-" +:+ h; m]. split_and!; [done|done|simpl; lia| |].
    + repeat constructor; [by apply lacks_dash|by apply num_text_colon].
    + rewrite duration_parts_dash by done. cbn. by rewrite !parse_part_num.
  - exists [d +:+ "-" +:+ h; m; s]. split_and!; [done|done|simpl; lia| |].
    + repeat constructor; auto using lacks_dash, num_text_colon.
    + rewrite duration_parts_dash by done. cbn. by rewrite !parse_part_num.
Qed.

Lemma wrap64_dur d h m s :
  ((((0%Z +64 ((Hour * 24)%Z *64 d)) +64 (Hour *64 h)) +64 (Minute *64 m)) +64 (Second *64 s))%go
  = wrap64 (dur_nanos (d, h, m, s)).
Proof.
  unfold dur_nanos. repeat (rewrite wrap64_add_r || (rewrite <- ?Z.add_assoc; rewrite wrap64_add_l)).
  f_equal. unfold Hour, Minute. lia.
Qed.

Lemma ParseDuration_accepts s v :
  (exists x, dur_wf x /\ s = dur_print x /\ v = wrap64 (dur_nanos (dur_fields x))) ->
  ParseDuration s = Ok v.
Proof.
  intros (x & Hx & -> & ->). destruct (dur_print_parts x Hx) as (ps & Hp & Hne & Hlen & Hl & Hd).
  unfold ParseDuration. rewrite Hp, Split_Join by done.
  rewrite (proj2 (Nat.ltb_ge _ _)), Hd by done. cbn [mbind res_bind].
  destruct (dur_fields x) as [[[d h] m] sec]. cbv zeta. rewrite wrap64_dur.
  destruct (_ || _) eqn:Hu; [|done]. exfalso.
  rewrite <- (Split_Join ":" "" ps) in Hd by done.
  apply orb_true_iff in Hu as [Hu|Hu]; apply bool_decide_eq_true in Hu;
    rewrite Hu in Hd; vm_compute in Hd; discriminate Hd.
Qed.

(** C17. [ParseDuration] accepts exactly the six documented formats over
    parsable numbers (the first number of a format without dash holding no
    minus sign), and its result is the total number of nanoseconds of the
    duration, wrapped to 64 bits. *)
Theorem ParseDuration_spec s v :
  ParseDuration s = Ok v <->
  exists x, dur_wf x /\ s = dur_print x /\ v = wrap64 (dur_nanos (dur_fields x)).
Proof.
  split; [|apply ParseDuration_accepts]. unfold ParseDuration.
  destruct (_ || _); [done|]. destruct (3 <? length (Split s ":"))%nat eqn:Hl; [done|].
  apply Nat.ltb_ge in Hl. intros (f & Hf & H)%bind_Ok_inv. destruct f as [[[d h] m] sec].
  apply duration_parts_sound in Hf as (x & Hx & Hp & Hf); [|done|apply Split_nonempty].
  rewrite Join_Split in Hp. exists x. split_and!; [done..|].
  cbv zeta in H. rewrite wrap64_dur in H. injection H as <-. by rewrite <- Hf.
Qed.

(** ** Printed blocks *)

Lemma slurm_fields_block b : block_wf b -> slurm_fields (print_block b) = kv_map (b_kvs b).
Proof.
  intros H. unfold slurm_fields. rewrite Fields_print_block by done.
  by rewrite (foldl_kvs _ (fun m k v => <[k := v]> m)).
Qed.

(** A fold that remembers the last value of one key agrees with the map. *)
Lemma foldl_last_value {A} (g : string -> A) (f : A -> kv -> A) key l (a : A) (m : gmap string string) :
  (forall a x, f a x = if bool_decide (kv_key x = key) then g (kv_val x) else a) ->
  a = from_option g a (m !! key) ->
  foldl f a l = from_option g a (foldl (fun m x => <[kv_key x := kv_val x]> m) m l !! key).
Proof.
  intros Hf. assert (Hgen : forall d, a = from_option g d (m !! key) ->
    foldl f a l = from_option g d (foldl (fun m x => <[kv_key x := kv_val x]> m) m l !! key)).
  { intros d. revert a m. induction l as [|x l IH]; intros a m Ha; csimpl; [done|].
    apply IH. rewrite Hf. case_bool_decide as Hk.
    - by rewrite Hk, lookup_insert_eq.
    - by rewrite lookup_insert_ne. }
  intros Ha. by apply Hgen.
Qed.

Lemma name_of_print_block b : block_wf b ->
  name_of_block (print_block b) = default "" (kv_map (b_kvs b) !! "PartitionName").
Proof.
  intros H. unfold name_of_block. rewrite Fields_print_block by done.
  rewrite (foldl_kvs _ (fun name k v => if bool_decide (k = "PartitionName") then v else name)) by done.
  by apply (foldl_last_value id).
Qed.

(** [parsePartitionsNames] recovers the names of the partitions of a
    [scontrol show partitions] text, in order, whatever else the blocks say. *)
Lemma parsePartitionsNames_blocks bs g :
  bs <> [] -> Forall block_wf bs -> blank g ->
  parsePartitionsNames (print_blocks bs +:+ g) =
    (fun b => default "" (kv_map (b_kvs b) !! "PartitionName")) <$> bs.
Proof.
  intros Hne Hbs Hg. unfold parsePartitionsNames. rewrite TrimSpace_blocks, Split_blocks by done.
  rewrite <- list_fmap_compose. apply list_fmap_ext. intros i b Hb. simpl.
  apply name_of_print_block. by eapply Forall_lookup_1.
Qed.

(** ** Nodes *)

(** What [parseNode] reads from a description of a node. *)
Definition node_of (m : gmap string string) : Node :=
  let num k := from_option ParseInt_ 0%Z (m !! k) in
  mkNode (num "CPUTot") (num "RealMemory") 0 "" (num "CPUAlloc") (num "AllocMem") 0.

Definition node_kv (n : Node) (k v : string) : Node :=
  let '(mkNode cpus mem gpus gt ac am ag) := n in
  if bool_decide (k = "CPUTot") then mkNode (ParseInt_ v) mem gpus gt ac am ag
  else if bool_decide (k = "CPUAlloc") then mkNode cpus mem gpus gt (ParseInt_ v) am ag
  else if bool_decide (k = "RealMemory") then mkNode cpus (ParseInt_ v) gpus gt ac am ag
  else if bool_decide (k = "AllocMem") then mkNode cpus mem gpus gt ac (ParseInt_ v) ag
  else n.

Lemma node_kv_insert m k v : node_kv (node_of m) k v = node_of (<[k := v]> m).
Proof.
  unfold node_kv, node_of. cbv zeta.
  repeat (case_bool_decide; [subst; rewrite lookup_insert_eq, !lookup_insert_ne by done; done|]).
  by rewrite !lookup_insert_ne by congruence.
Qed.

(** [parseNode] on a node description: total and allocated CPUs and
    memory are the numbers of the four keys it knows (a missing key or one
    that is no number counts as what [ParseInt] leaves), GPUs are never set. *)
Lemma parseNode_block b : block_wf b -> parseNode (print_block b) = node_of (kv_map (b_kvs b)).
Proof.
  intros H. unfold parseNode. rewrite Fields_print_block by done.
  rewrite (foldl_kvs _ node_kv); [|by intros [] w; unfold node_field; destruct (Split w "=") as [|? [|? [|]]]|done].
  fold (b_kvs b). unfold kv_map. change (mkNode 0 0 0 "" 0 0 0) with (node_of ∅).
  generalize (∅ : gmap string string). generalize (b_kvs b).
  intros l. induction l as [|x l IH]; intros m; cbn [foldl]; [done|]. by rewrite node_kv_insert, IH.
Qed.

(** ** Partition resources *)

Lemma fields_of_fold b : block_wf b ->
  fields_of (print_block b) =
    foldl (fun m x => <[kv_key x := default [] (m !! kv_key x) ++ Split (kv_val x) ","]> m) ∅ (b_kvs b).
Proof.
  intros H. unfold fields_of. rewrite Fields_print_block by done.
  by rewrite (foldl_kvs _ (fun m k v => <[k := default [] (m !! k) ++ Split v ","]> m)).
Qed.

Lemma fields_fold_lookup l (m : gmap string (list string)) k :
  NoDup (kv_key <$> l) -> (forall x, x ∈ l -> m !! kv_key x = None) ->
  foldl (fun m x => <[kv_key x := default [] (m !! kv_key x) ++ Split (kv_val x) ","]> m) m l !! k =
    match m !! k with Some vs => Some vs | None => (fun v => Split v ",") <$> (kv_map l !! k) end.
Proof.
  revert m. induction l as [|x l IH]; intros m Hd Hm; csimpl in *; [by destruct (m !! k)|].
  apply list.NoDup_cons in Hd as [Hx Hd]. rewrite IH; [|done|].
  - rewrite (Hm x) by by left. simpl. unfold kv_map. cbn [foldl].
    destruct (decide (kv_key x = k)) as [<-|Hk].
    + rewrite lookup_insert_eq, (Hm x) by by left. by rewrite kv_fold_lookup, lookup_insert_eq.
    + rewrite lookup_insert_ne by done. destruct (m !! k); [done|]. f_equal.
      by apply kv_fold_insert_ne.
  - intros y Hy. rewrite lookup_insert_ne; [apply Hm; by right|].
    intros E. apply Hx. rewrite E. by apply list_elem_of_fmap_2.
Qed.

Lemma fields_of_lookup b k : block_wf b -> NoDup (kv_key <$> b_kvs b) ->
  fields_of (print_block b) !! k = (fun v => Split v ",") <$> (kv_map (b_kvs b) !! k).
Proof. intros H Hd. by rewrite fields_of_fold, fields_fold_lookup. Qed.

(** A limit as Slurm prints it. *)
Inductive limit := Unlimited | Limit (n : Z).
Definition print_limit (l : limit) : string :=
  match l with Unlimited => unlimited | Limit n => FormatInt n end.
Definition limit_ok (l : limit) : Prop := match l with Unlimited => True | Limit n => in_int64 n end.
Definition print_dur (d : option dur_syntax) : string := from_option dur_print unlimited d.
Definition dur_ok (d : option dur_syntax) : Prop := from_option dur_wf True d.

Record slurm_partition := mkSlurmPartition {
  pt_MaxTime : option dur_syntax;
  pt_MaxCPUsPerNode : limit;
  pt_MaxMemPerNode : limit;
  pt_MaxNodes : limit;
  pt_TotalCPUs : Z;
  pt_TotalNodes : Z;
}.

Definition describes_partition (m : gmap string string) (p : slurm_partition) : Prop :=
  m !! "MaxTime" = Some (print_dur (pt_MaxTime p)) /\ dur_ok (pt_MaxTime p) /\
  m !! "MaxCPUsPerNode" = Some (print_limit (pt_MaxCPUsPerNode p)) /\ limit_ok (pt_MaxCPUsPerNode p) /\
  m !! "MaxMemPerNode" = Some (print_limit (pt_MaxMemPerNode p)) /\ limit_ok (pt_MaxMemPerNode p) /\
  m !! "MaxNodes" = Some (print_limit (pt_MaxNodes p)) /\ limit_ok (pt_MaxNodes p) /\
  m !! "TotalCPUs" = Some (FormatInt (pt_TotalCPUs p)) /\ in_int64 (pt_TotalCPUs p) /\
  m !! "TotalNodes" = Some (FormatInt (pt_TotalNodes p)) /\ in_int64 (pt_TotalNodes p).

Definition dur_value (d : option dur_syntax) : Z :=
  from_option (fun x => wrap64 (dur_nanos (dur_fields x))) (-1)%Z d.
Definition limit_value (l : limit) (total : Z) : Z :=
  match l with Unlimited => total | Limit n => n end.

Lemma num_text_comma s : num_text s -> lacks "," s.
Proof. by apply num_text_lacks. Qed.

Lemma dur_print_comma x : dur_wf x -> lacks "," (dur_print x).
Proof.
  destruct x; simpl; intros H; destruct_and?; rewrite ?lacks_app; split_and?;
    auto using num_text_comma; done.
Qed.

Lemma print_dur_comma d : dur_ok d -> lacks "," (print_dur d).
Proof. destruct d; [apply dur_print_comma|done]. Qed.

Lemma print_limit_comma l : limit_ok l -> lacks "," (print_limit l).
Proof. destruct l; [done|]. intros H. by apply FormatInt_lacks. Qed.

Lemma dur_print_spec x : dur_wf x -> ParseDuration (dur_print x) = Ok (wrap64 (dur_nanos (dur_fields x))).
Proof. intros H. apply ParseDuration_accepts. eauto. Qed.

Lemma FormatInt_not_unlimited n : in_int64 n -> FormatInt n <> unlimited.
Proof. intros H E. pose proof (ParseInt_FormatInt n H) as Hp. rewrite E in Hp. discriminate Hp. Qed.

Lemma parse_count_limit m key total what what_total zero l t :
  m !! key = Some [print_limit l] -> limit_ok l ->
  (match total with None => t = (-1)%Z
   | Some k => m !! k = Some [FormatInt t] /\ in_int64 t end) ->
  parse_count m key total what what_total zero = Ok (limit_value l t).
Proof.
  intros Hk Hl Ht. unfold parse_count. rewrite Hk. cbn. destruct l as [|n]; cbn.
  - destruct total as [k|]; [|by subst]. destruct Ht as [Hm Hr]. cbn. rewrite Hm. cbn.
    by rewrite ParseIntR_FormatInt.
  - rewrite bool_decide_eq_false_2 by by apply FormatInt_not_unlimited.
    by rewrite ParseIntR_FormatInt.
Qed.

(** [parseResources] on a [scontrol show partition] block: every limit
    is read as printed; an unlimited node or CPU limit becomes the total of
    the partition, an unlimited memory or time limit becomes -1. *)
Lemma parseResources_block b p g :
  block_wf b -> blank g -> NoDup (kv_key <$> b_kvs b) -> describes_partition (kv_map (b_kvs b)) p ->
  parseResources (print_block b +:+ g) =
    Ok (mkResources (limit_value (pt_MaxNodes p) (pt_TotalNodes p))
                    (limit_value (pt_MaxMemPerNode p) (-1))
                    (limit_value (pt_MaxCPUsPerNode p) (pt_TotalCPUs p))
                    (dur_value (pt_MaxTime p)) []).
Proof.
  intros Hb Hg Hd Hp. unfold describes_partition in Hp. destruct_and! Hp.
  assert (Hf : forall k v, kv_map (b_kvs b) !! k = Some v -> lacks "," v ->
                 fields_of (print_block b) !! k = Some [v]).
  { intros k v Hk Hv. rewrite fields_of_lookup, Hk by done. simpl. by rewrite (Split_lacks "," ""). }
  unfold parseResources. rewrite TrimSpace_block by done. cbv zeta.
  assert (Ht : forall k n, kv_map (b_kvs b) !! k = Some (FormatInt n) -> in_int64 n ->
                 fields_of (print_block b) !! k = Some [FormatInt n]).
  { intros k n Hk Hn. apply Hf; [done|]. by apply FormatInt_lacks. }
  rewrite (Hf "MaxTime" _ H) by by apply print_dur_comma.
  erewrite (parse_count_limit _ "MaxCPUsPerNode" (Some "TotalCPUs")) by eauto using print_limit_comma.
  erewrite (parse_count_limit _ "MaxMemPerNode" None) by eauto using print_limit_comma.
  erewrite (parse_count_limit _ "MaxNodes" (Some "TotalNodes")) by eauto using print_limit_comma.
  cbn. destruct (pt_MaxTime p) as [x|]; cbn; [|done]. by rewrite dur_print_spec.
Qed.

(** ** Job descriptions *)

Definition get_str (tag : string) (ji : JobInfo) : string :=
  if bool_decide (tag = "JobId") then si_ID ji
  else if bool_decide (tag = "UserId") then si_UserID ji
  else if bool_decide (tag = "ArrayJobId") then si_ArrayJobID ji
  else if bool_decide (tag = "JobName") then si_Name ji
  else if bool_decide (tag = "ExitCode") then si_ExitCode ji
  else if bool_decide (tag = "JobState") then si_State ji
  else if bool_decide (tag = "WorkDir") then si_WorkDir ji
  else if bool_decide (tag = "StdOut") then si_StdOut ji
  else if bool_decide (tag = "StdErr") then si_StdErr ji
  else if bool_decide (tag = "Partition") then si_Partition ji
  else if bool_decide (tag = "NodeList") then si_NodeList ji
  else if bool_decide (tag = "BatchHost") then si_BatchHost ji
  else if bool_decide (tag = "NumNodes") then si_NumNodes ji
  else if bool_decide (tag = "Reason") then si_Reason ji
  else "".

Definition str_tags : list string :=
  ["JobId"; "UserId"; "ArrayJobId"; "JobName"; "ExitCode"; "JobState"; "WorkDir"; "StdOut"; "StdErr";
   "Partition"; "NodeList"; "BatchHost"; "NumNodes"; "Reason"].

Lemma fill_str_tag m ji tag : tag ∈ str_tags ->
  fill_tag m ji tag = Ok (set_field tag (VStr (default (get_str tag ji) (m !! tag))) ji).
Proof.
  intros Htag. unfold fill_tag. destruct (m !! tag) as [s|].
  - rewrite !bool_decide_eq_false_2; [done| |]; intros E; revert Htag;
      rewrite !elem_of_cons, elem_of_nil in E; destruct E as [->|[->|[]]]; by_compute.
  - f_equal. unfold str_tags in Htag. rewrite !elem_of_cons, elem_of_nil in Htag. destruct ji.
    by destruct_or! Htag; subst.
Qed.

(** The job a set of fields describes, field by field. *)
Definition time_of (m : gmap string string) (tag : string) : res (option Time) :=
  match m !! tag with
  | None => Ok None
  | Some s => wrap_err (parseTime s) ("could not parse time: " +:+ s)
  end.
Definition dur_of (m : gmap string string) (tag : string) : res (option Z) :=
  match m !! tag with
  | None => Ok None
  | Some s =>
      match ParseDuration s with
      | Ok d => Ok (Some d)
      | Err e => if errors_Is e ErrDurationIsUnlimited then Ok None
                 else Err (ErrWrap e ("could not parse duration: " +:+ s))
      | Panic p => Panic p
      end
  end.

Definition job_of (m : gmap string string) : res JobInfo :=
  let str tag := default "" (m !! tag) in
  submit ← time_of m "SubmitTime";
  start ← time_of m "StartTime";
  run ← dur_of m "RunTime";
  lim ← dur_of m "TimeLimit";
  Ok (mkJobInfo (str "JobId") (str "UserId") (str "ArrayJobId") (str "JobName") (str "ExitCode")
    (str "JobState") submit start run lim (str "WorkDir") (str "StdOut") (str "StdErr")
    (str "Partition") (str "NodeList") (str "BatchHost") (str "NumNodes") (str "Reason")).

Lemma fill_time_tag m ji tag : tag ∈ ["SubmitTime"; "StartTime"] ->
  set_field tag (VTime None) ji = ji ->
  fill_tag m ji tag = (t ← time_of m tag; Ok (set_field tag (VTime t) ji)).
Proof.
  intros Htag E. unfold fill_tag, time_of. destruct (m !! tag); simpl; [|by rewrite E].
  by rewrite bool_decide_eq_true_2.
Qed.

Lemma fill_dur_tag m ji tag : tag ∈ ["RunTime"; "TimeLimit"] ->
  fill_tag m ji tag =
    (t ← dur_of m tag; Ok (match t with Some d => set_field tag (VDur d) ji | None => ji end)).
Proof.
  intros Htag. unfold fill_tag, dur_of. destruct (m !! tag) as [s|]; simpl; [|done].
  rewrite bool_decide_eq_false_2, bool_decide_eq_true_2 by
    (try done; intros E; rewrite !elem_of_cons, elem_of_nil in E; revert Htag;
     destruct E as [->|[->|[]]]; by_compute).
  destruct (ParseDuration s) as [d|e|p]; [done| |done]. by destruct (errors_Is e _).
Qed.

(** One iteration of the loop on a known record: its result in normal form. *)
#[local] Ltac norm_fields :=
  repeat match goal with
  | |- context [set_field ?t ?v ?j] =>
      let r := eval vm_compute in (set_field t v j) in change (set_field t v j) with r
  end.
#[local] Ltac str_step m tag :=
  rewrite (fill_str_tag m _ tag) by by_compute; cbn [mbind res_bind];
  generalize (m !! tag); intros ?; norm_fields.

(** The reflective loop of [fillFromSlurmFields] over the struct tags
    reads every field of a job under its own key: it is [job_of]. *)
Lemma fillFromSlurmFields_spec m : fillFromSlurmFields m zero_JobInfo = job_of m.
Proof.
  unfold fillFromSlurmFields, job_tags, job_of, zero_JobInfo. cbn [fill_tags].
  str_step m "JobId". str_step m "UserId". str_step m "ArrayJobId".
  str_step m "JobName". str_step m "ExitCode". str_step m "JobState".
  rewrite fill_time_tag by (by_compute || reflexivity).
  destruct (time_of m "SubmitTime") as [submit|e|q]; cbn [mbind res_bind]; [|done..]. norm_fields.
  rewrite fill_time_tag by (by_compute || reflexivity).
  destruct (time_of m "StartTime") as [start|e|q]; cbn [mbind res_bind]; [|done..]. norm_fields.
  rewrite fill_dur_tag by by_compute.
  destruct (dur_of m "RunTime") as [run|e|q]; cbn [mbind res_bind]; [|done..].
  rewrite fill_dur_tag by by_compute.
  destruct (dur_of m "TimeLimit") as [lim|e|q]; cbn [mbind res_bind]; [|done..].
  destruct run, lim; norm_fields; str_step m "WorkDir"; str_step m "StdOut"; str_step m "StdErr";
    str_step m "Partition"; str_step m "NodeList"; str_step m "BatchHost"; str_step m "NumNodes";
    str_step m "Reason"; reflexivity.
Qed.

(** How a time and a duration appear in a job description, if they do. *)
Definition time_printed (o : option string) (t : option Time) : Prop :=
  (o = None /\ t = None) \/ (o = Some "Unknown" /\ t = None) \/
  (exists c, civil_ok c /\ o = Some (print_civil c) /\ t = Some (civil_time c)).
Definition dur_printed (o : option string) (d : option Z) : Prop :=
  (o = None /\ d = None) \/ (o = Some unlimited /\ d = None) \/
  (exists x, dur_wf x /\ o = Some (dur_print x) /\ d = Some (wrap64 (dur_nanos (dur_fields x)))).

(** The job a block describes by its fields. A field that is missing, as
    [ArrayJobId] of a job that is no array and [BatchHost] of a pending one
    are, leaves its text empty. A word that is no field, because its value
    holds another [=], says nothing about the job. *)
Definition describes_job (b : block) (j : JobInfo) : Prop :=
  let m := kv_map (b_kvs b) in
  (forall tag, tag ∈ str_tags -> default "" (m !! tag) = get_str tag j) /\
  time_printed (m !! "SubmitTime") (si_SubmitTime j) /\ time_printed (m !! "StartTime") (si_StartTime j) /\
  dur_printed (m !! "RunTime") (si_RunTime j) /\ dur_printed (m !! "TimeLimit") (si_TimeLimit j).

Definition print_time (c : option civil) : string := from_option print_civil "Unknown" c.
Definition time_ok (c : option civil) : Prop := from_option civil_ok True c.

Lemma parseTime_civil c : civil_ok c -> parseTime (print_civil c) = Ok (Some (civil_time c)).
Proof.
  intros H. pose proof (time_Parse_print c H) as Hp. unfold parseTime.
  destruct (_ || _) eqn:E; [|by rewrite Hp].
  apply orb_true_iff in E as [E|E]; apply bool_decide_eq_true in E.
  - rewrite E in Hp. discriminate Hp.
  - destruct (print_civil_head c H) as (d & s & Hd & Hc). rewrite Hc, lower_digit in E by done.
    injection E as -> _. discriminate Hd.
Qed.

Lemma parseTime_print t : time_ok t -> parseTime (print_time t) = Ok (civil_time <$> t).
Proof. destruct t as [c|]; [by apply parseTime_civil|done]. Qed.

Lemma time_of_printed m tag t : time_printed (m !! tag) t -> time_of m tag = Ok t.
Proof.
  unfold time_of. intros [[-> ->]|[[-> ->]|(c & Hc & -> & ->)]]; [done..|]. by rewrite parseTime_civil.
Qed.

Lemma dur_of_printed m tag d : dur_printed (m !! tag) d -> dur_of m tag = Ok d.
Proof.
  unfold dur_of. intros [[-> ->]|[[-> ->]|(x & Hx & -> & ->)]]; [done..|]. by rewrite dur_print_spec.
Qed.

Lemma job_of_described b j : describes_job b j -> job_of (kv_map (b_kvs b)) = Ok j.
Proof.
  intros (Hs & H1 & H2 & H3 & H4). unfold job_of.
  rewrite (time_of_printed _ _ _ H1), (time_of_printed _ _ _ H2), (dur_of_printed _ _ _ H3),
    (dur_of_printed _ _ _ H4). cbn [mbind res_bind]. unfold str_tags in Hs.
  rewrite !Hs by by_compute. by destruct j.
Qed.

(** [jobInfoFromScontrolResponse] recovers every job of a
    [scontrol show jobid] text: its texts, its times (an unknown one is
    absent) and its durations (an unlimited one is absent), in order. *)
Lemma jobInfoFromScontrolResponse_blocks bs js g :
  bs <> [] -> Forall block_wf bs -> blank g -> Forall2 describes_job bs js ->
  jobInfoFromScontrolResponse (print_blocks bs +:+ g) = Ok js.
Proof.
  intros Hne Hbs Hg Hj. unfold jobInfoFromScontrolResponse.
  rewrite TrimSpace_blocks, Split_blocks by done. apply mapR_Forall2. clear Hne.
  induction Hj as [|b j bs js Hb Hj IH]; csimpl; [constructor|]. inversion Hbs; subst.
  constructor; [|by apply IH].
  by rewrite slurm_fields_block, fillFromSlurmFields_spec, (job_of_described _ j).
Qed.

(** ** Job steps *)


Record sacct_row := mkSacctRow {
  row_start : option civil;
  row_end : option civil;
  row_code : Z;
  row_signal : string;
  row_state : string;
  row_id : string;
  row_name : string;
}.

Definition row_wf (r : sacct_row) : Prop :=
  time_ok (row_start r) /\ time_ok (row_end r) /\ in_int64 (row_code r) /\
  Forall (fun s => lacks "|" s /\ lacks "010" s) [row_signal r; row_state r; row_id r; row_name r] /\
  lacks ":" (row_signal r).

#[export] Instance row_wf_dec r : Decision (row_wf r).
Proof. unfold row_wf, time_ok, in_int64. destruct (row_start r), (row_end r); apply _. Defined.

Definition row_cells (r : sacct_row) : list string :=
  [print_time (row_start r); print_time (row_end r); FormatInt (row_code r) +:+ ":" +:+ row_signal r;
   row_state r; row_id r; row_name r; ""].
Definition print_row (r : sacct_row) : string := Join (row_cells r) "|".

Definition row_step (r : sacct_row) : JobStepInfo :=
  mkJobStepInfo (row_id r) (row_name r) (civil_time <$> row_start r) (civil_time <$> row_end r)
    (row_code r) (row_state r).

Lemma print_time_lacks c t : c = "|"%char \/ c = "010"%char -> time_ok t -> lacks c (print_time t).
Proof.
  intros Hc Ht. destruct t as [t|]; simpl; [apply print_civil_lacks; [|done]|]; by destruct Hc as [->| ->].
Qed.

Lemma row_cells_lack r c : c = "|"%char \/ c = "010"%char -> row_wf r -> Forall (lacks c) (row_cells r).
Proof.
  intros Hc (Hs & He & Hcode & Ht & _). unfold row_cells.
  rewrite !list.Forall_cons in Ht. destruct_and! Ht.
  assert (Hcase : forall s, lacks "|" s /\ lacks "010" s -> lacks c s).
  { intros s [? ?]. by destruct Hc as [->| ->]. }
  repeat (apply list.Forall_cons; split); auto using print_time_lacks; [|done].
  apply lacks_app. split.
  - apply Hcase. split; by apply FormatInt_lacks.
  - apply lacks_app. split; [|by apply Hcase]. by destruct Hc as [->| ->].
Qed.

Lemma parse_print_row r : row_wf r -> parse_step (print_row r) = Ok (row_step r).
Proof.
  intros Hr. unfold parse_step, print_row.
  rewrite (Split_Join "|" "") by (try done; apply row_cells_lack; auto).
  destruct Hr as (Hs & He & Hc & _ & Hsig). cbn [row_cells].
  rewrite !parseTime_print by done. cbn [mbind res_bind].
  change (":" +:+ row_signal r) with (String ":" (row_signal r)).
  rewrite Split_cons1, (Split_lacks ":" "") by (done || by apply FormatInt_lacks).
  by rewrite AtoiR_FormatInt.
Qed.

Lemma print_row_line r : row_wf r -> lacks "010" (print_row r) /\ print_row r <> "".
Proof.
  intros Hr. split; [apply lacks_Join; [done|]; apply row_cells_lack; auto|].
  unfold print_row. cbn [Join row_cells]. intros E%(f_equal String.length).
  rewrite !length_str_app in E. simpl in E. lia.
Qed.

(** [parseSacctResponse] recovers the steps of a [sacct -p -n] text:
    their ids, names, times, exit codes and states, in order. *)
Lemma parseSacctResponse_rows rs :
  rs <> [] -> Forall row_wf rs ->
  parseSacctResponse (Join (print_row <$> rs) LF +:+ LF) = Ok (row_step <$> rs).
Proof.
  intros Hne Hrs. unfold parseSacctResponse, LF.
  assert (Hl : Forall (fun s => lacks "010" s /\ s <> "") (print_row <$> rs)).
  { apply Forall_fmap. eapply Forall_impl; [|done]. intros r Hr. by apply print_row_line. }
  rewrite TrimByte_ends.
  - rewrite (Split_Join "010" ""); [|by destruct rs|eapply Forall_impl; [|done]; by intros ? []].
    apply mapR_Forall2. clear Hne Hl. induction Hrs; csimpl; constructor; auto using parse_print_row.
  - apply Join_ends_ne; [by destruct rs|]. eapply Forall_impl; [|done].
    intros s []. by apply lacks_ends_ne.
Qed.

(** ** Texts that describe nothing *)

Lemma parse_part_no_panic s what : no_panic (parse_part s what).
Proof. unfold parse_part. auto with go. Qed.
#[local] Hint Resolve parse_part_no_panic : go.

Lemma duration_parts_no_panic parts : parts <> [] -> no_panic (duration_parts parts).
Proof.
  intros Hne. destruct parts as [|p0 rest]; [done|]. unfold duration_parts.
  cbn [index of_option lookup list_lookup mbind res_bind].
  destruct rest as [|p1 [|p2 [|p3 rest]]]; cbn [length Nat.ltb Nat.leb index of_option lookup list_lookup mbind res_bind];
    case_match; repeat (apply no_panic_bind; [auto with go|intros ? _]); try done.
Qed.

Lemma ParseDuration_no_panic s : no_panic (ParseDuration s).
Proof.
  unfold ParseDuration. case_match; [done|]. cbv zeta. case_match; [done|].
  apply no_panic_bind; [by apply duration_parts_no_panic, Split_nonempty|]. by intros [[[d h] m] sec] _.
Qed.

(** Every key of the map of a partition has a first value. *)
Lemma fields_of_nonempty s : map_Forall (fun _ vs => vs <> []) (fields_of s).
Proof.
  unfold fields_of. generalize (Fields s). intros l.
  assert (H : forall m, map_Forall (fun _ vs => vs <> []) m ->
                map_Forall (fun _ vs => vs <> []) (foldl add_field m l)); [|by apply H, map_Forall_empty].
  induction l as [|w l IH]; intros m Hm; [done|]. cbn [foldl]. apply IH. unfold add_field.
  destruct (Split w "=") as [|k [|v [|]]]; try done. apply map_Forall_insert_2; [|done].
  pose proof (Split_nonempty v ","). destruct (Split v ","); [done|]. by destruct (default [] (m !! k)).
Qed.

Lemma parse_count_no_panic m key total what what_total zero :
  map_Forall (fun _ vs => vs <> []) m -> no_panic (parse_count m key total what what_total zero).
Proof.
  intros Hm. unfold parse_count. destruct (m !! key) as [vs|] eqn:Hk; [|done].
  apply Hm in Hk. destruct vs as [|v vs]; [done|]. cbn. case_bool_decide; [|auto with go].
  destruct (total ≫= _) as [ts|] eqn:Ht; [|done]. destruct total as [k|]; [|done]. cbn in Ht.
  apply Hm in Ht. destruct ts; [done|]. cbn. auto with go.
Qed.

Lemma parseResources_no_panic s : no_panic (parseResources s).
Proof.
  unfold parseResources. cbv zeta. pose proof (fields_of_nonempty (TrimSpace s)) as Hm.
  apply no_panic_bind.
  - destruct (_ !! "MaxTime") as [vs|] eqn:Hk; [|done]. apply Hm in Hk. destruct vs as [|v vs]; [done|].
    cbn. pose proof (ParseDuration_no_panic v). destruct (ParseDuration v); [done| |done]. by case_match.
  - intros wall _. by repeat (apply no_panic_bind; [by apply parse_count_no_panic|intros ? _]).
Qed.

Lemma parseTime_no_panic s : no_panic (parseTime s).
Proof. unfold parseTime. case_match; [done|]. apply no_panic_bind; [auto with go|done]. Qed.
#[local] Hint Resolve parseTime_no_panic ParseDuration_no_panic : go.

Lemma parse_step_no_panic l : no_panic (parse_step l).
Proof.
  unfold parse_step. destruct (Split l "|") as [|s0 [|s1 [|s2 [|s3 [|s4 [|s5 [|s6 [|]]]]]]]]; try done.
  do 2 (apply no_panic_bind; [auto with go|intros ? _]).
  destruct (Split s2 ":") as [|c0 [|c1 [|]]]; try done. apply no_panic_bind; [auto with go|done].
Qed.

Lemma job_of_no_panic m : no_panic (job_of m).
Proof.
  assert (Ht : forall tag, no_panic (time_of m tag)).
  { intros tag. unfold time_of. destruct (m !! tag); [|done]. auto with go. }
  assert (Hd : forall tag, no_panic (dur_of m tag)).
  { intros tag. unfold dur_of. destruct (m !! tag) as [s|]; [|done].
    pose proof (ParseDuration_no_panic s). destruct (ParseDuration s); [done| |done]. by case_match. }
  unfold job_of. cbv zeta. by do 4 (apply no_panic_bind; [auto|intros ? _]).
Qed.

(** C21. No text, well-formed or not, makes a parser of the agent panic: each
    returns a value or an error. *)
Theorem parsers_no_panic s :
  no_panic (ParseDuration s) /\ no_panic (parseResources s) /\ no_panic (parseSacctResponse s) /\
  no_panic (jobInfoFromScontrolResponse s).
Proof.
  split_and!; auto with go.
  - apply parseResources_no_panic.
  - unfold parseSacctResponse. apply mapR_no_panic, parse_step_no_panic.
  - unfold jobInfoFromScontrolResponse. apply mapR_no_panic. intros raw.
    rewrite fillFromSlurmFields_spec. apply job_of_no_panic.
Qed.
