(* ===== verification/AgentClient.v ===== *)
(** * The client of the local Slurm cluster (pkg/slurm-agent/slurm.go)

    [Client] runs the Slurm binaries and parses what they print. The
    machine it runs on is the class [SlurmHost]: looking a binary up and
    running a command, which may change the machine. The theorems say which
    [sbatch] options a request becomes and what each call returns for what
    the binaries printed. *)

From S2P Require Import Prelude GoStrings GoNum GoTime KeyValue AgentParse.

(** A finished command: its standard output, the standard error when it
    exited with a failure status, and the error [exec] reports. *)
Record CmdResult := mkCmdResult { c_out : string; c_stderr : option string; c_err : option error }.

Class SlurmHost (W : Type) := {
  LookPath : string -> W -> option error;
  Command : string -> list string -> string -> W -> CmdResult * W;
}.

Definition sbatchBinaryName : string := "sbatch".
Definition scancelBinaryName : string := "scancel".
Definition scontrolBinaryName : string := "scontrol".
Definition sacctBinaryName : string := "sacct".
Definition sinfoBinaryName : string := "sinfo".

Definition ErrInvalidSacctResponse : string := "unable to parse sacct response".
Definition ErrFileNotFound : error := ErrSentinel "file is not found".

Record SbatchRequest := mkSbatchRequest {
  sb_Script : string;
  sb_Partition : string;
  sb_RunAsUser : string;
  sb_RunAsGroup : string;
  sb_CpufsPerTask : Z;
  sb_MemPerCpu : Z;
  sb_NtasksPerNode : Z;
  sb_Array : string;
  sb_Ntasks : Z;
  sb_Nodes : Z;
  sb_JobName : string;
  sb_WorkingDir : string;
}.

(** ** The options of sbatch *)

Definition str_opt (name v : string) : list string :=
  if bool_decide (v = "") then [] else [name +:+ "=" +:+ v].
Definition int_opt (name : string) (n : Z) : list string :=
  if bool_decide (0 < n)%Z then [name +:+ "=" +:+ FormatInt n] else [].

Definition getSbatchOpts (req : SbatchRequest) : list string :=
  ["--parsable"] ++
  str_opt "--partition" (sb_Partition req) ++
  str_opt "--uid" (sb_RunAsUser req) ++
  str_opt "--gid" (sb_RunAsGroup req) ++
  str_opt "--array" (sb_Array req) ++
  int_opt "--cpus-per-task" (sb_CpufsPerTask req) ++
  int_opt "--mem-per-cpu" (sb_MemPerCpu req) ++
  int_opt "--nodes" (sb_Nodes req) ++
  int_opt "--ntasks" (sb_Ntasks req) ++
  int_opt "--ntasks-per-node" (sb_NtasksPerNode req) ++
  int_opt "--ntasks-per-node" (sb_NtasksPerNode req) ++
  str_opt "--job-name" (sb_JobName req) ++
  str_opt "--chdir" (sb_WorkingDir req).

(** The values an option list gives to the option [name]. *)
Definition opt_values (name : string) (opts : list string) : list string :=
  omap (fun o => if HasPrefix o (name +:+ "=") then Some (TrimPrefix o (name +:+ "=")) else None) opts.

Section client.
Context {W : Type} {SH : SlurmHost W}.

(** [cmd.Output()] and [cmd.CombinedOutput()]. *)
Definition Output (bin : string) (args : list string) (stdin : string) : M W CmdResult :=
  fun w => let '(r, w') := Command bin args stdin w in (Ok r, w').

Definition NewClient (w : W) : res unit :=
  let missing := List.filter (fun bin => bool_decide (is_Some (LookPath bin w)))
    [sacctBinaryName; sbatchBinaryName; scancelBinaryName; scontrolBinaryName; sinfoBinaryName] in
  if negb (length missing =? 0)%nat
  then Err (ErrNew ("no slurm-agent binaries found: " +:+ Join missing ", "))
  else Ok tt.

Definition SBatch (req : SbatchRequest) : M W Z :=
  r ← Output sbatchBinaryName (getSbatchOpts req) (sb_Script req);
  match c_err r with
  | Some e => fail (ErrWrap e "failed to execute sbatch")
  | None => lift (wrap_err (AtoiR (TrimSpace (c_out r))) "could not parse job id")
  end.

Definition SCancel (jobID : Z) : M W unit :=
  r ← Output scancelBinaryName [FormatInt jobID] "";
  match errors_Wrap (c_err r) "failed to execute scancel" with
  | Some e => fail e
  | None => mret tt
  end.

Definition SJobInfo (jobID : Z) : M W (list JobInfo) :=
  r ← Output scontrolBinaryName ["show"; "jobid"; FormatInt jobID] "";
  match c_err r with
  | Some e => fail (ErrWrap e ("failed to get info for jobid: " +:+ FormatInt jobID))
  | None => lift (wrap_err (jobInfoFromScontrolResponse (c_out r)) "could not parse scontrol response")
  end.

Definition SJobSteps (jobID : Z) : M W (list JobStepInfo) :=
  r ← Output sacctBinaryName
        ["-p"; "-n"; "-j"; FormatInt jobID; "-o start,end,exitcode,state,jobid,jobname"] "";
  match c_err r with
  | Some e =>
      match c_stderr r with
      | Some stderr => fail (ErrWrap e ("failed to execute sacct: " +:+ stderr))
      | None => fail (ErrWrap e "failed to execute sacct")
      end
  | None => lift (wrap_err (parseSacctResponse (c_out r)) ErrInvalidSacctResponse)
  end.

Definition Resources (partition : string) : M W AgentParse.Resources :=
  r ← Output scontrolBinaryName ["show"; "partition"; partition] "";
  match c_err r with
  | Some e => fail (ErrWrap e "could not get partition info")
  | None => lift (wrap_err (parseResources (c_out r)) "could not parse partition resources")
  end.

Definition Partitions : M W (list string) :=
  r ← Output scontrolBinaryName ["show"; "partition"] "";
  match c_err r with
  | Some e => fail (ErrWrap e "could not get partition info")
  | None => mret (parsePartitionsNames (c_out r))
  end.

Definition Partition (partition : string) : M W AgentParse.Partition :=
  r ← Output scontrolBinaryName ["show"; "partition"; partition] "";
  match c_err r with
  | Some e => fail (ErrWrap e ("could not get partition info,out is : [" +:+ c_out r +:+ "]"))
  | None => mret (parsePartition (TrimSpace (c_out r)))
  end.

(** The blocks of [scontrol show nodes], empty ones skipped. *)
Definition parse_nodes (out : string) : list Node :=
  parseNode <$> List.filter nonempty (Split (TrimSpace out) LFLF).

Definition Nodes (nodeNames : list string) : M W (list Node) :=
  if (length nodeNames =? 0)%nat then mret []
  else
    r ← Output scontrolBinaryName ["show"; "nodes"; Join nodeNames ","] "";
    match c_err r with
    | Some e => fail (ErrWrap e "could not get partition info")
    | None => mret (parse_nodes (c_out r))
    end.

(** The second error return of [Version] wraps a nil error: it is no error. *)
Definition Version : M W string :=
  r ← Output sinfoBinaryName ["-V"] "";
  match c_err r with
  | Some e => fail (ErrWrap e "could not get slurm-agent info")
  | None =>
      match Split (c_out r) " " with
      | [_; s1] => mret s1
      | _ =>
          match errors_Wrap (c_err r) ("could not parse sinfo response " +:+ c_out r) with
          | Some e => fail e
          | None => mret ""
          end
      end
  end.
End client.

(** ** The options a request becomes *)

Lemma opt_values_app name a b : opt_values name (a ++ b) = opt_values name a ++ opt_values name b.
Proof. unfold opt_values. induction a as [|x a IH]; [done|]. csimpl. case_match; by rewrite IH. Qed.

Lemma opt_values_same name v : opt_values name [name +:+ "=" +:+ v] = [v].
Proof.
  unfold opt_values. cbn [omap list_omap]. rewrite <- str_app_assoc. unfold HasPrefix.
  by rewrite prefix_app, TrimPrefix_app.
Qed.

Definition str_val (v : string) : list string := if bool_decide (v = "") then [] else [v].
Definition int_val (n : Z) : list string := if bool_decide (0 < n)%Z then [FormatInt n] else [].

Lemma opt_values_str name v : opt_values name (str_opt name v) = str_val v.
Proof. unfold str_opt, str_val. case_bool_decide; [done|apply opt_values_same]. Qed.
Lemma opt_values_int name n : opt_values name (int_opt name n) = int_val n.
Proof. unfold int_opt, int_val. case_bool_decide; [apply opt_values_same|done]. Qed.

(** Two option names of which none is the start of an option of the other. *)
Definition other_opt (name name' : string) : Prop :=
  forall v, HasPrefix (name' +:+ "=" +:+ v) (name +:+ "=") = false.

Lemma opt_values_str_other name name' v :
  other_opt name name' -> opt_values name (str_opt name' v) = [].
Proof.
  intros H. unfold str_opt. case_bool_decide; [done|]. unfold opt_values. cbn [omap list_omap]. by rewrite H.
Qed.
Lemma opt_values_int_other name name' n :
  other_opt name name' -> opt_values name (int_opt name' n) = [].
Proof.
  intros H. unfold int_opt. case_bool_decide; [|done]. unfold opt_values. cbn [omap list_omap]. by rewrite H.
Qed.

(** What sbatch makes of its options: the last value of each counts. *)
Definition last_str (name : string) (opts : list string) : string := default "" (list.last (opt_values name opts)).
Definition last_int (name : string) (opts : list string) : Z := from_option ParseInt_ 0%Z (list.last (opt_values name opts)).

Definition read_request (script : string) (opts : list string) : SbatchRequest := {|
  sb_Script := script;
  sb_Partition := last_str "--partition" opts;
  sb_RunAsUser := last_str "--uid" opts;
  sb_RunAsGroup := last_str "--gid" opts;
  sb_CpufsPerTask := last_int "--cpus-per-task" opts;
  sb_MemPerCpu := last_int "--mem-per-cpu" opts;
  sb_NtasksPerNode := last_int "--ntasks-per-node" opts;
  sb_Array := last_str "--array" opts;
  sb_Ntasks := last_int "--ntasks" opts;
  sb_Nodes := last_int "--nodes" opts;
  sb_JobName := last_str "--job-name" opts;
  sb_WorkingDir := last_str "--chdir" opts;
|}.

(** The request without its negative numbers, which become no option. *)
Definition clamp (req : SbatchRequest) : SbatchRequest := {|
  sb_Script := sb_Script req;
  sb_Partition := sb_Partition req;
  sb_RunAsUser := sb_RunAsUser req;
  sb_RunAsGroup := sb_RunAsGroup req;
  sb_CpufsPerTask := Z.max 0 (sb_CpufsPerTask req);
  sb_MemPerCpu := Z.max 0 (sb_MemPerCpu req);
  sb_NtasksPerNode := Z.max 0 (sb_NtasksPerNode req);
  sb_Array := sb_Array req;
  sb_Ntasks := Z.max 0 (sb_Ntasks req);
  sb_Nodes := Z.max 0 (sb_Nodes req);
  sb_JobName := sb_JobName req;
  sb_WorkingDir := sb_WorkingDir req;
|}.

Definition ints_ok (req : SbatchRequest) : Prop :=
  Forall in_int64 [sb_CpufsPerTask req; sb_MemPerCpu req; sb_NtasksPerNode req; sb_Ntasks req; sb_Nodes req].

Lemma last_str_val v : default "" (list.last (str_val v)) = v.
Proof. unfold str_val. by case_bool_decide; subst. Qed.

Lemma last_int_val n : in_int64 n -> from_option ParseInt_ 0%Z (list.last (int_val n)) = Z.max 0 n.
Proof.
  intros H. unfold int_val. case_bool_decide; simpl; [|lia].
  unfold ParseInt_. rewrite ParseInt_FormatInt by done. simpl. lia.
Qed.

Lemma last_int_val_twice n : list.last (int_val n ++ int_val n) = list.last (int_val n).
Proof. unfold int_val. by case_bool_decide. Qed.

#[local] Ltac read_opts :=
  unfold last_str, last_int, getSbatchOpts; rewrite !opt_values_app;
  rewrite ?opt_values_str, ?opt_values_int;
  rewrite ?opt_values_str_other, ?opt_values_int_other by (intros ?; reflexivity);
  change (opt_values ?n ["--parsable"]) with (@nil string);
  rewrite ?app_nil_l, ?app_nil_r, ?last_int_val_twice.

(** The options [getSbatchOpts] passes to [sbatch] say exactly what the
    request says: reading them back gives the request, its non-positive
    numbers counting as absent. *)
Lemma getSbatchOpts_read req :
  ints_ok req -> read_request (sb_Script req) (getSbatchOpts req) = clamp req.
Proof.
  intros H. unfold ints_ok in H. rewrite !list.Forall_cons in H. destruct_and! H.
  unfold read_request, clamp. f_equal; read_opts; auto using last_str_val, last_int_val.
Qed.

(** The texts of the options, by name, for a request with these values; a
    non-positive number is no option. *)
Definition count_text (n : Z) : string := if bool_decide (0 < n)%Z then FormatInt n else "".
Definition request_options (req : SbatchRequest) : list (string * string) :=
  [("--partition", sb_Partition req); ("--uid", sb_RunAsUser req); ("--gid", sb_RunAsGroup req); ("--array", sb_Array req);
   ("--cpus-per-task", count_text (sb_CpufsPerTask req)); ("--mem-per-cpu", count_text (sb_MemPerCpu req));
   ("--nodes", count_text (sb_Nodes req)); ("--ntasks", count_text (sb_Ntasks req));
   ("--ntasks-per-node", count_text (sb_NtasksPerNode req)); ("--job-name", sb_JobName req); ("--chdir", sb_WorkingDir req)].

Lemma last_count n : default "" (list.last (int_val n)) = count_text n.
Proof. unfold int_val, count_text. by case_bool_decide. Qed.

(** Each option has its value in the command line, and there are no others. *)
Lemma getSbatchOpts_options req :
  (forall name v, (name, v) ∈ request_options req -> last_str name (getSbatchOpts req) = v) /\
  (forall name, (forall name', name' ∈ (request_options req).*1 -> other_opt name name') ->
     HasPrefix "--parsable" (name +:+ "=") = false -> last_str name (getSbatchOpts req) = "") /\
  (forall o, o ∈ getSbatchOpts req -> o = "--parsable" \/
     exists name v, (name, v) ∈ request_options req /\ v <> "" /\ o = name +:+ "=" +:+ v).
Proof.
  split_and!.
  - intros name v H. unfold request_options in H. rewrite !elem_of_cons in H. destruct_or! H; [simplify_eq..|by apply not_elem_of_nil in H].
    all: read_opts; auto using last_str_val, last_count.
  - intros name Ho Hp. unfold last_str, getSbatchOpts. rewrite !opt_values_app.
    assert (E : opt_values name ["--parsable"] = []) by (unfold opt_values; cbn [omap list_omap]; by rewrite Hp).
    rewrite E, !opt_values_str_other, !opt_values_int_other by (apply Ho; cbn; set_solver). done.
  - intros o Ho. unfold getSbatchOpts in Ho. rewrite !elem_of_app, list_elem_of_singleton in Ho.
    assert (Hstr : forall name v, (name, v) ∈ request_options req -> o ∈ str_opt name v ->
              exists name v, (name, v) ∈ request_options req /\ v <> "" /\ o = name +:+ "=" +:+ v).
    { intros name v Hin H. unfold str_opt in H. case_bool_decide; [by apply not_elem_of_nil in H|].
      apply list_elem_of_singleton in H. by exists name, v. }
    assert (Hint : forall name n, (name, count_text n) ∈ request_options req -> o ∈ int_opt name n ->
              exists name v, (name, v) ∈ request_options req /\ v <> "" /\ o = name +:+ "=" +:+ v).
    { intros name n Hin H. unfold int_opt, count_text in *. case_bool_decide; [|by apply not_elem_of_nil in H].
      apply list_elem_of_singleton in H. exists name, (FormatInt n). split_and!; [done|apply FormatInt_nonempty|done]. }
    destruct_or! Ho; [by left|right..].
    all: first [apply (Hstr _ _) in Ho|apply (Hint _ _) in Ho]; [exact Ho|unfold request_options; set_solver].
Qed.

(** ** The nodes of a listing *)

Lemma print_block_nonempty b : block_wf b -> nonempty (print_block b) = true.
Proof.
  intros H. destruct (block_words b H) as [Hw _]. apply nonempty_true. unfold print_block.
  by destruct (block_text_head (item_text (b_first b)) (prod_map id item_text <$> b_rest b) Hw) as (c & t & -> & _).
Qed.

Lemma parse_nodes_blocks bs g :
  bs <> [] -> Forall block_wf bs -> blank g ->
  parse_nodes (print_blocks bs +:+ g) = (fun b => node_of (kv_map (b_kvs b))) <$> bs.
Proof.
  intros Hne Hbs Hg. unfold parse_nodes. rewrite TrimSpace_blocks, Split_blocks by done.
  clear Hne. induction Hbs as [|b bs Hb Hbs IH]; [done|]. csimpl.
  rewrite print_block_nonempty by done. csimpl. by rewrite parseNode_block, IH.
Qed.
