(* ===== verification/AgentServer.v ===== *)
(** * The Slurm agent's service (pkg/slurm-agent/api/slurm.go)

    [Slurm] implements [WorkloadManagerServer] over the local client. Its
    only mutable state is [knownJobs], the jobs already submitted by request
    uid; [Srv] pairs it with the machine. Converted times go through the
    class [ProtoTime]. The service is an instance of the interface
    [WorkloadManager] its clients are verified against. The concurrent
    handlers of [SubmitJob] are a step relation over its atomic actions. *)

From S2P Require Import Prelude GoStrings GoNum GoTime KeyValue AgentParse AgentClient Workload.

Definition localFilePrefix : string := "local.file".

(** A feature in the configuration file. *)
Record CfgFeature := mkCfgFeature { cf_Name : string; cf_Version : string; cf_Quantity : Z }.

Record PartitionResources := mkPartitionResources {
  pc_AutoNodes : bool;
  pc_AutoCPUPerNode : bool;
  pc_AutoMemPerNode : bool;
  pc_AutoWallTime : bool;
  pc_Nodes : Z;
  pc_CPUPerNode : Z;
  pc_MemPerNode : Z;
  pc_WallTime : Z;
  pc_AdditionalFeatures : list CfgFeature;
}.
Definition zero_PartitionResources : PartitionResources :=
  mkPartitionResources false false false false 0 0 0 0 [].

Definition Config : Type := gmap string PartitionResources.

(** The constant part of [Slurm], and the state its handlers run in. *)
Record Slurm := mkSlurm { sl_uid : Z; sl_cfg : Config }.
Record Srv (W : Type) := mkSrv { knownJobs : gmap string Z; host : W }.
Arguments mkSrv {W}.
Arguments knownJobs {W}.
Arguments host {W}.

Definition NewSlurm (geteuid : Z) (cfg : Config) : Slurm := mkSlurm geteuid cfg.

(** ** Conversions *)

Definition status_of (state : string) : JobStatus := default JobStatus_UNKNOWN (JobStatus_value state).

Section convert.
Context {PT : ProtoTime}.

Definition proto_time (t : option Time) (msg : string) : res (option Timestamp) :=
  match t with
  | None => Ok None
  | Some t => pt ← wrap_err (TimestampProto t) msg; Ok (Some pt)
  end.

Definition to_proto_step (s : AgentParse.JobStepInfo) : res Workload.JobStepInfo :=
  startedAt ← proto_time (ss_StartedAt s) "could not convert started go time to proto time";
  finishedAt ← proto_time (ss_FinishedAt s) "could not convert finished go time to proto time";
  Ok {| js_Id := ss_ID s;
        js_Name := ss_Name s;
        js_ExitCode := wrap32 (ss_ExitCode s);
        js_Status := status_of (ss_State s);
        js_StartTime := startedAt;
        js_EndTime := finishedAt |}.
Definition toProtoSteps (ss : list AgentParse.JobStepInfo) : res (list Workload.JobStepInfo) :=
  mapR to_proto_step ss.

Definition map_job_info (inf : AgentParse.JobInfo) : res Workload.JobInfo :=
  submitTime ← proto_time (si_SubmitTime inf) "could not convert submit go time to proto time";
  startTime ← proto_time (si_StartTime inf) "could not convert start go time to proto time";
  Ok {| ji_Id := si_ID inf;
        ji_UserId := si_UserID inf;
        ji_Name := si_Name inf;
        ji_ExitCode := si_ExitCode inf;
        ji_Status := status_of (si_State inf);
        ji_SubmitTime := submitTime;
        ji_StartTime := startTime;
        ji_RunTime := DurationProto <$> si_RunTime inf;
        ji_TimeLimit := DurationProto <$> si_TimeLimit inf;
        ji_WorkingDir := si_WorkDir inf;
        ji_StdOut := si_StdOut inf;
        ji_StdErr := si_StdErr inf;
        ji_Partition := si_Partition inf;
        ji_NodeList := si_NodeList inf;
        ji_BatchHost := si_BatchHost inf;
        ji_NumNodes := si_NumNodes inf;
        ji_ArrayId := si_ArrayJobID inf;
        ji_Reason := si_Reason inf;
        ji_EndTime := None |}.
Definition mapSInfoToProtoInfo (si : list AgentParse.JobInfo) : res (list Workload.JobInfo) :=
  mapR map_job_info si.
End convert.

(** ** The script of a container job *)


Definition run_flags (opt : SingularityOptions) : list string :=
  (if bool_decide (so_App opt = "") then [] else ["--app=" +:+ quoted (so_App opt)]) ++
  (if bool_decide (so_HostName opt = "") then [] else ["--hostname=" +:+ quoted (so_HostName opt)]) ++
  (if (length (so_Binds opt) =? 0)%nat then [] else ["--bind=" +:+ quoted (Join (so_Binds opt) ",")]) ++
  (if so_ClearEnv opt then ["-c"] else []) ++
  (if so_FakeRoot opt then ["-f"] else []) ++
  (if so_Ipc opt then ["-i"] else []) ++
  (if so_Pid opt then ["-p"] else []) ++
  (if so_NoPrivs opt then ["--no-privs"] else []) ++
  (if so_Writable opt then ["-w"] else []).

(** The run command is a format: the image name goes where its [%s] is. *)
Definition buildRunCommand (opt : option SingularityOptions) : res string :=
  opt ← of_option NilDeref opt;
  let run := "srun singularity run" in
  let flags := run_flags opt in
  let run := if negb (length flags =? 0)%nat then run +:+ " " +:+ Join flags " " else run in
  Ok (run +:+ " " +:+ quoted "%s" +:+ " || exit").

(** [fmt.Sprintf(format, arg)] with one string: [%s] takes the argument, a
    second one finds none, [%%] is a percent sign. [None] when the format has
    another directive. *)
Fixpoint sprintf_s (format : string) (arg : option string) : option string :=
  match format with
  | "" => Some (match arg with Some a => "%!(EXTRA string=" +:+ a +:+ ")" | None => "" end)
  | String "%" (String "s" f) => (fun t => default "%!s(MISSING)" arg +:+ t) <$> sprintf_s f None
  | String "%" (String "%" f) => String "%" <$> sprintf_s f arg
  | String "%" _ => None
  | String c f => String c <$> sprintf_s f arg
  end.

Section script.
(** What [Sprintf] makes of the other directives, which only a value of
    the container options can bring into the format. *)
Context (sprintf_other : string -> string -> string).

Definition Sprintf_s (format arg : string) : string :=
  default (sprintf_other format arg) (sprintf_s format (Some arg)).

Definition num_line (line : string) (n : Z) : list string :=
  if bool_decide (n = 0%Z) then [] else [line +:+ FormatInt n].

(** [id] is the next [uuid.New().String()]. *)
Definition buildSLURMScript (id : string) (r : SubmitJobContainerRequest) : res string :=
  runT ← buildRunCommand (sc_Options r);
  opts ← of_option NilDeref (sc_Options r);
  let lines := ["#!/bin/sh"] ++
    num_line "#SBATCH --time=0:" (sc_WallTime r) ++
    num_line "#SBATCH --mem=" (sc_MemPerNode r) ++
    num_line "#SBATCH --nodes=" (sc_Nodes r) ++
    num_line "#SBATCH --cpus-per-task=" (sc_CpuPerNode r) in
  if HasPrefix (sc_ImageName r) localFilePrefix then
    let image := TrimPrefix (sc_ImageName r) localFilePrefix in
    Ok (Join (lines ++
      (if negb (so_AllowUnsigned opts) then ["srun singularity verify " +:+ quoted image +:+ " || exit"] else []) ++
      [Sprintf_s runT image]) LF)
  else
    let pull := (if so_AllowUnsigned opts then "srun singularity pull -U --name " else "srun singularity pull --name ")
                  +:+ quoted id +:+ " " +:+ quoted (sc_ImageName r) +:+ " || exit" in
    Ok (Join (lines ++ [pull; Sprintf_s runT id; "srun rm " +:+ quoted id]) LF).
End script.

(** ** Handlers *)

Class UuidSource (W : Type) := uuid_New : W -> string * W.

Section handlers.
Context {W : Type} {SH : SlurmHost W} {PT : ProtoTime}.
Variable s : Slurm.

Definition on_host {A} (m : M W A) : M (Srv W) A :=
  fun st => let '(r, w') := m (host st) in (r, mkSrv (knownJobs st) w').

Definition to_sbatch (req : SubmitJobRequest) : SbatchRequest := {|
  sb_Script := sj_Script req;
  sb_Partition := sj_Partition req;
  sb_RunAsUser := sj_RunAsUser req;
  sb_RunAsGroup := sj_RunAsGroup req;
  sb_CpufsPerTask := sj_CpufsPerTask req;
  sb_MemPerCpu := sj_MemPerCpu req;
  sb_NtasksPerNode := sj_NtasksPerNode req;
  sb_Array := sj_Array req;
  sb_Ntasks := sj_Ntasks req;
  sb_Nodes := sj_Nodes req;
  sb_JobName := sj_JobName req;
  sb_WorkingDir := sj_WorkingDir req |}.

Definition invalid_submit (req : SubmitJobRequest) : bool :=
  bool_decide (sj_Script req = "") || bool_decide (sj_Partition req = "") || bool_decide (sj_Uid req = "").

Definition SubmitJob (req : SubmitJobRequest) : M (Srv W) SubmitJobResponse :=
  if invalid_submit req then fail (ErrNew "Invalid submit job request")
  else
    st ← get;
    match knownJobs st !! sj_Uid req with
    | Some id => mret (mkSubmitJobResponse id)
    | None =>
        id ← wrapM (on_host (SBatch (to_sbatch req))) "could not submit sbatch script";
        modify (fun st => mkSrv (<[sj_Uid req := id]> (knownJobs st)) (host st));;
        mret (mkSubmitJobResponse id)
    end.

Definition SubmitJobContainer {US : UuidSource W} (sprintf_other : string -> string -> string)
    (r : SubmitJobContainerRequest) : M (Srv W) SubmitJobContainerResponse :=
  uid ← on_host (fun w =>
    if HasPrefix (sc_ImageName r) localFilePrefix then (Ok "", w)
    else match sc_Options r with
         | None => (Ok "", w)
         | Some _ => let '(id, w') := uuid_New w in (Ok id, w')
         end);
  script ← lift (buildSLURMScript sprintf_other uid r);
  id ← wrapM (on_host (SBatch (mkSbatchRequest script (sc_Partition r) "" "" 0 0 0 "" 0 0 "" "")))
         "could not submit sbatch script";
  mret (mkSubmitJobContainerResponse id).

Definition CancelJob (req : CancelJobRequest) : M (Srv W) CancelJobResponse :=
  wrapM (on_host (SCancel (cj_JobId req))) ("could not cancel job " +:+ FormatInt (cj_JobId req));;
  mret mkCancelJobResponse.

Definition Partition (req : PartitionRequest) : M (Srv W) PartitionResponse :=
  partition ← wrapM (on_host (AgentClient.Partition (pr_Partition req)))
    ("could not get partition " +:+ pr_Partition req +:+ " info");
  mret (mkPartitionResponse (sp_Nodes partition)).

Definition to_proto_node (node : AgentParse.Node) : Workload.Node := {|
  n_Cpus := sn_Cpus node;
  n_Memory := sn_Memory node;
  n_Gpus := sn_Gpus node;
  n_GpuType := sn_GpuType node;
  n_AlloCpus := sn_AlloCpus node;
  n_AlloMemory := sn_AlloMemory node;
  n_AlloGpus := sn_AlloGpus node |}.

Definition Nodes (req : NodesRequest) : M (Srv W) NodesResponse :=
  nodes ← wrapM (on_host (AgentClient.Nodes (nr_Nodes req)))
    ("could not get nodes [" +:+ Join (nr_Nodes req) " " +:+ "] info");
  mret (mkNodesResponse (to_proto_node <$> nodes)).

Definition JobInfo (req : JobInfoRequest) : M (Srv W) JobInfoResponse :=
  info ← wrapM (on_host (SJobInfo (jir_JobId req)))
    ("could not get job " +:+ FormatInt (jir_JobId req) +:+ " info");
  pInfo ← lift (wrap_err (mapSInfoToProtoInfo info) "could not convert slurm-agent info into proto info");
  if (length pInfo =? 0)%nat
  then fail (ErrNew "job info slice is empty, probably invalid scontrol output")
  else mret (mkJobInfoResponse pInfo).

Definition JobSteps (req : JobStepsRequest) : M (Srv W) JobStepsResponse :=
  steps ← wrapM (on_host (SJobSteps (jsr_JobId req)))
    ("could not get job " +:+ FormatInt (jsr_JobId req) +:+ " steps");
  pSteps ← lift (wrap_err (toProtoSteps steps) "could not convert slurm-agent steps into proto steps");
  mret (mkJobStepsResponse pSteps).

(** The answer to [Resources]: what the administrator configured, and what
    Slurm says where the configuration asks for it or says nothing. *)
Definition merge_resources (c : PartitionResources) (r : AgentParse.Resources) : ResourcesResponse :=
  let nodes := pc_Nodes c in
  let cpus := pc_CPUPerNode c in
  let mem := pc_MemPerNode c in
  let wall := DurationSeconds (pc_WallTime c) in
  {| rsp_Nodes := if pc_AutoNodes c || bool_decide (nodes = 0%Z) then sr_Nodes r else nodes;
     rsp_CpuPerNode := if pc_AutoCPUPerNode c || bool_decide (cpus = 0%Z) then sr_CPUPerNode r else cpus;
     rsp_MemPerNode := if pc_AutoMemPerNode c || bool_decide (mem = 0%Z) then sr_MemPerNode r else mem;
     rsp_WallTime := if pc_AutoWallTime c || bool_decide (wall = 0%Z) then DurationSeconds (sr_WallTime r) else wall;
     rsp_Features :=
       ((fun f => mkFeature (sf_Name f) (sf_Version f) (sf_Quantity f)) <$> sr_Features r) ++
       ((fun f => mkFeature (cf_Name f) (cf_Version f) (cf_Quantity f)) <$> pc_AdditionalFeatures c) |}.

Definition Resources (req : ResourcesRequest) : M (Srv W) ResourcesResponse :=
  slurmResources ← wrapM (on_host (AgentClient.Resources (rr_Partition req)))
    ("could not get resources for partition " +:+ rr_Partition req);
  mret (merge_resources (default zero_PartitionResources (sl_cfg s !! rr_Partition req)) slurmResources).

Definition Partitions : M (Srv W) PartitionsResponse :=
  names ← wrapM (on_host AgentClient.Partitions) "could not get partition names";
  mret (mkPartitionsResponse names).

Definition WorkloadInfo : M (Srv W) WorkloadInfoResponse :=
  sVersion ← wrapM (on_host Version) "could not get slurm-agent version";
  mret (mkWorkloadInfoResponse "slurm-agent" sVersion (sl_uid s)).

(** The handler left unimplemented. *)
Definition JobState : M (Srv W) JobStepsResponse := panicM (PanicWith "implement me").

#[export] Instance agent_service : WorkloadManager (Srv W) := {|
  rpc_SubmitJob := SubmitJob;
  rpc_CancelJob := CancelJob;
  rpc_JobInfo := JobInfo;
  rpc_Partition := Partition;
  rpc_Partitions := Partitions;
  rpc_Nodes := Nodes |}.
End handlers.

(** ** File streams *)

(** One [Read] call on a file: the bytes delivered and the error. *)
Record ReadResult := mkReadResult { rd_data : string; rd_err : option error }.

Class FileHost (W : Type) := os_Open : string -> W -> res (list ReadResult).
Class ChunkStream (W : Type) := Send : Chunk -> M W unit.
Class TailHost (W : Type) := {
  tail_NewReader : string -> M W unit;
  tail_Close : M W unit;
}.

Section streams.
Context {W : Type} {FH : FileHost W} {CS : ChunkStream W} {TH : TailHost W}.

(** The calls to [Read] a reader will answer; after the last one it is at
    the end of the file. *)
Definition Open (path : string) : M W (list ReadResult) := fun w =>
  match os_Open path w with
  | Err e => (if IsNotExist e then Err ErrFileNotFound else Err (ErrWrap e ("could not open " +:+ path)), w)
  | r => (r, w)
  end.

Fixpoint open_loop (reads : list ReadResult) : M W unit :=
  match reads with
  | [] => mret tt
  | r :: reads' =>
      when (nonempty (rd_data r)) (wrapM (Send (mkChunk (rd_data r))) "could not send chunk");;
      match rd_err r with
      | Some e => if bool_decide (e = EOF) then mret tt else fail e
      | None => open_loop reads'
      end
  end.

Definition OpenFile (r : OpenFileRequest) : M W unit :=
  fd ← wrapM (Open (of_Path r)) ("could not open file at " +:+ of_Path r);
  open_loop fd.

(** The branches of the [select] in [TailFile], as they become ready. *)
Inductive tail_event :=
  | CtxDone (e : error)
  | CloseRequest (a : TailAction)
  | Tick (r : ReadResult).

(** [Some e] when the handler returned [e], [None] while it is waiting. *)
Fixpoint tail_loop (evs : list tail_event) : M W (option error) :=
  match evs with
  | [] => mret None
  | CtxDone e :: _ => mret (Some e)
  | CloseRequest a :: evs' =>
      when (bool_decide (a = TailAction_ReadToEndAndClose)) (_ ← attempt tail_Close; mret tt);;
      tail_loop evs'
  | Tick r :: evs' =>
      match rd_err r, nonempty (rd_data r) with
      | Some e, false => mret (Some e)
      | None, false => tail_loop evs'
      | _, true =>
          sent ← attempt (Send (mkChunk (rd_data r)));
          match sent with
          | inr e => mret (Some (ErrWrap e "could not send chunk"))
          | inl _ => tail_loop evs'
          end
      end
  end.

Definition TailFile (first : res TailFileRequest) (evs : list tail_event) : M W (option error) :=
  r ← lift (wrap_err first "could not receive request");
  wrapM (wrapM (tail_NewReader (tf_Path r)) "could not create tail reader")
    ("could not tail file at " +:+ tf_Path r);;
  tail_loop evs.
End streams.

(** ** Interleaved submissions

    gRPC runs handlers concurrently. The atomic actions of [SubmitJob] are
    the [Load] from [knownJobs], the run of [sbatch] and the [Store]. *)

Module SubmitSteps.

Inductive pc :=
  | Start (req : SubmitJobRequest)
  | Missed (req : SubmitJobRequest)
  | Ran (req : SubmitJobRequest) (id : Z)
  | Replied (req : SubmitJobRequest) (r : res SubmitJobResponse).

(** The handlers running, the agent, and the submissions Slurm accepted. *)
Record state (W : Type) := mkState {
  threads : list pc;
  srv : Srv W;
  submitted : list (string * Z);
}.
Arguments mkState {W}.
Arguments threads {W}.
Arguments srv {W}.
Arguments submitted {W}.

Section steps.
Context {W : Type} {SH : SlurmHost W}.

Inductive step : state W -> state W -> Prop :=
  | step_invalid i req st :
      threads st !! i = Some (Start req) -> invalid_submit req = true ->
      step st (mkState (<[i := Replied req (Err (ErrNew "Invalid submit job request"))]> (threads st))
                 (srv st) (submitted st))
  | step_hit i req id st :
      threads st !! i = Some (Start req) -> invalid_submit req = false ->
      knownJobs (srv st) !! sj_Uid req = Some id ->
      step st (mkState (<[i := Replied req (Ok (mkSubmitJobResponse id))]> (threads st))
                 (srv st) (submitted st))
  | step_miss i req st :
      threads st !! i = Some (Start req) -> invalid_submit req = false ->
      knownJobs (srv st) !! sj_Uid req = None ->
      step st (mkState (<[i := Missed req]> (threads st)) (srv st) (submitted st))
  | step_sbatch i req id w' st :
      threads st !! i = Some (Missed req) ->
      SBatch (to_sbatch req) (host (srv st)) = (Ok id, w') ->
      step st (mkState (<[i := Ran req id]> (threads st)) (mkSrv (knownJobs (srv st)) w')
                 ((sj_Uid req, id) :: submitted st))
  | step_sbatch_err i req e w' st :
      threads st !! i = Some (Missed req) ->
      SBatch (to_sbatch req) (host (srv st)) = (Err e, w') ->
      step st (mkState
                 (<[i := Replied req (Err (ErrWrap e "could not submit sbatch script"))]> (threads st))
                 (mkSrv (knownJobs (srv st)) w') (submitted st))
  | step_store i req id st :
      threads st !! i = Some (Ran req id) ->
      step st (mkState (<[i := Replied req (Ok (mkSubmitJobResponse id))]> (threads st))
                 (mkSrv (<[sj_Uid req := id]> (knownJobs (srv st))) (host (srv st))) (submitted st)).

(** Handlers for the requests [reqs] called at a fresh agent. *)
Definition initial (reqs : list SubmitJobRequest) (w : W) : state W :=
  mkState (Start <$> reqs) (mkSrv ∅ w) [].
Definition reachable (reqs : list SubmitJobRequest) (w : W) : state W -> Prop :=
  rtc step (initial reqs w).
End steps.
End SubmitSteps.

(** ** Handlers on what Slurm prints *)

Lemma on_host_run {W A} (m : M W A) (st : Srv W) r w' :
  m (host st) = (r, w') -> on_host m st = (r, mkSrv (knownJobs st) w').
Proof. intros H. unfold on_host. by rewrite H. Qed.

(** A converted time is the original one, and an absent time stays absent. *)
Definition time_shown {PT : ProtoTime} (t : option Time) (p : option Timestamp) : Prop :=
  match t with None => p = None | Some t => exists ts, p = Some ts /\ AsTime (Some ts) = t end.

Definition convertible {PT : ProtoTime} (t : option Time) : Prop :=
  match t with None => True | Some t => is_ok (TimestampProto t) = true end.

Lemma proto_time_shown {PT : ProtoTime} {PL : ProtoTimeLaws} t msg :
  convertible t -> exists p, proto_time t msg = Ok p /\ time_shown t p.
Proof.
  destruct t as [t|]; simpl; [|by exists None]. destruct (TimestampProto t) as [ts|e|q] eqn:E; [|done..].
  intros _. exists (Some ts). split; [done|]. exists ts. split; [done|]. by apply TimestampProto_AsTime.
Qed.

Definition shows_job {PT : ProtoTime} (j : AgentParse.JobInfo) (p : Workload.JobInfo) : Prop :=
  [ji_Id p; ji_UserId p; ji_ArrayId p; ji_Name p; ji_ExitCode p; ji_WorkingDir p; ji_StdOut p; ji_StdErr p;
   ji_Partition p; ji_NodeList p; ji_BatchHost p; ji_NumNodes p; ji_Reason p] =
  [si_ID j; si_UserID j; si_ArrayJobID j; si_Name j; si_ExitCode j; si_WorkDir j; si_StdOut j; si_StdErr j;
   si_Partition j; si_NodeList j; si_BatchHost j; si_NumNodes j; si_Reason j] /\
  ji_Status p = status_of (si_State j) /\
  time_shown (si_SubmitTime j) (ji_SubmitTime p) /\ time_shown (si_StartTime j) (ji_StartTime p) /\
  ji_RunTime p = DurationProto <$> si_RunTime j /\ ji_TimeLimit p = DurationProto <$> si_TimeLimit j /\
  ji_EndTime p = None.

Lemma map_job_info_shows {PT : ProtoTime} {PL : ProtoTimeLaws} j :
  convertible (si_SubmitTime j) -> convertible (si_StartTime j) ->
  exists p, map_job_info j = Ok p /\ shows_job j p.
Proof.
  intros Hc1 Hc2. unfold map_job_info.
  destruct (proto_time_shown _ "could not convert submit go time to proto time" Hc1) as (p1 & -> & Hp1).
  destruct (proto_time_shown _ "could not convert start go time to proto time" Hc2) as (p2 & -> & Hp2).
  by eexists.
Qed.

Lemma mapR_shows {A B} (f : A -> res B) (R : A -> B -> Prop) l :
  Forall (fun x => exists y, f x = Ok y /\ R x y) l -> exists ys, mapR f l = Ok ys /\ Forall2 R l ys.
Proof.
  induction 1 as [|x l (y & Hy & HR) _ (ys & Hys & IH)]; simpl; [by exists []|].
  exists (y :: ys). rewrite Hy, Hys. split; [done|]. by constructor.
Qed.

Section rpc.
Context {W : Type} {SH : SlurmHost W} {PT : ProtoTime} {PL : ProtoTimeLaws}.
Variable s : Slurm.

(** [w] answers a command with the text [out] and becomes [w']. *)
Definition answers (w : W) (bin : string) (args : list string) (out : string) (w' : W) : Prop :=
  Command bin args "" w = (mkCmdResult out None None, w').

(** The handler on a listing of jobs. *)
Lemma JobInfo_listing req st bs g js w' :
  bs <> [] -> Forall block_wf bs -> blank g -> Forall2 describes_job bs js ->
  Forall (fun j => convertible (si_SubmitTime j) /\ convertible (si_StartTime j)) js ->
  answers (host st) "scontrol" ["show"; "jobid"; FormatInt (jir_JobId req)] (print_blocks bs +:+ g) w' ->
  exists infos,
    mapSInfoToProtoInfo js = Ok infos /\
    JobInfo req st = (Ok (mkJobInfoResponse infos), mkSrv (knownJobs st) w') /\ Forall2 shows_job js infos.
Proof.
  intros Hne Hbs Hg Hj Hc Ha.
  assert (Hrun : SJobInfo (jir_JobId req) (host st) = (Ok js, w')).
  { unfold SJobInfo, Output. unfold answers in Ha. unfold mbind, M_bind,
      scontrolBinaryName, sacctBinaryName. rewrite Ha. cbn [c_err c_out].
    unfold lift. by rewrite jobInfoFromScontrolResponse_blocks with (js := js). }
  destruct (mapR_shows map_job_info shows_job js) as (infos & Hm & Hs).
  { eapply Forall_impl; [|done]. intros j [? ?]. by apply map_job_info_shows. }
  exists infos. split; [done|]. split; [|done]. unfold JobInfo, wrapM. unfold mbind, M_bind.
  rewrite (on_host_run _ _ _ _ Hrun). cbn. unfold mapSInfoToProtoInfo. rewrite Hm. cbn.
  assert (length infos <> 0)%nat as Hl.
  { rewrite (mapR_length _ _ _ Hm), <- (Forall2_length Hj). by destruct bs. }
  by destruct infos.
Qed.

(** C15. [JobInfo] turns the [scontrol show jobid] listing of any number of
    jobs into the messages that show those jobs, in order: every text
    under its own key, the state by its name (UNKNOWN for another one),
    times and durations as printed, and it changes nothing in the agent. The
    listing is what Slurm prints: a word that is not one key and one value,
    such as [TRES=cpu=2,node=1], is skipped, and a field that is not there,
    such as the array of a job that is none, is empty. *)
Theorem JobInfo_shows_jobs req st bs g js w' :
  bs <> [] -> Forall block_wf bs -> blank g -> Forall2 describes_job bs js ->
  Forall (fun j => convertible (si_SubmitTime j) /\ convertible (si_StartTime j)) js ->
  answers (host st) "scontrol" ["show"; "jobid"; FormatInt (jir_JobId req)] (print_blocks bs +:+ g) w' ->
  exists infos,
    JobInfo req st = (Ok (mkJobInfoResponse infos), mkSrv (knownJobs st) w') /\ Forall2 shows_job js infos.
Proof.
  intros Hne Hbs Hg Hj Hc Ha.
  destruct (JobInfo_listing req st bs g js w') as (infos & _ & H); [done..|]. by exists infos.
Qed.

Definition shows_step (r : AgentParse.JobStepInfo) (p : Workload.JobStepInfo) : Prop :=
  js_Id p = ss_ID r /\ js_Name p = ss_Name r /\ js_ExitCode p = wrap32 (ss_ExitCode r) /\
  js_Status p = status_of (ss_State r) /\
  time_shown (ss_StartedAt r) (js_StartTime p) /\ time_shown (ss_FinishedAt r) (js_EndTime p).

Lemma to_proto_step_shows r :
  convertible (ss_StartedAt r) -> convertible (ss_FinishedAt r) ->
  exists p, to_proto_step r = Ok p /\ shows_step r p.
Proof.
  intros Hc1 Hc2. unfold to_proto_step.
  destruct (proto_time_shown _ "could not convert started go time to proto time" Hc1) as (p1 & -> & Hp1).
  destruct (proto_time_shown _ "could not convert finished go time to proto time" Hc2) as (p2 & -> & Hp2).
  by eexists.
Qed.

(** C26. [JobSteps] turns the rows [sacct] prints into the steps they
    describe, in order: id, name, exit code (its low 32 bits), state by
    name, start and end times. No cell of a row holds the separator [|] or a
    line feed: [sacct] does not quote them. *)
Theorem JobSteps_shows_rows req st rs w' :
  rs <> [] -> Forall row_wf rs ->
  Forall (fun r => convertible (ss_StartedAt (row_step r)) /\ convertible (ss_FinishedAt (row_step r))) rs ->
  answers (host st) "sacct"
    ["-p"; "-n"; "-j"; FormatInt (jsr_JobId req); "-o start,end,exitcode,state,jobid,jobname"]
    (Join (print_row <$> rs) LF +:+ LF) w' ->
  exists steps,
    JobSteps req st = (Ok (mkJobStepsResponse steps), mkSrv (knownJobs st) w') /\
    Forall2 shows_step (row_step <$> rs) steps.
Proof.
  intros Hne Hrs Hc Ha.
  assert (Hrun : SJobSteps (jsr_JobId req) (host st) = (Ok (row_step <$> rs), w')).
  { unfold SJobSteps, Output. unfold answers in Ha. unfold mbind, M_bind,
      scontrolBinaryName, sacctBinaryName. rewrite Ha. cbn [c_err c_out].
    unfold lift. by rewrite parseSacctResponse_rows. }
  destruct (mapR_shows to_proto_step shows_step (row_step <$> rs)) as (steps & Hm & Hs).
  { apply Forall_fmap. eapply Forall_impl; [|done]. intros r [? ?]. by apply to_proto_step_shows. }
  exists steps. split; [|done]. unfold JobSteps, wrapM. unfold mbind, M_bind.
  rewrite (on_host_run _ _ _ _ Hrun). cbn. unfold toProtoSteps. by rewrite Hm.
Qed.

(** A configured value counts when the administrator set one and did not
    ask for the value of Slurm. *)
Definition configured (auto : bool) (n from_slurm : Z) : Z :=
  if auto || bool_decide (n = 0%Z) then from_slurm else n.

(** C25. [Resources] answers with the limits [scontrol show partition]
    prints, each one overridden by a configured value unless that is zero
    or its auto flag is set; an unlimited CPU or node limit is the
    partition's total, an unlimited memory limit is -1. *)
Theorem Resources_of_partition req st b p g w' :
  let c := default zero_PartitionResources (sl_cfg s !! rr_Partition req) in
  block_wf b -> blank g -> NoDup (kv_key <$> b_kvs b) -> describes_partition (kv_map (b_kvs b)) p ->
  answers (host st) "scontrol" ["show"; "partition"; rr_Partition req] (print_block b +:+ g) w' ->
  Resources s req st =
    (Ok {| rsp_Nodes := configured (pc_AutoNodes c) (pc_Nodes c) (limit_value (pt_MaxNodes p) (pt_TotalNodes p));
           rsp_CpuPerNode := configured (pc_AutoCPUPerNode c) (pc_CPUPerNode c)
                               (limit_value (pt_MaxCPUsPerNode p) (pt_TotalCPUs p));
           rsp_MemPerNode := configured (pc_AutoMemPerNode c) (pc_MemPerNode c) (limit_value (pt_MaxMemPerNode p) (-1));
           rsp_WallTime := configured (pc_AutoWallTime c) (DurationSeconds (pc_WallTime c))
                             (DurationSeconds (dur_value (pt_MaxTime p)));
           rsp_Features := (fun f => mkFeature (cf_Name f) (cf_Version f) (cf_Quantity f)) <$> pc_AdditionalFeatures c |},
     mkSrv (knownJobs st) w').
Proof.
  intros c Hb Hg Hd Hp Ha. unfold Resources, wrapM, mbind, M_bind.
  assert (Hrun : AgentClient.Resources (rr_Partition req) (host st) =
    (Ok (mkResources (limit_value (pt_MaxNodes p) (pt_TotalNodes p)) (limit_value (pt_MaxMemPerNode p) (-1))
           (limit_value (pt_MaxCPUsPerNode p) (pt_TotalCPUs p)) (dur_value (pt_MaxTime p)) []), w')).
  { unfold AgentClient.Resources, Output. unfold answers in Ha. unfold mbind, M_bind,
      scontrolBinaryName, sacctBinaryName. rewrite Ha. cbn [c_err c_out].
    unfold lift. by rewrite (parseResources_block b p g). }
  rewrite (on_host_run _ _ _ _ Hrun). reflexivity.
Qed.

(** [Partitions] answers the partition names of the listing, and
    [Nodes] the CPUs and memory of every node asked for, in order; asked
    for no node, it runs nothing. *)
Theorem Partitions_and_Nodes st bs g w' names :
  bs <> [] -> Forall block_wf bs -> blank g ->
  (answers (host st) "scontrol" ["show"; "partition"] (print_blocks bs +:+ g) w' ->
   Partitions st = (Ok (mkPartitionsResponse
     ((fun b => default "" (kv_map (b_kvs b) !! "PartitionName")) <$> bs)), mkSrv (knownJobs st) w')) /\
  (names <> [] -> answers (host st) "scontrol" ["show"; "nodes"; Join names ","] (print_blocks bs +:+ g) w' ->
   Nodes (mkNodesRequest names) st =
     (Ok (mkNodesResponse ((fun b => to_proto_node (node_of (kv_map (b_kvs b)))) <$> bs)),
      mkSrv (knownJobs st) w')) /\
  Nodes (mkNodesRequest []) st = (Ok (mkNodesResponse []), st).
Proof.
  intros Hne Hbs Hg. split_and!; [intros Ha|intros Hn Ha|by destruct st].
  - assert (Hrun : AgentClient.Partitions (host st) =
      (Ok ((fun b => default "" (kv_map (b_kvs b) !! "PartitionName")) <$> bs), w')).
    { unfold AgentClient.Partitions, Output. unfold answers in Ha. unfold mbind, M_bind,
      scontrolBinaryName, sacctBinaryName. rewrite Ha. cbn [c_err c_out].
      by rewrite parsePartitionsNames_blocks. }
    unfold Partitions, wrapM, mbind, M_bind. by rewrite (on_host_run _ _ _ _ Hrun).
  - assert (Hrun : AgentClient.Nodes names (host st) = (Ok ((fun b => node_of (kv_map (b_kvs b))) <$> bs), w')).
    { unfold AgentClient.Nodes, Output. unfold answers in Ha. unfold mbind, M_bind,
      scontrolBinaryName, sacctBinaryName.
      destruct names as [|n ns]; [done|]. cbn [length Nat.eqb nr_Nodes]. rewrite Ha. cbn [c_err c_out].
      by rewrite parse_nodes_blocks. }
    unfold Nodes, wrapM, mbind, M_bind. cbn [nr_Nodes]. rewrite (on_host_run _ _ _ _ Hrun). cbn.
    by rewrite <- list_fmap_compose.
Qed.
End rpc.

(** ** Submissions *)

(** Every request a client can make that runs a command. *)
Inductive request :=
  | RSubmitJob (r : SubmitJobRequest)
  | RSubmitJobContainer (r : SubmitJobContainerRequest)
  | RCancelJob (r : CancelJobRequest)
  | RJobInfo (r : JobInfoRequest)
  | RJobSteps (r : JobStepsRequest)
  | RPartition (r : PartitionRequest)
  | RPartitions
  | RNodes (r : NodesRequest)
  | RResources (r : ResourcesRequest)
  | RWorkloadInfo.

Section submissions.
Context {W : Type} {SH : SlurmHost W} {PT : ProtoTime} {US : UuidSource W}.
Variable s : Slurm.
Variable sprintf_other : string -> string -> string.

(** The state a request leaves behind, its answer put aside. *)
Definition serve (r : request) (st : Srv W) : Srv W :=
  match r with
  | RSubmitJob r => (SubmitJob r st).2
  | RSubmitJobContainer r => (SubmitJobContainer sprintf_other r st).2
  | RCancelJob r => (CancelJob r st).2
  | RJobInfo r => (JobInfo r st).2
  | RJobSteps r => (JobSteps r st).2
  | RPartition r => (Partition r st).2
  | RPartitions => (Partitions st).2
  | RNodes r => (Nodes r st).2
  | RResources r => (Resources s r st).2
  | RWorkloadInfo => (WorkloadInfo s st).2
  end.

Definition known (uid : string) (id : Z) (st : Srv W) : Prop := knownJobs st !! uid = Some id.

Lemma keeps_on_host {A} uid id (m : M W A) : keeps (known uid id) (on_host m).
Proof. intros st Hst. unfold on_host. by destruct (m (host st)). Qed.
Lemma SubmitJob_keeps uid id r : keeps (known uid id) (SubmitJob r).
Proof.
  intros st Hst. unfold SubmitJob. destruct (invalid_submit r); [done|].
  unfold mbind, M_bind, get. destruct (knownJobs st !! sj_Uid r) eqn:Hr; [done|].
  unfold wrapM, on_host. destruct (SBatch _ _) as [[i|e|q] w']; simpl; [|done..].
  unfold known in *. simpl. rewrite lookup_insert_ne; [done|]. congruence.
Qed.

#[local] Ltac keeps :=
  repeat first [apply keeps_bind; [|intros ?] | apply keeps_wrapM | apply keeps_on_host
               | apply keeps_lift | apply keeps_ret | case_match].

(** No request makes the agent forget or change a submitted job. *)
Lemma serve_keeps uid id r st : known uid id st -> known uid id (serve r st).
Proof.
  intros Hst. destruct r; simpl; [by apply SubmitJob_keeps|..]; revert st Hst;
    match goal with |- forall st, known _ _ st -> known _ _ (?m st).2 => change (keeps (known uid id) m) end;
    unfold SubmitJobContainer, CancelJob, JobInfo, JobSteps, Partition, Partitions, Nodes, Resources, WorkloadInfo;
    keeps.
Qed.

Lemma SubmitJob_known req st resp st' :
  SubmitJob req st = (Ok resp, st') ->
  invalid_submit req = false /\ known (sj_Uid req) (sjr_JobId resp) st'.
Proof.
  unfold SubmitJob. destruct (invalid_submit req); [done|]. unfold mbind, M_bind, get.
  destruct (knownJobs st !! sj_Uid req) as [i|] eqn:Hr.
  - by intros [= <- <-].
  - unfold wrapM, on_host. destruct (SBatch _ _) as [[i|e|q] w']; simpl; [|done..].
    intros [= <- <-]. split; [done|]. unfold known. simpl. by rewrite lookup_insert_eq.
Qed.

(** A uid that is known is answered from the table. *)
Lemma SubmitJob_again req' id st :
  known (sj_Uid req') id st -> invalid_submit req' = false -> SubmitJob req' st = (Ok (mkSubmitJobResponse id), st).
Proof. intros Hk Hv. unfold SubmitJob. rewrite Hv. unfold mbind, M_bind, get. by rewrite Hk. Qed.

(** What is known stays so while requests are served. *)
Definition serve_all (rs : list request) (st : Srv W) : Srv W := foldl (fun st r => serve r st) st rs.

Lemma serve_all_keeps uid id rs st : known uid id st -> known uid id (serve_all rs st).
Proof.
  revert st. induction rs as [|r rs IH]; intros st Hk; [done|]. cbn. by apply IH, serve_keeps.
Qed.

(** C5. Submitting is idempotent: once a request with some uid was answered
    with a job id, every later valid request with that uid gets the same id,
    runs no command and changes nothing, whatever was served in between. *)
Theorem SubmitJob_idempotent req st resp st' (rs : list request) req' :
  SubmitJob req st = (Ok resp, st') ->
  invalid_submit req' = false -> sj_Uid req' = sj_Uid req ->
  SubmitJob req' (serve_all rs st') = (Ok resp, serve_all rs st').
Proof.
  intros [_ Hk]%SubmitJob_known Hv Hu. apply (serve_all_keeps _ _ rs) in Hk. rewrite <- Hu in Hk.
  rewrite (SubmitJob_again _ _ _ Hk Hv). by destruct resp.
Qed.

(** What [SubmitJob] does for a uid the agent does not know: it runs
    [sbatch] once, with the request's options and script; the printed id is
    the answer and is remembered; a failing [sbatch], or one that prints no
    number, is reported and nothing is remembered. *)
Theorem SubmitJob_first req st out err w' :
  invalid_submit req = false -> knownJobs st !! sj_Uid req = None ->
  Command "sbatch" (getSbatchOpts (to_sbatch req)) (sj_Script req) (host st) = (mkCmdResult out None err, w') ->
  SubmitJob req st =
    match err, AtoiR (TrimSpace out) with
    | None, Ok id => (Ok (mkSubmitJobResponse id), mkSrv (<[sj_Uid req := id]> (knownJobs st)) w')
    | None, Err e =>
        (Err (ErrWrap (ErrWrap e "could not parse job id") "could not submit sbatch script"),
         mkSrv (knownJobs st) w')
    | Some e, _ =>
        (Err (ErrWrap (ErrWrap e "failed to execute sbatch") "could not submit sbatch script"),
         mkSrv (knownJobs st) w')
    | None, Panic p => (Panic p, mkSrv (knownJobs st) w')
    end.
Proof.
  intros Hv Hn Hc. unfold SubmitJob. rewrite Hv. unfold mbind, M_bind, get. rewrite Hn.
  unfold wrapM, on_host, SBatch, Output, mbind, M_bind, sbatchBinaryName. cbn [sb_Script to_sbatch].
  rewrite Hc. cbn [c_err c_out]. destruct err as [e|]; [done|]. unfold lift.
  by destruct (AtoiR (TrimSpace out)).
Qed.
End submissions.

(** ** Streaming a file *)

(** The bytes a sequence of reads delivers when none of them fails. *)
Definition delivers (reads : list ReadResult) (content : string) : Prop :=
  Forall (fun r => rd_err r = None) reads /\ content = (cat (rd_data <$> reads)).

Section sends.
Context {W : Type} {CS : ChunkStream W}.
(** What the client of the stream has received, a message [wrap c] for a
    chunk [c]. *)
Context {T : Type} (wrap : Chunk -> T) (received : W -> list T).
Hypothesis Send_receives : forall c w, exists w', Send c w = (Ok tt, w') /\ received w' = received w ++ [wrap c].

Lemma open_loop_sends_as reads content w :
  delivers reads content ->
  exists w' cs, open_loop reads w = (Ok tt, w') /\ received w' = received w ++ (wrap <$> cs) /\
    (cat (ch_Content <$> cs)) = content /\
    (ch_Content <$> cs) = List.filter nonempty (rd_data <$> reads).
Proof.
  intros [Hr ->]. revert w. induction Hr as [|r reads Hr _ IH]; intros w.
  - exists w, []. by rewrite app_nil_r.
  - cbn [open_loop]. rewrite fmap_cons, cat_cons. cbn [List.filter]. destruct (nonempty (rd_data r)) eqn:Hne.
    + destruct (Send_receives (mkChunk (rd_data r)) w) as (w1 & Hs & Hrec).
      destruct (IH w1) as (w' & cs & Hl & Hrec' & Hcat & Hf).
      exists w', (mkChunk (rd_data r) :: cs). unfold mbind, M_bind, wrapM. cbn [when]. rewrite Hs. cbn [wrap_err].
      rewrite Hr, Hl. split_and!; [done| |by rewrite fmap_cons, cat_cons, Hcat|by rewrite fmap_cons, Hf].
      by rewrite Hrec', Hrec, fmap_cons, <- app_assoc.
    + destruct (IH w) as (w' & cs & Hl & Hrec' & Hcat & Hf). exists w', cs.
      unfold mbind, M_bind. cbn. rewrite Hr, Hl. split_and!; [done..| |done].
      rewrite Hcat. unfold nonempty in Hne. apply negb_false_iff, bool_decide_eq_true in Hne.
      by rewrite Hne, str_app_empty.
Qed.
End sends.

Section file_stream.
Context {W : Type} {FH : FileHost W} {CS : ChunkStream W}.
(** What the client of the stream has received. *)
Variable received : W -> list Chunk.
Hypothesis Send_receives : forall c w, exists w', Send c w = (Ok tt, w') /\ received w' = received w ++ [c].

Lemma open_loop_sends reads content w :
  delivers reads content ->
  exists w' cs, open_loop reads w = (Ok tt, w') /\ received w' = received w ++ cs /\
    (cat (ch_Content <$> cs)) = content /\
    (ch_Content <$> cs) = List.filter nonempty (rd_data <$> reads).
Proof.
  intros H. destruct (open_loop_sends_as id received Send_receives reads content w H) as (w' & cs & Hl & Hr & Hc).
  exists w', cs. by rewrite list_fmap_id in Hr.
Qed.

(** [OpenFile] streams exactly the bytes of the file, in order and in
    non-empty chunks, and ends normally at the end of the file, however the
    reads split the content. *)
Theorem OpenFile_streams path reads content w :
  os_Open path w = Ok reads -> delivers reads content ->
  exists w' cs, OpenFile (mkOpenFileRequest path) w = (Ok tt, w') /\ received w' = received w ++ cs /\
    (cat (ch_Content <$> cs)) = content /\ Forall (fun c => ch_Content c <> "") cs.
Proof.
  intros Ho Hd. destruct (open_loop_sends reads content w Hd) as (w' & cs & Hl & Hrec & Hcat & Hf).
  exists w', cs. unfold OpenFile, mbind, M_bind, wrapM, Open. cbn [of_Path]. rewrite Ho. cbn [wrap_err].
  split_and!; [done..|]. apply (Forall_fmap ch_Content (fun t => t <> "")). rewrite Hf. generalize (rd_data <$> reads). intros l.
  induction l as [|t l IH]; [constructor|]. csimpl. destruct (nonempty t) eqn:Ht; [|done].
  constructor; [|done]. intros ->. discriminate Ht.
Qed.
End file_stream.

(** ** Interleaved submissions: what holds *)

Module SubmitStepsFacts.
Import SubmitSteps.

Definition pc_req (p : pc) : SubmitJobRequest :=
  match p with Start r | Missed r | Ran r _ | Replied r _ => r end.

(** The submission a handler has made or reports. *)
Definition pc_job (p : pc) : option (string * Z) :=
  match p with
  | Ran r id | Replied r (Ok (mkSubmitJobResponse id)) => Some (sj_Uid r, id)
  | _ => None
  end.
(** A handler that may still run sbatch. *)
Definition pending (p : pc) : bool := match p with Start _ | Missed _ => true | _ => false end.

Section facts.
Context {W : Type} {SH : SlurmHost W}.

(** Every id in the table or in an answer was issued by Slurm for that uid. *)
Definition truthful (st : state W) : Prop :=
  (forall uid id, knownJobs (srv st) !! uid = Some id -> (uid, id) ∈ submitted st) /\
  (forall i p job, threads st !! i = Some p -> pc_job p = Some job -> job ∈ submitted st).

Lemma lookup_insert_case {A} (l : list A) i j (x y : A) :
  <[i := x]> l !! j = Some y -> (i = j /\ y = x) \/ l !! j = Some y.
Proof.
  destruct (decide (i = j)) as [->|Hij]; [|rewrite list_lookup_insert_ne by done; by right].
  destruct (decide (j < length l)%nat); [|rewrite list_insert_ge by lia; by right].
  rewrite list_lookup_insert_eq by done. intros [= ->]. by left.
Qed.

Lemma step_truthful st st' : step st st' -> truthful st -> truthful st'.
Proof.
  intros Hs [Hk Ht]. destruct Hs as [i req st Hi|i req id st Hi Hv Hl|i req st Hi|i req id w' st Hi Hb
    |i req e w' st Hi Hb|i req id st Hi]; split; cbn [threads srv submitted knownJobs]; try done;
    try (intros j p job [[-> ->]|Hj]%lookup_insert_case Hp; [|by eapply Ht]); try discriminate Hp.
  - cbn in Hp. injection Hp as <-. by apply Hk.
  - intros uid id' Hid. right. by apply Hk.
  - intros j p job [[-> ->]|Hj]%lookup_insert_case Hp; [|right; by eapply Ht].
    cbn in Hp. injection Hp as <-. by left.
  - intros uid id' [[<- <-]|[_ Hid]]%lookup_insert_Some; [by eapply Ht|by apply Hk].
  - cbn in Hp. injection Hp as <-. by eapply Ht.
Qed.

Lemma reachable_truthful reqs w st : reachable reqs w st -> truthful st.
Proof.
  intros Hr. assert (H0 : truthful (initial reqs w)).
  { split; [done|]. intros i p job Hi. cbn in Hi. rewrite list_lookup_fmap in Hi.
    by destruct (reqs !! i); simplify_eq/=. }
  revert H0. unfold reachable in Hr. induction Hr; [done|]. intros H0. by apply IHHr, (step_truthful x).
Qed.

(** A handler keeps its request. *)
Lemma step_reqs st st' : step st st' -> pc_req <$> threads st' = pc_req <$> threads st.
Proof.
  intros Hs. destruct Hs; cbn [threads]; rewrite list_fmap_insert; apply list_insert_id;
    rewrite list_lookup_fmap; by simplify_option_eq.
Qed.

(** With distinct uids: no uid submitted twice, and none that a pending
    handler is about to submit. *)
Definition exclusive (st : state W) : Prop :=
  NoDup (sj_Uid ∘ pc_req <$> threads st) /\ NoDup (submitted st).*1 /\
  (forall uid, uid ∈ (submitted st).*1 ->
     exists i p, threads st !! i = Some p /\ sj_Uid (pc_req p) = uid /\ pending p = false).

Lemma same_uid_same_thread (l : list pc) i j p q :
  NoDup (sj_Uid ∘ pc_req <$> l) -> l !! i = Some p -> l !! j = Some q ->
  sj_Uid (pc_req p) = sj_Uid (pc_req q) -> i = j.
Proof.
  intros Hd Hi Hj E. eapply (NoDup_lookup (sj_Uid ∘ pc_req <$> l)); [done| |].
  - rewrite list_lookup_fmap, Hi. simpl. done.
  - rewrite list_lookup_fmap, Hj. simpl. by rewrite E.
Qed.

Lemma insert_not_pending (st : state W) i p p' uid :
  threads st !! i = Some p -> pc_req p' = pc_req p -> (pending p' = false \/ pending p = true) ->
  (exists j q, threads st !! j = Some q /\ sj_Uid (pc_req q) = uid /\ pending q = false) ->
  exists j q, <[i := p']> (threads st) !! j = Some q /\ sj_Uid (pc_req q) = uid /\ pending q = false.
Proof.
  intros Hi Hr Hp (j & q & Hj & Hu & Hq). destruct (decide (i = j)) as [->|Hij].
  - simplify_eq. exists j, p'. rewrite list_lookup_insert_eq by (by eapply lookup_lt_Some).
    rewrite Hr. destruct Hp as [Hp|Hp]; [by split_and!|congruence].
  - exists j, q. by rewrite list_lookup_insert_ne.
Qed.

Lemma step_exclusive st st' : step st st' -> exclusive st -> exclusive st'.
Proof.
  intros Hs (Hd & Hn & Hsub).
  assert (Hd' : NoDup (sj_Uid ∘ pc_req <$> threads st')).
  { rewrite list_fmap_compose, (step_reqs _ _ Hs), <- list_fmap_compose. done. }
  destruct Hs as [i req st Hi|i req id st Hi Hv Hl|i req st Hi|i req id w' st Hi Hb
    |i req e w' st Hi Hb|i req id st Hi]; (split; [done|]); cbn [threads submitted] in *.
  4: {
    split.
    - csimpl. apply list.NoDup_cons. split; [|done]. intros Hin.
      destruct (Hsub _ Hin) as (j & q & Hj & Hu & Hq).
      assert (j = i) as -> by by eapply (same_uid_same_thread (threads st) j i q (Missed req)).
      rewrite Hi in Hj. injection Hj as <-. discriminate Hq.
    - csimpl. intros uid [->|Hin]%elem_of_cons.
      + exists i, (Ran req id). rewrite list_lookup_insert_eq by (by eapply lookup_lt_Some). done.
      + eapply insert_not_pending; eauto. }
  all: split; [done|]; intros uid Hin; eapply insert_not_pending; eauto.
Qed.

Lemma reachable_exclusive reqs w st :
  NoDup (sj_Uid <$> reqs) -> reachable reqs w st -> exclusive st.
Proof.
  intros Hd Hr. assert (H0 : exclusive (initial reqs w)).
  { split; [|split; [constructor|by intros uid Hin; inversion Hin]].
    cbn [threads initial]. by rewrite <- list_fmap_compose. }
  revert H0. unfold reachable in Hr. induction Hr; [done|]. intros H0. by apply IHHr, (step_exclusive x).
Qed.

(** C7. However the handlers interleave, an id in an answer is one Slurm
    issued for a request with that uid; and when the requests have distinct
    uids, no uid is ever submitted twice. *)
Theorem interleaved_submissions reqs w st :
  reachable reqs w st ->
  (forall i req id, threads st !! i = Some (Replied req (Ok (mkSubmitJobResponse id))) ->
     (sj_Uid req, id) ∈ submitted st) /\
  (NoDup (sj_Uid <$> reqs) -> NoDup (submitted st).*1).
Proof.
  intros Hr. split.
  - intros i req id Hi. apply reachable_truthful in Hr as [_ Ht]. by eapply Ht.
  - intros Hd. by apply (reachable_exclusive reqs w st) in Hd as (_ & Hn & _).
Qed.

Lemma SBatch_no_panic req w : no_panic (SBatch req w).1.
Proof.
  unfold SBatch, Output, mbind, M_bind. destruct (Command _ _ _ w) as [r w']. cbn.
  destruct (c_err r); [done|]. cbn. auto with go.
Qed.

(** A handler that runs alone takes the steps of the relation and ends
    with the answer and the state [SubmitJob] gives: the atomic actions are
    a refinement of the handler. *)
Theorem SubmitJob_refines req (s : Srv W) sub :
  exists sub', rtc step (mkState [Start req] s sub)
    (mkState [Replied req (SubmitJob req s).1] (SubmitJob req s).2 sub').
Proof.
  unfold SubmitJob. destruct (invalid_submit req) eqn:Hv.
  { exists sub. apply rtc_once. by apply (step_invalid 0 req (mkState [Start req] s sub)). }
  unfold mbind, M_bind, get. destruct (knownJobs s !! sj_Uid req) as [id|] eqn:Hk.
  { exists sub. apply rtc_once. by apply (step_hit 0 req id (mkState [Start req] s sub)). }
  unfold wrapM, on_host. pose proof (SBatch_no_panic (to_sbatch req) (host s)) as Hp.
  destruct (SBatch (to_sbatch req) (host s)) as [[id|e|q] w'] eqn:Hb; [| |done]; cbn.
  - exists ((sj_Uid req, id) :: sub).
    eapply rtc_l; [by apply (step_miss 0 req (mkState [Start req] s sub))|].
    eapply rtc_l; [by apply (step_sbatch 0 req id w' (mkState [Missed req] s sub))|].
    apply rtc_once. by apply (step_store 0 req id (mkState [Ran req id] (mkSrv (knownJobs s) w') ((sj_Uid req, id) :: sub))).
  - exists sub. eapply rtc_l; [by apply (step_miss 0 req (mkState [Start req] s sub))|].
    apply rtc_once. by apply (step_sbatch_err 0 req e w' (mkState [Missed req] s sub)).
Qed.
End facts.

(** A cluster that numbers the jobs it is given. *)
Definition counting_host : SlurmHost Z := {|
  LookPath _ _ := None;
  Command _ _ _ n := (mkCmdResult (FormatInt n) None None, (n + 1)%Z) |}.

Definition demo_request : SubmitJobRequest :=
  mkSubmitJobRequest "#!/bin/sh" "debug" "" "" "" "pod-1" 0 0 0 "" 0 0 "" "".

(** [Load], [sbatch] and [Store] are not one atomic action: two handlers
    called with one uid can both miss the table, and the job is then
    submitted twice, with two ids answered. *)
Theorem concurrent_submissions_duplicate :
  exists st, reachable (SH := counting_host) [demo_request; demo_request] 1%Z st /\
    submitted st = [("pod-1", 2%Z); ("pod-1", 1%Z)] /\
    threads st = [Replied demo_request (Ok (mkSubmitJobResponse 1));
                  Replied demo_request (Ok (mkSubmitJobResponse 2))].
Proof.
  eexists. split; [|split].
  - unfold reachable, initial.
    eapply rtc_l; [eapply (step_miss 0); reflexivity|].
    eapply rtc_l; [eapply (step_miss 1); reflexivity|].
    eapply rtc_l; [eapply (step_sbatch 0); [reflexivity|vm_compute; reflexivity]|].
    eapply rtc_l; [eapply (step_sbatch 1); [reflexivity|vm_compute; reflexivity]|].
    eapply rtc_l; [eapply (step_store 0); reflexivity|].
    eapply rtc_l; [eapply (step_store 1); reflexivity|]. apply rtc_refl.
  - reflexivity.
  - reflexivity.
Qed.

Lemma interleaved_submissions_witness :
  (("pod-1", 1%Z) ∈ [("pod-1", 1%Z)]).
Proof.
  refine (proj1 (interleaved_submissions (SH := counting_host) [demo_request] 1%Z
    (mkState [Replied demo_request (Ok (mkSubmitJobResponse 1))]
       (mkSrv (<["pod-1" := 1%Z]> ∅) 2%Z) [("pod-1", 1%Z)]) _) 0 demo_request 1%Z _); [|reflexivity].
  unfold reachable, initial.
  eapply rtc_l; [eapply (step_miss 0); reflexivity|].
  eapply rtc_l; [eapply (step_sbatch 0); [reflexivity|vm_compute; reflexivity]|].
  eapply rtc_l; [eapply (step_store 0); reflexivity|]. apply rtc_refl.
Defined.
End SubmitStepsFacts.

(** ** Examples *)

Module ServerExamples.

(** A cluster on which every command prints the same text. *)
Definition printing_host (out : string) : SlurmHost unit := {|
  LookPath _ _ := None;
  Command _ _ _ w := (mkCmdResult out None None, w) |}.

Definition fresh : Srv unit := mkSrv ∅ tt.
Definition slurm : Slurm := NewSlurm 0
  {["debug" := mkPartitionResources false true false false 2 4 0 0 [mkCfgFeature "singularity" "3" 1]]}.

(** The listings of a running and of a pending job in slurm_test.go. *)
Definition testScontrolResponse : string :=
   "JobId=53 JobName=sbatch" +:+ LF +:+
   "   UserId=vagrant(1000) GroupId=vagrant(1000) MCS_label=N/A" +:+ LF +:+
   "   Priority=4294901743 Nice=0 Account=(null) QOS=(null)" +:+ LF +:+
   "   JobState=RUNNING Reason=None Dependency=(null)" +:+ LF +:+
   "   Requeue=1 Restarts=0 BatchFlag=1 Reboot=0 ExitCode=0:0" +:+ LF +:+
   "   RunTime=00:00:30 TimeLimit=1-01:00:00 TimeMin=N/A" +:+ LF +:+
   "   SubmitTime=2019-04-16T11:49:19 EligibleTime=2019-04-16T11:49:19" +:+ LF +:+
   "   StartTime=2019-04-16T11:49:20 EndTime=2019-04-16T12:49:20 Deadline=N/A" +:+ LF +:+
   "   PreemptTime=None SuspendTime=None SecsPreSuspend=0" +:+ LF +:+
   "   LastSchedEval=2019-04-16T11:49:20" +:+ LF +:+
   "   Partition=debug AllocNode:Sid=vagrant:23733" +:+ LF +:+
   "   ReqNodeList=(null) ExcNodeList=(null)" +:+ LF +:+
   "   NodeList=vagrant" +:+ LF +:+
   "   BatchHost=vagrant" +:+ LF +:+
   "   NumNodes=1 NumCPUs=2 NumTasks=1 CPUs/Task=1 ReqB:S:C:T=0:0:*:*" +:+ LF +:+
   "   TRES=cpu=2,node=1,billing=2" +:+ LF +:+
   "   Socks/Node=* NtasksPerN:B:S:C=0:0:*:* CoreSpec=*" +:+ LF +:+
   "   MinCPUsNode=1 MinMemoryNode=0 MinTmpDiskNode=0" +:+ LF +:+
   "   Features=(null) DelayBoot=00:00:00" +:+ LF +:+
   "   Gres=(null) Reservation=(null)" +:+ LF +:+
   "   OverSubscribe=NO Contiguous=0 Licenses=(null) Network=(null)" +:+ LF +:+
   "   Command=(null)" +:+ LF +:+
   "   WorkDir=/home/vagrant" +:+ LF +:+
   "   StdErr=/home/vagrant/slurm-agent-53.out" +:+ LF +:+
   "   StdIn=/dev/null" +:+ LF +:+
   "   StdOut=/home/vagrant/slurm-agent-53.out" +:+ LF +:+
   "   Power=".
Definition testPendingScontrolResponse : string :=
   "JobId=52 JobName=sbatch" +:+ LF +:+
   "   UserId=vagrant(1000) GroupId=vagrant(1000) MCS_label=N/A" +:+ LF +:+
   "   Priority=4294901744 Nice=0 Account=(null) QOS=(null)" +:+ LF +:+
   "   JobState=PENDING Reason=None Dependency=(null)" +:+ LF +:+
   "   Requeue=1 Restarts=0 BatchFlag=1 Reboot=0 ExitCode=0:0" +:+ LF +:+
   "   RunTime=00:00:00 TimeLimit=UNLIMITED TimeMin=N/A" +:+ LF +:+
   "   SubmitTime=2019-04-16T11:49:19 EligibleTime=2019-04-16T11:48:02" +:+ LF +:+
   "   StartTime=Unknown EndTime=Unknown Deadline=N/A" +:+ LF +:+
   "   PreemptTime=None SuspendTime=None SecsPreSuspend=0" +:+ LF +:+
   "   LastSchedEval=2019-04-16T11:48:02" +:+ LF +:+
   "   Partition=debug AllocNode:Sid=vagrant:23733" +:+ LF +:+
   "   ReqNodeList=(null) ExcNodeList=(null)" +:+ LF +:+
   "   NodeList=(null)" +:+ LF +:+
   "   NumNodes=1 NumCPUs=1 NumTasks=1 CPUs/Task=1 ReqB:S:C:T=0:0:*:*" +:+ LF +:+
   "   TRES=cpu=1,node=1" +:+ LF +:+
   "   Socks/Node=* NtasksPerN:B:S:C=0:0:*:* CoreSpec=*" +:+ LF +:+
   "   MinCPUsNode=1 MinMemoryNode=0 MinTmpDiskNode=0" +:+ LF +:+
   "   Features=(null) DelayBoot=00:00:00" +:+ LF +:+
   "   Gres=(null) Reservation=(null)" +:+ LF +:+
   "   OverSubscribe=NO Contiguous=0 Licenses=(null) Network=(null)" +:+ LF +:+
   "   Command=(null)" +:+ LF +:+
   "   WorkDir=/home/vagrant" +:+ LF +:+
   "   StdErr=/home/vagrant/slurm-agent-52.out" +:+ LF +:+
   "   StdIn=/dev/null" +:+ LF +:+
   "   StdOut=/home/vagrant/slurm-agent-52.out" +:+ LF +:+
   "   Power=".

Definition job_block : block := mkBlock (item_of "JobId=53")
  [(Sp, item_of "JobName=sbatch"); (Nl, item_of "UserId=vagrant(1000)"); (Sp, item_of "GroupId=vagrant(1000)");
   (Sp, item_of "MCS_label=N/A"); (Nl, item_of "Priority=4294901743"); (Sp, item_of "Nice=0");
   (Sp, item_of "Account=(null)"); (Sp, item_of "QOS=(null)"); (Nl, item_of "JobState=RUNNING");
   (Sp, item_of "Reason=None"); (Sp, item_of "Dependency=(null)"); (Nl, item_of "Requeue=1");
   (Sp, item_of "Restarts=0"); (Sp, item_of "BatchFlag=1"); (Sp, item_of "Reboot=0"); (Sp, item_of "ExitCode=0:0");
   (Nl, item_of "RunTime=00:00:30"); (Sp, item_of "TimeLimit=1-01:00:00"); (Sp, item_of "TimeMin=N/A");
   (Nl, item_of "SubmitTime=2019-04-16T11:49:19"); (Sp, item_of "EligibleTime=2019-04-16T11:49:19");
   (Nl, item_of "StartTime=2019-04-16T11:49:20"); (Sp, item_of "EndTime=2019-04-16T12:49:20");
   (Sp, item_of "Deadline=N/A"); (Nl, item_of "PreemptTime=None"); (Sp, item_of "SuspendTime=None");
   (Sp, item_of "SecsPreSuspend=0"); (Nl, item_of "LastSchedEval=2019-04-16T11:49:20");
   (Nl, item_of "Partition=debug"); (Sp, item_of "AllocNode:Sid=vagrant:23733"); (Nl, item_of "ReqNodeList=(null)");
   (Sp, item_of "ExcNodeList=(null)"); (Nl, item_of "NodeList=vagrant"); (Nl, item_of "BatchHost=vagrant");
   (Nl, item_of "NumNodes=1"); (Sp, item_of "NumCPUs=2"); (Sp, item_of "NumTasks=1"); (Sp, item_of "CPUs/Task=1");
   (Sp, item_of "ReqB:S:C:T=0:0:*:*"); (Nl, item_of "TRES=cpu=2,node=1,billing=2"); (Nl, item_of "Socks/Node=*");
   (Sp, item_of "NtasksPerN:B:S:C=0:0:*:*"); (Sp, item_of "CoreSpec=*"); (Nl, item_of "MinCPUsNode=1");
   (Sp, item_of "MinMemoryNode=0"); (Sp, item_of "MinTmpDiskNode=0"); (Nl, item_of "Features=(null)");
   (Sp, item_of "DelayBoot=00:00:00"); (Nl, item_of "Gres=(null)"); (Sp, item_of "Reservation=(null)");
   (Nl, item_of "OverSubscribe=NO"); (Sp, item_of "Contiguous=0"); (Sp, item_of "Licenses=(null)");
   (Sp, item_of "Network=(null)"); (Nl, item_of "Command=(null)"); (Nl, item_of "WorkDir=/home/vagrant");
   (Nl, item_of "StdErr=/home/vagrant/slurm-agent-53.out"); (Nl, item_of "StdIn=/dev/null");
   (Nl, item_of "StdOut=/home/vagrant/slurm-agent-53.out"); (Nl, item_of "Power=")].
Definition pending_block : block := mkBlock (item_of "JobId=52")
  [(Sp, item_of "JobName=sbatch"); (Nl, item_of "UserId=vagrant(1000)"); (Sp, item_of "GroupId=vagrant(1000)");
   (Sp, item_of "MCS_label=N/A"); (Nl, item_of "Priority=4294901744"); (Sp, item_of "Nice=0");
   (Sp, item_of "Account=(null)"); (Sp, item_of "QOS=(null)"); (Nl, item_of "JobState=PENDING");
   (Sp, item_of "Reason=None"); (Sp, item_of "Dependency=(null)"); (Nl, item_of "Requeue=1");
   (Sp, item_of "Restarts=0"); (Sp, item_of "BatchFlag=1"); (Sp, item_of "Reboot=0"); (Sp, item_of "ExitCode=0:0");
   (Nl, item_of "RunTime=00:00:00"); (Sp, item_of "TimeLimit=UNLIMITED"); (Sp, item_of "TimeMin=N/A");
   (Nl, item_of "SubmitTime=2019-04-16T11:49:19"); (Sp, item_of "EligibleTime=2019-04-16T11:48:02");
   (Nl, item_of "StartTime=Unknown"); (Sp, item_of "EndTime=Unknown"); (Sp, item_of "Deadline=N/A");
   (Nl, item_of "PreemptTime=None"); (Sp, item_of "SuspendTime=None"); (Sp, item_of "SecsPreSuspend=0");
   (Nl, item_of "LastSchedEval=2019-04-16T11:48:02"); (Nl, item_of "Partition=debug");
   (Sp, item_of "AllocNode:Sid=vagrant:23733"); (Nl, item_of "ReqNodeList=(null)"); (Sp, item_of "ExcNodeList=(null)");
   (Nl, item_of "NodeList=(null)"); (Nl, item_of "NumNodes=1"); (Sp, item_of "NumCPUs=1"); (Sp, item_of "NumTasks=1");
   (Sp, item_of "CPUs/Task=1"); (Sp, item_of "ReqB:S:C:T=0:0:*:*"); (Nl, item_of "TRES=cpu=1,node=1");
   (Nl, item_of "Socks/Node=*"); (Sp, item_of "NtasksPerN:B:S:C=0:0:*:*"); (Sp, item_of "CoreSpec=*");
   (Nl, item_of "MinCPUsNode=1"); (Sp, item_of "MinMemoryNode=0"); (Sp, item_of "MinTmpDiskNode=0");
   (Nl, item_of "Features=(null)"); (Sp, item_of "DelayBoot=00:00:00"); (Nl, item_of "Gres=(null)");
   (Sp, item_of "Reservation=(null)"); (Nl, item_of "OverSubscribe=NO"); (Sp, item_of "Contiguous=0");
   (Sp, item_of "Licenses=(null)"); (Sp, item_of "Network=(null)"); (Nl, item_of "Command=(null)");
   (Nl, item_of "WorkDir=/home/vagrant"); (Nl, item_of "StdErr=/home/vagrant/slurm-agent-52.out");
   (Nl, item_of "StdIn=/dev/null"); (Nl, item_of "StdOut=/home/vagrant/slurm-agent-52.out"); (Nl, item_of "Power=")].
Example fixtures : print_block job_block = testScontrolResponse /\ print_block pending_block = testPendingScontrolResponse.
Proof. split; vm_compute; reflexivity. Qed.

Definition job : AgentParse.JobInfo :=
  AgentParse.mkJobInfo "53" "vagrant(1000)" "" "sbatch" "0:0" "RUNNING"
    (Some (mkTime 1555415359 0)) (Some (mkTime 1555415360 0)) (Some 30000000000%Z) (Some 90000000000000%Z) "/home/vagrant"
    "/home/vagrant/slurm-agent-53.out" "/home/vagrant/slurm-agent-53.out" "debug" "vagrant" "vagrant" "1" "None".
Definition pending_job : AgentParse.JobInfo :=
  AgentParse.mkJobInfo "52" "vagrant(1000)" "" "sbatch" "0:0" "PENDING"
    (Some (mkTime 1555415359 0)) None (Some 0%Z) None "/home/vagrant"
    "/home/vagrant/slurm-agent-52.out" "/home/vagrant/slurm-agent-52.out" "debug" "(null)" "" "1" "None".

Lemma job_described : describes_job job_block job.
Proof.
  split; [|split_and!].
  - apply list.Forall_forall. by_compute.
  - right; right. exists (mkCivil 2019 4 16 11 49 19). split_and!; [by_compute|vm_compute; reflexivity..].
  - right; right. exists (mkCivil 2019 4 16 11 49 20). split_and!; [by_compute|vm_compute; reflexivity..].
  - right; right. exists (DHourMinSec "00" "00" "30"). split_and!; [by_compute|vm_compute; reflexivity..].
  - right; right. exists (DDayHourMinSec "1" "01" "00" "00"). split_and!; [by_compute|vm_compute; reflexivity..].
Qed.

Lemma pending_described : describes_job pending_block pending_job.
Proof.
  split; [|split_and!].
  - apply list.Forall_forall. by_compute.
  - right; right. exists (mkCivil 2019 4 16 11 49 19). split_and!; [by_compute|vm_compute; reflexivity..].
  - right; left. split; vm_compute; reflexivity.
  - right; right. exists (DHourMinSec "00" "00" "00"). split_and!; [by_compute|vm_compute; reflexivity..].
  - right; left. split; vm_compute; reflexivity.
Qed.

Lemma JobInfo_shows_jobs_witness :
  exists infos,
    JobInfo (SH := printing_host (testScontrolResponse +:+ LFLF +:+ testPendingScontrolResponse +:+ LF)) (PT := proto_time_impl)
      (mkJobInfoRequest 53) fresh = (Ok (mkJobInfoResponse infos), fresh) /\
    Forall2 (shows_job (PT := proto_time_impl)) [job; pending_job] infos.
Proof.
  apply (JobInfo_shows_jobs (SH := printing_host (testScontrolResponse +:+ LFLF +:+ testPendingScontrolResponse +:+ LF))
    (PT := proto_time_impl) (PL := proto_time_impl_laws) (mkJobInfoRequest 53) fresh [job_block; pending_block] LF
    [job; pending_job] tt).
  - discriminate.
  - by_compute.
  - reflexivity.
  - constructor; [apply job_described|constructor; [apply pending_described|constructor]].
  - repeat constructor.
  - vm_compute. reflexivity.
Defined.

Definition steps : list sacct_row :=
  [mkSacctRow (Some (mkCivil 2019 2 20 11 16 55)) None 0 "0" "RUNNING" "67" "sbatch";
   mkSacctRow (Some (mkCivil 2019 2 20 11 16 55)) (Some (mkCivil 2019 2 20 11 16 56)) 2 "15"
     "CANCELLED by 1000" "67.batch" "batch"].

Lemma JobSteps_shows_rows_witness :
  exists ps,
    JobSteps (SH := printing_host (Join (print_row <$> steps) LF +:+ LF)) (PT := proto_time_impl)
      (mkJobStepsRequest 67) fresh = (Ok (mkJobStepsResponse ps), fresh) /\
    Forall2 (shows_step (PT := proto_time_impl)) (row_step <$> steps) ps.
Proof.
  apply (JobSteps_shows_rows (SH := printing_host (Join (print_row <$> steps) LF +:+ LF))
    (PT := proto_time_impl) (PL := proto_time_impl_laws) (mkJobStepsRequest 67) fresh steps tt).
  - discriminate.
  - by_compute.
  - repeat constructor.
  - reflexivity.
Defined.

Definition partition_block : block := kv_block (mkKv "PartitionName" "debug")
  [(Nl, mkKv "MaxNodes" unlimited); (Sp, mkKv "MaxTime" "1-2:30:05"); (Nl, mkKv "MaxCPUsPerNode" "2");
   (Sp, mkKv "MaxMemPerNode" unlimited); (Nl, mkKv "TotalCPUs" "8"); (Sp, mkKv "TotalNodes" "4")].

Lemma Resources_of_partition_witness :
  Resources (SH := printing_host (print_block partition_block +:+ LFLF)) slurm
    (mkResourcesRequest "debug") fresh =
  (Ok (mkResourcesResponse 2 2 (-1) 95405 [mkFeature "singularity" "3" 1]), fresh).
Proof.
  rewrite (Resources_of_partition (SH := printing_host (print_block partition_block +:+ LFLF)) slurm
    (mkResourcesRequest "debug") fresh partition_block
    (mkSlurmPartition (Some (DDayHourMinSec "1" "2" "30" "05")) (Limit 2) Unlimited Unlimited 8 4) LFLF tt);
    [vm_compute; reflexivity|by_compute|reflexivity|by_compute| |reflexivity].
  repeat split; vm_compute; congruence.
Defined.

Definition two_partitions : list block :=
  [partition_block; line_block (mkKv "PartitionName" "gpu") [mkKv "Nodes" "c[1-4]"]].

Lemma Partitions_and_Nodes_witness :
  Partitions (SH := printing_host (print_blocks two_partitions +:+ LFLF)) fresh =
    (Ok (mkPartitionsResponse ["debug"; "gpu"]), fresh).
Proof.
  refine (proj1 (Partitions_and_Nodes (SH := printing_host (print_blocks two_partitions +:+ LFLF))
    fresh two_partitions LFLF tt ["c1"] _ _ _) _); [discriminate|by_compute|reflexivity|reflexivity].
Defined.

#[local] Existing Instance SubmitStepsFacts.counting_host.
#[local] Instance no_uuid : UuidSource Z := fun w => ("", w).

Definition demo : SubmitJobRequest := SubmitStepsFacts.demo_request.

Lemma SubmitJob_first_witness :
  SubmitJob demo (mkSrv ∅ 7%Z) = (Ok (mkSubmitJobResponse 7), mkSrv (<["pod-1" := 7%Z]> ∅) 8%Z).
Proof.
  rewrite (SubmitJob_first demo (mkSrv ∅ 7%Z) "7" None 8%Z); reflexivity.
Defined.

Lemma SubmitJob_idempotent_witness :
  let st := mkSrv (<["pod-1" := 7%Z]> ∅) 8%Z in
  let st' := serve_all (PT := proto_time_impl) slurm (fun f _ => f) [RCancelJob (mkCancelJobRequest 7); RPartitions] st in
  SubmitJob demo st' = (Ok (mkSubmitJobResponse 7), st').
Proof.
  intros st st'.
  apply (SubmitJob_idempotent (PT := proto_time_impl) slurm (fun f _ => f) demo (mkSrv ∅ 7%Z)
    (mkSubmitJobResponse 7) st [RCancelJob (mkCancelJobRequest 7); RPartitions] demo); reflexivity.
Defined.

#[local] Instance one_file : FileHost (list Chunk) := fun path _ =>
  if bool_decide (path = "/tmp/o") then Ok [mkReadResult "ab" None; mkReadResult "" None; mkReadResult "c" None]
  else Err (ErrOS NotExist).
#[local] Instance collect : ChunkStream (list Chunk) := fun c w => (Ok tt, w ++ [c]).

Lemma OpenFile_streams_witness :
  exists w' cs, OpenFile (mkOpenFileRequest "/tmp/o") [] = (Ok tt, w') /\ w' = [] ++ cs /\
    cat (ch_Content <$> cs) = "abc" /\ Forall (fun c => ch_Content c <> "") cs.
Proof.
  apply (OpenFile_streams id) with (reads := [mkReadResult "ab" None; mkReadResult "" None; mkReadResult "c" None]).
  - intros c w. by exists (w ++ [c]).
  - reflexivity.
  - split; [by repeat constructor|reflexivity].
Defined.
End ServerExamples.
