(* ===== verification/AgentTypes.v ===== *)
(** * The integers in the agent's answers

    Whatever the Slurm binaries print, the numbers in the answers fit the
    types of the protobuf fields: a model with unbounded integers would show
    where a parser, a sum or a conversion leaves them. The messages, the
    configuration and the state of the agent each have a predicate
    [well_typed]; the theorem is about every handler of the service. *)

From S2P Require Import Prelude GoStrings GoNum GoTime KeyValue AgentParse AgentClient Workload AgentServer.

Definition in_int32 (z : Z) : Prop := (- 2 ^ 31 <= z < 2 ^ 31)%Z.

Lemma wrap32_range z : in_int32 (wrap32 z).
Proof. unfold in_int32, wrap32. pose proof (Z.mod_pos_bound (z + 2 ^ 31) (2 ^ 32)). lia. Qed.

Class WellTyped (A : Type) := well_typed : A -> Prop.

#[export] Instance typed_list {A} `{WellTyped A} : WellTyped (list A) := Forall well_typed.
#[export] Instance typed_submit : WellTyped SubmitJobResponse := fun m => in_int64 (sjr_JobId m).
#[export] Instance typed_container : WellTyped SubmitJobContainerResponse := fun m => in_int64 (scr_JobId m).
#[export] Instance typed_step : WellTyped Workload.JobStepInfo := fun m => in_int32 (js_ExitCode m).
#[export] Instance typed_steps : WellTyped JobStepsResponse := fun m => well_typed (jsresp_JobSteps m).
#[export] Instance typed_node : WellTyped Workload.Node := fun n =>
  Forall in_int64 [n_Cpus n; n_Memory n; n_Gpus n; n_AlloCpus n; n_AlloMemory n; n_AlloGpus n].
#[export] Instance typed_nodes : WellTyped NodesResponse := fun m => well_typed (nresp_Nodes m).
#[export] Instance typed_feature : WellTyped Feature := fun f => in_int64 (f_Quantity f).
#[export] Instance typed_resources : WellTyped ResourcesResponse := fun m =>
  Forall in_int64 [rsp_Nodes m; rsp_CpuPerNode m; rsp_MemPerNode m; rsp_WallTime m] /\ well_typed (rsp_Features m).
#[export] Instance typed_workload : WellTyped WorkloadInfoResponse := fun m => in_int64 (wi_Uid m).
#[export] Instance typed_cfg_feature : WellTyped CfgFeature := fun f => in_int64 (cf_Quantity f).
#[export] Instance typed_partition_resources : WellTyped PartitionResources := fun c =>
  Forall in_int64 [pc_Nodes c; pc_CPUPerNode c; pc_MemPerNode c; pc_WallTime c] /\ well_typed (pc_AdditionalFeatures c).
#[export] Instance typed_config : WellTyped Config := map_Forall (fun _ => well_typed).
#[export] Instance typed_slurm : WellTyped Slurm := fun s => in_int64 (sl_uid s) /\ well_typed (sl_cfg s).
#[export] Instance typed_srv {W} : WellTyped (Srv W) := fun st => map_Forall (fun _ => in_int64) (knownJobs st).

(** A call of the service that keeps the state well-typed and whose answer
    is. *)
Definition typed_call {W A} `{WellTyped A} (m : M (Srv W) A) : Prop :=
  forall st, well_typed st -> wp m (fun r st' => well_typed st' /\ forall a, r = Ok a -> well_typed a) st.

(** ** The parsers *)

#[local] Ltac each := repeat (apply List.Forall_cons); try apply List.Forall_nil.

Lemma small_in_int64 z : (-1 <= z <= 0)%Z -> in_int64 z.
Proof. unfold in_int64, int64_min, int64_max. lia. Qed.

Lemma AtoiR_range s v : AtoiR s = Ok v -> in_int64 v.
Proof.
  unfold AtoiR, num_res. pose proof (ParseInt_range s) as Hr. destruct (ParseInt s) as [v' [e|]]; [done|]. by intros [= <-].
Qed.

Lemma ParseDuration_range s d : ParseDuration s = Ok d -> in_int64 d.
Proof.
  unfold ParseDuration. destruct (bool_decide _ || bool_decide _); [done|]. destruct (3 <? _)%nat; [done|].
  intros H. apply bind_Ok_inv in H as ([[[days hours] minutes] seconds] & _ & [= <-]). apply wrap64_range.
Qed.

Lemma parse_count_range m key total what what_total v :
  parse_count m key total what what_total 0 = Ok v -> in_int64 v.
Proof.
  unfold parse_count. destruct (m !! key) as [vs|]; [|intros [= <-]; by apply small_in_int64].
  intros H. apply bind_Ok_inv in H as (t & _ & H). case_bool_decide.
  - destruct (total ≫= _); [|injection H as <-; by apply small_in_int64].
    apply bind_Ok_inv in H as (t' & _ & H). apply wrap_err_Ok_inv in H. by eapply ParseIntR_range.
  - apply wrap_err_Ok_inv in H. by eapply ParseIntR_range.
Qed.

Lemma parseResources_range text r : parseResources text = Ok r ->
  Forall in_int64 [sr_Nodes r; sr_MemPerNode r; sr_CPUPerNode r; sr_WallTime r] /\ sr_Features r = [].
Proof.
  unfold parseResources. intros H. apply bind_Ok_inv in H as (wall & Hw & H).
  apply bind_Ok_inv in H as (cpus & Hc & H). apply bind_Ok_inv in H as (mem & Hm & H). apply bind_Ok_inv in H as (nodes & Hn & [= <-]).
  split; [|done]. cbn. each; try (by eapply parse_count_range). clear Hc Hm Hn.
  destruct (_ !! "MaxTime") as [vs|]; [|injection Hw as <-; by apply small_in_int64].
  apply bind_Ok_inv in Hw as (v & _ & Hw). destruct (ParseDuration v) as [d|e|p] eqn:E; [|case_match; [|done]|done].
  - injection Hw as <-. by eapply ParseDuration_range.
  - injection Hw as <-. by apply small_in_int64.
Qed.

Lemma DurationSeconds_range d : in_int64 d -> in_int64 (DurationSeconds d).
Proof.
  unfold in_int64, int64_min, int64_max, DurationSeconds, Second. intros H.
  pose proof (Z.quot_rem' d 1000000000). pose proof (Z.rem_bound_abs d 1000000000 ltac:(lia)). lia.
Qed.

Lemma merge_resources_typed c text r : well_typed c -> parseResources text = Ok r -> well_typed (merge_resources c r).
Proof.
  intros [Hc Hf] Hr. apply parseResources_range in Hr as [Hr Hfe]. rewrite !list.Forall_cons in Hc, Hr. destruct_and!.
  split.
  - cbn. each; case_match; try done; by apply DurationSeconds_range.
  - unfold well_typed, typed_list. cbn. rewrite Hfe. cbn. apply Forall_fmap.
    eapply list.Forall_impl; [exact Hf|]. by intros f.
Qed.

Definition node_typed (n : AgentParse.Node) : Prop := well_typed (to_proto_node n).

Lemma parseNode_typed text : node_typed (parseNode text).
Proof.
  unfold parseNode. assert (H0 : node_typed (AgentParse.mkNode 0 0 0 "" 0 0 0)) by (each; done).
  revert H0. generalize (AgentParse.mkNode 0 0 0 "" 0 0 0). induction (Fields text) as [|f fs IH]; intros n Hn; [done|].
  cbn [foldl]. apply IH. unfold node_field. destruct (Split f "=") as [|k [|v [|? ?]]]; try done. destruct n as [a b c t d e g].
  unfold node_typed, well_typed, typed_node in *. cbn in *. rewrite !list.Forall_cons in Hn. destruct_and!.
  repeat case_match; cbn; each; try done; apply ParseInt_range.
Qed.

(** ** The handlers *)

Section handlers.
Context {W : Type} {SH : SlurmHost W} {PT : ProtoTime} {US : UuidSource W}.
Variable s : Slurm.
Variable sprintf_other : string -> string -> string.

(** Calls of the Slurm binaries do not touch the table of jobs. *)
Lemma typed_bind_host {A B} `{WellTyped B} (m : M W A) msg (f : A -> M (Srv W) B) :
  (forall w a w', m w = (Ok a, w') -> typed_call (f a)) -> typed_call (wrapM (on_host m) msg ≫= f).
Proof.
  intros Hf st Hst. apply wp_bind. unfold wp, wrapM, on_host. destruct (m (host st)) as [[a|e|p] w] eqn:E; cbn.
  - by apply (Hf _ _ _ E).
  - by split.
  - by split.
Qed.

Lemma typed_on_host {A B} `{WellTyped B} (m : M W A) (f : A -> M (Srv W) B) :
  (forall a, typed_call (f a)) -> typed_call (on_host m ≫= f).
Proof.
  intros Hf st Hst. apply wp_bind. unfold wp, on_host. destruct (m (host st)) as [[a|e|p] w]; cbn; [by apply Hf|by split..].
Qed.

Lemma typed_lift {A B} `{WellTyped B} (r : res A) (f : A -> M (Srv W) B) :
  (forall a, r = Ok a -> typed_call (f a)) -> typed_call (lift r ≫= f).
Proof. intros Hf st Hst. apply wp_bind. unfold wp, lift. cbn. destruct r; cbn; [by apply Hf|by split..]. Qed.

Lemma typed_ret {A} `{WellTyped A} (a : A) : well_typed a -> typed_call (W := W) (mret a).
Proof. intros Ha st Hst. apply wp_ret. split; [done|]. by intros ? [= <-]. Qed.

Lemma SBatch_range req w id w' : SBatch req w = (Ok id, w') -> in_int64 id.
Proof.
  intros H. unfold SBatch in H. apply M_bind_Ok_inv in H as (r & w1 & _ & H). destruct (c_err r); [done|].
  unfold lift in H. injection H as H _. apply wrap_err_Ok_inv in H. by eapply AtoiR_range.
Qed.

Lemma SubmitJob_typed req : typed_call (SubmitJob (W := W) req).
Proof.
  unfold SubmitJob. destruct (invalid_submit req); [by intros st Hst; split|].
  intros st Hst. apply wp_bind. unfold wp, get. cbn [fst snd after].
  destruct (knownJobs st !! sj_Uid req) as [id|] eqn:Hk.
  { apply (typed_ret (mkSubmitJobResponse id)); [|done]. by apply (Hst _ _ Hk). }
  revert st Hst Hk. intros st Hst _. revert st Hst.
  apply (typed_bind_host (SBatch (to_sbatch req)) "could not submit sbatch script"). intros w id w' E st Hst.
  apply SBatch_range in E. apply wp_bind. unfold wp, modify. cbn [fst snd after]. unfold wp. cbn. split.
  - by apply map_Forall_insert_2.
  - by intros a [= <-].
Qed.

Lemma SubmitJobContainer_typed req : typed_call (SubmitJobContainer (W := W) sprintf_other req).
Proof.
  apply typed_on_host. intros uid. apply typed_lift. intros script _.
  apply typed_bind_host. intros w1 id w' E. apply typed_ret. by eapply SBatch_range.
Qed.

Lemma JobSteps_typed req : typed_call (JobSteps (W := W) req).
Proof.
  apply typed_bind_host. intros w steps w' _. apply typed_lift. intros p E. apply wrap_err_Ok_inv in E. apply typed_ret.
  apply mapR_Forall2 in E. unfold well_typed, typed_steps, typed_list, well_typed. cbn.
  induction E as [|x y xs ys Hxy _ IH]; constructor; [|done].
  apply bind_Ok_inv in Hxy as (t1 & _ & Hxy). apply bind_Ok_inv in Hxy as (t2 & _ & [= <-]). apply wrap32_range.
Qed.

Lemma Nodes_typed req : typed_call (Nodes (W := W) req).
Proof.
  apply typed_bind_host. intros w nodes w' E. apply typed_ret. unfold AgentClient.Nodes in E.
  assert (H : Forall node_typed nodes); [|unfold well_typed, typed_nodes, typed_list; cbn; by apply Forall_fmap].
  destruct (length (nr_Nodes req) =? 0)%nat; [by injection E as <- _|].
  apply M_bind_Ok_inv in E as (r & w1 & _ & E). destruct (c_err r); [done|]. injection E as <- _.
  unfold parse_nodes. apply Forall_fmap, list.Forall_forall. intros x _. apply parseNode_typed.
Qed.

Lemma Resources_typed req : well_typed (sl_cfg s) -> typed_call (Resources (W := W) s req).
Proof.
  intros Hcfg. apply typed_bind_host. intros w r w' E. apply typed_ret. unfold AgentClient.Resources in E.
  apply M_bind_Ok_inv in E as (out & w1 & _ & E). destruct (c_err out); [done|]. unfold lift in E. injection E as E _.
  apply wrap_err_Ok_inv in E. eapply merge_resources_typed; [|exact E].
  destruct (sl_cfg s !! rr_Partition req) as [c|] eqn:Hc; [by apply (Hcfg _ _ Hc)|].
  split; [|by apply List.Forall_nil]. cbn. each; done.
Qed.

(** Whatever the Slurm binaries do and print, and whatever the requests
    are, the integers in the answers of the agent fit their protobuf types,
    64 bits or, for exit codes, 32 bits, and so do the job ids it remembers,
    provided the configuration's do. *)
Theorem answers_typed : well_typed s ->
  (forall req, typed_call (SubmitJob (W := W) req)) /\
  (forall req, typed_call (SubmitJobContainer (W := W) sprintf_other req)) /\
  (forall req, typed_call (JobSteps (W := W) req)) /\
  (forall req, typed_call (Nodes (W := W) req)) /\
  (forall req, typed_call (Resources (W := W) s req)) /\
  typed_call (WorkloadInfo (W := W) s).
Proof.
  intros [Huid Hcfg]. split_and!.
  - intros req. apply SubmitJob_typed.
  - intros req. apply SubmitJobContainer_typed.
  - intros req. apply JobSteps_typed.
  - intros req. apply Nodes_typed.
  - intros req. by apply Resources_typed.
  - apply typed_bind_host. intros w v w' _. by apply typed_ret.
Qed.
End handlers.

Module TypesExamples.
Import ServerExamples.
#[local] Instance demo_uuid : UuidSource unit := fun w => ("u", w).
#[local] Existing Instance proto_time_impl.

Definition demo_slurm : Slurm := mkSlurm 1000 {["debug" := mkPartitionResources false true false false 2 4 0 0 [mkCfgFeature "singularity" "3" 1]]}.
Lemma demo_slurm_typed : well_typed demo_slurm.
Proof.
  split; [done|]. intros k c Hc. unfold demo_slurm in Hc. cbn [sl_cfg] in Hc. apply lookup_singleton_Some in Hc as [_ <-]. split; cbn; repeat (apply List.Forall_cons); done.
Qed.

(** A count beyond 64 bits is refused, and an exit code beyond 32 bits wraps. *)
Example big_numbers :
  is_ok (Resources (SH := printing_host "PartitionName=debug MaxNodes=9223372036854775808") demo_slurm (mkResourcesRequest "debug")
    (mkSrv ∅ tt)).1 = false /\
  (JobSteps (SH := printing_host "Unknown|Unknown|4294967297:0|COMPLETED|1|batch|") (mkJobStepsRequest 1) (mkSrv ∅ tt)).1 =
    Ok (mkJobStepsResponse [mkJobStepInfo "1" "batch" 1 JobStatus_COMPLETED None None]).
Proof. vm_compute. done. Qed.

Lemma answers_typed_witness : well_typed demo_slurm /\
  typed_call (Resources (SH := printing_host "PartitionName=debug MaxNodes=7") demo_slurm (mkResourcesRequest "debug")).
Proof.
  split; [exact demo_slurm_typed|].
  apply (answers_typed (SH := printing_host "PartitionName=debug MaxNodes=7") demo_slurm (fun _ _ => "") demo_slurm_typed).
Defined.
End TypesExamples.
