(* ===== verification/AgentRun.v ===== *)
(** * The running agent (cmd/slurm-agent)

    From the calls that serve to the end of the process: [main] serves the
    Unix socket, a goroutine the HTTP address, and another one waits for a
    signal and stops the server gracefully. They are a step relation,
    together with the calls in flight: the [SubmitJob] handlers, whose steps
    are those of [SubmitSteps], the handlers of the other unary calls, which
    run in one step, and the file streams that are open. A handler that
    panics ends the process, since nothing recovers, and so may a follower
    of a file ([util.Fatal]). The grpc server is a library: [Serve] refuses a
    server that is being stopped, returns nil once it has been stopped, and
    [GracefulStop] lets no call in and waits for those in flight.

    The theorems: when [main] returns, every call has been answered and no
    job Slurm accepted is unknown to the client that submitted it; and once
    a stop has begun every run ends, with the return of [main] unless a call
    in flight ends the process. A signal during the start, however, and a
    call of [JobState] at any time, end the process in the middle of others. *)

From S2P Require Import Prelude GoStrings GoNum GoTime Workload AgentParse AgentClient AgentServer.

(** ** The process *)

(** [MainServe] is [main] about to call [Serve]; the goroutine of the HTTP
    address, when there is one, listens first. *)
Inductive main_pc := MainServe | MainServing | MainWait | MainReturned.
Inductive http_pc := HttpOff | HttpListen | HttpServe | HttpServing | HttpReturned.
Inductive signal_pc := SignalWait | SignalStop | SignalStopping | SignalDone.

(** A unary call in flight that is not [SubmitJob]. *)
Inductive unary_call :=
  | CSubmitJobContainer (r : SubmitJobContainerRequest)
  | CCancelJob (r : CancelJobRequest)
  | CJobInfo (r : JobInfoRequest)
  | CJobSteps (r : JobStepsRequest)
  | CJobState
  | CResources (r : ResourcesRequest)
  | CPartitions
  | CPartition (r : PartitionRequest)
  | CNodes (r : NodesRequest)
  | CWorkloadInfo.

Record Process (W : Type) := mkProcess {
  p_main : main_pc;
  p_http : http_pc;
  p_signal : signal_pc;
  p_quit : bool;
  p_streams : nat;
  p_calls : SubmitSteps.state W;
  p_others : list unary_call;
  p_exit : option panic;
}.
Arguments mkProcess {W}.
Arguments p_main {W}.
Arguments p_http {W}.
Arguments p_signal {W}.
Arguments p_quit {W}.
Arguments p_streams {W}.
Arguments p_calls {W}.
Arguments p_others {W}.
Arguments p_exit {W}.

Section process.
Context {W : Type} {SH : SlurmHost W} {PT : ProtoTime} {US : UuidSource W}.
Variable s : Slurm.
Variable sprintf_other : string -> string -> string.
(** Whether the listeners may fail while they are used. *)
Variable listeners_fail : Prop.

Abbreviation Proc := (Process W).

Definition at_main (pc : main_pc) (p : Proc) : Proc :=
  mkProcess pc (p_http p) (p_signal p) (p_quit p) (p_streams p) (p_calls p) (p_others p) (p_exit p).
Definition at_http (pc : http_pc) (p : Proc) : Proc :=
  mkProcess (p_main p) pc (p_signal p) (p_quit p) (p_streams p) (p_calls p) (p_others p) (p_exit p).
Definition at_signal (pc : signal_pc) (quit : bool) (p : Proc) : Proc :=
  mkProcess (p_main p) (p_http p) pc quit (p_streams p) (p_calls p) (p_others p) (p_exit p).
Definition with_streams (n : nat) (p : Proc) : Proc :=
  mkProcess (p_main p) (p_http p) (p_signal p) (p_quit p) n (p_calls p) (p_others p) (p_exit p).
Definition with_calls (c : SubmitSteps.state W) (p : Proc) : Proc :=
  mkProcess (p_main p) (p_http p) (p_signal p) (p_quit p) (p_streams p) c (p_others p) (p_exit p).
Definition with_others (l : list unary_call) (p : Proc) : Proc :=
  mkProcess (p_main p) (p_http p) (p_signal p) (p_quit p) (p_streams p) (p_calls p) l (p_exit p).
(** The end of the process. *)
Definition died (x : panic) (p : Proc) : Proc :=
  mkProcess (p_main p) (p_http p) (p_signal p) (p_quit p) (p_streams p) (p_calls p) (p_others p) (Some x).

(** [logrus.Fatalf]. *)
Definition Fatalf (msg : string) (p : Proc) : Proc := died (ProcessExit msg) p.

(** The handler of a call, its answer put aside. *)
Definition run_call (c : unary_call) : M (Srv W) unit :=
  match c with
  | CSubmitJobContainer r => SubmitJobContainer sprintf_other r;; mret tt
  | CCancelJob r => CancelJob r;; mret tt
  | CJobInfo r => JobInfo r;; mret tt
  | CJobSteps r => JobSteps r;; mret tt
  | CJobState => JobState;; mret tt
  | CResources r => Resources s r;; mret tt
  | CPartitions => Partitions;; mret tt
  | CPartition r => Partition r;; mret tt
  | CNodes r => Nodes r;; mret tt
  | CWorkloadInfo => WorkloadInfo s;; mret tt
  end.

Definition alive (p : Proc) : Prop := p_exit p = None /\ p_main p <> MainReturned.
Definition serving (p : Proc) : Prop := p_main p = MainServing \/ p_http p = HttpServing.

Definition is_replied (t : SubmitSteps.pc) : bool := match t with SubmitSteps.Replied _ _ => true | _ => false end.
(** [GracefulStop] may return: nothing is in flight. *)
Definition idle (p : Proc) : Prop :=
  p_streams p = 0 /\ p_others p = [] /\ Forall (fun t => is_replied t = true) (SubmitSteps.threads (p_calls p)).

Definition accepted (req : SubmitJobRequest) (c : SubmitSteps.state W) : SubmitSteps.state W :=
  SubmitSteps.mkState (SubmitSteps.threads c ++ [SubmitSteps.Start req]) (SubmitSteps.srv c) (SubmitSteps.submitted c).

Definition at_agent (st : Srv W) (c : SubmitSteps.state W) : SubmitSteps.state W :=
  SubmitSteps.mkState (SubmitSteps.threads c) st (SubmitSteps.submitted c).

Definition could_not_serve : string := "Could not serve requests".

(** The lines of [main] from [s.Serve(ln)] on. *)
Inductive main_step : Proc -> Proc -> Prop :=
  | main_serve p : p_main p = MainServe -> p_quit p = false -> main_step p (at_main MainServing p)
  | main_serve_late p : p_main p = MainServe -> p_quit p = true -> main_step p (Fatalf could_not_serve p)
  | main_accept_fails p : p_main p = MainServing -> p_quit p = false -> listeners_fail -> main_step p (Fatalf could_not_serve p)
  | main_stopped p : p_main p = MainServing -> p_signal p = SignalDone -> main_step p (at_main MainWait p)
  | main_wait p : p_main p = MainWait -> p_signal p = SignalDone -> main_step p (at_main MainReturned p).

(** [newHttpServer]. *)
Inductive http_step : Proc -> Proc -> Prop :=
  | http_listen p : p_http p = HttpListen -> http_step p (at_http HttpServe p)
  | http_listen_fails p : p_http p = HttpListen -> listeners_fail -> http_step p (Fatalf "Could not listen http" p)
  | http_serve p : p_http p = HttpServe -> p_quit p = false -> http_step p (at_http HttpServing p)
  | http_serve_late p : p_http p = HttpServe -> p_quit p = true -> http_step p (Fatalf could_not_serve p)
  | http_accept_fails p : p_http p = HttpServing -> p_quit p = false -> listeners_fail -> http_step p (Fatalf could_not_serve p)
  | http_stopped p : p_http p = HttpServing -> p_signal p = SignalDone -> http_step p (at_http HttpReturned p).

(** [runSignalHandler]: a signal, the start of [GracefulStop] and its end. *)
Inductive signal_step : Proc -> Proc -> Prop :=
  | signal_arrives p : p_signal p = SignalWait -> signal_step p (at_signal SignalStop (p_quit p) p)
  | stop_begins p : p_signal p = SignalStop -> signal_step p (at_signal SignalStopping true p)
  | stop_ends p : p_signal p = SignalStopping -> idle p -> signal_step p (at_signal SignalDone (p_quit p) p).

(** Clients and handlers. Nothing recovers from the panic of a handler. *)
Inductive call_step : Proc -> Proc -> Prop :=
  | accept_submit p req : serving p -> p_quit p = false -> call_step p (with_calls (accepted req (p_calls p)) p)
  | handler_runs p c : SubmitSteps.step (p_calls p) c -> call_step p (with_calls c p)
  | open_stream p : serving p -> p_quit p = false -> call_step p (with_streams (S (p_streams p)) p)
  | close_stream p n : p_streams p = S n -> call_step p (with_streams n p)
  | stream_dies p x : p_streams p <> 0 -> call_step p (died x p)
  | accept_call p c : serving p -> p_quit p = false -> call_step p (with_others (c :: p_others p) p)
  | call_answers p l c k r st :
      p_others p = l ++ c :: k -> run_call c (SubmitSteps.srv (p_calls p)) = (r, st) -> no_panic r ->
      call_step p (with_calls (at_agent st (p_calls p)) (with_others (l ++ k) p))
  | call_panics p c x : c ∈ p_others p -> (run_call c (SubmitSteps.srv (p_calls p))).1 = Panic x -> call_step p (died x p).

Definition astep (p p' : Proc) : Prop := alive p /\ (main_step p p' \/ http_step p p' \/ signal_step p p' \/ call_step p p').

(** [main] when it has listened, over an agent without calls. *)
Definition started (enableHttp : bool) (agent : Srv W) : Proc :=
  mkProcess MainServe (if enableHttp then HttpListen else HttpOff) SignalWait false 0 (SubmitSteps.mkState [] agent []) [] None.
Definition reachable (p : Proc) : Prop := exists enableHttp agent, rtc astep (started enableHttp agent) p.

(** ** What a stop leaves *)

(** Every job Slurm accepted is on its way to the client. *)
Definition accounted (c : SubmitSteps.state W) : Prop :=
  forall job, job ∈ SubmitSteps.submitted c -> exists i t, SubmitSteps.threads c !! i = Some t /\ SubmitStepsFacts.pc_job t = Some job.

Record wf (p : Proc) : Prop := mkWf {
  wf_accounted : accounted (p_calls p);
  wf_done : p_signal p = SignalDone -> idle p;
  wf_quit : p_quit p = true <-> p_signal p = SignalStopping \/ p_signal p = SignalDone;
  wf_returned : p_main p = MainWait \/ p_main p = MainReturned -> p_signal p = SignalDone;
}.

Lemma accounted_step c c' : SubmitSteps.step c c' -> accounted c -> accounted c'.
Proof.
  intros Hs Ha job Hjob.
  assert (Hkeep : forall i t t', SubmitSteps.threads c !! i = Some t -> (forall j, SubmitStepsFacts.pc_job t = Some j -> SubmitStepsFacts.pc_job t' = Some j) ->
    job ∈ SubmitSteps.submitted c -> exists k u, <[i := t']> (SubmitSteps.threads c) !! k = Some u /\ SubmitStepsFacts.pc_job u = Some job).
  { intros i t t' Hi Ht Hin. destruct (Ha job Hin) as (k & u & Hk & Hu). destruct (decide (i = k)) as [->|Hne].
    - exists k, t'. rewrite list_lookup_insert_eq by (by eapply lookup_lt_Some). split; [done|]. apply Ht. congruence.
    - exists k, u. by rewrite list_lookup_insert_ne. }
  destruct Hs as [i req st Hi|i req id st Hi _ _|i req st Hi|i req id w' st Hi _|i req e w' st Hi _|i req id st Hi]; cbn in *;
    try by eapply Hkeep.
  apply elem_of_cons in Hjob as [->|Hjob]; [|by eapply Hkeep]. exists i, (SubmitSteps.Ran req id).
  by rewrite list_lookup_insert_eq by (by eapply lookup_lt_Some).
Qed.

Lemma step_not_idle c c' : SubmitSteps.step c c' -> ~ Forall (fun t => is_replied t = true) (SubmitSteps.threads c).
Proof. intros Hs Hf. destruct Hs; by pose proof (Forall_lookup_1 _ _ _ _ Hf H). Qed.

Lemma astep_wf p p' : astep p p' -> wf p -> wf p'.
Proof.
  intros [_ Hst] [Ha Hd Hq Hr]. destruct Hst as [Hst|[Hst|[Hst|Hst]]]; destruct Hst; split; cbn in *; try done;
    try (rewrite ?H, ?H0 in *; intuition congruence).
  - intros job Hjob. destruct (Ha job Hjob) as (i & t & Hi & Ht). exists i, t. split; [by apply lookup_app_l_Some|done].
  - by eapply accounted_step.
  - intros Hs. by destruct (step_not_idle _ _ H (proj2 (proj2 (Hd Hs)))).
  - intros Hs. pose proof (Hd Hs) as [H0 _]. congruence.
  - intros Hs. destruct (Hd Hs) as (_ & Hn & _). rewrite Hn in H. by destruct l.
Qed.

Lemma serving_reachable_wf p : reachable p -> wf p.
Proof.
  intros (b & agent & Hs). assert (H0 : wf (started b agent)).
  { split; cbn; [by intros job ?%elem_of_nil|done|intuition congruence|intuition congruence]. }
  revert H0. induction Hs as [p|p p1 p2 Hst _ IH]; [done|]. intros H. by apply IH, (astep_wf p).
Qed.

(** C8. A graceful stop loses nothing. When [main] of the agent returns,
    every [SubmitJob] call it accepted has been answered and no file stream
    is open, and each job [sbatch] has created, however the handlers
    interleaved with the stop, was answered to a call with its uid. *)
Theorem graceful_stop_loses_nothing p :
  reachable p -> p_main p = MainReturned ->
  idle p /\
  forall uid id, (uid, id) ∈ SubmitSteps.submitted (p_calls p) ->
    exists i req, SubmitSteps.threads (p_calls p) !! i = Some (SubmitSteps.Replied req (Ok (mkSubmitJobResponse id))) /\ sj_Uid req = uid.
Proof.
  intros H%serving_reachable_wf Hm. pose proof (wf_done p H (wf_returned p H (or_intror Hm))) as Hidle. split; [done|].
  intros uid id Hin. destruct (wf_accounted p H _ Hin) as (i & t & Hi & Ht). pose proof (Forall_lookup_1 _ _ _ _ (proj2 (proj2 Hidle)) Hi) as Hr.
  destruct t as [req|req|req id'|req [[id']|e|x]]; try done. cbn in Ht. injection Ht as <- <-. by exists i, req.
Qed.

(** ** The stop ends *)

(** The steps a handler still has to make. *)
Definition handler_steps (t : SubmitSteps.pc) : nat :=
  match t with SubmitSteps.Start _ => 3 | SubmitSteps.Missed _ => 2 | SubmitSteps.Ran _ _ => 1 | SubmitSteps.Replied _ _ => 0 end.
Definition work (l : list SubmitSteps.pc) : nat := foldr (fun t n => handler_steps t + n) 0 l.

Lemma work_insert l i t t' : l !! i = Some t -> handler_steps t' < handler_steps t -> work (<[i := t']> l) < work l.
Proof.
  revert i. induction l as [|u l IH]; intros [|i] Hi Ht; [done..| |].
  - injection Hi as ->. change (handler_steps t' + work l < handler_steps t + work l). lia.
  - specialize (IH i Hi Ht). change (handler_steps u + work (<[i := t']> l) < handler_steps u + work l). lia.
Qed.

(** A handler that has not replied has a next step. *)
Lemma handler_progress c i t :
  SubmitSteps.threads c !! i = Some t -> is_replied t = false -> exists c', SubmitSteps.step c c'.
Proof.
  intros Hi Ht. destruct t as [req|req|req id|req r]; [..|done].
  - destruct (invalid_submit req) eqn:Hv; [eexists; by eapply SubmitSteps.step_invalid|].
    destruct (knownJobs (SubmitSteps.srv c) !! sj_Uid req) as [id|] eqn:Hk.
    + eexists. by eapply SubmitSteps.step_hit.
    + eexists. by eapply SubmitSteps.step_miss.
  - pose proof (SubmitStepsFacts.SBatch_no_panic (to_sbatch req) (host (SubmitSteps.srv c))) as Hp.
    destruct (SBatch (to_sbatch req) (host (SubmitSteps.srv c))) as [[id|e|x] w'] eqn:Hb; [..|done].
    + eexists. by eapply SubmitSteps.step_sbatch.
    + eexists. by eapply SubmitSteps.step_sbatch_err.
  - eexists. by eapply SubmitSteps.step_store.
Qed.

(** Each step of the handlers is one. *)
Lemma step_work c c' : SubmitSteps.step c c' -> work (SubmitSteps.threads c') < work (SubmitSteps.threads c).
Proof. intros Hs. destruct Hs; cbn; eapply work_insert; try done; cbn; lia. Qed.

Lemma work_bound l : work l <= 3 * length l.
Proof.
  induction l as [|t l IH]; [done|]. change (handler_steps t + work l <= 3 * S (length l)). destruct t; cbn [handler_steps]; lia.
Qed.

(** Both servers serve, or have. *)
Definition up (p : Proc) : Prop :=
  p_main p <> MainServe /\ (p_http p = HttpOff \/ p_http p = HttpServing \/ p_http p = HttpReturned).

(** Once the stop has begun, nothing is let in. *)
Definition stopping (p : Proc) : Prop := p_quit p = true /\ (p_signal p = SignalStopping \/ p_signal p = SignalDone).

(** The steps a stop can still take. *)
Definition remaining (p : Proc) : nat :=
  work (SubmitSteps.threads (p_calls p)) + length (p_others p) + p_streams p +
  match p_signal p with SignalStopping => 1 | _ => 0 end +
  match p_main p with MainServing => 2 | MainWait => 1 | _ => 0 end +
  match p_http p with HttpServing => 1 | _ => 0 end + match p_exit p with None => 1 | _ => 0 end.

Lemma astep_stopping p p' : astep p p' -> stopping p -> up p -> stopping p' /\ up p'.
Proof.
  intros [_ Hst] [Hq Hs] [Hm Hh].
  destruct Hst as [Hst|[Hst|[Hst|Hst]]]; destruct Hst; unfold stopping, up; cbn; intuition congruence.
Qed.

Lemma astep_remaining p p' : astep p p' -> stopping p -> up p -> remaining p' < remaining p.
Proof.
  intros [[He _] Hst] [Hq Hs] [Hm Hh]. unfold remaining.
  destruct Hst as [Hst|[Hst|[Hst|Hst]]]; destruct Hst; cbn; try (exfalso; intuition congruence); rewrite ?He;
    try match goal with H : p_main _ = _ |- _ => rewrite H end; try match goal with H : p_http _ = _ |- _ => rewrite H end;
    try match goal with H : p_signal _ = _ |- _ => rewrite H end; try lia.
  - apply step_work in H. lia.
  - fold (work (SubmitSteps.threads (p_calls p))). rewrite H, !length_app. cbn [length]. lia.
Qed.

(** A stop that has not ended can go on. *)
Lemma stop_progress p : alive p -> stopping p -> up p -> exists p', astep p p'.
Proof.
  intros Halive [Hq Hs] [Hm Hh].
  assert (Hgo : forall p', main_step p p' \/ http_step p p' \/ signal_step p p' \/ call_step p p' -> exists p', astep p p')
    by (intros p' H; by exists p').
  destruct (p_streams p) as [|n] eqn:Hst; [|eapply Hgo; do 3 right; by apply (close_stream p n)].
  destruct (p_others p) as [|c l] eqn:Ho.
  2:{ destruct (run_call c (SubmitSteps.srv (p_calls p))) as [r st] eqn:Hr. destruct r as [y|e|x].
      1-2: eapply Hgo; do 3 right; by eapply (call_answers p [] c l).
      eapply Hgo; do 3 right. apply (call_panics p c x); [rewrite Ho; by left|by rewrite Hr]. }
  destruct (decide (Forall (fun t => is_replied t = true) (SubmitSteps.threads (p_calls p)))) as [Hf|Hf].
  2:{ apply not_Forall_Exists, Exists_exists in Hf as (t & Hin & Ht); [|apply _]. apply not_true_is_false in Ht.
      apply list_elem_of_In, list_elem_of_lookup_1 in Hin as [i Hi]. destruct (handler_progress _ _ _ Hi Ht) as (c & Hc).
      eapply Hgo; do 3 right. by apply handler_runs. }
  destruct Hs as [Hs|Hs]; [eapply Hgo; do 2 right; left; by apply stop_ends|].
  destruct (p_main p) eqn:Hmain; [done|..|by destruct Halive].
  - eapply Hgo. left. by apply main_stopped.
  - eapply Hgo. left. by apply main_wait.
Qed.

(** What ended a process that is being stopped. *)
Definition ended_by (p : Proc) (x : panic) : Prop :=
  p_streams p <> 0 \/ exists c st, c ∈ p_others p /\ (run_call c st).1 = Panic x.

Lemma astep_ended p p' x :
  astep p p' -> stopping p -> up p -> (p_exit p' = Some x \/ (p_exit p' = None /\ ended_by p' x)) -> ended_by p x.
Proof.
  intros [[He _] Hst] [Hq Hs] [Hm Hh].
  destruct Hst as [Hst|[Hst|[Hst|Hst]]]; destruct Hst; unfold ended_by; cbn; intros [Hx|[_ Hx]]; try (intuition congruence).
  - rewrite H. destruct Hx as [Hx|(c' & st' & Hin & Hp)]; [by left|]. right. exists c', st'. split; [|done].
    rewrite elem_of_app, elem_of_cons. apply elem_of_app in Hin as [|]; auto.
  - right. injection Hx as <-. by eexists c, _.
Qed.

Lemma stop_runs p p' :
  rtc astep p p' -> p_exit p = None -> stopping p -> up p ->
  stopping p' /\ up p' /\ forall x, p_exit p' = Some x -> ended_by p x.
Proof.
  induction 1 as [p|p p1 p2 H1 Hr IH]; intros He Hs Hup; [split_and!; [done..|congruence]|].
  destruct (astep_stopping _ _ H1 Hs Hup) as [Hs1 Hup1]. destruct (p_exit p1) as [x1|] eqn:He1.
  - inversion Hr as [|? ? ? [[Hn _] _]]; subst; [|congruence]. split_and!; [done..|]. intros x Hx.
    eapply astep_ended; [done..|]. by left.
  - destruct (IH eq_refl Hs1 Hup1) as (Hs2 & Hup2 & Hx2). split_and!; [done..|]. intros x Hx.
    eapply astep_ended; [done..|]. right. by auto.
Qed.

(** C9. After a signal the agent ends, in every run. Once the stop has begun
    and both servers were serving, no run is longer than three steps for each
    [SubmitJob] call in flight, one for each other call and each open stream,
    and five more; and a run that can go no further has returned from
    [main], unless a call that was in flight ended the process: a handler that
    panicked or a stream. The steps count on the streams to end: a follower
    goes on until its client leaves. *)
Theorem stop_returns p :
  reachable p -> p_exit p = None -> p_signal p = SignalStopping -> up p ->
  (forall n p', nsteps astep n p p' -> n <= 3 * length (SubmitSteps.threads (p_calls p)) + length (p_others p) + p_streams p + 5) /\
  (forall p', rtc astep p p' -> (forall q, ~ astep p' q) ->
    (p_exit p' = None /\ p_main p' = MainReturned) \/
    exists x, p_exit p' = Some x /\
      (p_streams p <> 0 \/ exists c st, c ∈ p_others p /\ (run_call c st).1 = Panic x)).
Proof.
  intros Hreach He Hsig Hup. pose proof (serving_reachable_wf p Hreach) as Hwf.
  assert (Hstop : stopping p) by (split; [apply (wf_quit p Hwf)|]; by left). split.
  - intros n p' Hn. assert (Hle : n <= remaining p).
    { clear -Hn Hstop Hup. induction Hn as [p|n p p1 p2 H1 _ IH]; [lia|]. destruct (astep_stopping _ _ H1 Hstop Hup) as [Hs1 Hu1].
      specialize (IH Hu1 Hs1). pose proof (astep_remaining _ _ H1 Hstop Hup). lia. }
    unfold remaining in Hle. pose proof (work_bound (SubmitSteps.threads (p_calls p))).
    destruct (p_signal p), (p_main p), (p_http p), (p_exit p); lia.
  - intros p' Hr Hstuck. destruct (stop_runs p p' Hr He Hstop Hup) as (Hs' & Hup' & Hx).
    destruct (p_exit p') as [x|] eqn:He'; [right; exists x; split; [done|by apply Hx]|left; split; [done|]].
    assert (Hm : p_main p' = MainReturned \/ p_main p' <> MainReturned) by (destruct (p_main p'); auto).
    destruct Hm as [|Hn]; [done|exfalso].
    destruct (stop_progress p') as [q Hq]; [by split|done..|]. by apply (Hstuck q).
Qed.
End process.

(** ** An agent that is stopped *)

Module AgentRunExamples.
Import ServerExamples.

(** [sbatch] prints the id 53. *)
#[export] Instance slurm_prints : SlurmHost unit := printing_host "53".
#[export] Instance one_uuid : UuidSource unit := fun w => ("u", w).
#[local] Existing Instance proto_time_impl.

Abbreviation agent_step := (astep slurm (fun _ _ => "") False).

Definition request : SubmitJobRequest := mkSubmitJobRequest "#!/bin/sh" "debug" "" "" "" "uid-1" 0 0 0 "" 0 0 "" "".
Definition calls (t : SubmitSteps.pc) (submitted : list (string * Z)) : SubmitSteps.state unit := SubmitSteps.mkState [t] fresh submitted.
Definition replied : SubmitSteps.state unit :=
  SubmitSteps.mkState [SubmitSteps.Replied request (Ok (mkSubmitJobResponse 53))] (mkSrv {["uid-1" := 53%Z]} tt) [("uid-1", 53%Z)].

(** One step of the process: the process is alive and a part of it moves. *)
Tactic Notation "move_on" tactic3(t) := eapply rtc_l; [split; [by split|t]|].

(** A call is accepted, with other calls, and [sbatch] has run; a signal
    comes. *)
Definition in_flight (http : http_pc) (others : list unary_call) : Process unit :=
  mkProcess MainServing http SignalStopping true 0 (calls (SubmitSteps.Ran request 53) [("uid-1", 53%Z)]) others None.

Lemma accept_others others p :
  alive p -> serving p -> p_quit p = false -> p_others p = [] -> rtc agent_step p (with_others others p).
Proof.
  intros Ha Hs Hq Ho. induction others as [|c others IH].
  - destruct p. cbn in Ho. subst. apply rtc_refl.
  - etrans; [exact IH|]. apply rtc_once. split; [exact Ha|]. do 3 right. by apply (accept_call _ _ (with_others others p) c).
Qed.

Lemma to_in_flight (b : bool) http others :
  http = (if b then HttpServe else HttpOff) -> rtc agent_step (started b fresh) (in_flight http others).
Proof.
  intros ->. move_on (left; by apply main_serve). destruct b; [move_on (right; left; by apply http_listen)|].
  all: move_on (right; right; right; apply (accept_submit _ _ _ request); [by left|done]).
  all: match goal with |- rtc _ ?p _ => transitivity (with_others others p) end.
  1,3: apply accept_others; [by split|by left|done|done].
  all: move_on (right; right; left; by apply signal_arrives).
  all: move_on (right; right; left; by apply stop_begins).
  all: move_on (right; right; right; apply handler_runs; by eapply (SubmitSteps.step_miss 0 request)).
  all: move_on (right; right; right; apply handler_runs; eapply (SubmitSteps.step_sbatch 0 request 53 tt); [reflexivity|vm_compute; reflexivity]).
  all: apply rtc_refl.
Qed.

Lemma graceful_stop_loses_nothing_witness :
  exists i req, SubmitSteps.threads replied !! i = Some (SubmitSteps.Replied req (Ok (mkSubmitJobResponse 53))) /\ sj_Uid req = "uid-1".
Proof.
  refine (proj2 (graceful_stop_loses_nothing slurm (fun _ _ => "") False
    (mkProcess MainReturned HttpOff SignalDone true 0 replied [] None) _ eq_refl) "uid-1" 53%Z _).
  - exists false, fresh. etrans; [exact (to_in_flight false HttpOff [] eq_refl)|].
    move_on (right; right; right; apply handler_runs; by eapply (SubmitSteps.step_store 0 request 53)).
    move_on (right; right; left; apply stop_ends; [done|split_and!; [done|done|by repeat constructor]]).
    move_on (left; by apply main_stopped).
    move_on (left; by apply main_wait). apply rtc_refl.
  - by left.
Defined.

(** With a [CancelJob] in flight too. *)
Lemma stop_returns_witness :
  up (in_flight HttpOff [CCancelJob (mkCancelJobRequest 52)]) /\
  forall n p', nsteps agent_step n (in_flight HttpOff [CCancelJob (mkCancelJobRequest 52)]) p' -> n <= 9.
Proof.
  assert (Hup : up (in_flight HttpOff [CCancelJob (mkCancelJobRequest 52)])) by (split; [done|by left]).
  split; [exact Hup|].
  refine (proj1 (stop_returns slurm (fun _ _ => "") False (in_flight HttpOff [CCancelJob (mkCancelJobRequest 52)]) _ eq_refl eq_refl Hup)).
  exists false, fresh. by apply to_in_flight.
Defined.

(** A signal that comes before the HTTP address is served: [Serve] answers
    that the server is stopped, which is not the error the code expects, and
    the process exits in the middle of a call whose job is already created. *)
Example early_signal_loses_call :
  exists p, rtc agent_step (started true fresh) p /\ p_exit p = Some (ProcessExit could_not_serve) /\
    SubmitSteps.submitted (p_calls p) = [("uid-1", 53%Z)] /\ SubmitSteps.threads (p_calls p) = [SubmitSteps.Ran request 53].
Proof.
  exists (Fatalf could_not_serve (in_flight HttpServe [])). split; [|done].
  etrans; [exact (to_in_flight true HttpServe [] eq_refl)|]. apply rtc_once. split; [by split|]. right; left. by apply http_serve_late.
Qed.

(** A client that asks for [JobState] ends the agent, in the middle of the
    same call. *)
Example job_state_ends_agent :
  exists p, rtc agent_step (started false fresh) p /\ p_exit p = Some (PanicWith "implement me") /\
    SubmitSteps.submitted (p_calls p) = [("uid-1", 53%Z)] /\ SubmitSteps.threads (p_calls p) = [SubmitSteps.Ran request 53].
Proof.
  exists (died (PanicWith "implement me") (in_flight HttpOff [CJobState])). split; [|done].
  etrans; [exact (to_in_flight false HttpOff [CJobState] eq_refl)|]. apply rtc_once. split; [by split|].
  do 3 right. apply (call_panics _ _ _ CJobState); [by left|done].
Qed.
End AgentRunExamples.
