(* ===== verification/Grpc.v ===== *)
(** * The service over gRPC (pkg/workload/workload_grpc.pb.go)

    The generated code between the client interface and the handlers of the
    agent: the calls of [workloadManagerClient], which name a method and ask
    the connection, and the service description with its decoding handlers,
    by which the server finds the method. Connection, server and message
    encoding are the grpc and protobuf libraries: the classes [Codec] and
    [ClientConn], with what their documentation says in [CodecLaws],
    [UnaryLaws] and [GrpcLaws]. A call may fail at any time, and then nothing
    is said about what the server did or will still do. The theorems show
    that an answer of the client is an answer of the agent's handler, and
    that a file stream delivers what its handler sends; a concrete connection
    in [GrpcExamples] satisfies the laws. *)

From S2P Require Import Prelude GoStrings GoNum GoTime KeyValue AgentParse AgentClient Workload AgentServer.

(** ** Messages as [interface{}] *)

(** The message types that travel. *)
Inductive mtype :=
  | TSubmitJobRequest | TSubmitJobResponse
  | TSubmitJobContainerRequest | TSubmitJobContainerResponse
  | TCancelJobRequest | TCancelJobResponse
  | TJobInfoRequest | TJobInfoResponse
  | TJobStepsRequest | TJobStepsResponse
  | TJobStateRequest
  | TResourcesRequest | TResourcesResponse
  | TPartitionsRequest | TPartitionsResponse
  | TPartitionRequest | TPartitionResponse
  | TNodesRequest | TNodesResponse
  | TWorkloadInfoRequest | TWorkloadInfoResponse
  | TOpenFileRequest | TTailFileRequest | TChunk.

#[export] Instance mtype_eq_dec : EqDecision mtype.
Proof. solve_decision. Defined.

Record JobStateRequest := mkJobStateRequest { jst_JobId : string }.

Definition denote (t : mtype) : Type :=
  match t with
  | TSubmitJobRequest => SubmitJobRequest
  | TSubmitJobResponse => SubmitJobResponse
  | TSubmitJobContainerRequest => SubmitJobContainerRequest
  | TSubmitJobContainerResponse => SubmitJobContainerResponse
  | TCancelJobRequest => CancelJobRequest
  | TCancelJobResponse => CancelJobResponse
  | TJobInfoRequest => JobInfoRequest
  | TJobInfoResponse => JobInfoResponse
  | TJobStepsRequest => JobStepsRequest
  | TJobStepsResponse => JobStepsResponse
  | TJobStateRequest => JobStateRequest
  | TResourcesRequest => ResourcesRequest
  | TResourcesResponse => ResourcesResponse
  | TPartitionsRequest => unit
  | TPartitionsResponse => PartitionsResponse
  | TPartitionRequest => PartitionRequest
  | TPartitionResponse => PartitionResponse
  | TNodesRequest => NodesRequest
  | TNodesResponse => NodesResponse
  | TWorkloadInfoRequest => unit
  | TWorkloadInfoResponse => WorkloadInfoResponse
  | TOpenFileRequest => OpenFileRequest
  | TTailFileRequest => TailFileRequest
  | TChunk => Chunk
  end.

(** A message together with its type, as an [interface{}] holds it. *)
Record any := mkAny { any_type : mtype; any_value : denote any_type }.

(** The type assertion of a message pointer: it panics on another type. *)
Definition assert_type (t : mtype) (x : any) : res (denote t) :=
  match decide (any_type x = t) with
  | left E => Ok (eq_rect (any_type x) denote (any_value x) t E)
  | right _ => Panic (PanicWith "interface conversion")
  end.

Lemma assert_type_same t v : assert_type t (mkAny t v) = Ok v.
Proof.
  unfold assert_type. cbn [any_type any_value]. destruct (decide (t = t)) as [E|[]]; [|done].
  by rewrite (proof_irrel E eq_refl).
Qed.

(** ** The server interface *)

(** A server stream as its handler sees it: [RecvMsg] and [SendMsg]. *)
Record ServerStream (W : Type) := mkServerStream {
  ss_RecvMsg : forall t, M W (denote t);
  ss_SendMsg : any -> M W unit;
}.
Arguments ss_RecvMsg {W}.
Arguments ss_SendMsg {W}.

Definition Server_Send {W} (x : ServerStream W) (m : Chunk) : M W unit := ss_SendMsg x (mkAny TChunk m).
Definition Server_Recv {W} (x : ServerStream W) : M W TailFileRequest := ss_RecvMsg x TTailFileRequest.

Record WorkloadManagerServer (W : Type) := mkWorkloadManagerServer {
  srv_SubmitJob : SubmitJobRequest -> M W SubmitJobResponse;
  srv_SubmitJobContainer : SubmitJobContainerRequest -> M W SubmitJobContainerResponse;
  srv_CancelJob : CancelJobRequest -> M W CancelJobResponse;
  srv_JobInfo : JobInfoRequest -> M W JobInfoResponse;
  srv_JobSteps : JobStepsRequest -> M W JobStepsResponse;
  srv_JobState : JobStateRequest -> M W JobStepsResponse;
  srv_OpenFile : OpenFileRequest -> ServerStream W -> M W unit;
  srv_TailFile : ServerStream W -> M W unit;
  srv_Resources : ResourcesRequest -> M W ResourcesResponse;
  srv_Partitions : unit -> M W PartitionsResponse;
  srv_Partition : PartitionRequest -> M W PartitionResponse;
  srv_Nodes : NodesRequest -> M W NodesResponse;
  srv_WorkloadInfo : unit -> M W WorkloadInfoResponse;
}.

(** [status.Errorf(codes.Unimplemented, ...)]. *)
Definition Unimplemented (method : string) : error := ErrExternal ("Unimplemented: method " +:+ method +:+ " not implemented").

Definition UnimplementedWorkloadManagerServer {W} : WorkloadManagerServer W := {|
  srv_SubmitJob _ := fail (Unimplemented "SubmitJob");
  srv_SubmitJobContainer _ := fail (Unimplemented "SubmitJobContainer");
  srv_CancelJob _ := fail (Unimplemented "CancelJob");
  srv_JobInfo _ := fail (Unimplemented "JobInfo");
  srv_JobSteps _ := fail (Unimplemented "JobSteps");
  srv_JobState _ := fail (Unimplemented "JobState");
  srv_OpenFile _ _ := fail (Unimplemented "OpenFile");
  srv_TailFile _ := fail (Unimplemented "TailFile");
  srv_Resources _ := fail (Unimplemented "Resources");
  srv_Partitions _ := fail (Unimplemented "Partitions");
  srv_Partition _ := fail (Unimplemented "Partition");
  srv_Nodes _ := fail (Unimplemented "Nodes");
  srv_WorkloadInfo _ := fail (Unimplemented "WorkloadInfo") |}.

(** ** The service description *)

Record UnaryServerInfo (W : Type) := mkUnaryServerInfo { ui_Server : WorkloadManagerServer W; ui_FullMethod : string }.
Arguments mkUnaryServerInfo {W}.

Definition UnaryServerInterceptor (W : Type) : Type := any -> UnaryServerInfo W -> (any -> M W any) -> M W any.

(** The decoder a handler is given: [dec(in)] reads the request into [in]. *)
Definition Decoder : Type := forall t, res (denote t).

Record MethodDesc (W : Type) := mkMethodDesc {
  MethodName : string;
  Handler : WorkloadManagerServer W -> Decoder -> option (UnaryServerInterceptor W) -> M W any;
}.
Arguments mkMethodDesc {W}.
Arguments MethodName {W}.
Arguments Handler {W}.

Record StreamDesc (W : Type) := mkStreamDesc {
  StreamName : string;
  StreamHandler : WorkloadManagerServer W -> ServerStream W -> M W unit;
  ServerStreams : bool;
  ClientStreams : bool;
}.
Arguments mkStreamDesc {W}.
Arguments StreamName {W}.
Arguments StreamHandler {W}.

Record ServiceDesc (W : Type) := mkServiceDesc {
  ServiceName : string;
  Methods : list (MethodDesc W);
  Streams : list (StreamDesc W);
}.
Arguments mkServiceDesc {W}.
Arguments ServiceName {W}.
Arguments Methods {W}.
Arguments Streams {W}.

Definition WorkloadManager_SubmitJob_FullMethodName := "/workload.WorkloadManager/SubmitJob".
Definition WorkloadManager_SubmitJobContainer_FullMethodName := "/workload.WorkloadManager/SubmitJobContainer".
Definition WorkloadManager_CancelJob_FullMethodName := "/workload.WorkloadManager/CancelJob".
Definition WorkloadManager_JobInfo_FullMethodName := "/workload.WorkloadManager/JobInfo".
Definition WorkloadManager_JobSteps_FullMethodName := "/workload.WorkloadManager/JobSteps".
Definition WorkloadManager_JobState_FullMethodName := "/workload.WorkloadManager/JobState".
Definition WorkloadManager_OpenFile_FullMethodName := "/workload.WorkloadManager/OpenFile".
Definition WorkloadManager_TailFile_FullMethodName := "/workload.WorkloadManager/TailFile".
Definition WorkloadManager_Resources_FullMethodName := "/workload.WorkloadManager/Resources".
Definition WorkloadManager_Partitions_FullMethodName := "/workload.WorkloadManager/Partitions".
Definition WorkloadManager_Partition_FullMethodName := "/workload.WorkloadManager/Partition".
Definition WorkloadManager_Nodes_FullMethodName := "/workload.WorkloadManager/Nodes".
Definition WorkloadManager_WorkloadInfo_FullMethodName := "/workload.WorkloadManager/WorkloadInfo".

Section handlers.
Context {W : Type}.

(** The common body of the unary handlers: decode the request, then call the
    method, through the interceptor when there is one. *)
Definition unary_handler (t u : mtype) (call : WorkloadManagerServer W -> denote t -> M W (denote u)) (fullMethod : string)
    (srv : WorkloadManagerServer W) (dec : Decoder) (interceptor : option (UnaryServerInterceptor W)) : M W any :=
  input ← lift (dec t);
  let answer (m : M W (denote u)) : M W any := reply ← m; mret (mkAny u reply) in
  match interceptor with
  | None => answer (call srv input)
  | Some intercept =>
      intercept (mkAny t input) (mkUnaryServerInfo srv fullMethod)
        (fun req => req' ← lift (assert_type t req); answer (call srv req'))
  end.

Definition WorkloadManager_SubmitJob_Handler :=
  unary_handler TSubmitJobRequest TSubmitJobResponse (srv_SubmitJob W) WorkloadManager_SubmitJob_FullMethodName.
Definition WorkloadManager_SubmitJobContainer_Handler :=
  unary_handler TSubmitJobContainerRequest TSubmitJobContainerResponse (srv_SubmitJobContainer W) WorkloadManager_SubmitJobContainer_FullMethodName.
Definition WorkloadManager_CancelJob_Handler :=
  unary_handler TCancelJobRequest TCancelJobResponse (srv_CancelJob W) WorkloadManager_CancelJob_FullMethodName.
Definition WorkloadManager_JobInfo_Handler :=
  unary_handler TJobInfoRequest TJobInfoResponse (srv_JobInfo W) WorkloadManager_JobInfo_FullMethodName.
Definition WorkloadManager_JobSteps_Handler :=
  unary_handler TJobStepsRequest TJobStepsResponse (srv_JobSteps W) WorkloadManager_JobSteps_FullMethodName.
Definition WorkloadManager_JobState_Handler :=
  unary_handler TJobStateRequest TJobStepsResponse (srv_JobState W) WorkloadManager_JobState_FullMethodName.
Definition WorkloadManager_Resources_Handler :=
  unary_handler TResourcesRequest TResourcesResponse (srv_Resources W) WorkloadManager_Resources_FullMethodName.
Definition WorkloadManager_Partitions_Handler :=
  unary_handler TPartitionsRequest TPartitionsResponse (srv_Partitions W) WorkloadManager_Partitions_FullMethodName.
Definition WorkloadManager_Partition_Handler :=
  unary_handler TPartitionRequest TPartitionResponse (srv_Partition W) WorkloadManager_Partition_FullMethodName.
Definition WorkloadManager_Nodes_Handler :=
  unary_handler TNodesRequest TNodesResponse (srv_Nodes W) WorkloadManager_Nodes_FullMethodName.
Definition WorkloadManager_WorkloadInfo_Handler :=
  unary_handler TWorkloadInfoRequest TWorkloadInfoResponse (srv_WorkloadInfo W) WorkloadManager_WorkloadInfo_FullMethodName.

Definition WorkloadManager_OpenFile_Handler (srv : WorkloadManagerServer W) (stream : ServerStream W) : M W unit :=
  m ← ss_RecvMsg stream TOpenFileRequest;
  srv_OpenFile W srv m stream.
Definition WorkloadManager_TailFile_Handler (srv : WorkloadManagerServer W) (stream : ServerStream W) : M W unit :=
  srv_TailFile W srv stream.

Definition WorkloadManager_ServiceDesc : ServiceDesc W := {|
  ServiceName := "workload.WorkloadManager";
  Methods := [mkMethodDesc "SubmitJob" WorkloadManager_SubmitJob_Handler;
    mkMethodDesc "SubmitJobContainer" WorkloadManager_SubmitJobContainer_Handler;
    mkMethodDesc "CancelJob" WorkloadManager_CancelJob_Handler;
    mkMethodDesc "JobInfo" WorkloadManager_JobInfo_Handler;
    mkMethodDesc "JobSteps" WorkloadManager_JobSteps_Handler;
    mkMethodDesc "JobState" WorkloadManager_JobState_Handler;
    mkMethodDesc "Resources" WorkloadManager_Resources_Handler;
    mkMethodDesc "Partitions" WorkloadManager_Partitions_Handler;
    mkMethodDesc "Partition" WorkloadManager_Partition_Handler;
    mkMethodDesc "Nodes" WorkloadManager_Nodes_Handler;
    mkMethodDesc "WorkloadInfo" WorkloadManager_WorkloadInfo_Handler];
  Streams := [mkStreamDesc "OpenFile" WorkloadManager_OpenFile_Handler true false;
    mkStreamDesc "TailFile" WorkloadManager_TailFile_Handler true true] |}.
End handlers.

(** ** The client *)

(** [grpc.ClientConnInterface]; a stream is a handle. *)
Class ClientConn (C : Type) := {
  Invoke : string -> any -> forall u, M C (denote u);
  NewStream : bool -> bool -> string -> M C nat;
  SendMsg : nat -> any -> M C unit;
  CloseSend : nat -> M C unit;
  RecvMsg : nat -> forall t, M C (denote t);
}.

Module Client.
Section client.
Context {C : Type} {CC : ClientConn C}.

Definition SubmitJob (input : denote TSubmitJobRequest) : M C (denote TSubmitJobResponse) :=
  Invoke WorkloadManager_SubmitJob_FullMethodName (mkAny TSubmitJobRequest input) TSubmitJobResponse.
Definition SubmitJobContainer (input : denote TSubmitJobContainerRequest) : M C (denote TSubmitJobContainerResponse) :=
  Invoke WorkloadManager_SubmitJobContainer_FullMethodName (mkAny TSubmitJobContainerRequest input) TSubmitJobContainerResponse.
Definition CancelJob (input : denote TCancelJobRequest) : M C (denote TCancelJobResponse) :=
  Invoke WorkloadManager_CancelJob_FullMethodName (mkAny TCancelJobRequest input) TCancelJobResponse.
Definition JobInfo (input : denote TJobInfoRequest) : M C (denote TJobInfoResponse) :=
  Invoke WorkloadManager_JobInfo_FullMethodName (mkAny TJobInfoRequest input) TJobInfoResponse.
Definition JobSteps (input : denote TJobStepsRequest) : M C (denote TJobStepsResponse) :=
  Invoke WorkloadManager_JobSteps_FullMethodName (mkAny TJobStepsRequest input) TJobStepsResponse.
Definition JobState (input : denote TJobStateRequest) : M C (denote TJobStepsResponse) :=
  Invoke WorkloadManager_JobState_FullMethodName (mkAny TJobStateRequest input) TJobStepsResponse.
Definition Resources (input : denote TResourcesRequest) : M C (denote TResourcesResponse) :=
  Invoke WorkloadManager_Resources_FullMethodName (mkAny TResourcesRequest input) TResourcesResponse.
Definition Partitions (input : denote TPartitionsRequest) : M C (denote TPartitionsResponse) :=
  Invoke WorkloadManager_Partitions_FullMethodName (mkAny TPartitionsRequest input) TPartitionsResponse.
Definition Partition (input : denote TPartitionRequest) : M C (denote TPartitionResponse) :=
  Invoke WorkloadManager_Partition_FullMethodName (mkAny TPartitionRequest input) TPartitionResponse.
Definition Nodes (input : denote TNodesRequest) : M C (denote TNodesResponse) :=
  Invoke WorkloadManager_Nodes_FullMethodName (mkAny TNodesRequest input) TNodesResponse.
Definition WorkloadInfo (input : denote TWorkloadInfoRequest) : M C (denote TWorkloadInfoResponse) :=
  Invoke WorkloadManager_WorkloadInfo_FullMethodName (mkAny TWorkloadInfoRequest input) TWorkloadInfoResponse.

Definition OpenFile (input : OpenFileRequest) : M C nat :=
  stream ← NewStream true false WorkloadManager_OpenFile_FullMethodName;
  SendMsg stream (mkAny TOpenFileRequest input);;
  CloseSend stream;;
  mret stream.
Definition TailFile : M C nat := NewStream true true WorkloadManager_TailFile_FullMethodName.
Definition Recv (stream : nat) : M C Chunk := RecvMsg stream TChunk.
Definition Send (stream : nat) (m : TailFileRequest) : M C unit := SendMsg stream (mkAny TTailFileRequest m).
End client.
End Client.

(** ** What the libraries promise *)

(** The protobuf encoding, and the error a client is given for an error of a
    handler. *)
Class Codec := {
  Wire : Type;
  marshal : any -> res Wire;
  unmarshal : forall t, Wire -> res (denote t);
  status : error -> error;
}.

Class CodecLaws `{CD : Codec} : Prop := {
  (** Decoding inverts encoding. *)
  law_unmarshal : forall t v b, marshal (mkAny t v) = Ok b -> unmarshal t b = Ok v;
  law_panic : forall x p, marshal x <> Panic p;
}.

Section connected.
Context {C S : Type} {CC : ClientConn C} {CD : Codec}.
(** The state of the server as part of the environment of the client. *)
Variable server_of : C -> S.
(** What [RegisterService] was called with. *)
Variable registered : ServiceDesc S -> WorkloadManagerServer S -> Prop.
(** The stream a handler gets when the client sent one message, and the
    messages it has sent. *)
Variable server_stream : Wire -> ServerStream S.
Variable outbox : S -> list any.

Definition method_path (sd : ServiceDesc S) (name : string) : string := "/" +:+ ServiceName sd +:+ "/" +:+ name.
Definition decoder (b : Wire) : Decoder := fun t => unmarshal t b.

(** The answer of a handler as it reaches the client. *)
Definition received (u : mtype) (r : res any) : res (denote u) :=
  match r with
  | Ok reply => match marshal reply with Ok b => unmarshal u b | Err e => Err (status e) | Panic p => Panic p end
  | Err e => Err (status e)
  | Panic p => Panic p
  end.

(** The handler that ran for a call, from one state of the server to
    another: when it started other calls may have changed the state the
    client began with, and others may run beside it. *)
Variable ran : C -> C -> S -> S -> Prop.
(** The errors of a call that are not the answer of a handler, such as a
    broken connection or a deadline. Of the server they say nothing: the
    handler may have run, may be running or may run later. *)
Variable transport_error : error -> Prop.

(** How a unary call ends: with an error of the transport or of the
    encoding, with the server's error for a name it does not know, or with
    what the handler of the named method, given the message, answered. *)
Class UnaryLaws : Prop := {
  law_Invoke : forall sd srv path x u c r c',
    registered sd srv -> Invoke path x u c = (r, c') ->
    (exists e, r = Err e /\ transport_error e) \/
    (exists e e', marshal x = Err e /\ r = Err e') \/
    ((forall md, md ∈ Methods sd -> method_path sd (MethodName md) <> path) /\ exists e, r = Err e) \/
    (exists md b s0 s1 r0, md ∈ Methods sd /\ method_path sd (MethodName md) = path /\ marshal x = Ok b /\
       Handler md srv (decoder b) None s0 = (r0, s1) /\ no_panic r0 /\ ran c c' s0 s1 /\ r = received u r0);
}.

(** What the client may receive of a stream of messages that ends with [r]:
    the messages in order and the end, or an error at any point. *)
Fixpoint delivered (n : nat) (msgs : list any) (r : res unit) (c : C) : Prop :=
  match msgs with
  | [] => forall t, exists e, (RecvMsg n t c).1 = Err e /\ (r <> Ok tt -> e <> EOF)
  | mkAny t v :: msgs' =>
      exists r' c', RecvMsg n t c = (r', c') /\
        ((r' = Ok v /\ delivered n msgs' r c') \/ exists e, r' = Err e /\ e <> EOF)
  end.

Class GrpcLaws : Prop := {
  law_codec :: CodecLaws;
  (** The handler of a stream on which the client sent one message. *)
  law_stream_recv : forall b t s, ss_RecvMsg (server_stream b) t s = (unmarshal t b, s);
  law_stream_send : forall b m s, exists s', ss_SendMsg (server_stream b) m s = (Ok tt, s') /\ outbox s' = outbox s ++ [m];
  (** A stream whose client sends one message runs the handler its name
      selects, and what the handler sends arrives in order. *)
  law_stream : forall sd srv st x b c n c1 c2 c3 r s',
    registered sd srv -> NoDup (StreamName <$> Streams sd) -> st ∈ Streams sd -> marshal x = Ok b ->
    NewStream (ServerStreams _ st) (ClientStreams _ st) (method_path sd (StreamName st)) c = (Ok n, c1) ->
    SendMsg n x c1 = (Ok tt, c2) -> CloseSend n c2 = (Ok tt, c3) ->
    StreamHandler st srv (server_stream b) (server_of c) = (r, s') -> no_panic r ->
    delivered n (drop (length (outbox (server_of c))) (outbox s')) r c3;
}.
End connected.

(** ** The methods *)

Inductive method : mtype -> mtype -> Type :=
  | MSubmitJob : method TSubmitJobRequest TSubmitJobResponse
  | MSubmitJobContainer : method TSubmitJobContainerRequest TSubmitJobContainerResponse
  | MCancelJob : method TCancelJobRequest TCancelJobResponse
  | MJobInfo : method TJobInfoRequest TJobInfoResponse
  | MJobSteps : method TJobStepsRequest TJobStepsResponse
  | MJobState : method TJobStateRequest TJobStepsResponse
  | MResources : method TResourcesRequest TResourcesResponse
  | MPartitions : method TPartitionsRequest TPartitionsResponse
  | MPartition : method TPartitionRequest TPartitionResponse
  | MNodes : method TNodesRequest TNodesResponse
  | MWorkloadInfo : method TWorkloadInfoRequest TWorkloadInfoResponse.

Definition client_call {C} {CC : ClientConn C} {t u} (m : method t u) : denote t -> M C (denote u) :=
  match m with
  | MSubmitJob => Client.SubmitJob
  | MSubmitJobContainer => Client.SubmitJobContainer
  | MCancelJob => Client.CancelJob
  | MJobInfo => Client.JobInfo
  | MJobSteps => Client.JobSteps
  | MJobState => Client.JobState
  | MResources => Client.Resources
  | MPartitions => Client.Partitions
  | MPartition => Client.Partition
  | MNodes => Client.Nodes
  | MWorkloadInfo => Client.WorkloadInfo
  end.

Definition server_call {S t u} (m : method t u) (srv : WorkloadManagerServer S) : denote t -> M S (denote u) :=
  match m with
  | MSubmitJob => srv_SubmitJob S srv
  | MSubmitJobContainer => srv_SubmitJobContainer S srv
  | MCancelJob => srv_CancelJob S srv
  | MJobInfo => srv_JobInfo S srv
  | MJobSteps => srv_JobSteps S srv
  | MJobState => srv_JobState S srv
  | MResources => srv_Resources S srv
  | MPartitions => srv_Partitions S srv
  | MPartition => srv_Partition S srv
  | MNodes => srv_Nodes S srv
  | MWorkloadInfo => srv_WorkloadInfo S srv
  end.

(** The interface the programs call the agent through, over a connection. *)
Definition client_service {C} {CC : ClientConn C} : WorkloadManager C := {|
  rpc_SubmitJob := Client.SubmitJob;
  rpc_CancelJob := Client.CancelJob;
  rpc_JobInfo := Client.JobInfo;
  rpc_Partition := Client.Partition;
  rpc_Partitions := Client.Partitions tt;
  rpc_Nodes := Client.Nodes |}.

(** Every method of the client is in the description, under the name it
    asks for, with the handler of that method. *)
Lemma method_described {C S} {CC : ClientConn C} {t u} (m : method t u) :
  exists md path,
    md ∈ Methods (WorkloadManager_ServiceDesc (W := S)) /\
    Handler md = unary_handler t u (server_call m) path /\
    forall x : denote t, client_call m x = Invoke (method_path (S := S) WorkloadManager_ServiceDesc (MethodName md)) (mkAny t x) u.
Proof.
  destruct m;
    match goal with |- context [client_call ?m] =>
      let h := match m with
        | MSubmitJob => constr:(0) | MSubmitJobContainer => constr:(1) | MCancelJob => constr:(2) | MJobInfo => constr:(3)
        | MJobSteps => constr:(4) | MJobState => constr:(5) | MResources => constr:(6) | MPartitions => constr:(7)
        | MPartition => constr:(8) | MNodes => constr:(9) | MWorkloadInfo => constr:(10) end in
      exists (nth h (Methods (WorkloadManager_ServiceDesc (W := S))) (mkMethodDesc "" (fun _ _ _ => panicM NilDeref)))
    end; eexists; (split; [cbn; set_solver|split; [reflexivity|reflexivity]]).
Qed.

Lemma methods_distinct {S} : NoDup (MethodName <$> Methods (WorkloadManager_ServiceDesc (W := S))).
Proof. by_compute. Qed.
Lemma streams_distinct {S} : NoDup (StreamName <$> Streams (WorkloadManager_ServiceDesc (W := S))).
Proof. by_compute. Qed.

(** ** Calls *)

Section calls.
Context {C S : Type} {CC : ClientConn C} {CD : Codec} {CL : CodecLaws}.
Context (registered : ServiceDesc S -> WorkloadManagerServer S -> Prop).
Context (ran : C -> C -> S -> S -> Prop) (transport_error : error -> Prop).
Context {UL : UnaryLaws registered ran transport_error}.

(** The answer of a handler at the client: the same value if it can be
    encoded, and a status for an error. *)
Definition at_client {u} (r : res (denote u)) : res (denote u) :=
  match r with
  | Ok y => match marshal (mkAny u y) with Ok _ => Ok y | Err e => Err (status e) | Panic p => Panic p end
  | Err e => Err (status e)
  | Panic p => Panic p
  end.

Lemma received_answer u (r : res (denote u)) : received u (mkAny u <$> r) = at_client r.
Proof.
  destruct r as [y|e|p]; [|done..]. cbn. destruct (marshal (mkAny u y)) as [b|e|p] eqn:E; [|done..].
  by apply law_unmarshal.
Qed.

(** A decoding handler without an interceptor is the method. *)
Lemma unary_handler_run t u (call : WorkloadManagerServer S -> denote t -> M S (denote u)) path srv b x s :
  unmarshal t b = Ok x ->
  unary_handler t u call path srv (decoder b) None s = (mkAny u <$> (call srv x s).1, (call srv x s).2).
Proof.
  intros Hx. unfold unary_handler, lift, mbind, M_bind. change (decoder b t) with (unmarshal t b). rewrite Hx.
  by destruct (call srv x s) as [[y|e|p] s'].
Qed.

(** Methods with one path are one. *)
Lemma method_by_path md md' :
  md ∈ Methods (WorkloadManager_ServiceDesc (W := S)) -> md' ∈ Methods (WorkloadManager_ServiceDesc (W := S)) ->
  method_path (S := S) WorkloadManager_ServiceDesc (MethodName md) = method_path (S := S) WorkloadManager_ServiceDesc (MethodName md') ->
  md = md'.
Proof.
  intros [i Hi]%list_elem_of_lookup_1 [j Hj]%list_elem_of_lookup_1 Heq. do 3 apply (inj (String.append _)) in Heq.
  assert (i = j) as ->; [|congruence].
  eapply (NoDup_lookup (MethodName <$> Methods (WorkloadManager_ServiceDesc (W := S)))); [apply methods_distinct|..]; rewrite list_lookup_fmap.
  - by rewrite Hi.
  - rewrite Hj. cbn. by rewrite Heq.
Qed.

(** C6. A call of the generated client, for every method of the service, is
    answered by the server's method of that name: whatever the client gets
    that is not an error of the transport is what this method, given the
    very message the caller passed, answered when it ran for the call, an
    error as a status. What the server did in a call that failed in the
    transport is left open. *)
Theorem client_reaches_handler srv t u (m : method t u) (x : denote t) b c r c' :
  registered WorkloadManager_ServiceDesc srv -> marshal (mkAny t x) = Ok b -> client_call m x c = (r, c') ->
  (exists e, r = Err e /\ transport_error e) \/
  exists s0 s1 r0, ran c c' s0 s1 /\ server_call m srv x s0 = (r0, s1) /\ r = at_client r0.
Proof.
  intros Hreg Hb Hrun. destruct (method_described (C := C) (S := S) m) as (md & path & Hin & Hh & Hcall). rewrite Hcall in Hrun.
  destruct (law_Invoke registered ran transport_error WorkloadManager_ServiceDesc srv _ _ _ _ _ _ Hreg Hrun)
    as [H|[(e & e' & He & _)|[[Hno _]|(md' & b' & s0 & s1 & r0 & Hin' & Hpath & Hb' & Hrun' & Hnp & Hran & ->)]]].
  - by left.
  - by rewrite Hb in He.
  - by destruct (Hno md Hin).
  - right. apply (method_by_path md' md) in Hpath as ->; [|done..]. rewrite Hb in Hb'. injection Hb' as <-.
    rewrite Hh, (unary_handler_run t u (server_call m) path srv b x) in Hrun' by by apply law_unmarshal.
    destruct (server_call m srv x s0) as [r1 s1'] eqn:Hs. cbn [fst snd] in Hrun'. injection Hrun' as <- <-.
    exists s0, s1', r1. split_and!; [done..|]. apply received_answer.
Qed.

Lemma cat_app l k : cat (l ++ k) = cat l +:+ cat k.
Proof. induction l as [|a l IH]; [done|]. cbn [app]. by rewrite !cat_cons, IH, str_app_assoc. Qed.

(** What a client has received of a stream when it meets the end. *)
Inductive recvs (n : nat) : C -> list Chunk -> error -> Prop :=
  | recvs_end c e c' : Client.Recv n c = (Err e, c') -> recvs n c [] e
  | recvs_chunk c ch c' cs e : Client.Recv n c = (Ok ch, c') -> recvs n c' cs e -> recvs n c (ch :: cs) e.

Lemma delivered_prefix n (sent : list Chunk) r c cs e :
  delivered n (mkAny TChunk <$> sent) r c -> recvs n c cs e ->
  cs `prefix_of` sent /\ (e = EOF -> cs = sent /\ r = Ok tt).
Proof.
  intros Hd Hr. revert sent Hd. induction Hr as [c e c' Hc|c ch c' cs e Hc _ IH]; intros sent Hd.
  - split; [apply prefix_nil|]. intros ->. destruct sent as [|ch sent].
    + destruct (Hd TChunk) as (e & He & Hne). unfold Client.Recv in Hc. rewrite Hc in He. injection He as <-.
      split; [done|]. destruct (decide (r = Ok tt)) as [|Hn]; [done|]. by destruct (Hne Hn).
    + cbn in Hd. destruct Hd as (r' & c2 & Hrc & [[-> _]|(e & -> & Hne)]); unfold Client.Recv in Hc; rewrite Hc in Hrc; [done|].
      by injection Hrc as <- _.
  - destruct sent as [|ch' sent].
    + destruct (Hd TChunk) as (e' & He & _). unfold Client.Recv in Hc. by rewrite Hc in He.
    + cbn in Hd. destruct Hd as (r' & c2 & Hrc & [[-> Hd]|(e' & -> & _)]); unfold Client.Recv in Hc; rewrite Hc in Hrc; [|done].
      injection Hrc as <- <-. destruct (IH sent Hd) as [Hp He]. split; [by apply prefix_cons|].
      intros Heof. by destruct (He Heof) as [-> ->].
Qed.
End calls.

(** ** The agent behind a connection *)

Section agent.
Context {H : Type} {SH : SlurmHost H} {PT : ProtoTime} {US : UuidSource H} {FH : FileHost H}.
Variable s : Slurm.
Variable sprintf_other : string -> string -> string.
(** The handler of [TailFile], which waits for the file and for its client;
    [AgentServer.TailFile] is its model, as a function of what it meets. *)
Variable TailFile_handler : ServerStream (Srv H) -> M (Srv H) unit.

#[local] Instance srv_files : FileHost (Srv H) := fun path st => os_Open path (host st).

(** The handlers of the agent, as [NewSlurm] is registered. *)
Definition agent_server : WorkloadManagerServer (Srv H) := {|
  srv_SubmitJob := SubmitJob;
  srv_SubmitJobContainer := SubmitJobContainer sprintf_other;
  srv_CancelJob := CancelJob;
  srv_JobInfo := JobInfo;
  srv_JobSteps := JobSteps;
  srv_JobState _ := JobState;
  srv_OpenFile r stream := OpenFile (CS := Server_Send stream) r;
  srv_TailFile := TailFile_handler;
  srv_Resources := Resources s;
  srv_Partitions _ := Partitions;
  srv_Partition := Partition;
  srv_Nodes := Nodes;
  srv_WorkloadInfo _ := WorkloadInfo s |}.

Context {C : Type} {CC : ClientConn C} {CD : Codec}.
Context (server_of : C -> Srv H) (registered : ServiceDesc (Srv H) -> WorkloadManagerServer (Srv H) -> Prop).
Context (server_stream : Wire -> ServerStream (Srv H)) (outbox : Srv H -> list any).
Context {GL : GrpcLaws server_of registered server_stream outbox}.
Hypothesis agent_registered : registered WorkloadManager_ServiceDesc agent_server.

(** C37. A client of [OpenFile] that receives until the end of the stream has
    the bytes of the file, and whenever it stops it has a prefix of them. *)
Theorem opened_file_received path b reads content c n c' chunks e :
  os_Open path (host (server_of c)) = Ok reads -> delivers reads content ->
  marshal (mkAny TOpenFileRequest (mkOpenFileRequest path)) = Ok b ->
  Client.OpenFile (mkOpenFileRequest path) c = (Ok n, c') -> recvs n c' chunks e ->
  (exists rest, content = cat (ch_Content <$> chunks) +:+ rest) /\
  (e = EOF -> cat (ch_Content <$> chunks) = content).
Proof.
  intros Hopen Hdel Hb Hclient Hrecv. unfold Client.OpenFile in Hclient.
  apply M_bind_Ok_inv in Hclient as (n' & c1 & Hnew & Hclient). apply M_bind_Ok_inv in Hclient as ([] & c2 & Hsend & Hclient).
  apply M_bind_Ok_inv in Hclient as ([] & c3 & Hclose & [= -> ->]).
  set (stream := server_stream b).
  destruct (open_loop_sends_as (CS := Server_Send stream) (mkAny TChunk) outbox
    (fun ch st => law_stream_send server_of registered server_stream outbox b (mkAny TChunk ch) st) reads content (server_of c) Hdel)
    as (s' & cs & Hloop & Hout & Hcat & _).
  assert (Hrun : WorkloadManager_OpenFile_Handler agent_server stream (server_of c) = (Ok tt, s')).
  { unfold WorkloadManager_OpenFile_Handler, mbind, M_bind. unfold stream at 1.
    rewrite (law_stream_recv server_of registered server_stream outbox), (law_unmarshal _ _ _ Hb).
    cbn [srv_OpenFile agent_server]. unfold OpenFile, mbind, M_bind, wrapM, Open. cbn [of_Path].
    change (os_Open path (server_of c)) with (os_Open path (host (server_of c))). rewrite Hopen. exact Hloop. }
  pose proof (law_stream server_of registered server_stream outbox WorkloadManager_ServiceDesc agent_server
    (mkStreamDesc "OpenFile" WorkloadManager_OpenFile_Handler true false) _ b c n c1 c2 c' (Ok tt) s' agent_registered streams_distinct
    ltac:(cbn; set_solver) Hb Hnew Hsend Hclose Hrun I) as Hd.
  rewrite Hout, drop_app_length in Hd. destruct (delivered_prefix n cs (Ok tt) c' chunks e Hd Hrecv) as [[more ->] Heof].
  rewrite fmap_app, cat_app in Hcat. split; [by eexists|]. intros He. destruct (Heof He) as [Hc _].
  rewrite <- Hcat. assert (more = []) as -> by (apply (app_inv_head chunks); by rewrite app_nil_r).
  by rewrite str_app_nil_r.
Qed.
End agent.

(** ** A connection in memory *)

Module GrpcExamples.
#[local] Existing Instance proto_time_impl.

(** A machine whose [sbatch] prints the number 53 and whose files are read
    in two parts; it keeps the messages sent on streams. *)
Definition Machine : Type := list any.
#[export] Instance machine_slurm : SlurmHost Machine := {|
  LookPath _ _ := None;
  Command bin _ _ w := (mkCmdResult ("53" +:+ LF) None None, w) |}.
#[export] Instance machine_uuid : UuidSource Machine := fun w => ("u", w).
#[export] Instance machine_files : FileHost Machine := fun _ _ =>
  Ok [mkReadResult "hello " None; mkReadResult "world" None].

#[export] Instance plain_codec : Codec := {|
  Wire := any;
  marshal x := Ok x;
  unmarshal t x := match assert_type t x with Ok v => Ok v | _ => Err (ErrExternal "proto: cannot parse") end;
  status e := ErrFmt "rpc error: code = Unknown desc" e |}.

(** A stream of a client: its path, what the client sent, what it is still
    to receive and how the handler ended. *)
Record Pipe := mkPipe { pp_path : string; pp_in : option any; pp_out : list any; pp_end : res unit }.
Record Loop := mkLoop { lp_srv : Srv Machine; lp_pipes : list Pipe }.

Definition demo_agent : WorkloadManagerServer (Srv Machine) :=
  agent_server (NewSlurm 0 ∅) (fun _ _ => "") (fun _ => fail (Unimplemented "TailFile")).
Definition demo_desc : ServiceDesc (Srv Machine) := WorkloadManager_ServiceDesc.
Definition demo_stream (b : any) : ServerStream (Srv Machine) := {|
  ss_RecvMsg t st := (unmarshal t b, st);
  ss_SendMsg m st := (Ok tt, mkSrv (knownJobs st) (host st ++ [m])) |}.

Definition find_method (path : string) : option (MethodDesc (Srv Machine)) :=
  snd <$> list_find (fun md => method_path demo_desc (MethodName md) = path) (Methods demo_desc).
Definition find_stream (path : string) : option (StreamDesc (Srv Machine)) :=
  snd <$> list_find (fun st => method_path demo_desc (StreamName st) = path) (Streams demo_desc).

Definition set_pipe (n : nat) (p : Pipe) (c : Loop) : Loop := mkLoop (lp_srv c) (<[n := p]> (lp_pipes c)).
Definition with_pipe {A} (n : nat) (f : Pipe -> M Loop A) : M Loop A :=
  fun c => match lp_pipes c !! n with Some p => f p c | None => (Err (ErrExternal "no stream"), c) end.

#[export] Instance loopback : ClientConn Loop := {|
  Invoke path x u c :=
    match find_method path with
    | None => (Err (Unimplemented path), c)
    | Some md =>
        let '(r, st) := Handler md demo_agent (decoder x) None (lp_srv c) in
        (match r with Panic _ => Err (ErrExternal "Unavailable") | _ => received u r end, mkLoop st (lp_pipes c))
    end;
  NewStream _ _ path c := (Ok (length (lp_pipes c)), mkLoop (lp_srv c) (lp_pipes c ++ [mkPipe path None [] (Ok tt)]));
  SendMsg n x := with_pipe n (fun p c => (Ok tt, set_pipe n (mkPipe (pp_path p) (Some x) [] (Ok tt)) c));
  CloseSend n := with_pipe n (fun p c =>
    match pp_in p, find_stream (pp_path p) with
    | Some x, Some st =>
        let '(r, s') := StreamHandler st demo_agent (demo_stream x) (lp_srv c) in
        (Ok tt, mkLoop s' (<[n := mkPipe (pp_path p) None (drop (length (host (lp_srv c))) (host s')) r]> (lp_pipes c)))
    | _, _ => (Err (Unimplemented (pp_path p)), c)
    end);
  RecvMsg n t := with_pipe n (fun p c =>
    match pp_out p with
    | [] => (Err (match pp_end p with Ok _ => EOF | Err e => status e | Panic _ => ErrExternal "Unavailable" end), c)
    | m :: ms => (unmarshal t m, set_pipe n (mkPipe (pp_path p) None ms (pp_end p)) c)
    end) |}.

Lemma unmarshal_same t v : unmarshal t (mkAny t v) = Ok v.
Proof. cbn. by rewrite assert_type_same. Qed.

Lemma piped n msgs r c p :
  no_panic r -> lp_pipes c !! n = Some p -> pp_out p = msgs -> pp_end p = r -> delivered n msgs r c.
Proof.
  intros Hnp. revert c p. induction msgs as [|[t v] msgs IH]; intros c p Hp Ho He.
  - intros t. unfold RecvMsg, loopback, with_pipe. rewrite Hp, Ho, He. destruct r as [[]|e|x]; [|by eexists|done]. by eexists.
  - cbn [delivered]. unfold RecvMsg, loopback, with_pipe. rewrite Hp, Ho. rewrite unmarshal_same. do 2 eexists. split; [done|].
    left. split; [done|]. apply (IH _ (mkPipe (pp_path p) None msgs (pp_end p))); [|done|exact He]. cbn.
    apply list_lookup_insert_eq. by eapply lookup_lt_Some.
Qed.

Definition demo_registered (sd : ServiceDesc (Srv Machine)) (srv : WorkloadManagerServer (Srv Machine)) : Prop :=
  sd = demo_desc /\ srv = demo_agent.

(** A method or stream of a service without duplicates is found by its path. *)
Lemma find_by_path {A} (f : A -> string) (l : list A) x :
  NoDup (f <$> l) -> x ∈ l -> snd <$> list_find (fun y => method_path demo_desc (f y) = method_path demo_desc (f x)) l = Some x.
Proof.
  intros Hn Hx. destruct (list_find_elem_of (fun y => method_path demo_desc (f y) = method_path demo_desc (f x)) l x Hx eq_refl) as [[i y] Hf].
  rewrite Hf. cbn. apply list_find_Some in Hf as (Hi & Heq & _). do 3 apply (inj (String.append _)) in Heq.
  apply list_elem_of_lookup_1 in Hx as [j Hj]. f_equal.
  assert (i = j) as ->; [|congruence]. eapply (NoDup_lookup (f <$> l)); [done|..]; rewrite list_lookup_fmap.
  - by rewrite Hi.
  - rewrite Hj. cbn. by rewrite Heq.
Qed.

(** What the loopback connection does in a call. *)
Definition loop_ran (c c' : Loop) (s0 s1 : Srv Machine) : Prop := lp_srv c = s0 /\ lp_srv c' = s1.

#[export] Instance plain_codec_laws : CodecLaws.
Proof. split; [intros t v b [= <-]; apply unmarshal_same|done]. Qed.

(** The process of the handler does not panic here: the loopback turns a
    panic into an error of the transport. *)
Definition unavailable : error := ErrExternal "Unavailable".

#[export] Instance loopback_unary : UnaryLaws (CD := plain_codec) demo_registered loop_ran (eq unavailable).
Proof.
  split. intros sd srv path x u c r c' [-> ->] Hi. unfold Invoke, loopback in Hi.
  destruct (find_method path) as [md|] eqn:Hf.
  - unfold find_method in Hf. apply fmap_Some in Hf as ([i md'] & Hf & ->). apply list_find_Some in Hf as (Hl & Hp & _).
    cbn [snd] in Hi. destruct (Handler md' demo_agent (decoder (CD := plain_codec) x) None (lp_srv c)) as [r0 st] eqn:Hrun. destruct r0 as [y|e|p].
    3: by left; injection Hi as <- <-; eexists.
    all: right; right; right; injection Hi as <- <-; exists md', (x : Wire (Codec := plain_codec)), (lp_srv c), st; eexists;
      split_and!; [by eapply list_elem_of_lookup_2|done|done|exact Hrun|done|by split|done].
  - right. right. left. injection Hi as <- <-. split; [|by eexists]. intros md Hin Hp.
    unfold find_method in Hf. rewrite fmap_None in Hf. apply list_find_None in Hf. rewrite list.Forall_forall in Hf. by apply (Hf md).
Qed.

#[export] Instance loopback_laws : GrpcLaws lp_srv demo_registered demo_stream host.
Proof.
  split.
  - apply _.
  - done.
  - intros b m s. by eexists.
  - intros sd srv st x b c n c1 c2 c3 r s' [-> ->] Hn Hin [= <-] Hnew Hsend Hclose Hrun Hnp.
    unfold NewStream, loopback in Hnew. injection Hnew as <- <-. unfold SendMsg, loopback, with_pipe in Hsend. cbn [lp_pipes] in Hsend.
    rewrite list_lookup_middle in Hsend by done. injection Hsend as <-.
    unfold CloseSend, loopback, with_pipe in Hclose. cbn [set_pipe lp_pipes pp_path] in Hclose.
    rewrite list_lookup_insert_eq in Hclose by (rewrite length_app; cbn; lia). cbn [pp_in pp_path lp_srv] in Hclose.
    unfold find_stream in Hclose. rewrite (find_by_path StreamName) in Hclose by done.
    change (lp_srv (set_pipe ?a ?b ?d)) with (lp_srv d) in Hclose. cbn [lp_srv] in Hclose. rewrite Hrun in Hclose. injection Hclose as <-.
    apply (piped _ _ _ _ (mkPipe (method_path demo_desc (StreamName st)) None (drop (length (host (lp_srv c))) (host s')) r)); [done| |done..].
    cbn [lp_pipes set_pipe]. apply list_lookup_insert_eq. rewrite length_insert, length_app. cbn. lia.
Qed.

(** The client submits through the service description, and reads a file. *)
Definition start : Loop := mkLoop (mkSrv ∅ []) [].
Definition demo_submit : SubmitJobRequest := mkSubmitJobRequest "#!/bin/sh" "debug" "c" "" "" "uid-1" 0 0 0 "" 0 0 "" "".

Example submit_over_grpc :
  (Client.SubmitJob demo_submit start).1 = Ok (mkSubmitJobResponse 53) /\
  knownJobs (lp_srv (Client.SubmitJob demo_submit start).2) = {["uid-1" := 53%Z]} /\
  (Client.JobInfo (mkJobInfoRequest 53) start).1 <> Err (Unimplemented WorkloadManager_JobInfo_FullMethodName) /\
  (Client.SubmitJob (mkSubmitJobRequest "" "debug" "c" "" "" "uid-1" 0 0 0 "" 0 0 "" "") start).1 =
    Err (ErrFmt "rpc error: code = Unknown desc" (ErrNew "Invalid submit job request")).
Proof. vm_compute. split_and!; [done..|discriminate|done]. Qed.

Lemma client_reaches_handler_witness :
  exists s0 s1 r0, loop_ran start (Client.SubmitJob demo_submit start).2 s0 s1 /\
    server_call MSubmitJob demo_agent demo_submit s0 = (r0, s1) /\ Ok (mkSubmitJobResponse 53) = at_client (u := TSubmitJobResponse) r0.
Proof.
  destruct (client_reaches_handler (CD := plain_codec) demo_registered loop_ran (eq unavailable) demo_agent _ _ MSubmitJob demo_submit
    (mkAny TSubmitJobRequest demo_submit) start (Ok (mkSubmitJobResponse 53)) (Client.SubmitJob demo_submit start).2)
    as [(e & He & _)|H].
  - done.
  - done.
  - vm_compute. reflexivity.
  - done.
  - exact H.
Defined.

(** The connection after the client of [OpenFile] has sent its request. *)
Definition reading : Loop := (Client.OpenFile (mkOpenFileRequest "/tmp/o") start).2.

Lemma opened_file_received_witness :
  recvs 0 reading [mkChunk "hello "; mkChunk "world"] EOF /\
  (EOF = EOF -> cat (ch_Content <$> [mkChunk "hello "; mkChunk "world"]) = "hello world").
Proof.
  assert (Hr : recvs 0 reading [mkChunk "hello "; mkChunk "world"] EOF).
  { eapply recvs_chunk; [vm_compute; reflexivity|]. eapply recvs_chunk; [vm_compute; reflexivity|]. eapply recvs_end. vm_compute. reflexivity. }
  split; [exact Hr|].
  refine (proj2 (opened_file_received (CD := plain_codec) (NewSlurm 0 ∅) (fun _ _ => "") (fun _ => fail (Unimplemented "TailFile"))
    lp_srv demo_registered demo_stream host (conj eq_refl eq_refl) "/tmp/o" (mkAny TOpenFileRequest (mkOpenFileRequest "/tmp/o"))
    [mkReadResult "hello " None; mkReadResult "world" None] "hello world" start 0 reading _ EOF eq_refl _ eq_refl _ Hr)).
  - split; [by repeat constructor|reflexivity].
  - vm_compute. reflexivity.
Defined.
End GrpcExamples.
