(* ===== verification/Kube.v ===== *)
(** * Kubernetes objects

    The parts of [k8s.io/api] the program builds or reads: object metadata,
    pods with their status, result jobs and nodes. Maps a Go program can
    find nil are options of a map; a pointer is an option. A
    [resource.Quantity] is the text it is parsed from. *)

From S2P Require Import Prelude GoStrings GoNum GoTime.

Abbreviation StrMap := (gmap string string).

(** Reading and writing a possibly nil map. *)
Definition map_get (m : option StrMap) (k : string) : option string := m ≫= (fun m => m !! k).
Definition map_set (m : option StrMap) (k v : string) : res StrMap :=
  match m with Some m => Ok (<[k := v]> m) | None => Panic NilMapWrite end.

Record OwnerReference := mkOwnerReference {
  or_APIVersion : string;
  or_Kind : string;
  or_Name : string;
  or_UID : string;
  or_BlockOwnerDeletion : bool;
  or_Controller : bool;
}.

(** The kind and version of an object ([metav1.TypeMeta]). *)
Record TypeMeta := mkTypeMeta { tm_Kind : string; tm_APIVersion : string }.

Record ObjectMeta := mkObjectMeta {
  m_Name : string;
  m_Namespace : string;
  m_UID : string;
  m_Labels : option StrMap;
  m_Annotations : option StrMap;
  m_OwnerReferences : list OwnerReference;
  m_DeletionTimestamp : option Time;
}.

(** An object the program fills in before it is created. *)
Definition new_meta (name namespace : string) (labels : option StrMap) : ObjectMeta :=
  mkObjectMeta name namespace "" labels None [] None.

Abbreviation Quantity := string (only parsing).
Abbreviation ResourceList := (gmap string string) (only parsing).

Record SecurityContext := mkSecurityContext { sctx_RunAsUser : option Z }.
Record PodSecurityContext := mkPodSecurityContext { psc_RunAsUser : option Z; psc_RunAsGroup : option Z }.
Record VolumeMount := mkVolumeMount { vm_Name : string; vm_MountPath : string }.
Record EnvVar := mkEnvVar { env_Name : string; env_Value : string; env_FieldPath : string }.
(** A volume: its name and the path of its host file, if it has one; other
    sources are opaque text. *)
Record Volume := mkVolume { vol_Name : string; vol_HostPath : string; vol_Source : string }.

Record Container := mkContainer {
  ct_Name : string;
  ct_Image : string;
  ct_ImagePullPolicy : string;
  ct_Command : list string;
  ct_Args : list string;
  ct_WorkingDir : string;
  ct_Requests : ResourceList;
  ct_Limits : ResourceList;
  ct_SecurityContext : option SecurityContext;
  ct_Env : list EnvVar;
  ct_Ports : list (string * Z);
  ct_VolumeMounts : list VolumeMount;
}.

Record NodeSelectorRequirement := mkNodeSelectorRequirement {
  nsr_Key : string;
  nsr_Operator : string;
  nsr_Values : list string;
}.
(** [Affinity]: the one required node selector term the program builds. *)
Definition Affinity : Type := list NodeSelectorRequirement.

Record Toleration := mkToleration {
  tol_Key : string; tol_Operator : string; tol_Value : string; tol_Effect : string
}.
Record Taint := mkTaint { taint_Key : string; taint_Value : string; taint_Effect : string }.

Record PodSpec := mkPodSpec {
  spec_NodeName : string;
  spec_Affinity : option Affinity;
  spec_SecurityContext : option PodSecurityContext;
  spec_ServiceAccountName : string;
  spec_Tolerations : list Toleration;
  spec_Containers : list Container;
  spec_RestartPolicy : string;
  spec_Volumes : list Volume;
}.

(** ** Status *)

(** [PodPhase] is a string; these are its values. *)
Definition PodPending : string := "Pending".
Definition PodRunning : string := "Running".
Definition PodSucceeded : string := "Succeeded".
Definition PodFailed : string := "Failed".
Definition PodUnknown : string := "Unknown".

Inductive ContainerState :=
  | StateRunning (startedAt : Time)
  | StateTerminated (exitCode : Z) (reason message : string) (startedAt finishedAt : Time)
  | StateWaiting (reason message : string).

Definition is_running (s : ContainerState) : bool := match s with StateRunning _ => true | _ => false end.

Record ContainerStatus := mkContainerStatus {
  cs_Name : string;
  cs_State : ContainerState;
  cs_Ready : bool;
  cs_Image : string;
  cs_ContainerID : string;
}.

Record PodCondition := mkPodCondition { pcond_Type : string; pcond_Status : string }.

Record PodStatus := mkPodStatus {
  st_Phase : string;
  st_Conditions : list PodCondition;
  st_Message : string;
  st_StartTime : option Time;
  st_ContainerStatuses : list ContainerStatus;
}.
Definition zero_PodStatus : PodStatus := mkPodStatus "" [] "" None [].

Record Pod := mkPod { pod_meta : ObjectMeta; pod_spec : PodSpec; pod_status : PodStatus }.

Definition pod_name (p : Pod) : string := m_Name (pod_meta p).
Definition pod_namespace (p : Pod) : string := m_Namespace (pod_meta p).
Definition pod_uid (p : Pod) : string := m_UID (pod_meta p).
Definition pod_labels (p : Pod) : option StrMap := m_Labels (pod_meta p).
Definition pod_annotations (p : Pod) : option StrMap := m_Annotations (pod_meta p).

(** The pod with other labels and annotations. *)
Definition set_labels (m : ObjectMeta) (labels annotations : option StrMap) : ObjectMeta :=
  mkObjectMeta (m_Name m) (m_Namespace m) (m_UID m) labels annotations (m_OwnerReferences m)
    (m_DeletionTimestamp m).
Definition set_uid (m : ObjectMeta) (uid : string) : ObjectMeta :=
  mkObjectMeta (m_Name m) (m_Namespace m) uid (m_Labels m) (m_Annotations m) (m_OwnerReferences m)
    (m_DeletionTimestamp m).
Definition add_owner (m : ObjectMeta) (o : OwnerReference) : ObjectMeta :=
  mkObjectMeta (m_Name m) (m_Namespace m) (m_UID m) (m_Labels m) (m_Annotations m)
    (m_OwnerReferences m ++ [o]) (m_DeletionTimestamp m).

(** A [batch/v1] job: the fields of its one template the program fills in. *)
Record Job := mkJob {
  jb_meta : ObjectMeta;
  jb_Containers : list Container;
  jb_RestartPolicy : string;
  jb_Volumes : list Volume;
  jb_BackoffLimit : option Z;
  jb_Succeeded : Z;
  jb_Failed : Z;
}.
(** [&batchv1.Job{}]. *)
Definition zero_Job : Job := mkJob (new_meta "" "" None) [] "" [] None 0 0.

Record NodeCondition := mkNodeCondition {
  ncond_Type : string; ncond_Status : string; ncond_Reason : string; ncond_Message : string
}.

(** A node: its labels and what the virtual kubelet reports about itself. *)
Record KNode := mkKNode {
  kn_Name : string;
  kn_Labels : option StrMap;
  kn_Taints : list Taint;
  kn_OperatingSystem : string;
  kn_Architecture : string;
  kn_KubeletVersion : string;
  kn_MachineID : string;
  kn_SystemUUID : string;
  kn_BootID : string;
  kn_KernelVersion : string;
  kn_OSImage : string;
  kn_Capacity : gmap string Z;
  kn_Allocatable : gmap string Z;
  kn_Conditions : list NodeCondition;
  kn_Addresses : list (string * string);
  kn_Port : Z;
}.

(** The JSON text of a message: [encoding/json], as the program uses it. *)
Class Json (A : Type) := {
  Marshal : A -> res string;
  Unmarshal : string -> res A;
}.
(** A text that was written is read back. *)
Definition json_roundtrip {A} `{Json A} (a : A) (text : string) : Prop :=
  Marshal a = Ok text /\ Unmarshal text = Ok a.
