(* ===== verification/Crd.v ===== *)
(** * The SlurmBridgeJob resource (apis/kubecluster.org/v1alpha1)

    The custom resource a user submits, its status, its validation, the
    affinity and tolerations of its pods, the labels shared by the operator
    and the virtual kubelet (pkg/common), and the configuration object of
    the virtual kubelet with its defaults. *)

From S2P Require Import Prelude GoStrings GoNum GoTime Kube.

(** ** Constants *)

Definition SlurmBridgeJobKind : string := "SlurmBridgeJob".
Definition SlurmBridgeJobPodRoleSizeCar : string := "sizecar".
Definition SlurmBridgeJobPodRoleSizeWorker : string := "worker".
Definition GroupVersion_String : string := "kubecluster.org/v1alpha1".
Definition PartitionLabel : string := "kubecluster.org/partition".

Definition LabelSlurmBridgeJobId : string := "sbo.kubecluster.org/jobid".
Definition LabelLastJobInfo : string := "sbo.kubecluster.org/jobinfo".
Definition LabelAgentEndPoint : string := "sbo.kubecluster.org/agent-endpoint".
Definition LabelsResourceRequestCpusPerTask : string := "sbo.kubecluster.org/cpus-per-task".
Definition LabelsResourceRequestNodes : string := "sbo.kubecluster.org/nodes".
Definition LabelsResourceRequestMemPerCpu : string := "sbo.kubecluster.org/mem-per-cpu".
Definition LabelsResourceRequestNTasksPerNode : string := "sbo.kubecluster.org/ntasks-per-node".
Definition LabelsResourceRequestArray : string := "sbo.kubecluster.org/array".
Definition LabelsResourceRequestNTasks : string := "sbo.kubecluster.org/ntask".
Definition LabelsRole : string := "sbo.kubecluster.org/role".

Definition SlurmBridgeJobSubmitting : string := "SUBMITTING".
Definition SlurmBridgeJobCreatedReason : string := "Created".
Definition SlurmBridgeJobFailedReason : string := "Failed".
Definition SlurmBridgeJobFailedValidationReason : string := "FailedValidation".
Definition SlurmBridgeJobStatusChangeReason : string := "StatusChanged".
Definition SlurmBridgeJobResultFetchCreatedReason : string := "Created".
Definition SlurmBridgeJobResultFetchSucceedReason : string := "FetchSucceeded".
Definition SlurmBridgeJobResultFetchFailReason : string := "FetchFailed".
Definition SlurmBridgeJobResultFetchRunningReason : string := "FetchRunning".

Definition NewReason (kind reason : string) : string := kind +:+ reason.

(** ** The resource *)

Record JobResult := mkJobResult { jr_Volume : Volume }.

Record SlurmBridgeJobSpec := mkSlurmBridgeJobSpec {
  sp_Partition : string;
  sp_SbatchScript : string;
  sp_RunAsUser : option Z;
  sp_RunAsGroup : option Z;
  sp_Array : string;
  sp_CpusPerTask : Z;
  sp_Ntasks : Z;
  sp_NtasksPerNode : Z;
  sp_Nodes : Z;
  sp_WorkingDir : string;
  sp_MemPerCpu : Z;
  sp_Gres : string;
  sp_Licenses : string;
  sp_Result : option JobResult;
}.

Record SlurmSubjobStatus := mkSlurmSubjobStatus {
  sub_ID : string;
  sub_UserID : string;
  sub_ArrayJobID : string;
  sub_Name : string;
  sub_ExitCode : string;
  sub_State : string;
  sub_SubmitTime : option Time;
  sub_StartTime : option Time;
  sub_RunTime : string;
  sub_TimeLimit : string;
  sub_WorkDir : string;
  sub_StdOut : string;
  sub_StdErr : string;
  sub_Partition : string;
  sub_NodeList : string;
  sub_BatchHost : string;
  sub_NumNodes : string;
}.

Record SlurmBridgeJobStatus := mkSlurmBridgeJobStatus {
  sjs_State : string;
  sjs_SubjobStatus : option (gmap string SlurmSubjobStatus);
  sjs_FetchResult : bool;
  sjs_FetchResultStatus : string;
  sjs_ClusterEndPoint : string;
}.
Definition zero_Status : SlurmBridgeJobStatus := mkSlurmBridgeJobStatus "" None false "" "".

Record SlurmBridgeJob := mkSlurmBridgeJob {
  sbj_meta : ObjectMeta;
  sbj_Spec : SlurmBridgeJobSpec;
  sbj_Status : SlurmBridgeJobStatus;
}.
Definition sbj_name (j : SlurmBridgeJob) : string := m_Name (sbj_meta j).
Definition sbj_namespace (j : SlurmBridgeJob) : string := m_Namespace (sbj_meta j).

(** [len] of the map of subjobs: a nil map is empty. *)
Definition subjobs (j : SlurmBridgeJob) : gmap string SlurmSubjobStatus :=
  default ∅ (sjs_SubjobStatus (sbj_Status j)).

Definition with_status (j : SlurmBridgeJob) (s : SlurmBridgeJobStatus) : SlurmBridgeJob :=
  mkSlurmBridgeJob (sbj_meta j) (sbj_Spec j) s.

(** ** Validation *)

Section validation.
(** [apimachineryvalidation.NameIsDNS1035Label]: the errors it finds in a name. *)
Context (NameIsDNS1035Label : string -> list string).

Definition validateV1alphaSlurmBridgeJobSpecs (spec : SlurmBridgeJobSpec) : option error :=
  if (str_len (sp_Partition spec) =? 0)%Z
  then Some (ErrNew "SlurmBridgeJob is not valid: SlurmBridgeJob partition expected")
  else if (str_len (sp_SbatchScript spec) =? 0)%Z
  then Some (ErrNew "SlurmBridgeJob is not valid: SlurmBridgeJob SbatchScript expected")
  else None.

Definition ValidateV1alphaSlurmBridgeJob (j : SlurmBridgeJob) : option error :=
  match NameIsDNS1035Label (sbj_name j) with
  | _ :: _ as errs => Some (ErrNew ("TFSlurmBridgeJob name is invalid: [" +:+ Join errs " " +:+ "]"))
  | [] => validateV1alphaSlurmBridgeJobSpecs (sbj_Spec j)
  end.
End validation.

(** ** Requested resources and affinity *)

Record Resources := mkResources {
  r_Nodes : Z;
  r_Array : string;
  r_CpusPerTask : Z;
  r_Ntasks : Z;
  r_NtasksPerNode : Z;
  r_MemPerCpu : Z;
  r_WallTime : Z;
}.
Definition zero_Resources : Resources := mkResources 0 "" 0 0 0 0 0.

Definition ErrAffinityIsNotRequired : error := ErrSentinel "v1alpha1: affinity selectors is not required".
Definition DefaultNodeSelectors : list (string * string) := [("type", "virtual-kubelet")].
Definition DefaultTolerations : list Toleration :=
  [mkToleration "virtual-kubelet.io/provider" "Equal" "slurm-bridge-operator" "NoSchedule"].

(** No selector is required for resources. *)
Definition AffinityForResources (r : Resources) : res (list NodeSelectorRequirement) := Ok [].

(** ** The configuration of the virtual kubelet *)

Record SlurmVirtualKubeletConfiguration := mkVKConfig {
  vc_Pods : string;
  vc_EnableServer : bool;
  vc_StaticPodPath : string;
  vc_SyncFrequency : Z;
  vc_FileCheckFrequency : Z;
  vc_HTTPCheckFrequency : Z;
  vc_StaticPodURL : string;
  vc_StaticPodURLHeader : option (gmap string (list string));
  vc_Address : string;
  vc_Port : Z;
  vc_ReadOnlyPort : Z;
  vc_VolumePluginDir : string;
  vc_ProviderID : string;
  vc_TLSCertFile : string;
  vc_TLSPrivateKeyFile : string;
  vc_TLSCipherSuites : list string;
  vc_TLSMinVersion : string;
  vc_RotateCertificates : bool;
  vc_ServerTLSBootstrap : bool;
}.

Definition DefaultListenPort : Z := 10250.
Definition DefaultTLSCertFile : string := "/var/lib/kubelet/pki/kubelet.crt".
Definition DefaultTLSPrivateKeyFile : string := "/var/lib/kubelet/pki/kubelet.key".

Definition SetDefaults_SlurmVirtualKubeletConfiguration (c : SlurmVirtualKubeletConfiguration) :
    SlurmVirtualKubeletConfiguration :=
  let tls := bool_decide (vc_TLSCertFile c = "") || bool_decide (vc_TLSPrivateKeyFile c = "") in
  {| vc_Pods := if bool_decide (vc_Pods c = "") then "10000" else vc_Pods c;
     vc_EnableServer := vc_EnableServer c;
     vc_StaticPodPath := vc_StaticPodPath c;
     vc_SyncFrequency := vc_SyncFrequency c;
     vc_FileCheckFrequency := vc_FileCheckFrequency c;
     vc_HTTPCheckFrequency := vc_HTTPCheckFrequency c;
     vc_StaticPodURL := vc_StaticPodURL c;
     vc_StaticPodURLHeader := vc_StaticPodURLHeader c;
     vc_Address := if bool_decide (vc_Address c = "") then "0.0.0.0" else vc_Address c;
     vc_Port := if bool_decide (vc_Port c = 0%Z) then DefaultListenPort else vc_Port c;
     vc_ReadOnlyPort := vc_ReadOnlyPort c;
     vc_VolumePluginDir := vc_VolumePluginDir c;
     vc_ProviderID := vc_ProviderID c;
     vc_TLSCertFile := if tls then DefaultTLSCertFile else vc_TLSCertFile c;
     vc_TLSPrivateKeyFile := if tls then DefaultTLSPrivateKeyFile else vc_TLSPrivateKeyFile c;
     vc_TLSCipherSuites := vc_TLSCipherSuites c;
     vc_TLSMinVersion := vc_TLSMinVersion c;
     vc_RotateCertificates := vc_RotateCertificates c;
     vc_ServerTLSBootstrap := vc_ServerTLSBootstrap c |}.

(** The fields that hold paths, in the order the code lists them. *)
Definition PathRefs (c : SlurmVirtualKubeletConfiguration) : list string :=
  [vc_StaticPodPath c; vc_TLSCertFile c; vc_TLSPrivateKeyFile c; vc_VolumePluginDir c].
