(* ===== verification/OperatorPod.v ===== *)
(** * From a SlurmBridgeJob to its sizing pod (pkg/slurm-bridge-operator/parse.go, pod.go)

    The operator reads the resources a job needs from the [#SBATCH] header
    of its script and from its spec, and describes them in a pod: its
    labels carry the request to the virtual kubelet, its resource list
    makes the scheduler account for it. *)

From S2P Require Import Prelude GoStrings GoNum GoTime KeyValue AgentParse Kube Crd.

(** ** Scanning a script *)

(** [bufio.ScanLines]: the lines of a text, a last line without end
    included, each without its carriage return. A scanner stops for good at
    a line that does not fit its buffer. *)
Definition maxTokenSize : Z := 65536.

Definition dropCR (line : string) : string :=
  if HasSuffix line (String "013" "") then str_take (String.length line - 1) line else line.

Fixpoint take_while {A} (p : A -> bool) (l : list A) : list A :=
  match l with [] => [] | x :: l' => if p x then x :: take_while p l' else [] end.

Fixpoint drop_last_empty (l : list string) : list string :=
  match l with
  | [] => []
  | [x] => if bool_decide (x = "") then [] else [x]
  | x :: l' => x :: drop_last_empty l'
  end.

Definition scan_lines (text : string) : list string :=
  dropCR <$> take_while (fun l => bool_decide (str_len l < maxTokenSize)%Z) (drop_last_empty (Split text LF)).

(** ** The header of a batch script *)

Definition sbatchHeader : string := "#SBATCH".

Definition applySbatchParam (r : Crd.Resources) (param value : string) : res Crd.Resources :=
  let '(Crd.mkResources nodes array cpus ntasks ntpn mem wall) := r in
  if bool_decide (param ∈ ["--time"; "-t"]) then
    match ParseDuration value with
    | Ok d => Ok (Crd.mkResources nodes array cpus ntasks ntpn mem d)
    | Err e => if errors_Is e ErrDurationIsUnlimited then Ok r
               else Err (ErrWrap e "could not parse time limit")
    | Panic p => Panic p
    end
  else if bool_decide (param ∈ ["--nodes"; "-N"]) then
    let i := IndexByte value "-" in
    let value := if negb (i =? -1)%Z then str_take (Z.to_nat i) value else value in
    n ← wrap_err (ParseIntR value) "could not parse amount of nodes";
    Ok (Crd.mkResources n array cpus ntasks ntpn mem wall)
  else if bool_decide (param = "--mem-per-cpu") then
    m ← wrap_err (ParseIntR value) "could not parse memory";
    Ok (Crd.mkResources nodes array cpus ntasks ntpn m wall)
  else if bool_decide (param ∈ ["--cpus-per-task"; "-c"]) then
    c ← wrap_err (ParseIntR value) "could not parse cpus per node";
    Ok (Crd.mkResources nodes array c ntasks ntpn mem wall)
  else if bool_decide (param = "--ntasks-per-node") then
    t ← wrap_err (ParseIntR value) "could not parse tasks per node";
    Ok (Crd.mkResources nodes array cpus ntasks t mem wall)
  else Ok r.

(** The loop over the words of a header line: [params] is the line, the
    fuel its remaining words and [j] the next index. When a word has no
    [=], [i] is -1, and -1 is below [len(params)-1] for every line. *)
Fixpoint apply_params (fuel : nat) (params : list string) (j : nat) (r : Crd.Resources) : res Crd.Resources :=
  match fuel with
  | O => Ok r
  | S fuel' =>
      if (j <? length params)%nat then
        param ← index params j;
        let i := IndexByte param "=" in
        if negb (i =? -1)%Z then
          r' ← applySbatchParam r (str_take (Z.to_nat i) param) (str_drop (Z.to_nat (i + 1)) param);
          apply_params fuel' params (S j) r'
        else if (i <? Z.of_nat (length params) - 1)%Z then
          value ← index params (S j);
          r' ← applySbatchParam r param value;
          apply_params fuel' params (S (S j)) r'
        else
          r' ← applySbatchParam r param "";
          apply_params fuel' params (S j) r'
      else Ok r
  end.

Definition header_params (line : string) : list string := Fields (TrimPrefix line sbatchHeader).

Fixpoint apply_lines (lines : list string) (r : Crd.Resources) : res Crd.Resources :=
  match lines with
  | [] => Ok r
  | line :: lines' =>
      if bool_decide (line = "") || HasPrefix line "#!" then apply_lines lines' r
      else if negb (HasPrefix line sbatchHeader) then Ok r
      else
        let params := header_params line in
        r' ← apply_params (length params) params 0 r;
        apply_lines lines' r'
  end.

Definition extractBatchResourcesFromScript (script : string) : res Crd.Resources :=
  apply_lines (scan_lines script) zero_Resources.

(** [a-b] counts its indices, anything else its commas; the errors of
    [Atoi] are dropped. *)
Definition parseArrayLen (array : string) : Z :=
  if Contains array "-" then
    match Split array "-" with
    | a :: b :: _ => (wrap64 (wrap64 (ParseInt_ b - ParseInt_ a) + 1))%Z
    | _ => 0%Z
    end
  else Z.of_nat (length (Split array ",")).

(** ** The resources of a job *)

Definition setRequireResourceBySpec (spec : SlurmBridgeJobSpec) (r : Crd.Resources) : Crd.Resources := {|
  r_Nodes := if bool_decide (0 < sp_Nodes spec)%Z then sp_Nodes spec else r_Nodes r;
  r_Array := if bool_decide (0 < str_len (sp_Array spec))%Z then sp_Array spec else r_Array r;
  r_CpusPerTask := if bool_decide (0 < sp_CpusPerTask spec)%Z then sp_CpusPerTask spec else r_CpusPerTask r;
  r_Ntasks := if bool_decide (0 < sp_Ntasks spec)%Z then sp_Ntasks spec else r_Ntasks r;
  r_NtasksPerNode := if bool_decide (0 < sp_NtasksPerNode spec)%Z then sp_NtasksPerNode spec else r_NtasksPerNode r;
  r_MemPerCpu := if bool_decide (0 < sp_MemPerCpu spec)%Z then sp_MemPerCpu spec else r_MemPerCpu r;
  r_WallTime := r_WallTime r |}.

Definition DefaultRequireNodes : Z := 1.
Definition DefaultRequireCpusPerTask : Z := 1.
Definition DefaultRequireMemPerCpu : Z := 1024.

Definition setDefaultRequireResource (r : Crd.Resources) : Crd.Resources := {|
  r_Nodes := if bool_decide (r_Nodes r = 0%Z) then DefaultRequireNodes else r_Nodes r;
  r_Array := r_Array r;
  r_CpusPerTask := if bool_decide (r_CpusPerTask r = 0%Z) then DefaultRequireCpusPerTask else r_CpusPerTask r;
  r_Ntasks := r_Ntasks r;
  r_NtasksPerNode := r_NtasksPerNode r;
  r_MemPerCpu := if bool_decide (r_MemPerCpu r = 0%Z) then DefaultRequireMemPerCpu else r_MemPerCpu r;
  r_WallTime := r_WallTime r |}.

Open Scope go_scope.

(** The CPUs of one array task, of the whole array, and the memory. *)
Definition cpu_base (r : Crd.Resources) : Z :=
  if bool_decide (0 < r_Ntasks r)%Z then r_CpusPerTask r *64 r_Ntasks r
  else if bool_decide (0 < r_NtasksPerNode r)%Z && bool_decide (0 < r_Nodes r)%Z
  then r_CpusPerTask r *64 r_NtasksPerNode r *64 r_Nodes r
  else r_CpusPerTask r.
Definition cpu_count (r : Crd.Resources) : Z :=
  if bool_decide (0 < str_len (r_Array r))%Z then cpu_base r *64 parseArrayLen (r_Array r) else cpu_base r.
Definition mem_bytes (r : Crd.Resources) : Z := cpu_count r *64 r_MemPerCpu r *64 1024%Z.

Close Scope go_scope.

Definition ResourceCPU : string := "cpu".
Definition ResourceMemory : string := "memory".

(** [resource.MustParse] reads the decimal text of an integer. *)
Definition genResourceListForPod (r : Crd.Resources) : ResourceList :=
  <[ResourceMemory := FormatInt (mem_bytes r)]> (<[ResourceCPU := FormatInt (cpu_count r)]> ∅).

Definition affinityForSj (j : SlurmBridgeJob) (r : Crd.Resources) : res Affinity :=
  nodeMatch ← AffinityForResources r;
  let nodeMatch := nodeMatch ++ ((fun kv => mkNodeSelectorRequirement kv.1 "In" [kv.2]) <$> DefaultNodeSelectors) in
  let nodeMatch := nodeMatch ++ [mkNodeSelectorRequirement PartitionLabel "In" [sp_Partition (sbj_Spec j)]] in
  if (length nodeMatch =? 0)%nat then Err ErrAffinityIsNotRequired else Ok nodeMatch.

Definition add_int_label (key : string) (n : Z) (labels : StrMap) : StrMap :=
  if bool_decide (0 < n)%Z then <[key := FormatInt n]> labels else labels.

Definition getResourceRequestLabelsForPod (spec : SlurmBridgeJobSpec) : StrMap :=
  let labels := ∅ in
  let labels := add_int_label LabelsResourceRequestNodes (sp_Nodes spec) labels in
  let labels := add_int_label LabelsResourceRequestCpusPerTask (sp_CpusPerTask spec) labels in
  let labels := add_int_label LabelsResourceRequestMemPerCpu (sp_MemPerCpu spec) labels in
  let labels := add_int_label LabelsResourceRequestNTasksPerNode (sp_NtasksPerNode spec) labels in
  let labels := if bool_decide (0 < str_len (sp_Array spec))%Z
                then <[LabelsResourceRequestArray := sp_Array spec]> labels else labels in
  let labels := add_int_label LabelsResourceRequestNTasks (sp_Ntasks spec) labels in
  labels.

Definition genPodNameByPodRole (j : SlurmBridgeJob) (role : string) : string := sbj_name j +:+ "-" +:+ role.

(** The operator's own sentinel, another value than the one [affinityForSj] returns. *)
Definition errAffinityIsNotRequired : error := ErrSentinel "operator: affinity selectors is not required".

Section pods.
(** [controllerutil.SetControllerReference] with the operator's scheme. *)
Context (SetControllerReference : SlurmBridgeJob -> ObjectMeta -> res ObjectMeta).

Definition newSizeCarPodForSJ (j : SlurmBridgeJob) : res Pod :=
  required ← wrap_err (extractBatchResourcesFromScript (sp_SbatchScript (sbj_Spec j)))
               "could not extract required resources";
  let required := setRequireResourceBySpec (sbj_Spec j) required in
  let required := setDefaultRequireResource required in
  let resourceList := genResourceListForPod required in
  affinity ← match affinityForSj j required with
             | Ok a => Ok (Some a)
             | Err e => if errors_Is e errAffinityIsNotRequired then Ok None
                        else Err (ErrWrap e "could not form slurm-agent job pod affinity")
             | Panic p => Panic p
             end;
  let labels := <[LabelsRole := SlurmBridgeJobPodRoleSizeCar]> (getResourceRequestLabelsForPod (sbj_Spec j)) in
  let meta := new_meta (genPodNameByPodRole j SlurmBridgeJobPodRoleSizeCar) (sbj_namespace j) (Some labels) in
  let spec := {|
    spec_NodeName := "";
    spec_Affinity := affinity;
    spec_SecurityContext :=
      Some (mkPodSecurityContext (sp_RunAsUser (sbj_Spec j)) (sp_RunAsGroup (sbj_Spec j)));
    spec_ServiceAccountName := "";
    spec_Tolerations := DefaultTolerations;
    spec_Containers := [{|
      ct_Name := sbj_name j;
      ct_Image := "useless-image";
      ct_ImagePullPolicy := "";
      ct_Command := [sp_SbatchScript (sbj_Spec j)];
      ct_Args := [];
      ct_WorkingDir := sp_WorkingDir (sbj_Spec j);
      ct_Requests := resourceList;
      ct_Limits := resourceList;
      ct_SecurityContext := Some (mkSecurityContext (sp_RunAsUser (sbj_Spec j)));
      ct_Env := [];
      ct_Ports := [];
      ct_VolumeMounts := [] |}];
    spec_RestartPolicy := "Never";
    spec_Volumes := [] |} in
  meta ← SetControllerReference j meta;
  Ok (mkPod meta spec zero_PodStatus).
End pods.

(** ** Header lines *)

(** A directive of a header: its option and value, and whether they are
    written [option=value] or as two words. *)
Record directive := mkDirective { d_name : string; d_value : string; d_eq : bool }.

Definition directive_words (d : directive) : list string :=
  if d_eq d then [d_name d +:+ "=" +:+ d_value d] else [d_name d; d_value d].
Definition directive_wf (d : directive) : Prop :=
  word (d_name d) /\ lacks "=" (d_name d) /\ plain (d_value d) /\ (d_eq d = true \/ d_value d <> "").
#[export] Instance directive_wf_dec d : Decision (directive_wf d).
Proof. unfold directive_wf. apply _. Defined.

Definition words_of (ds : list directive) : list string := ds ≫= directive_words.
Definition header_line (ds : list directive) : string := sbatchHeader +:+ " " +:+ Join (words_of ds) " ".

(** The directives of a header applied in order. *)
Fixpoint apply_directives (ds : list directive) (r : Crd.Resources) : res Crd.Resources :=
  match ds with
  | [] => Ok r
  | d :: ds' => r' ← applySbatchParam r (d_name d) (d_value d); apply_directives ds' r'
  end.

Lemma eq_cut a b :
  lacks "=" a ->
  IndexByte (a +:+ "=" +:+ b) "=" = str_len a /\
  str_take (Z.to_nat (str_len a)) (a +:+ "=" +:+ b) = a /\
  str_drop (Z.to_nat (str_len a + 1)) (a +:+ "=" +:+ b) = b.
Proof.
  intros H. change ("=" +:+ b) with (String "=" b).
  split; [by apply IndexByte_app|]. unfold str_len. rewrite Nat2Z.id. split; [apply str_take_app|].
  replace (Z.to_nat (Z.of_nat (String.length a) + 1)) with (S (String.length a)) by lia.
  apply str_drop_app_S.
Qed.

Lemma index_app {A} (pre : list A) x suf : index (pre ++ x :: suf) (length pre) = Ok x.
Proof. unfold index. by rewrite list_lookup_middle. Qed.

Lemma length_snoc {A} (l : list A) x : length (l ++ [x]) = S (length l).
Proof. rewrite length_app. simpl. lia. Qed.

(** One directive takes one step of the loop. *)
Lemma apply_params_directive fuel pre d suf r :
  directive_wf d ->
  apply_params (S fuel) (pre ++ directive_words d ++ suf) (length pre) r =
    (r' ← applySbatchParam r (d_name d) (d_value d);
     apply_params fuel ((pre ++ directive_words d) ++ suf) (length (pre ++ directive_words d)) r').
Proof.
  intros (Hw & Hl & Hp & Hv). rewrite <- app_assoc. cbn [apply_params].
  rewrite (proj2 (Nat.ltb_lt _ _)).
  2: { rewrite !length_app. unfold directive_words. destruct (d_eq d); simpl; lia. }
  unfold directive_words. destruct (d_eq d); cbn [app length].
  - rewrite index_app. cbn [mbind res_bind].
    destruct (eq_cut (d_name d) (d_value d) Hl) as (E1 & E2 & E3). rewrite E1.
    rewrite (proj2 (Z.eqb_neq _ _)) by (unfold str_len; lia). cbn [negb].
    rewrite E2, E3. by rewrite length_snoc.
  - rewrite index_app. cbn [mbind res_bind]. rewrite IndexByte_lacks by done.
    cbn [Z.eqb negb]. rewrite (proj2 (Z.ltb_lt _ _)) by (rewrite ?length_app; simpl; lia).
    replace (pre ++ d_name d :: d_value d :: suf) with ((pre ++ [d_name d]) ++ d_value d :: suf)
      by by rewrite <- app_assoc.
    rewrite <- length_snoc with (x := d_name d), index_app. cbn [mbind res_bind]. rewrite <- app_assoc. cbn [app].
    by replace (length (pre ++ [d_name d; d_value d])) with (S (length (pre ++ [d_name d])))
      by (rewrite !length_app; simpl; lia).
Qed.

Lemma apply_params_directives ds fuel pre suf r :
  Forall directive_wf ds ->
  apply_params (length ds + fuel) (pre ++ words_of ds ++ suf) (length pre) r =
    (r' ← apply_directives ds r;
     apply_params fuel ((pre ++ words_of ds) ++ suf) (length (pre ++ words_of ds)) r').
Proof.
  intros Hwf. revert pre r. induction Hwf as [|d ds Hd _ IH]; intros pre r.
  - cbn. by rewrite !app_nil_r.
  - unfold words_of in *. cbn [mbind list_bind length Nat.add apply_directives].
    rewrite <- app_assoc, apply_params_directive by done.
    destruct (applySbatchParam r (d_name d) (d_value d)) as [r1|e|p]; cbn [mbind res_bind]; [|done..].
    rewrite IH. by rewrite <- !app_assoc.
Qed.

Lemma words_of_length ds : (length ds <= length (words_of ds))%nat.
Proof.
  unfold words_of. induction ds as [|d ds IH]; [done|]. cbn [mbind list_bind]. rewrite length_app.
  unfold directive_words at 1. destruct (d_eq d); simpl in *; lia.
Qed.

Lemma apply_params_past fuel params r : apply_params fuel params (length params) r = Ok r.
Proof. destruct fuel; [done|]. cbn [apply_params]. by rewrite Nat.ltb_irrefl. Qed.

Lemma words_of_words ds : Forall directive_wf ds -> Forall word (words_of ds).
Proof.
  unfold words_of. induction 1 as [|d ds (Hw & Hl & Hp & Hv) _ IH]; [constructor|].
  cbn [mbind list_bind]. apply Forall_app_2; [|done]. unfold directive_words.
  destruct (d_eq d).
  - constructor; [|done]. destruct Hw as [Hw Hn]. split; [by rewrite !plain_app|]. by destruct (d_name d).
  - constructor; [done|]. constructor; [|done]. split; [done|]. by destruct Hv.
Qed.

Lemma header_params_words ws : Forall word ws -> header_params (sbatchHeader +:+ " " +:+ Join ws " ") = ws.
Proof.
  intros Hw. unfold header_params. rewrite TrimPrefix_app, Fields_blank_app by done.
  by apply Fields_Join.
Qed.

Lemma apply_header_line ds lines r :
  Forall directive_wf ds ->
  apply_lines (header_line ds :: lines) r = (r' ← apply_directives ds r; apply_lines lines r').
Proof.
  intros Hwf. cbn [apply_lines]. unfold header_line.
  assert (E1 : bool_decide (sbatchHeader +:+ " " +:+ Join (words_of ds) " " = "") = false) by done.
  assert (E2 : HasPrefix (sbatchHeader +:+ " " +:+ Join (words_of ds) " ") "#!" = false) by done.
  rewrite E1, E2. unfold HasPrefix. rewrite prefix_app. cbn [orb negb].
  rewrite header_params_words by by apply words_of_words.
  pose proof (words_of_length ds) as Hlen.
  replace (length (words_of ds)) with (length ds + (length (words_of ds) - length ds))%nat at 1 by lia.
  pose proof (apply_params_directives ds (length (words_of ds) - length ds) [] [] r Hwf) as E.
  cbn [app length] in E. rewrite app_nil_r in E. rewrite E.
  destruct (apply_directives ds r); cbn [mbind res_bind]; [|done..]. by rewrite apply_params_past.
Qed.

(** A word without a value at the end of a header line is read past the end. *)
Lemma apply_header_line_flag ds w lines r r' :
  Forall directive_wf ds -> word w -> lacks "=" w -> apply_directives ds r = Ok r' ->
  apply_lines ((sbatchHeader +:+ " " +:+ Join (words_of ds ++ [w]) " ") :: lines) r = Panic IndexOutOfRange.
Proof.
  intros Hwf Hw Hl Hd. cbn [apply_lines].
  assert (E1 : bool_decide (sbatchHeader +:+ " " +:+ Join (words_of ds ++ [w]) " " = "") = false) by done.
  assert (E2 : HasPrefix (sbatchHeader +:+ " " +:+ Join (words_of ds ++ [w]) " ") "#!" = false) by done.
  rewrite E1, E2. unfold HasPrefix. rewrite prefix_app. cbn [orb negb].
  rewrite header_params_words by (apply Forall_app_2; [by apply words_of_words|by constructor]).
  pose proof (words_of_length ds) as Hlen.
  replace (length (words_of ds ++ [w])) with (length ds + S (length (words_of ds) - length ds))%nat
    by (rewrite length_app; simpl; lia).
  pose proof (apply_params_directives ds (S (length (words_of ds) - length ds)) [] [w] r Hwf) as E.
  cbn [app length] in E. rewrite E, Hd. cbn [mbind res_bind apply_params].
  rewrite (proj2 (Nat.ltb_lt _ _)) by (rewrite length_app; simpl; lia). rewrite index_app.
  cbn [mbind res_bind]. rewrite IndexByte_lacks by done. cbn [Z.eqb negb].
  rewrite (proj2 (Z.ltb_lt _ _)) by (rewrite length_app; simpl; lia).
  unfold index. by rewrite lookup_ge_None_2 by (rewrite length_app; simpl; lia).
Qed.

(** ** Scripts *)

(** A script: an interpreter line, header lines, and a body that starts
    with a line that is no header. *)
Definition script_of (headers : list (list directive)) (body : list string) : string :=
  Join (("#!/bin/sh" :: (header_line <$> headers)) ++ body) LF +:+ LF.

Definition script_line (l : string) : Prop :=
  lacks "010" l /\ lacks "013" l /\ (str_len l < maxTokenSize)%Z.
#[export] Instance script_line_dec l : Decision (script_line l).
Proof. unfold script_line. apply _. Defined.

Definition body_start (body : list string) : Prop :=
  match body with
  | [] => True
  | l :: _ => l <> "" /\ HasPrefix l "#!" = false /\ HasPrefix l sbatchHeader = false
  end.
#[export] Instance body_start_dec body : Decision (body_start body).
Proof. unfold body_start. destruct body; apply _. Defined.

Lemma drop_last_empty_app l : drop_last_empty (l ++ [""]) = l.
Proof. induction l as [|x [|y l] IH]; [done|by cbn|]. cbn [app drop_last_empty] in *. by rewrite IH. Qed.

Lemma take_while_all {A} (p : A -> bool) l : Forall (fun x => p x = true) l -> take_while p l = l.
Proof. induction 1 as [|x l Hx _ IH]; [done|]. simpl. by rewrite Hx, IH. Qed.

Lemma dropCR_lacks l : lacks "013" l -> dropCR l = l.
Proof.
  intros Hl. unfold dropCR, HasSuffix. destruct (_ && _) eqn:E; [|done]. exfalso.
  apply andb_prop in E as [_ E%bool_decide_eq_true].
  assert (Hd : forall n s, lacks "013" s -> lacks "013" (str_drop n s)).
  { clear. induction n as [|n IH]; intros s; [done|]. destruct s as [|c s]; [done|]. cbn [str_drop].
    intros H. apply IH. unfold lacks in *. simpl in H. by apply andb_prop in H as [_ ?]. }
  specialize (Hd (String.length l - String.length (String "013" "")) l Hl). rewrite E in Hd. discriminate Hd.
Qed.

Lemma scan_lines_Join ls : ls <> [] -> Forall script_line ls -> scan_lines (Join ls LF +:+ LF) = ls.
Proof.
  intros Hne Hls. unfold scan_lines, LF.
  assert (E : Split (Join ls (String "010" "") +:+ String "010" "") (String "010" "") = ls ++ [""]).
  { replace (Join ls (String "010" "") +:+ String "010" "") with (Join (ls ++ [""]) (String "010" "")).
    - apply (Split_Join "010" ""); [by destruct ls|]. apply Forall_app_2; [|by repeat constructor].
      eapply Forall_impl; [|done]. by intros l (? & ? & ?).
    - clear Hls. induction ls as [|x ls IH]; [done|]. destruct ls as [|y ls]; [by cbn|].
      change ((x :: y :: ls) ++ [""]) with (x :: ((y :: ls) ++ [""])).
      rewrite (Join_cons x ((y :: ls) ++ [""])), (Join_cons x (y :: ls)), IH by done.
      by rewrite !str_app_assoc. }
  rewrite E, drop_last_empty_app, take_while_all.
  - clear Hne E. induction Hls as [|l ls (H1 & H2 & H3) _ IH]; [done|]. csimpl. by rewrite dropCR_lacks, IH.
  - eapply Forall_impl; [|done]. intros l (? & ? & ?). by apply bool_decide_eq_true.
Qed.

Lemma apply_body body r : body_start body -> apply_lines body r = Ok r.
Proof.
  destruct body as [|l body]; [done|]. intros (Hn & Hs & Hh). cbn [apply_lines].
  by rewrite bool_decide_eq_false_2, Hs, Hh.
Qed.

Lemma apply_directives_app a b r :
  apply_directives (a ++ b) r = (r' ← apply_directives a r; apply_directives b r').
Proof.
  revert r. induction a as [|d a IH]; intros r; [done|]. cbn [app apply_directives].
  destruct (applySbatchParam _ _ _); cbn [mbind res_bind]; [apply IH|done..].
Qed.

Lemma apply_header_lines hs body r :
  Forall (Forall directive_wf) hs -> body_start body ->
  apply_lines ((header_line <$> hs) ++ body) r = apply_directives (concat hs) r.
Proof.
  intros Hwf Hb. revert r. induction Hwf as [|ds hs Hds _ IH]; intros r.
  - by apply apply_body.
  - rewrite fmap_cons. cbn [app]. rewrite apply_header_line by done. cbn [concat].
    rewrite apply_directives_app. destruct (apply_directives ds r); cbn [mbind res_bind]; [apply IH|done..].
Qed.


Definition demo_headers : list (list directive) :=
  [[mkDirective "--nodes" "5-7" true; mkDirective "--mem-per-cpu" "1024" true];
   [mkDirective "-t" "1-2" false; mkDirective "--job-name" "x" true; mkDirective "-c" "4" false]].


(** A header line that ends with an option without value, such as
    [--exclusive], makes the operator panic: the value is read past the end
    of the line. *)
Theorem extractBatchResources_flag_panics hs ds w body r :
  Forall (Forall directive_wf) hs -> Forall directive_wf ds -> word w -> lacks "=" w ->
  Forall script_line ((header_line <$> hs) ++
    (sbatchHeader +:+ " " +:+ Join (words_of ds ++ [w]) " ") :: body) ->
  apply_directives (concat hs ++ ds) zero_Resources = Ok r ->
  extractBatchResourcesFromScript
    (script_of hs ((sbatchHeader +:+ " " +:+ Join (words_of ds ++ [w]) " ") :: body)) = Panic IndexOutOfRange.
Proof.
  intros Hhs Hds Hw Hl Hls Hd. unfold extractBatchResourcesFromScript, script_of.
  rewrite scan_lines_Join; [|done|by constructor; [by_compute|]].
  cbn [app apply_lines]. change (bool_decide _ || _) with true. cbn [negb].
  clear Hls. revert Hd. generalize zero_Resources. induction Hhs as [|ds' hs Hds' _ IH]; intros r0 Hd.
  - cbn [app concat] in *. by eapply apply_header_line_flag.
  - rewrite fmap_cons. cbn [app]. rewrite apply_header_line by done. cbn [concat] in Hd.
    rewrite <- app_assoc, apply_directives_app in Hd.
    destruct (apply_directives ds' r0); cbn [mbind res_bind] in *; [by apply IH|done..].
Qed.

Lemma extractBatchResources_flag_panics_witness :
  extractBatchResourcesFromScript (script_of demo_headers ["#SBATCH --exclusive"]) = Panic IndexOutOfRange.
Proof.
  apply (extractBatchResources_flag_panics demo_headers [] "--exclusive" []
    (Crd.mkResources 5 "" 4 0 0 1024 93600000000000)); [by_compute|by_compute|by_compute|by_compute|by_compute|reflexivity].
Defined.

(** ** The resources a pod asks for *)

Open Scope go_scope.

(** The tasks of a job: those it names, or those of all its nodes. *)
Definition tasks (r : Crd.Resources) : Z :=
  if bool_decide (0 < r_Ntasks r)%Z then r_Ntasks r
  else if bool_decide (0 < r_NtasksPerNode r)%Z && bool_decide (0 < r_Nodes r)%Z
  then (r_NtasksPerNode r * r_Nodes r)%Z
  else 1%Z.

(** An array expression of [sbatch]: indices and ranges, a range with a step
    or not, and a limit on the tasks that run at once. *)
Inductive array_item := Index (i : Z) | Range (a b : Z) (step : option Z).
Record array_spec := mkArray { ar_items : list array_item; ar_limit : option Z }.

Definition suffix (mark : string) (n : option Z) : string := match n with Some n => mark +:+ FormatInt n | None => "" end.
Definition item_text (i : array_item) : string :=
  match i with
  | Index i => FormatInt i
  | Range a b step => FormatInt a +:+ "-" +:+ FormatInt b +:+ suffix ":" step
  end.
Definition array_text (a : array_spec) : string := Join (item_text <$> ar_items a) "," +:+ suffix "%" (ar_limit a).

(** The indices an expression stands for, and how many tasks Slurm runs: one
    for a job that is no array. *)
Definition item_ids (i : array_item) : list Z :=
  match i with
  | Index i => [i]
  | Range a b step => (fun k => a + k * default 1 step)%Z <$> seqZ 0 ((b - a) / default 1 step + 1)%Z
  end.
Definition array_size (a : array_spec) : Z :=
  match ar_items a with [] => 1%Z | l => Z.of_nat (size (list_to_set (C := gset Z) (l ≫= item_ids))) end.

Definition item_wf (i : array_item) : Prop :=
  match i with
  | Index i => (0 <= i <= int64_max)%Z
  | Range a b step => (0 <= a <= b)%Z /\ (b < int64_max)%Z /\ match step with Some n => (0 < n)%Z | None => True end
  end.
Definition array_wf (a : array_spec) : Prop :=
  Forall item_wf (ar_items a) /\ (ar_items a = [] -> ar_limit a = None) /\ match ar_limit a with Some n => (0 < n)%Z | None => True end.

(** What [parseArrayLen] takes for the number of tasks. Without a range it
    is the number of indices. Otherwise the text is cut at its dashes: the
    first part is a number when the first item is a range, the second one
    when the first range ends the text; what is no number counts as 0. *)
Definition is_range (i : array_item) : bool := match i with Range _ _ _ => true | Index _ => false end.
Definition array_start (l : list array_item) : Z := match l with Range a _ _ :: _ => a | _ => 0%Z end.
Fixpoint array_end (l : list array_item) (limit : option Z) : Z :=
  match l with
  | Index _ :: l => array_end l limit
  | [Range _ b None] => match limit with None => b | Some _ => 0%Z end
  | _ => 0%Z
  end.
Definition array_counted (a : array_spec) : Z :=
  match ar_items a with
  | [] => 1%Z
  | l => if existsb is_range l then (array_end l (ar_limit a) - array_start l + 1)%Z else Z.of_nat (length l)
  end.

(** The expressions it counts right: different indices, or one range. *)
Definition array_plain (a : array_spec) : Prop :=
  match ar_items a with
  | [Range _ _ None] => ar_limit a = None
  | l => Forall (fun i => is_range i = false) l /\ NoDup l
  end.

Lemma FormatInt_no_dash n : (0 <= n)%Z -> lacks "-" (FormatInt n).
Proof. intros H. by apply FormatInt_nonneg_lacks. Qed.

Lemma Contains_dash s : Contains s "-" = negb (bool_decide (lacks "-" s)).
Proof.
  unfold Contains. rewrite bool_decide_eq_false_2 by done. cbn [orb].
  assert (H : is_Some (split_once "-" s) <-> ~ lacks "-" s).
  { induction s as [|c s IH]; [split; [by intros [? ?]|intros H; exfalso; by apply H]|].
    unfold lacks in *. cbn [split_once str_forall]. unfold not_byte at 1. cbn [String.prefix].
    destruct (ascii_dec "-" c) as [<-|Hc].
    - rewrite bool_decide_eq_true_2 by done. split; [by intros _|intros _]. destruct s; by eexists.
    - rewrite bool_decide_eq_false_2 by congruence. cbn [negb andb].
      rewrite <- IH. destruct (split_once "-" s) as [[? ?]|]; split; intros [? ?]; done || by eexists. }
  destruct (decide (lacks "-" s)) as [Hl|Hl].
  - rewrite (bool_decide_eq_true_2 (lacks "-" s)) by done. apply bool_decide_eq_false_2. tauto.
  - rewrite (bool_decide_eq_false_2 (lacks "-" s)) by done. apply bool_decide_eq_true_2. tauto.
Qed.

Lemma item_wf_index i : (0 <= i <= int64_max)%Z -> in_int64 i.
Proof. unfold in_int64, int64_min, int64_max. lia. Qed.

Lemma array_text_nonempty a : ar_items a <> [] -> array_text a <> "".
Proof.
  unfold array_text. destruct (ar_items a) as [|i l]; [done|]. intros _.
  assert (Hi : item_text i <> "") by (destruct i as [i|i b st]; cbn; pose proof (FormatInt_nonempty i); by destruct (FormatInt i)).
  rewrite fmap_cons. destruct l as [|j l]; [cbn [fmap list_fmap Join]; by destruct (item_text i)|].
  rewrite Join_cons by done. by destruct (item_text i).
Qed.

Lemma suffix_lacks c mark n :
  match n with Some n => (0 < n)%Z | None => True end -> is_digit c = false -> lacks c mark -> lacks c (suffix mark n).
Proof. destruct n as [n|]; [|done]. intros Hn Hc Hm. apply lacks_app. split; [done|]. apply FormatInt_nonneg_lacks; [lia|done]. Qed.

(** What follows an item: nothing, or a mark that is no digit. *)
Definition ends_item (t : string) : Prop := match t with "" => True | String c _ => digit_val c = None /\ c <> "-"%char end.

Lemma suffix_ends mark n t : digit_val mark = None -> mark <> "-"%char -> ends_item t -> ends_item (suffix (String mark "") n +:+ t).
Proof. by destruct n. Qed.

Lemma items_text i l t :
  Join (item_text <$> i :: l) "," +:+ t =
  item_text i +:+ (match l with [] => "" | _ => "," +:+ Join (item_text <$> l) "," end +:+ t).
Proof.
  rewrite fmap_cons. destruct l as [|j l]; [done|]. rewrite Join_cons by done. by rewrite !str_app_assoc.
Qed.
Lemma rest_ends l (t : string) : ends_item t -> ends_item (match l with [] => "" | _ => "," +:+ Join (item_text <$> l) "," end +:+ t).
Proof. by destruct l. Qed.

(** The part before the first dash of a number that something may follow. *)
Lemma first_part_number n t :
  (0 <= n <= int64_max)%Z -> ends_item t ->
  exists p rest, Split (FormatInt n +:+ t) "-" = p :: rest /\ ParseInt_ p = if bool_decide (t = "") then n else 0%Z.
Proof.
  intros Hn Ht. rewrite Split_app by (apply FormatInt_no_dash; lia). destruct t as [|c t].
  - eexists _, _. split; [done|]. rewrite str_app_nil_r. unfold ParseInt_. by rewrite ParseInt_FormatInt by by apply item_wf_index.
  - destruct Ht as [Hd Hc]. change (String c t) with (String c "" +:+ t). rewrite Split_app by by apply lacks_cons.
    pose proof (Split_nonempty t "-") as Hs. destruct (Split t "-") as [|x xs]; [done|].
    eexists _, _. split; [done|]. rewrite bool_decide_eq_false_2 by done. by apply ParseInt_junk.
Qed.

(** The two parts an expression with a range is cut into first. *)
Lemma parts_of_items l limit :
  Forall item_wf l -> existsb is_range l = true ->
  exists p q rest, Split (Join (item_text <$> l) "," +:+ suffix "%" limit) "-" = p :: q :: rest /\
    ParseInt_ p = array_start l /\ ParseInt_ q = array_end l limit.
Proof.
  intros Hwf. induction Hwf as [|i l Hi Hl IH]; intros Hr; [done|]. rewrite items_text.
  set (t := match l with [] => "" | _ => _ end +:+ _).
  assert (Ht : ends_item t) by (apply rest_ends; by destruct limit).
  destruct i as [i|a b st].
  - destruct (IH Hr) as (p & q & rest & Hs & _ & Hq). exists (FormatInt i +:+ "," +:+ p), q, rest. cbn [item_text].
    assert (Hl0 : l <> []) by by intros ->. subst t. destruct l as [|j l]; [done|]. rewrite str_app_assoc.
    rewrite Split_app by (apply FormatInt_no_dash; cbn in Hi; lia). rewrite Split_app by done. rewrite Hs. cbn [app_head].
    split_and!; [done|by apply ParseInt_junk|by destruct j].
  - destruct Hi as (Hab & Hb & Hst). unfold int64_max in Hb. cbn [item_text]. rewrite !str_app_assoc.
    destruct (first_part_number b (suffix ":" st +:+ t)) as (q & rest & Hs & Hq); [unfold int64_max; lia|by apply suffix_ends|].
    exists (FormatInt a), q, rest. change ("-" +:+ ?x) with (String "-" x). rewrite Split_cons1 by (apply FormatInt_no_dash; lia).
    rewrite Hs. split_and!; [done| |].
    + unfold ParseInt_. by rewrite ParseInt_FormatInt by (apply item_wf_index; unfold int64_max; lia).
    + rewrite Hq. cbn [array_end]. destruct st as [st|]; [by destruct l|]. cbn [suffix]. rewrite str_app_empty. subst t.
      destruct l as [|j l]; [|by rewrite bool_decide_eq_false_2]. rewrite str_app_empty. by destruct limit.
Qed.

Lemma array_ends_bound l limit :
  Forall item_wf l -> (0 <= array_start l <= int64_max)%Z /\ (0 <= array_end l limit < int64_max)%Z.
Proof.
  unfold int64_max. intros Hwf. split.
  - destruct Hwf as [|[i|x y st] l Hi _]; cbn in *; unfold int64_max in *; lia.
  - induction Hwf as [|[i|x y [st|]] l Hi _ IH]; cbn [array_end]; [lia|exact IH|lia|].
    cbn in Hi. unfold int64_max in Hi. destruct l; [destruct limit|]; lia.
Qed.

Lemma parseArrayLen_spec a : array_wf a -> ar_items a <> [] -> parseArrayLen (array_text a) = array_counted a.
Proof.
  intros (Hwf & _ & Hlim) Hne. unfold parseArrayLen, array_counted. rewrite Contains_dash.
  destruct (existsb is_range (ar_items a)) eqn:Hr.
  - destruct (parts_of_items (ar_items a) (ar_limit a) Hwf Hr) as (p & q & rest & Hs & Hp & Hq). unfold array_text.
    rewrite bool_decide_eq_false_2 by (intros Hlacks; by rewrite Split_lacks in Hs). cbn [negb]. rewrite Hs, Hp, Hq.
    pose proof (array_ends_bound (ar_items a) (ar_limit a) Hwf) as Hbnd.
    unfold int64_max in Hbnd. destruct (ar_items a) as [|i l]; [done|]. rewrite Hr, wrap64_add_l, wrap64_id; [done|].
    unfold in_int64, int64_min, int64_max. lia.
  - assert (Hd : Forall (fun i => is_range i = false) (ar_items a)).
    { clear -Hr. induction (ar_items a) as [|i l IH]; [done|]. cbn in Hr. apply orb_false_iff in Hr as [Hi Hl]. constructor; auto. }
    assert (Hmk : forall c, is_digit c = false -> Forall (lacks c) (item_text <$> ar_items a)).
    { intros c Hc. apply Forall_fmap. clear -Hd Hwf Hc. induction Hwf as [|[i|x y st] l Hi _ IH]; inversion Hd; subst; constructor; auto; [|done].
      apply FormatInt_nonneg_lacks; [cbn in Hi; lia|done]. }
    unfold array_text. rewrite bool_decide_eq_true_2.
    2:{ apply lacks_app. split; [by apply lacks_Join, Hmk|by apply suffix_lacks]. }
    cbn [negb]. assert (Hs : lacks "," (suffix "%" (ar_limit a))) by by apply suffix_lacks.
    destruct (ar_items a) as [|i l]; [done|]. rewrite Hr. f_equal. specialize (Hmk ","%char eq_refl). clear -Hmk Hs.
    revert i Hmk. induction l as [|j l IH]; intros i Hmk; rewrite items_text; inversion Hmk as [|? ? Hi Hl]; subst.
    + rewrite str_app_empty. by rewrite Split_lacks by by apply lacks_app.
    + rewrite str_app_assoc. change ("," +:+ ?x) with (String "," x). rewrite Split_cons1 by done. cbn [length]. f_equal. by apply IH.
Qed.

(** The count is right for the expressions without a range that repeats no
    index, and for a single range. *)
Lemma array_counted_plain a : array_wf a -> array_plain a -> array_counted a = array_size a.
Proof.
  intros (Hwf & _ & _) Hp. unfold array_counted, array_size, array_plain in *.
  assert (Hidx : forall l, l <> [] -> Forall (fun i => is_range i = false) l /\ NoDup l ->
    Z.of_nat (length l) = Z.of_nat (size (list_to_set (C := gset Z) (l ≫= item_ids))) /\ existsb is_range l = false).
  { intros l _ [Hf Hn]. split.
    - f_equal. assert (Hm : exists k, l = Index <$> k /\ l ≫= item_ids = k).
      { clear -Hf. induction Hf as [|[i|]l Hi _ (k & -> & Hk)]; [by exists []| |done]. exists (i :: k). split; [done|]. cbn. by rewrite Hk. }
      destruct Hm as (k & -> & ->). rewrite length_fmap, size_list_to_set; [done|]. by eapply NoDup_fmap_1.
    - clear -Hf. induction Hf as [|[i|]l Hi _ IH]; [done| |done]. exact IH. }
  destruct (ar_items a) as [|i l] eqn:E; [done|]. destruct i as [i|x y st].
  - destruct (Hidx (Index i :: l)) as [H1 H2]; [done|done|]. by rewrite H2.
  - destruct st as [st|]; [by destruct (Hidx (Range x y (Some st) :: l)) as [_ ?]|].
    destruct l as [|j l]; [|by destruct (Hidx (Range x y None :: j :: l)) as [_ ?]].
    rewrite Hp. apply list.Forall_cons in Hwf as [(Hab & _) _]. cbn [existsb is_range orb array_end array_start].
    change ([Range x y None] ≫= item_ids) with (((fun k => x + k * 1)%Z <$> seqZ 0 ((y - x) / 1 + 1)%Z) ++ []).
    rewrite app_nil_r, Z.div_1_r, size_list_to_set.
    + rewrite length_fmap, length_seqZ. lia.
    + apply NoDup_fmap; [|apply NoDup_seqZ]. intros k1 k2. lia.
Qed.

Lemma cpu_base_wrap r : in_int64 (r_CpusPerTask r) -> cpu_base r = wrap64 (r_CpusPerTask r * tasks r).
Proof.
  intros H. unfold cpu_base, tasks. case_bool_decide; [done|]. destruct (_ && _).
  - by rewrite wrap64_mul_l, Z.mul_assoc.
  - by rewrite Z.mul_1_r, wrap64_id.
Qed.

(** C19. The resource list of a job's pod, for every array expression: its
    CPUs are CPUs per task times tasks times what [parseArrayLen] counts, its
    memory is that times the memory per CPU in KiB, whenever both fit 64
    bits. For a job without an array, for different indices and for a single
    range the count is the number of tasks Slurm runs; for the others
    [array_counted] says what it is. *)
Theorem genResourceListForPod_exact r a :
  array_wf a -> r_Array r = array_text a -> in_int64 (r_CpusPerTask r) ->
  let cpus := (r_CpusPerTask r * tasks r * array_counted a)%Z in
  in_int64 cpus -> in_int64 (cpus * r_MemPerCpu r * 1024) ->
  genResourceListForPod r !! ResourceCPU = Some (FormatInt cpus) /\
  genResourceListForPod r !! ResourceMemory = Some (FormatInt (cpus * r_MemPerCpu r * 1024)%Z) /\
  (array_plain a -> array_counted a = array_size a).
Proof.
  intros Ha Hr Hc cpus H1 H2.
  assert (E : cpu_count r = cpus).
  { unfold cpu_count. rewrite Hr. destruct (ar_items a) as [|i l] eqn:Hi.
    - unfold cpus, array_counted in *. rewrite Hi in *. unfold array_text. rewrite Hi, (proj1 (proj2 Ha) Hi).
      rewrite bool_decide_eq_false_2 by (vm_compute; congruence). rewrite cpu_base_wrap by done.
      rewrite Z.mul_1_r in *. by apply wrap64_id.
    - assert (Hn : ar_items a <> []) by by rewrite Hi. rewrite bool_decide_eq_true_2.
      2: { pose proof (array_text_nonempty a Hn) as Hne. revert Hne. unfold str_len.
           destruct (array_text a); simpl; [done|lia]. }
      rewrite parseArrayLen_spec, cpu_base_wrap, wrap64_mul_l by done. by apply wrap64_id. }
  unfold genResourceListForPod. split_and!; [| |by apply array_counted_plain].
  - rewrite lookup_insert_ne, lookup_insert_eq by done. by rewrite E.
  - rewrite lookup_insert_eq. unfold mem_bytes. rewrite wrap64_mul_l, E. by rewrite wrap64_id.
Qed.

Lemma genResourceListForPod_exact_witness :
  genResourceListForPod (Crd.mkResources 2 "0-3" 4 0 3 512 0) !! ResourceCPU = Some "96".
Proof.
  refine (proj1 (genResourceListForPod_exact (Crd.mkResources 2 "0-3" 4 0 3 512 0) (mkArray [Range 0 3 None] None) _ _ _ _ _)).
  - split_and!; [repeat constructor; vm_compute; congruence|done|done].
  - reflexivity.
  - vm_compute. split; congruence.
  - vm_compute. split; congruence.
  - vm_compute. split; congruence.
Defined.

(** Expressions Slurm accepts whose tasks are miscounted: 1-3,5-7 has six,
    0-15%4 sixteen, 0-15:4 four and 3,5-7 four. *)
Example array_miscounted :
  ((fun a => (array_text a, array_size a, array_counted a)) <$>
    [mkArray [Range 1 3 None; Range 5 7 None] None; mkArray [Range 0 15 None] (Some 4%Z);
     mkArray [Range 0 15 (Some 4%Z)] None; mkArray [Index 3; Range 5 7 None] None]) =
  [("1-3,5-7", 6, 0); ("0-15%4", 16, 1); ("0-15:4", 4, 1); ("3,5-7", 4, 8)]%Z.
Proof. vm_compute. reflexivity. Qed.

Close Scope go_scope.
