(* ===== verification/VKStatus.v ===== *)
(** * Pod status from Slurm jobs (pkg/slurm-virtual-kubelet/status.go)

    The virtual kubelet reports a pod from the Slurm jobs behind it: the
    phase from the states of all jobs, the start time from the earliest
    one, a container status for the sizing pod's container or for every
    container of a worker pod. *)

From S2P Require Import Prelude GoStrings GoNum GoTime Workload Kube Crd.

Definition is_failed (s : JobStatus) : bool :=
  match s with JobStatus_FAILED | JobStatus_CANCELLED | JobStatus_TIMEOUT => true | _ => false end.
Definition is_open (s : JobStatus) : bool :=
  match s with JobStatus_UNKNOWN | JobStatus_PENDING | JobStatus_RUNNING => true | _ => false end.

Fixpoint isAllSlurmJobEnded (infos : list JobInfo) : bool :=
  match infos with
  | [] => true
  | info :: infos' => if is_open (ji_Status info) then false else isAllSlurmJobEnded infos'
  end.

(** The two loops of [slurmState2PodPhase]: the first goes through all jobs,
    the second stops at a running one. *)
Definition ended_phase (infos : list JobInfo) : string :=
  foldl (fun phase info => if is_failed (ji_Status info) then PodFailed else phase) PodSucceeded infos.
Fixpoint open_phase (infos : list JobInfo) (phase : string) : string :=
  match infos with
  | [] => phase
  | info :: infos' =>
      match ji_Status info with
      | JobStatus_RUNNING => PodRunning
      | JobStatus_PENDING => open_phase infos' PodPending
      | _ => open_phase infos' phase
      end
  end.
Definition slurmState2PodPhase (r : JobInfoResponse) : string :=
  if isAllSlurmJobEnded (jresp_Info r) then ended_phase (jresp_Info r)
  else open_phase (jresp_Info r) PodUnknown.

Definition unknowPodStatus : PodStatus :=
  mkPodStatus PodUnknown [] "can not find pod relative slurm job id, mybe not handled" None [].

Definition slurmStateToPodConditions (podPhase : string) : list PodCondition :=
  if bool_decide (podPhase = PodRunning)
  then [mkPodCondition "Ready" "True"; mkPodCondition "Initialized" "True"; mkPodCondition "PodScheduled" "True"]
  else [].

Definition isSlurmJobFinished (s : JobStatus) : bool :=
  negb (bool_decide (s = JobStatus_RUNNING) || bool_decide (s = JobStatus_PENDING)).

Section status.
Context {PT : ProtoTime} {JR : Json JobInfoResponse} {JI : Json JobInfo}.

(** A start time that counts. *)
Definition started (info : JobInfo) : bool :=
  TimestampIsValid (ji_StartTime info) && negb (IsZero (AsTime (ji_StartTime info))).

Fixpoint min_start (infos : list JobInfo) (minStartTime : option Timestamp) : option Timestamp :=
  match infos with
  | [] => minStartTime
  | info :: infos' =>
      let next :=
        match minStartTime with
        | None => if started info then ji_StartTime info else None
        | Some _ =>
            if started info && Before (AsTime (ji_StartTime info)) (AsTime minStartTime)
            then ji_StartTime info else minStartTime
        end in
      min_start infos' next
  end.
Definition getMinStartTimte (r : JobInfoResponse) : option Timestamp := min_start (jresp_Info r) None.

(** The text of a message; an error is logged and leaves it empty. *)
Definition detail {A} `{Json A} (a : A) : string := match Marshal a with Ok t => t | _ => "" end.

Definition slurmState2ContainerState (info : option JobInfo) : res ContainerState :=
  info ← of_option NilDeref info;
  let message := "slurm job detail: 【" +:+ detail info +:+ "】" in
  let startTime := AsTime (ji_StartTime info) in
  match ji_Status info with
  | JobStatus_RUNNING | JobStatus_COMPLETED => Ok (StateRunning startTime)
  | JobStatus_FAILED | JobStatus_CANCELLED =>
      let finishTime := AsTime (GetEndTime (Some info)) in
      code ← index (Split (GetExitCode (Some info)) ":") 0;
      let exitCode := (ParseInt_bits 32 code).1 in
      Ok (StateTerminated (wrap32 exitCode) (GetReason (Some info)) message startTime finishTime)
  | _ => Ok (StateWaiting (GetReason (Some info)) message)
  end.

Fixpoint getRelateSLurmJobInfo (container : Container) (infos : list JobInfo) : option JobInfo :=
  match infos with
  | [] => None
  | info :: infos' =>
      if bool_decide (ji_Id info = ct_Name container) then Some info
      else getRelateSLurmJobInfo container infos'
  end.

Definition worker_container_status (infos : list JobInfo) (container : Container) : res ContainerStatus :=
  let jobInfo := getRelateSLurmJobInfo container infos in
  containerState ← slurmState2ContainerState jobInfo;
  state ← slurmState2ContainerState jobInfo;
  job ← of_option NilDeref jobInfo;
  Ok (mkContainerStatus (ct_Name container) state (is_running containerState) (ct_Name container) (ji_Id job)).

Definition slurmState2ContainerStatuses (pod : Pod) (phase : string) (r : JobInfoResponse) :
    res (list ContainerStatus) :=
  let podRole := default "" (map_get (pod_labels pod) LabelsRole) in
  if bool_decide (podRole = SlurmBridgeJobPodRoleSizeCar) then
    container ← index (spec_Containers (pod_spec pod)) 0;
    jobInfo ← index (jresp_Info r) 0;
    state ← slurmState2ContainerState (Some jobInfo);
    Ok [mkContainerStatus (ct_Name container) state (bool_decide (phase = PodRunning)) (ct_Image container) ""]
  else if bool_decide (podRole = SlurmBridgeJobPodRoleSizeWorker) then
    mapR (worker_container_status (jresp_Info r)) (spec_Containers (pod_spec pod))
  else Ok [].

Definition convertJobInfo2PodStatus (pod : Pod) (r : JobInfoResponse) : res PodStatus :=
  if (length (jresp_Info r) =? 0)%nat then Ok unknowPodStatus
  else
    let infoDetail := detail r in
    let startTime :=
      match getMinStartTimte r with Some t => AsTime (Some t) | None => zero_time end in
    let podPhase := slurmState2PodPhase r in
    statuses ← slurmState2ContainerStatuses pod podPhase r;
    Ok (mkPodStatus podPhase (slurmStateToPodConditions podPhase) infoDetail (Some startTime) statuses).
End status.

(** ** Phases *)

(** Some job is in a state that satisfies [p]. *)
Definition any (p : JobStatus -> bool) (infos : list JobInfo) : bool := existsb (fun i => p (ji_Status i)) infos.
Definition some_job (p : JobStatus -> bool) (r : JobInfoResponse) : Prop :=
  exists i, i ∈ jresp_Info r /\ p (ji_Status i) = true.

Definition is_running_status (s : JobStatus) : bool := match s with JobStatus_RUNNING => true | _ => false end.
Definition is_pending_status (s : JobStatus) : bool := match s with JobStatus_PENDING => true | _ => false end.

Lemma any_cons p i infos : any p (i :: infos) = p (ji_Status i) || any p infos.
Proof. done. Qed.

Lemma any_spec p r : any p (jresp_Info r) = true <-> some_job p r.
Proof.
  unfold any, some_job. rewrite existsb_exists. by setoid_rewrite list_elem_of_In.
Qed.

Lemma isAllSlurmJobEnded_any infos : isAllSlurmJobEnded infos = negb (any is_open infos).
Proof. induction infos as [|i infos IH]; simpl; [done|]. rewrite IH. by destruct (is_open (ji_Status i)). Qed.

Lemma ended_phase_any infos : ended_phase infos = if any is_failed infos then PodFailed else PodSucceeded.
Proof.
  unfold ended_phase. generalize PodSucceeded. induction infos as [|i infos IH]; intros phase; cbn [foldl]; [done|].
  rewrite IH, any_cons. by destruct (is_failed (ji_Status i)), (any is_failed infos).
Qed.

Lemma open_phase_any infos phase :
  open_phase infos phase =
    if any is_running_status infos then PodRunning
    else if any is_pending_status infos then PodPending else phase.
Proof.
  revert phase. induction infos as [|i infos IH]; intros phase; cbn [open_phase]; [done|].
  rewrite !any_cons. destruct (ji_Status i); cbn [is_running_status is_pending_status orb]; rewrite ?IH; try done.
  by destruct (any is_running_status infos), (any is_pending_status infos).
Qed.

Lemma any_mono p q infos :
  (forall s, p s = true -> q s = true) -> any p infos = true -> any q infos = true.
Proof.
  intros H. unfold any. induction infos as [|i infos IH]; simpl; [done|].
  rewrite !orb_true_iff. intros [Hi|Hi]; auto.
Qed.

(** C16. The phase of a pod: when no job is pending, running or unknown it is
    Failed exactly when one of them failed, was cancelled or timed out, and
    Succeeded otherwise; else it is Running when some job runs, Pending when
    none runs and some is pending, and Unknown when neither. *)
Theorem slurmState2PodPhase_spec r :
  let open := some_job is_open r in
  let failed := some_job is_failed r in
  let running := some_job is_running_status r in
  let pending := some_job is_pending_status r in
  (slurmState2PodPhase r = PodFailed <-> ~ open /\ failed) /\
  (slurmState2PodPhase r = PodSucceeded <-> ~ open /\ ~ failed) /\
  (slurmState2PodPhase r = PodRunning <-> running) /\
  (slurmState2PodPhase r = PodPending <-> pending /\ ~ running) /\
  (slurmState2PodPhase r = PodUnknown <-> open /\ ~ running /\ ~ pending).
Proof.
  intros open failed running pending. unfold open, failed, running, pending.
  rewrite <- !any_spec. unfold slurmState2PodPhase.
  rewrite isAllSlurmJobEnded_any, ended_phase_any, open_phase_any.
  pose proof (any_mono is_running_status is_open (jresp_Info r)) as Hr.
  pose proof (any_mono is_pending_status is_open (jresp_Info r)) as Hp.
  unfold PodFailed, PodSucceeded, PodRunning, PodPending, PodUnknown.
  destruct (any is_open _); simpl.
  - destruct (any is_running_status _), (any is_pending_status _); split_and!; split; intros; destruct_and?; done.
  - destruct (any is_running_status _); [by discriminate Hr; [intros []|]|].
    destruct (any is_pending_status _); [by discriminate Hp; [intros []|]|].
    destruct (any is_failed _); split_and!; split; intros; destruct_and?; done.
Qed.

(** ** The start time *)

Section start_facts.
Context {PT : ProtoTime}.

Lemma started_some i : started i = true -> (TimestampIsValid None = false) -> is_Some (ji_StartTime i).
Proof.
  unfold started. intros H Hn. destruct (ji_StartTime i); [done|]. by rewrite Hn in H.
Qed.

(** The earliest of the times seen so far. *)
Definition earliest (seen : list JobInfo) (m : option Timestamp) : Prop :=
  match m with
  | None => Forall (fun i => started i = false) seen
  | Some _ =>
      (exists i, i ∈ seen /\ started i = true /\ ji_StartTime i = m) /\
      Forall (fun i => started i = true -> Before (AsTime (ji_StartTime i)) (AsTime m) = false) seen
  end.

Lemma min_start_earliest (Hnil : TimestampIsValid None = false) infos seen m :
  earliest seen m -> earliest (seen ++ infos) (min_start infos m).
Proof.
  revert seen m. induction infos as [|i infos IH]; intros seen m Hm; cbn [min_start]; [by rewrite app_nil_r|].
  replace (seen ++ i :: infos) with ((seen ++ [i]) ++ infos) by by rewrite <- app_assoc.
  apply IH. destruct m as [ts|]; cbn [earliest] in Hm.
  - destruct Hm as [(j & Hj & Hsj & Ej) Hall].
    destruct (started i) eqn:Hi; cbn [andb].
    + destruct (Before (AsTime (ji_StartTime i)) (AsTime (Some ts))) eqn:Hb.
      * destruct (started_some i Hi Hnil) as [ti Hti]. rewrite Hti. cbn [earliest]. split.
        { exists i. split_and!; [|done|done]. apply elem_of_app. right. by left. }
        rewrite Hti in Hb. apply Forall_app. split.
        { eapply Forall_impl; [|done]. intros k Hk Hsk. cbv beta in Hk. specialize (Hk Hsk).
          destruct (Before (AsTime (ji_StartTime k)) (AsTime (Some ti))) eqn:Hkt; [|done].
          exfalso. rewrite (Before_trans _ _ _ Hkt Hb) in Hk. discriminate Hk. }
        constructor; [|constructor]. intros _. rewrite Hti. apply Before_irrefl.
      * split; [exists j; split_and!; [|done|done]; apply elem_of_app; by left|].
        apply Forall_app. split; [done|]. by constructor; [intros _|constructor].
    + split; [exists j; split_and!; [|done|done]; apply elem_of_app; by left|].
      apply Forall_app. split; [done|]. by constructor; [rewrite Hi|constructor].
  - destruct (started i) eqn:Hi.
    + destruct (started_some i Hi Hnil) as [ti Hti]. rewrite Hti. cbn [earliest]. split.
      { exists i. split_and!; [|done|done]. apply elem_of_app. right. by left. }
      apply Forall_app. split.
      { eapply Forall_impl; [|done]. intros k Hk Hsk. cbv beta in Hk. congruence. }
      constructor; [|constructor]. intros _. rewrite Hti. apply Before_irrefl.
    + cbn [earliest]. apply Forall_app. split; [done|]. by constructor.
Qed.

(** The start time of a pod is the earliest valid, non-zero start time
    of its jobs, and there is none exactly when no job has one. *)
Theorem getMinStartTimte_minimum {PL : ProtoTimeLaws} r :
  match getMinStartTimte r with
  | None => Forall (fun i => started i = false) (jresp_Info r)
  | Some ts =>
      (exists i, i ∈ jresp_Info r /\ started i = true /\ ji_StartTime i = Some ts) /\
      Forall (fun i => started i = true -> Before (AsTime (ji_StartTime i)) (AsTime (Some ts)) = false) (jresp_Info r)
  end.
Proof.
  pose proof (min_start_earliest TimestampIsValid_nil (jresp_Info r) [] None) as H.
  cbn [earliest app] in H. specialize (H (List.Forall_nil _)). unfold getMinStartTimte, earliest in *.
  by destruct (min_start (jresp_Info r) None).
Qed.
End start_facts.

(** ** Container statuses *)

Section container_facts.
Context {PT : ProtoTime} {JR : Json JobInfoResponse} {JI : Json JobInfo}.

Lemma slurmState2ContainerState_ok info : exists st, slurmState2ContainerState (Some info) = Ok st /\
  is_running st = (is_running_status (ji_Status info) || bool_decide (ji_Status info = JobStatus_COMPLETED)).
Proof.
  unfold slurmState2ContainerState. cbn [of_option mbind res_bind].
  destruct (ji_Status info); try (by eexists).
  all: pose proof (Split_nonempty (GetExitCode (Some info)) ":") as Hn;
    destruct (Split (GetExitCode (Some info)) ":"); [done|]; cbn; by eexists.
Qed.

Lemma getRelate_spec c infos :
  match getRelateSLurmJobInfo c infos with
  | Some i => i ∈ infos /\ ji_Id i = ct_Name c
  | None => ct_Name c ∉ ji_Id <$> infos
  end.
Proof.
  induction infos as [|i infos IH]; cbn [getRelateSLurmJobInfo]; [by apply not_elem_of_nil|].
  case_bool_decide as Hi; [by split; [left|]|].
  destruct (getRelateSLurmJobInfo c infos) as [j|].
  - destruct IH. by split; [right|].
  - csimpl. apply not_elem_of_cons. by split; [congruence|].
Qed.

(** A worker pod gets one status per container, in order, when every
    container is named after one of the jobs: the status carries the job's
    id, and is ready exactly when that job runs or has completed. A
    container named after no job makes the virtual kubelet panic. *)
Theorem worker_container_statuses pod phase r :
  map_get (pod_labels pod) LabelsRole = Some SlurmBridgeJobPodRoleSizeWorker ->
  let names := ct_Name <$> spec_Containers (pod_spec pod) in
  (Forall (fun n => n ∈ ji_Id <$> jresp_Info r) names ->
   exists sts, slurmState2ContainerStatuses pod phase r = Ok sts /\
     (cs_Name <$> sts) = names /\ (cs_ContainerID <$> sts) = names /\
     Forall (fun st => exists i, i ∈ jresp_Info r /\ ji_Id i = cs_Name st /\
       cs_Ready st = (is_running_status (ji_Status i) || bool_decide (ji_Status i = JobStatus_COMPLETED))) sts) /\
  (Exists (fun n => n ∉ ji_Id <$> jresp_Info r) names ->
   slurmState2ContainerStatuses pod phase r = Panic NilDeref).
Proof.
  intros Hr names. unfold slurmState2ContainerStatuses. rewrite Hr. cbn [default].
  rewrite bool_decide_eq_false_2, bool_decide_eq_true_2 by done.
  unfold names. generalize (spec_Containers (pod_spec pod)). intros cs.
  assert (Hone : forall c, match getRelateSLurmJobInfo c (jresp_Info r) with
    | Some i => exists st, worker_container_status (jresp_Info r) c = Ok st /\ cs_Name st = ct_Name c /\
        cs_ContainerID st = ct_Name c /\ i ∈ jresp_Info r /\ ji_Id i = cs_Name st /\
        cs_Ready st = (is_running_status (ji_Status i) || bool_decide (ji_Status i = JobStatus_COMPLETED))
    | None => worker_container_status (jresp_Info r) c = Panic NilDeref end).
  { intros c. pose proof (getRelate_spec c (jresp_Info r)) as Hg. unfold worker_container_status.
    destruct (getRelateSLurmJobInfo c (jresp_Info r)) as [i|]; [|done].
    destruct (slurmState2ContainerState_ok i) as (st & Hst & Hrun). rewrite Hst. cbn [mbind res_bind of_option].
    destruct Hg as [Hin Hid]. eexists. split_and!; [done|done|by rewrite <- Hid|done|by rewrite Hid|done]. }
  split.
  - intros Hall. induction cs as [|c cs IH]; csimpl in *; [by exists []|].
    apply list.Forall_cons in Hall as [Hc Hall]. destruct (IH Hall) as (sts & Hsts & Hn & Hi & Hf).
    specialize (Hone c). pose proof (getRelate_spec c (jresp_Info r)) as Hg.
    destruct (getRelateSLurmJobInfo c (jresp_Info r)) as [i|]; [|done].
    destruct Hone as (st & Hst & H1 & H2 & H3 & H4 & H5). exists (st :: sts).
    rewrite Hst. cbn [mbind res_bind]. rewrite Hsts. cbn [mbind res_bind]. csimpl.
    split_and!; [done|by rewrite H1, Hn|by rewrite H2, Hi|]. constructor; [|done]. eauto.
  - intros Hex. induction cs as [|c cs IH]; csimpl in *; [inversion Hex|].
    specialize (Hone c). pose proof (getRelate_spec c (jresp_Info r)) as Hg.
    destruct (getRelateSLurmJobInfo c (jresp_Info r)) as [i|]; [|by rewrite Hone].
    destruct Hone as (st & Hst & _). rewrite Hst. cbn [mbind res_bind].
    inversion Hex as [? ? Hc|? ? Hc]; subst.
    + destruct Hg as [Hin Hid]. exfalso. apply Hc. rewrite <- Hid. by apply list_elem_of_fmap_2.
    + by rewrite IH.
Qed.
End container_facts.

(** ** Examples *)

Module StatusExamples.

Definition demo_job (id : string) (s : JobStatus) : JobInfo :=
  mkJobInfo id "" "" "0:0" s None None None None "" "" "" "" "" "" "" "" "" None.
Definition demo_container (name : string) : Container :=
  mkContainer name "useless-image" "" [] [] "" ∅ ∅ None [] [] [].
Definition worker_pod : Pod :=
  mkPod (new_meta "job-worker" "default" (Some {[LabelsRole := SlurmBridgeJobPodRoleSizeWorker]}))
    (mkPodSpec "" None None "" [] [demo_container "7"; demo_container "8"] "Never" []) zero_PodStatus.

#[local] Instance no_json {A} : Json A := {| Marshal _ := Ok "{}"; Unmarshal _ := Err (ErrExternal "json") |}.

Definition started_at (id : string) (t : Z) : JobInfo :=
  mkJobInfo id "" "" "0:0" JobStatus_RUNNING None (Some (mkTimestamp t 0)) None None "" "" "" "" "" "" "" "" "" None.

Example min_start_ex : getMinStartTimte (PT := proto_time_impl)
  (mkJobInfoResponse [started_at "7" 90; started_at "8" 50; demo_job "9" JobStatus_PENDING]) = Some (mkTimestamp 50 0).
Proof. reflexivity. Qed.

Lemma getMinStartTimte_minimum_witness :
  let r := mkJobInfoResponse [started_at "7" 90; started_at "8" 50] in
  let P := proto_time_impl in
  match getMinStartTimte r with
  | None => Forall (fun i => started i = false) (jresp_Info r)
  | Some ts =>
      (exists i, i ∈ jresp_Info r /\ started i = true /\ ji_StartTime i = Some ts) /\
      Forall (fun i => started i = true -> Before (AsTime (ji_StartTime i)) (AsTime (Some ts)) = false) (jresp_Info r)
  end.
Proof.
  exact (getMinStartTimte_minimum (PT := proto_time_impl) (PL := proto_time_impl_laws)
    (mkJobInfoResponse [started_at "7" 90; started_at "8" 50])).
Defined.

Lemma worker_container_statuses_witness :
  slurmState2ContainerStatuses (PT := proto_time_impl) worker_pod PodRunning
    (mkJobInfoResponse [demo_job "7" JobStatus_RUNNING]) = Panic NilDeref.
Proof.
  apply (worker_container_statuses (PT := proto_time_impl) worker_pod PodRunning
    (mkJobInfoResponse [demo_job "7" JobStatus_RUNNING])); [reflexivity|].
  apply Exists_cons_tl, Exists_cons_hd. by_compute.
Defined.
End StatusExamples.
