(* ===== verification/Cluster.v ===== *)
(** * The API server and the agent, as the controllers see them

    [KubeAPI] is the part of the Kubernetes API the program calls, over an
    environment [W]; [KubeStore] says what the calls mean for the objects
    stored: a read finds what is stored, a create adds an object under a
    fresh name, a failed call changes nothing, and no call touches other
    objects. [store_api] is a concrete server with these laws. *)

From S2P Require Import Prelude GoStrings GoNum GoTime Kube Crd.

(** [types.NamespacedName]. *)
Definition Key : Type := string * string.
Definition pod_key (p : Pod) : Key := (pod_namespace p, pod_name p).
Definition job_key (j : Job) : Key := (m_Namespace (jb_meta j), m_Name (jb_meta j)).
Definition sbj_key (j : SlurmBridgeJob) : Key := (sbj_namespace j, sbj_name j).

Record Event := mkEvent { ev_Type : string; ev_Reason : string; ev_Message : string }.

Class KubeAPI (W : Type) := {
  api_GetPod : Key -> M W Pod;
  api_CreatePod : Pod -> M W Pod;
  api_DeletePod : Key -> M W unit;
  api_ListPods : M W (list Pod);
  api_UpdatePodStatus : Pod -> M W Pod;
  api_ListNodes : string -> M W (list KNode);
  api_GetJob : Key -> M W Job;
  api_CreateJob : Job -> M W Job;
  api_GetSBJ : Key -> M W SlurmBridgeJob;
  api_UpdateSBJStatus : SlurmBridgeJob -> M W unit;
  api_Event : Event -> M W unit;
}.

(** The nodes a label selector of the form [key=value] selects. *)
Definition selects (selector : string) (n : KNode) : bool :=
  match SplitN2 selector "=" with
  | [key; value] => bool_decide (map_get (kn_Labels n) key = Some value)
  | _ => false
  end.

(** What the server stores. *)
Record Store := mkStore {
  s_pods : gmap Key Pod;
  s_jobs : gmap Key Job;
  s_sbjs : gmap Key SlurmBridgeJob;
  s_nodes : list KNode;
}.

(** The server completes a pod it stores: its uid and its phase. *)
Definition admitted (p p' : Pod) : Prop :=
  pod_name p' = pod_name p /\ pod_namespace p' = pod_namespace p /\ pod_labels p' = pod_labels p /\
  pod_spec p' = pod_spec p /\ m_OwnerReferences (pod_meta p') = m_OwnerReferences (pod_meta p).

Definition put_pod (s : Store) (k : Key) (p : Pod) : Store :=
  mkStore (<[k := p]> (s_pods s)) (s_jobs s) (s_sbjs s) (s_nodes s).
Definition put_job (s : Store) (k : Key) (j : Job) : Store :=
  mkStore (s_pods s) (<[k := j]> (s_jobs s)) (s_sbjs s) (s_nodes s).
Definition put_sbj (s : Store) (k : Key) (j : SlurmBridgeJob) : Store :=
  mkStore (s_pods s) (s_jobs s) (<[k := j]> (s_sbjs s)) (s_nodes s).
Definition drop_pod (s : Store) (k : Key) : Store :=
  mkStore (delete k (s_pods s)) (s_jobs s) (s_sbjs s) (s_nodes s).

(** A read answers from the store or fails, and changes nothing. *)
Definition reads {W A} (store : W -> Store) (m : M W A) (look : Store -> option A) : Prop :=
  forall w, exists r w', m w = (r, w') /\ store w' = store w /\
    match r with
    | Ok a => look (store w) = Some a
    | Err e => e = ErrAPI NotFound -> look (store w) = None
    | Panic _ => False
    end.

Class KubeStore (W : Type) {API : KubeAPI W} := {
  store : W -> Store;
  GetPod_law : forall k, reads store (api_GetPod k) (fun s => s_pods s !! k);
  GetJob_law : forall k, reads store (api_GetJob k) (fun s => s_jobs s !! k);
  GetSBJ_law : forall k, reads store (api_GetSBJ k) (fun s => s_sbjs s !! k);
  ListNodes_law : forall sel, reads store (api_ListNodes sel) (fun s => Some (List.filter (selects sel) (s_nodes s)));
  CreatePod_law : forall p w, exists r w', api_CreatePod p w = (r, w') /\
    match r with
    | Ok p' => s_pods (store w) !! pod_key p = None /\ admitted p p' /\ store w' = put_pod (store w) (pod_key p) p'
    | Err _ => store w' = store w
    | Panic _ => False
    end;
  CreateJob_law : forall j w, exists r w', api_CreateJob j w = (r, w') /\
    match r with
    | Ok j' => s_jobs (store w) !! job_key j = None /\ store w' = put_job (store w) (job_key j) j'
    | Err _ => store w' = store w
    | Panic _ => False
    end;
  DeletePod_law : forall k w, exists r w', api_DeletePod k w = (r, w') /\
    match r with
    | Ok _ => store w' = drop_pod (store w) k
    | Err _ => store w' = store w
    | Panic _ => False
    end;
  UpdateSBJStatus_law : forall j w, exists r w', api_UpdateSBJStatus j w = (r, w') /\
    match r with
    | Ok _ => exists old, s_sbjs (store w) !! sbj_key j = Some old /\
                store w' = put_sbj (store w) (sbj_key j) (with_status old (sbj_Status j))
    | Err _ => store w' = store w
    | Panic _ => False
    end;
  Event_law : forall e w, exists w', api_Event e w = (Ok tt, w') /\ store w' = store w;
}.

(** ** Changes of a collection *)

(** Stored objects stay, new ones have one of the names [ks]. *)
Definition only_adds {A} (ks : list Key) (m m' : gmap Key A) : Prop :=
  (forall k a, m !! k = Some a -> m' !! k = Some a) /\
  (forall k, m !! k = None -> is_Some (m' !! k) -> k ∈ ks).

#[export] Instance only_adds_preorder {A} (ks : list Key) : PreOrder (@only_adds A ks).
Proof.
  split.
  - intros m. split; [done|]. intros k H [a Ha]. congruence.
  - intros m1 m2 m3 [H1 H2] [H3 H4]. split; [auto|]. intros k Hk Hs.
    destruct (m2 !! k) eqn:E; [by apply H2|by apply H4].
Qed.

Lemma only_adds_insert {A} (ks : list Key) (m : gmap Key A) k a : m !! k = None -> k ∈ ks -> only_adds ks m (<[k := a]> m).
Proof.
  intros Hk Hin. split.
  - intros k' a' H. by rewrite lookup_insert_ne by congruence.
  - intros k' Hn [b Hb]. apply lookup_insert_Some in Hb as [[<- _]|[_ Hb]]; [done|congruence].
Qed.

(** Objects with one of the names [ks] may go, all others stay. *)
Definition only_drops {A} (ks : list Key) (m m' : gmap Key A) : Prop :=
  forall k, m' !! k = m !! k \/ m' !! k = None /\ k ∈ ks.

#[export] Instance only_drops_preorder {A} (ks : list Key) : PreOrder (@only_drops A ks).
Proof.
  split.
  - intros m k. by left.
  - intros m1 m2 m3 H1 H2 k. destruct (H1 k) as [E1|[E1 Hk]], (H2 k) as [E2|[E2 Hk2]]; rewrite ?E2, ?E1; auto.
Qed.

Lemma only_drops_delete {A} (ks : list Key) (m : gmap Key A) k : k ∈ ks -> only_drops ks m (delete k m).
Proof.
  intros Hk k'. destruct (decide (k' = k)) as [->|Hn]; [right; by rewrite lookup_delete_eq|left].
  by rewrite lookup_delete_ne.
Qed.

(** A read changes nothing, whatever it answers. *)
Lemma reads_same {W A} (store : W -> Store) (m : M W A) look : reads store m look -> forall w, store (m w).2 = store w.
Proof. intros H w. destruct (H w) as (r & w' & E & Hs & _). by rewrite E. Qed.

(** ** A concrete server *)

(** The stored objects and the events recorded. *)
Record Server := mkServer { sv_store : Store; sv_events : list Event }.

Definition sv_read {A} (look : Store -> option A) : M Server A := fun w =>
  (match look (sv_store w) with Some a => Ok a | None => Err (ErrAPI NotFound) end, w).

(** A new pod is pending and has a uid, here made from its name. *)
Definition admit_pod (p : Pod) : Pod :=
  mkPod (set_uid (pod_meta p) (pod_namespace p +:+ "/" +:+ pod_name p)) (pod_spec p)
    (mkPodStatus PodPending [] "" None []).

#[export] Instance store_api : KubeAPI Server := {|
  api_GetPod k := sv_read (fun s => s_pods s !! k);
  api_CreatePod p := fun w =>
    match s_pods (sv_store w) !! pod_key p with
    | Some _ => (Err (ErrAPI AlreadyExists), w)
    | None => (Ok (admit_pod p), mkServer (put_pod (sv_store w) (pod_key p) (admit_pod p)) (sv_events w))
    end;
  api_DeletePod k := fun w =>
    match s_pods (sv_store w) !! k with
    | Some _ => (Ok tt, mkServer (drop_pod (sv_store w) k) (sv_events w))
    | None => (Err (ErrAPI NotFound), w)
    end;
  api_ListPods := fun w => (Ok (map_to_list (s_pods (sv_store w))).*2, w);
  api_UpdatePodStatus p := fun w =>
    match s_pods (sv_store w) !! pod_key p with
    | Some _ => (Ok p, mkServer (put_pod (sv_store w) (pod_key p) p) (sv_events w))
    | None => (Err (ErrAPI NotFound), w)
    end;
  api_ListNodes sel := sv_read (fun s => Some (List.filter (selects sel) (s_nodes s)));
  api_GetJob k := sv_read (fun s => s_jobs s !! k);
  api_CreateJob j := fun w =>
    match s_jobs (sv_store w) !! job_key j with
    | Some _ => (Err (ErrAPI AlreadyExists), w)
    | None => (Ok j, mkServer (put_job (sv_store w) (job_key j) j) (sv_events w))
    end;
  api_GetSBJ k := sv_read (fun s => s_sbjs s !! k);
  api_UpdateSBJStatus j := fun w =>
    match s_sbjs (sv_store w) !! sbj_key j with
    | Some old => (Ok tt, mkServer (put_sbj (sv_store w) (sbj_key j) (with_status old (sbj_Status j))) (sv_events w))
    | None => (Err (ErrAPI NotFound), w)
    end;
  api_Event e := fun w => (Ok tt, mkServer (sv_store w) (sv_events w ++ [e])) |}.

Lemma sv_read_reads {A} (look : Store -> option A) : reads sv_store (sv_read look) look.
Proof. intros w. unfold sv_read. destruct (look (sv_store w)) eqn:E; eexists _, _; split_and!; done. Qed.

#[export] Instance store_api_laws : KubeStore Server.
Proof.
  refine {| store := sv_store |}; intros; cbn.
  - apply sv_read_reads.
  - apply sv_read_reads.
  - apply sv_read_reads.
  - apply sv_read_reads.
  - destruct (_ !! pod_key p) eqn:E; eexists _, _; (split; [reflexivity|]); [done|].
    split_and!; [done|by split_and!|done].
  - destruct (_ !! job_key j) eqn:E; eexists _, _; (split; [reflexivity|]); done.
  - destruct (_ !! k) eqn:E; eexists _, _; (split; [reflexivity|]); done.
  - destruct (_ !! sbj_key j) eqn:E; eexists _, _; (split; [reflexivity|]); [|done]. by exists s.
  - by eexists.
Defined.
