(* ===== verification/ClientSet.v ===== *)
(** * The generated client of SlurmBridgeJobs (pkg/client/clientset, pkg/client/listers)

    The clientset other programs use to reach the custom resource: how it is
    made from a configuration, the requests its methods build, its fake for
    tests, and the lister over the store of an informer. The REST client and
    the object tracker are libraries: [RESTTransport] carries out a request
    and [RestLaws] says what a server does with requests for a version it
    does not serve. The theorem is that a client made from a configuration
    asks for the internal version of the group, so that none of its calls
    succeeds. *)

From Stdlib Require QArith_base.
From S2P Require Import Prelude GoStrings GoNum GoTime Kube Crd Cluster.

Abbreviation Q := QArith_base.Q.

(** ** Group, version, resource (groupversion_info.go) *)

Record GroupVersion := mkGroupVersion { gv_Group : string; gv_Version : string }.
Record GroupVersionResource := mkGVR { gvr_Group : string; gvr_Version : string; gvr_Resource : string }.
Record GroupResource := mkGR { gr_Group : string; gr_Resource : string }.
Record GroupVersionKind := mkGVK { gvk_Group : string; gvk_Version : string; gvk_Kind : string }.

#[export] Instance GroupVersion_eq_dec : EqDecision GroupVersion.
Proof. solve_decision. Defined.
#[export] Instance GroupVersionResource_eq_dec : EqDecision GroupVersionResource.
Proof. solve_decision. Defined.

Definition WithResource (gv : GroupVersion) (resource : string) : GroupVersionResource :=
  mkGVR (gv_Group gv) (gv_Version gv) resource.
Definition WithKind (gv : GroupVersion) (kind : string) : GroupVersionKind := mkGVK (gv_Group gv) (gv_Version gv) kind.

(** [runtime.APIVersionInternal]. *)
Definition APIVersionInternal : string := "__internal".

Definition GroupName : string := "kubecluster.org".
Definition SchemeGroupVersion : GroupVersion := mkGroupVersion GroupName APIVersionInternal.
Definition v1alpha1_GroupVersion : GroupVersion := mkGroupVersion "kubecluster.org" "v1alpha1".

(** [v1alpha1.Resource]. *)
Definition Resource (resource : string) : GroupResource := mkGR (gv_Group v1alpha1_GroupVersion) resource.

(** ** Options and requests *)

Record GetOptions := mkGetOptions { go_ResourceVersion : string }.
Record ListOptions := mkListOptions {
  lo_LabelSelector : string;
  lo_FieldSelector : string;
  lo_Watch : bool;
  lo_ResourceVersion : string;
  lo_TimeoutSeconds : option Z;
  lo_Limit : Z;
  lo_Continue : string;
}.
Record CreateOptions := mkCreateOptions { co_DryRun : list string; co_FieldManager : string }.
Record UpdateOptions := mkUpdateOptions { uo_DryRun : list string; uo_FieldManager : string }.
Record DeleteOptions := mkDeleteOptions { do_GracePeriodSeconds : option Z; do_PropagationPolicy : option string; do_DryRun : list string }.
Record PatchOptions := mkPatchOptions { po_DryRun : list string; po_Force : option bool; po_FieldManager : string }.

Record SlurmBridgeJobList := mkSlurmBridgeJobList { jl_ResourceVersion : string; jl_Items : list SlurmBridgeJob }.

Inductive Params :=
  | PGet (o : GetOptions) | PList (o : ListOptions) | PCreate (o : CreateOptions)
  | PUpdate (o : UpdateOptions) | PPatch (o : PatchOptions).
Inductive RequestBody := BJob (j : SlurmBridgeJob) | BDeleteOptions (o : DeleteOptions) | BData (data : string).

Inductive verb := GET | POST | PUT | DELETE | PATCH (pt : string).

(** A call of the builder of requests. *)
Inductive part :=
  | Namespace (ns : string)
  | ResourceName (resource : string)
  | Name (name : string)
  | SubResource (subresources : list string)
  | VersionedParams (p : Params)
  | Timeout (d : Z)
  | Body (b : RequestBody).

Record Request := mkRequest { rq_Verb : verb; rq_Parts : list part }.

(** [rest.RESTClient]: the version of the API its requests are for. *)
Record RESTClient := mkRESTClient { rc_Host : string; rc_APIPath : string; rc_GroupVersion : GroupVersion; rc_UserAgent : string }.

(** [Do(ctx).Into], for the two results there are, [Do(ctx).Error] and
    [Watch]. *)
Class RESTTransport (W : Type) := {
  DoInto_job : RESTClient -> Request -> M W SlurmBridgeJob;
  DoInto_list : RESTClient -> Request -> M W SlurmBridgeJobList;
  DoError : RESTClient -> Request -> M W unit;
  DoWatch : RESTClient -> Request -> M W nat;
}.

(** ** The interface of the client and its implementation *)

Record SlurmBridgeJobInterface (W : Type) := mkSlurmBridgeJobInterface {
  ij_Create : SlurmBridgeJob -> CreateOptions -> M W SlurmBridgeJob;
  ij_Update : SlurmBridgeJob -> UpdateOptions -> M W SlurmBridgeJob;
  ij_UpdateStatus : SlurmBridgeJob -> UpdateOptions -> M W SlurmBridgeJob;
  ij_Delete : string -> DeleteOptions -> M W unit;
  ij_DeleteCollection : DeleteOptions -> ListOptions -> M W unit;
  ij_Get : string -> GetOptions -> M W SlurmBridgeJob;
  ij_List : ListOptions -> M W SlurmBridgeJobList;
  ij_Watch : ListOptions -> M W nat;
  ij_Patch : string -> string -> string -> PatchOptions -> list string -> M W SlurmBridgeJob;
}.
Arguments ij_Create {W}.
Arguments ij_Update {W}.
Arguments ij_UpdateStatus {W}.
Arguments ij_Delete {W}.
Arguments ij_DeleteCollection {W}.
Arguments ij_Get {W}.
Arguments ij_List {W}.
Arguments ij_Watch {W}.
Arguments ij_Patch {W}.

(** The duration of [opts.TimeoutSeconds], zero when nil. *)
Definition timeout_of (opts : ListOptions) : Z :=
  match lo_TimeoutSeconds opts with Some s => wrap64 (s * Second) | None => 0 end.

Definition set_Watch (opts : ListOptions) : ListOptions :=
  mkListOptions (lo_LabelSelector opts) (lo_FieldSelector opts) true (lo_ResourceVersion opts)
    (lo_TimeoutSeconds opts) (lo_Limit opts) (lo_Continue opts).

Record slurmBridgeJobs := mkslurmBridgeJobs { sj_client : RESTClient; sj_ns : string }.

Module Typed.
Section typed.
Context {W : Type} {RT : RESTTransport W}.

Definition Get (c : slurmBridgeJobs) (name : string) (options : GetOptions) : M W SlurmBridgeJob :=
  DoInto_job (sj_client c) (mkRequest GET
    [Namespace (sj_ns c); ResourceName "slurmbridgejobs"; Name name; VersionedParams (PGet options)]).

Definition List (c : slurmBridgeJobs) (opts : ListOptions) : M W SlurmBridgeJobList :=
  DoInto_list (sj_client c) (mkRequest GET
    [Namespace (sj_ns c); ResourceName "slurmbridgejobs"; VersionedParams (PList opts); Timeout (timeout_of opts)]).

Definition Watch (c : slurmBridgeJobs) (opts : ListOptions) : M W nat :=
  DoWatch (sj_client c) (mkRequest GET
    [Namespace (sj_ns c); ResourceName "slurmbridgejobs"; VersionedParams (PList (set_Watch opts)); Timeout (timeout_of opts)]).

Definition Create (c : slurmBridgeJobs) (slurmBridgeJob : SlurmBridgeJob) (opts : CreateOptions) : M W SlurmBridgeJob :=
  DoInto_job (sj_client c) (mkRequest POST
    [Namespace (sj_ns c); ResourceName "slurmbridgejobs"; VersionedParams (PCreate opts); Body (BJob slurmBridgeJob)]).

Definition Update (c : slurmBridgeJobs) (slurmBridgeJob : SlurmBridgeJob) (opts : UpdateOptions) : M W SlurmBridgeJob :=
  DoInto_job (sj_client c) (mkRequest PUT
    [Namespace (sj_ns c); ResourceName "slurmbridgejobs"; Name (sbj_name slurmBridgeJob); VersionedParams (PUpdate opts); Body (BJob slurmBridgeJob)]).

Definition UpdateStatus (c : slurmBridgeJobs) (slurmBridgeJob : SlurmBridgeJob) (opts : UpdateOptions) : M W SlurmBridgeJob :=
  DoInto_job (sj_client c) (mkRequest PUT
    [Namespace (sj_ns c); ResourceName "slurmbridgejobs"; Name (sbj_name slurmBridgeJob); SubResource ["status"];
     VersionedParams (PUpdate opts); Body (BJob slurmBridgeJob)]).

Definition Delete (c : slurmBridgeJobs) (name : string) (opts : DeleteOptions) : M W unit :=
  DoError (sj_client c) (mkRequest DELETE
    [Namespace (sj_ns c); ResourceName "slurmbridgejobs"; Name name; Body (BDeleteOptions opts)]).

Definition DeleteCollection (c : slurmBridgeJobs) (opts : DeleteOptions) (listOpts : ListOptions) : M W unit :=
  DoError (sj_client c) (mkRequest DELETE
    [Namespace (sj_ns c); ResourceName "slurmbridgejobs"; VersionedParams (PList listOpts); Timeout (timeout_of listOpts);
     Body (BDeleteOptions opts)]).

Definition Patch (c : slurmBridgeJobs) (name pt data : string) (opts : PatchOptions) (subresources : list string) : M W SlurmBridgeJob :=
  DoInto_job (sj_client c) (mkRequest (PATCH pt)
    [Namespace (sj_ns c); ResourceName "slurmbridgejobs"; Name name; SubResource subresources;
     VersionedParams (PPatch opts); Body (BData data)]).

Definition as_interface (c : slurmBridgeJobs) : SlurmBridgeJobInterface W := {|
  ij_Create := Create c;
  ij_Update := Update c;
  ij_UpdateStatus := UpdateStatus c;
  ij_Delete := Delete c;
  ij_DeleteCollection := DeleteCollection c;
  ij_Get := Get c;
  ij_List := List c;
  ij_Watch := Watch c;
  ij_Patch := Patch c |}.
End typed.
End Typed.

(** ** Making a client *)

(** [rest.Config], the fields the code looks at. The rate is a rational. *)
Record RestConfig := mkRestConfig {
  cf_Host : string;
  cf_APIPath : string;
  cf_GroupVersion : option GroupVersion;
  cf_NegotiatedSerializer : option string;
  cf_UserAgent : string;
  cf_QPS : Q;
  cf_Burst : Z;
  cf_RateLimiter : option (Q * Z);
}.

Definition set_UserAgent (agent : string) (c : RestConfig) : RestConfig :=
  mkRestConfig (cf_Host c) (cf_APIPath c) (cf_GroupVersion c) (cf_NegotiatedSerializer c) agent (cf_QPS c) (cf_Burst c) (cf_RateLimiter c).
Definition set_RateLimiter (l : Q * Z) (c : RestConfig) : RestConfig :=
  mkRestConfig (cf_Host c) (cf_APIPath c) (cf_GroupVersion c) (cf_NegotiatedSerializer c) (cf_UserAgent c) (cf_QPS c) (cf_Burst c) (Some l).
Definition set_API (path : string) (gv : GroupVersion) (serializer : string) (c : RestConfig) : RestConfig :=
  mkRestConfig (cf_Host c) path (Some gv) (Some serializer) (cf_UserAgent c) (cf_QPS c) (cf_Burst c) (cf_RateLimiter c).

(** [q > 0]. *)
Definition positive_rate (q : Q) : bool := negb (QArith_base.Qle_bool q (QArith_base.Qmake 0 1)).

Section clientset.
(** [rest.DefaultKubernetesUserAgent], [rest.HTTPClientFor], the REST client
    and the discovery client of a configuration, the [WithoutConversion]
    codec factory of the scheme. *)
Context {HTTPClient DiscoveryClient : Type}.
Variable DefaultKubernetesUserAgent : string.
Variable HTTPClientFor : RestConfig -> res HTTPClient.
Variable RESTClientForConfigAndClient : RestConfig -> HTTPClient -> res RESTClient.
Variable NewDiscoveryClientForConfigAndClient : RestConfig -> HTTPClient -> res DiscoveryClient.
Variable NewDiscoveryClient : RESTClient -> DiscoveryClient.
Variable scheme_Codecs_WithoutConversion : string.

Record KubeclusterV1alpha1Client := mkKubeclusterV1alpha1Client { kc_restClient : RESTClient }.
Record Clientset := mkClientset { cs_DiscoveryClient : DiscoveryClient; cs_kubeclusterV1alpha1 : KubeclusterV1alpha1Client }.

Definition newSlurmBridgeJobs (c : KubeclusterV1alpha1Client) (namespace : string) : slurmBridgeJobs :=
  mkslurmBridgeJobs (kc_restClient c) namespace.

Definition SlurmBridgeJobs {W} {RT : RESTTransport W} (c : KubeclusterV1alpha1Client) (namespace : string) : SlurmBridgeJobInterface W :=
  Typed.as_interface (newSlurmBridgeJobs c namespace).

Definition default_UserAgent (config : RestConfig) : RestConfig :=
  if bool_decide (cf_UserAgent config = "") then set_UserAgent DefaultKubernetesUserAgent config else config.

Definition setConfigDefaults (config : RestConfig) : res RestConfig :=
  let config := set_API "/apis" SchemeGroupVersion scheme_Codecs_WithoutConversion config in
  Ok (default_UserAgent config).

(** [v1alpha1.NewForConfigAndClient] and its siblings: the client of the
    group. *)
Definition v1alpha1_NewForConfigAndClient (c : RestConfig) (h : HTTPClient) : res KubeclusterV1alpha1Client :=
  config ← setConfigDefaults c;
  client ← RESTClientForConfigAndClient config h;
  Ok (mkKubeclusterV1alpha1Client client).

Definition v1alpha1_NewForConfig (c : RestConfig) : res KubeclusterV1alpha1Client :=
  config ← setConfigDefaults c;
  httpClient ← HTTPClientFor config;
  v1alpha1_NewForConfigAndClient config httpClient.

(** An error of the constructor is a panic of [OrDie]. *)
Definition OrDie {A} (m : res A) : res A :=
  match m with Err _ => Panic (PanicWith "NewForConfig") | r => r end.

Definition v1alpha1_NewForConfigOrDie (c : RestConfig) : res KubeclusterV1alpha1Client := OrDie (v1alpha1_NewForConfig c).

Definition v1alpha1_New (c : RESTClient) : KubeclusterV1alpha1Client := mkKubeclusterV1alpha1Client c.

(** The clientset. *)
Definition NewForConfigAndClient (c : RestConfig) (httpClient : HTTPClient) : res Clientset :=
  configShallowCopy ←
    (if bool_decide (cf_RateLimiter c = None) && positive_rate (cf_QPS c) then
       if (cf_Burst c <=? 0)%Z
       then Err (ErrNew "burst is required to be greater than 0 when RateLimiter is not set and QPS is set to greater than 0")
       else Ok (set_RateLimiter (cf_QPS c, cf_Burst c) c)
     else Ok c);
  kubeclusterV1alpha1 ← v1alpha1_NewForConfigAndClient configShallowCopy httpClient;
  discovery ← NewDiscoveryClientForConfigAndClient configShallowCopy httpClient;
  Ok (mkClientset discovery kubeclusterV1alpha1).

Definition NewForConfig (c : RestConfig) : res Clientset :=
  let configShallowCopy := default_UserAgent c in
  httpClient ← HTTPClientFor configShallowCopy;
  NewForConfigAndClient configShallowCopy httpClient.

Definition NewForConfigOrDie (c : RestConfig) : res Clientset := OrDie (NewForConfig c).

Definition New (c : RESTClient) : Clientset := mkClientset (NewDiscoveryClient c) (v1alpha1_New c).

(** [versioned.Interface], what the informers use of it. *)
Definition Interface (W : Type) : Type := string -> SlurmBridgeJobInterface W.
Definition KubeclusterV1alpha1 {W} {RT : RESTTransport W} (c : Clientset) : Interface W := SlurmBridgeJobs (cs_kubeclusterV1alpha1 c).

(** ** The version a client asks for *)

(** A REST client is for the version of its configuration. *)
Hypothesis RESTClient_version : forall c h client gv,
  RESTClientForConfigAndClient c h = Ok client -> cf_GroupVersion c = Some gv -> rc_GroupVersion client = gv.

Lemma v1alpha1_client_version c h client :
  v1alpha1_NewForConfigAndClient c h = Ok client -> rc_GroupVersion (kc_restClient client) = SchemeGroupVersion.
Proof.
  unfold v1alpha1_NewForConfigAndClient, setConfigDefaults. intros H. inv_bind.
  eapply RESTClient_version; [eassumption|]. unfold default_UserAgent. by case_bool_decide.
Qed.

Lemma clientset_version c cs : NewForConfig c = Ok cs -> rc_GroupVersion (kc_restClient (cs_kubeclusterV1alpha1 cs)) = SchemeGroupVersion.
Proof.
  unfold NewForConfig, NewForConfigAndClient. intros H. inv_bind. by eapply v1alpha1_client_version.
Qed.
End clientset.

(** ** The lister (listers/kubecluster.org/v1alpha1) *)

(** What an indexer holds. *)
Inductive KObject := OJob (j : SlurmBridgeJob) | OList (l : SlurmBridgeJobList) | OOther (kind : string).

(** The type assertions to a job and to a list of jobs, which panic. *)
Definition as_job (m : KObject) : res SlurmBridgeJob :=
  match m with OJob j => Ok j | _ => Panic (PanicWith "interface conversion") end.
Definition as_list (m : KObject) : res SlurmBridgeJobList :=
  match m with OList l => Ok l | _ => Panic (PanicWith "interface conversion") end.

(** [cache.Indexer]: the lookup by key, and what [ListAll] and
    [ListAllByNamespace] hand to their function before they return. *)
Record Indexer (Selector : Type) := mkIndexer {
  ix_GetByKey : string -> res (option KObject);
  ix_ListAll : Selector -> list KObject * option error;
  ix_ListAllByNamespace : string -> Selector -> list KObject * option error;
}.
Arguments ix_GetByKey {Selector}.
Arguments ix_ListAll {Selector}.
Arguments ix_ListAllByNamespace {Selector}.

Module Lister.
Section lister.
Context {Selector : Type}.

(** The function the listers pass: it appends to [ret]. *)
Definition append_jobs (listed : list KObject * option error) : res (list SlurmBridgeJob * option error) :=
  ret ← foldl (fun ret m => ret ← ret; j ← as_job m; Ok (ret ++ [j])) (Ok []) listed.1;
  Ok (ret, listed.2).

Definition List (indexer : Indexer Selector) (selector : Selector) : res (list SlurmBridgeJob * option error) :=
  append_jobs (ix_ListAll indexer selector).

Definition NamespaceList (indexer : Indexer Selector) (namespace : string) (selector : Selector) : res (list SlurmBridgeJob * option error) :=
  append_jobs (ix_ListAllByNamespace indexer namespace selector).

(** [errors.NewNotFound(v1alpha1.Resource("slurmbridgejob"), name)]. *)
Definition Get (indexer : Indexer Selector) (namespace name : string) : res SlurmBridgeJob :=
  found ← ix_GetByKey indexer (namespace +:+ "/" +:+ name);
  match found with
  | None => Err (ErrAPI NotFound)
  | Some obj => as_job obj
  end.

Lemma append_jobs_all (js : list SlurmBridgeJob) e : append_jobs (OJob <$> js, e) = Ok (js, e).
Proof.
  assert (H : forall acc, foldl (fun ret m => ret ← ret; j ← as_job m; Ok (ret ++ [j])) (Ok acc) (OJob <$> js) = Ok (acc ++ js)).
  { induction js as [|j js IH]; intros acc; cbn; [by rewrite app_nil_r|]. by rewrite IH, <- app_assoc. }
  unfold append_jobs. cbn [fst snd]. by rewrite H.
Qed.
End lister.
End Lister.

(** ** The fake (clientset/versioned/fake) *)

Definition slurmbridgejobsResource : GroupVersionResource := WithResource SchemeGroupVersion "slurmbridgejobs".
Definition slurmbridgejobsKind : GroupVersionKind := WithKind SchemeGroupVersion "SlurmBridgeJob".

(** The actions of [k8s.io/client-go/testing], by resource and namespace. *)
Inductive action_kind :=
  | GetAction (name : string)
  | ListAction (kind : GroupVersionKind) (opts : ListOptions)
  | WatchAction (opts : ListOptions)
  | CreateAction (j : SlurmBridgeJob)
  | UpdateAction (j : SlurmBridgeJob)
  | UpdateSubresourceAction (subresource : string) (j : SlurmBridgeJob)
  | DeleteAction (name : string) (opts : DeleteOptions)
  | DeleteCollectionAction (opts : ListOptions)
  | PatchSubresourceAction (name pt data : string) (subresources : list string).
Record Action := mkAction { ac_Resource : GroupVersionResource; ac_Namespace : string; ac_kind : action_kind }.

(** [testing.Fake]: the reaction to an action may be an object, an error or
    both. *)
Class FakeInvokes (W : Type) := {
  Invokes : Action -> KObject -> W -> (option KObject * option error) * W;
  InvokesWatch : Action -> M W nat;
}.

Module FakeJobs.
Section fake.
Context {W Selector : Type} {FI : FakeInvokes W}.
(** [testing.ExtractFromListOptions], [labels.Everything] and [Matches]. *)
Variable ExtractLabel : ListOptions -> option Selector.
Variable Everything : Selector.
Variable Matches : Selector -> option StrMap -> bool.

Definition zero_job : SlurmBridgeJob :=
  mkSlurmBridgeJob (new_meta "" "" None) (mkSlurmBridgeJobSpec "" "" None None "" 0 0 0 0 "" 0 "" "" None) zero_Status.
Definition zero_list : SlurmBridgeJobList := mkSlurmBridgeJobList "" [].

Definition action (ns : string) (k : action_kind) : Action := mkAction slurmbridgejobsResource ns k.

(** The common end: a nil object is answered as it is, another one is
    converted, and the error goes along. *)
Definition invoke_job (a : Action) : W -> res (option SlurmBridgeJob * option error) * W := fun w =>
  let '((obj, err), w') := Invokes a (OJob zero_job) w in
  (match obj with
   | None => Ok (None, err)
   | Some obj => j ← as_job obj; Ok (Some j, err)
   end, w').

Definition Get (ns name : string) (options : GetOptions) := invoke_job (action ns (GetAction name)).

Definition List (ns : string) (opts : ListOptions) : W -> res (option SlurmBridgeJobList * option error) * W := fun w =>
  let '((obj, err), w') := Invokes (action ns (ListAction slurmbridgejobsKind opts)) (OList zero_list) w in
  (match obj with
   | None => Ok (None, err)
   | Some obj =>
       let label := default Everything (ExtractLabel opts) in
       l ← as_list obj;
       let items := foldl (fun items item => if Matches label (m_Labels (sbj_meta item)) then items ++ [item] else items) [] (jl_Items l) in
       Ok (Some (mkSlurmBridgeJobList (jl_ResourceVersion l) items), err)
   end, w').

Definition Watch (ns : string) (opts : ListOptions) : M W nat := InvokesWatch (action ns (WatchAction opts)).
Definition Create (ns : string) (j : SlurmBridgeJob) (opts : CreateOptions) := invoke_job (action ns (CreateAction j)).
Definition Update (ns : string) (j : SlurmBridgeJob) (opts : UpdateOptions) := invoke_job (action ns (UpdateAction j)).
Definition UpdateStatus (ns : string) (j : SlurmBridgeJob) (opts : UpdateOptions) :=
  invoke_job (action ns (UpdateSubresourceAction "status" j)).

Definition Delete (ns name : string) (opts : DeleteOptions) : W -> option error * W := fun w =>
  let '((_, err), w') := Invokes (action ns (DeleteAction name opts)) (OJob zero_job) w in (err, w').
Definition DeleteCollection (ns : string) (opts : DeleteOptions) (listOpts : ListOptions) : W -> option error * W := fun w =>
  let '((_, err), w') := Invokes (action ns (DeleteCollectionAction listOpts)) (OList zero_list) w in (err, w').
Definition Patch (ns name pt data : string) (opts : PatchOptions) (subresources : list string) :=
  invoke_job (action ns (PatchSubresourceAction name pt data subresources)).

(** The listed items are those the selector matches, in their order. *)
Lemma List_filters ns opts w l err w' :
  Invokes (action ns (ListAction slurmbridgejobsKind opts)) (OList zero_list) w = ((Some (OList l), err), w') ->
  List ns opts w = (Ok (Some (mkSlurmBridgeJobList (jl_ResourceVersion l)
    (List.filter (fun item => Matches (default Everything (ExtractLabel opts)) (m_Labels (sbj_meta item))) (jl_Items l))), err), w').
Proof.
  intros H. unfold List. rewrite H. cbn [as_list mbind res_bind]. do 6 f_equal.
  set (f := fun item => Matches (default Everything (ExtractLabel opts)) (m_Labels (sbj_meta item))).
  enough (Hf : forall acc, foldl (fun items item => if f item then items ++ [item] else items) acc (jl_Items l) = acc ++ List.filter f (jl_Items l)) by apply (Hf []).
  induction (jl_Items l) as [|j js IH]; intros acc; cbn; [by rewrite app_nil_r|]. rewrite IH. destruct (f j); [|done]. by rewrite <- app_assoc.
Qed.
End fake.
End FakeJobs.

(** [NewSimpleClientset] over [testing.ObjectTracker]. *)
Section simple.
Context {Tracker : Type} {FI : FakeInvokes Tracker}.
Variable NewObjectTracker : Tracker.
Variable tracker_Add : SlurmBridgeJob -> Tracker -> res Tracker.
(** What the tracker holds under a resource and a key. *)
Variable held : Tracker -> GroupVersionResource -> Key -> option SlurmBridgeJob.

Definition NewSimpleClientset (objects : list SlurmBridgeJob) : res Tracker :=
  foldl (fun o obj => o ← o; match tracker_Add obj o with Err _ => Panic (PanicWith "NewSimpleClientset") | r => r end)
    (Ok NewObjectTracker) objects.

(** The tracker starts empty, files an object under the resource of the kind
    the scheme knows its type by, which is of version v1alpha1, and reacts
    to a get with what it holds. *)
Hypothesis new_empty : forall gvr k, held NewObjectTracker gvr k = None.
Hypothesis Add_law : forall j t t', tracker_Add j t = Ok t' ->
  forall gvr k, gvr <> WithResource v1alpha1_GroupVersion "slurmbridgejobs" -> held t' gvr k = held t gvr k.
Hypothesis Get_law : forall gvr ns name d t, held t gvr (ns, name) = None ->
  Invokes (mkAction gvr ns (GetAction name)) d t = ((None, Some (ErrAPI NotFound)), t).

(** The jobs a fake clientset is created with are not found by its client. *)
Lemma seeds_not_found objects t ns name o :
  NewSimpleClientset objects = Ok t -> FakeJobs.Get ns name o t = (Ok (None, Some (ErrAPI NotFound)), t).
Proof.
  intros H. assert (Hn : forall k, held t slurmbridgejobsResource k = None).
  { unfold NewSimpleClientset in H. pose proof (new_empty slurmbridgejobsResource) as He. revert He H.
    generalize NewObjectTracker. induction objects as [|j js IH]; intros t0 He H; cbn in H; [by injection H as <-|].
    destruct (tracker_Add j t0) as [t1|e|p] eqn:Ha; cbn in H.
    - apply (IH t1); [|done]. intros k. rewrite (Add_law _ _ _ Ha); [done|]. discriminate.
    - exfalso. clear -H. induction js as [|j' js IH]; cbn in H; [done|by apply IH].
    - exfalso. clear -H. induction js as [|j' js IH]; cbn in H; [done|by apply IH]. }
  unfold FakeJobs.Get, FakeJobs.invoke_job, FakeJobs.action. by rewrite Get_law.
Qed.
End simple.

(** ** A server that does not serve the version *)

(** The versions of the resource in the manifest
    manifests/crd/bases/kubecluster.org_slurmbridgejobs.yaml. *)
Definition crd_served : list GroupVersion := [mkGroupVersion "kubecluster.org" "v1alpha1"].

(** A call that fails and leaves the stored jobs alone. *)
Definition refused {W A : Type} (jobs : W -> gmap Key SlurmBridgeJob) (m : M W A) : Prop :=
  forall w, exists e w', m w = (Err e, w') /\ jobs w' = jobs w.

Class RestLaws {W : Type} (RT : RESTTransport W) (jobs : W -> gmap Key SlurmBridgeJob) : Prop := {
  (** A request under a path of a version that is not served is refused. *)
  law_unserved_job : forall c rq, rc_GroupVersion c ∉ crd_served -> refused jobs (DoInto_job c rq);
  law_unserved_list : forall c rq, rc_GroupVersion c ∉ crd_served -> refused jobs (DoInto_list c rq);
  law_unserved : forall c rq, rc_GroupVersion c ∉ crd_served -> refused jobs (DoError c rq);
  law_unserved_watch : forall c rq, rc_GroupVersion c ∉ crd_served -> refused jobs (DoWatch c rq);
}.

(** A client none of whose calls succeeds or changes a job. *)
Definition useless {W : Type} (jobs : W -> gmap Key SlurmBridgeJob) (i : SlurmBridgeJobInterface W) : Prop :=
  (forall j o, refused jobs (ij_Create i j o)) /\ (forall j o, refused jobs (ij_Update i j o)) /\
  (forall j o, refused jobs (ij_UpdateStatus i j o)) /\ (forall n o, refused jobs (ij_Delete i n o)) /\
  (forall o l, refused jobs (ij_DeleteCollection i o l)) /\ (forall n o, refused jobs (ij_Get i n o)) /\
  (forall o, refused jobs (ij_List i o)) /\ (forall o, refused jobs (ij_Watch i o)) /\
  (forall n pt d o s, refused jobs (ij_Patch i n pt d o s)).

Lemma SchemeGroupVersion_unserved : SchemeGroupVersion ∉ crd_served.
Proof. by_compute. Qed.

Lemma unserved_client {W} {RT : RESTTransport W} {jobs : W -> gmap Key SlurmBridgeJob} {RL : RestLaws RT jobs} c :
  rc_GroupVersion (sj_client c) ∉ crd_served -> useless jobs (Typed.as_interface c).
Proof.
  intros Hc. split_and!; intros; first [by apply law_unserved_job | by apply law_unserved_list | by apply law_unserved | by apply law_unserved_watch].
Qed.

(** C40. A client made from a configuration is of no use: [SchemeGroupVersion]
    is the internal version of the group, the client asks for paths of that
    version, which no server with the custom resource of this repository
    serves, so each of its nine methods fails and no job is changed. *)
Theorem generated_client_fails {HTTPClient DiscoveryClient W : Type} {RT : RESTTransport W} {jobs : W -> gmap Key SlurmBridgeJob}
    {RL : RestLaws RT jobs} agent (HTTPClientFor : RestConfig -> res HTTPClient) rest_client
    (discovery : RestConfig -> HTTPClient -> res DiscoveryClient) codecs c cs ns :
  (forall c h client gv, rest_client c h = Ok client -> cf_GroupVersion c = Some gv -> rc_GroupVersion client = gv) ->
  NewForConfig agent HTTPClientFor rest_client discovery codecs c = Ok cs ->
  useless jobs (KubeclusterV1alpha1 cs ns).
Proof.
  intros Hv Hc. unfold KubeclusterV1alpha1, SlurmBridgeJobs. apply unserved_client. cbn [sj_client newSlurmBridgeJobs].
  rewrite (clientset_version _ _ _ _ _ Hv _ _ Hc). apply SchemeGroupVersion_unserved.
Qed.

(** ** A server in memory *)

Module ClientSetExamples.

(** The jobs stored; requests for v1alpha1 are carried out. *)
Definition Cluster : Type := gmap Key SlurmBridgeJob.

Definition request_ns (rq : Request) : string :=
  default "" (head (omap (fun p => match p with Namespace n => Some n | _ => None end) (rq_Parts rq))).
Definition request_name (rq : Request) : string :=
  default "" (head (omap (fun p => match p with Name n => Some n | _ => None end) (rq_Parts rq))).
Definition request_job (rq : Request) : option SlurmBridgeJob :=
  head (omap (fun p => match p with Body (BJob j) => Some j | _ => None end) (rq_Parts rq)).

Definition served_only {A} (c : RESTClient) (m : M Cluster A) : M Cluster A :=
  if bool_decide (rc_GroupVersion c ∈ crd_served) then m else fail (ErrAPI NotFound).

#[export] Instance memory_server : RESTTransport Cluster := {|
  DoInto_job c rq := served_only c (fun w =>
    let k := (request_ns rq, request_name rq) in
    match rq_Verb rq, request_job rq with
    | GET, _ => (match w !! k with Some j => Ok j | None => Err (ErrAPI NotFound) end, w)
    | POST, Some j => (match w !! (request_ns rq, sbj_name j) with Some _ => (Err (ErrAPI AlreadyExists), w) | None => (Ok j, <[(request_ns rq, sbj_name j) := j]> w) end)
    | PUT, Some j => (match w !! k with Some _ => (Ok j, <[k := j]> w) | None => (Err (ErrAPI NotFound), w) end)
    | _, _ => (Err (ErrAPI ApiOther), w)
    end);
  DoInto_list c rq := served_only c (fun w => (Ok (mkSlurmBridgeJobList "" (snd <$> map_to_list w)), w));
  DoError c rq := served_only c (fun w => (Ok tt, delete (request_ns rq, request_name rq) w));
  DoWatch c rq := served_only c (mret 0%nat) |}.

#[export] Instance memory_laws : RestLaws memory_server (fun w => w).
Proof.
  split; intros c rq Hc w; cbn -[crd_served]; unfold served_only; rewrite bool_decide_eq_false_2 by done; by do 2 eexists.
Qed.

Definition demo_config : RestConfig :=
  mkRestConfig "https://cluster" "" None None "" (QArith_base.Qmake 0 1) 0 None.
Definition demo_rest (c : RestConfig) (h : unit) : res RESTClient :=
  match cf_GroupVersion c with
  | Some gv => Ok (mkRESTClient (cf_Host c) (cf_APIPath c) gv (cf_UserAgent c))
  | None => Err (ErrNew "GroupVersion is required when initializing a RESTClient")
  end.
Definition demo_clientset : res (Clientset (DiscoveryClient := unit)) :=
  NewForConfig "agent" (fun _ => Ok tt) demo_rest (fun _ _ => Ok tt) "codecs" demo_config.

Definition demo_job : SlurmBridgeJob := mkSlurmBridgeJob (new_meta "train" "default" None) (sbj_Spec FakeJobs.zero_job) zero_Status.
Definition v1alpha1_rest : RESTClient := mkRESTClient "https://cluster" "/apis" v1alpha1_GroupVersion "agent".

(** A client over a REST client for v1alpha1 works, the one of the
    configuration does not. *)
Example client_by_version :
  let works := KubeclusterV1alpha1 (New (fun _ => tt) v1alpha1_rest) "default" in
  let created := (ij_Create works demo_job (mkCreateOptions [] "") ∅).2 in
  (ij_Get works "train" (mkGetOptions "") created).1 = Ok demo_job /\
  (cs ← demo_clientset; (ij_Get (KubeclusterV1alpha1 cs "default") "train" (mkGetOptions "") created).1) = Err (ErrAPI NotFound).
Proof. vm_compute. done. Qed.

Lemma generated_client_fails_witness :
  exists cs, demo_clientset = Ok cs /\ useless (fun w : Cluster => w) (KubeclusterV1alpha1 cs "default").
Proof.
  eexists. split; [reflexivity|].
  apply (generated_client_fails "agent" (fun _ => Ok tt) demo_rest (fun _ _ => Ok tt) "codecs" demo_config); [|reflexivity].
  intros c h client gv Hc Hgv. unfold demo_rest in Hc. rewrite Hgv in Hc. by injection Hc as <-.
Defined.
End ClientSetExamples.
