(* ===== verification/Informers.v ===== *)
(** * The shared informer factory (pkg/client/informers)

    A process gets its informers from one factory, so that all its parts
    share one informer, one cache and one connection per type. The state of
    the factory is guarded by a mutex: a critical section is one function
    here, and the process is a step relation in which callers of [Start],
    [InformerFor], [Shutdown] and [WaitForCacheSync], the goroutines of the
    informers and the API server interleave. The informers themselves are a
    library: [Run] returns after its stop channel is closed, or at once when
    the informer has been run before, and an informer has synced after a
    list that succeeded.

    The theorems: an informer is run by one goroutine only; after
    [Shutdown] has returned none runs or will ever run; and the informers of
    a clientset made from a configuration never sync. *)

From S2P Require Import Prelude GoStrings GoNum GoTime Kube Crd Cluster ClientSet.

(** A [reflect.Type], by its name. *)
Abbreviation rtype := string (only parsing).
Definition SlurmBridgeJobType : rtype := "v1alpha1.SlurmBridgeJob".

Definition TweakListOptionsFunc : Type := ListOptions -> ListOptions.

Section factory.
Context {W : Type}.

(** ** Informers *)

Record SharedIndexInformer := mkInformer {
  si_ListFunc : ListOptions -> M W KObject;
  si_WatchFunc : ListOptions -> M W nat;
  si_objectType : rtype;
  si_resyncPeriod : Z;
  si_indexers : list string;
}.

Definition NewInformerFunc : Type := Interface W -> Z -> SharedIndexInformer.

Definition tweaked (tweakListOptions : option TweakListOptionsFunc) (options : ListOptions) : ListOptions :=
  match tweakListOptions with Some f => f options | None => options end.

Definition NewFilteredSlurmBridgeJobInformer (client : Interface W) (namespace : string) (resyncPeriod : Z) (indexers : list string)
    (tweakListOptions : option TweakListOptionsFunc) : SharedIndexInformer := {|
  si_ListFunc options := (l ← ij_List (client namespace) (tweaked tweakListOptions options); mret (OList l));
  si_WatchFunc options := ij_Watch (client namespace) (tweaked tweakListOptions options);
  si_objectType := SlurmBridgeJobType;
  si_resyncPeriod := resyncPeriod;
  si_indexers := indexers |}.

Definition NewSlurmBridgeJobInformer (client : Interface W) (namespace : string) (resyncPeriod : Z) (indexers : list string) : SharedIndexInformer :=
  NewFilteredSlurmBridgeJobInformer client namespace resyncPeriod indexers None.

(** ** The factory *)

(** An informer is the index at which it was made. *)
Record sharedInformerFactory := mkFactory {
  sf_client : Interface W;
  sf_namespace : string;
  sf_tweakListOptions : option TweakListOptionsFunc;
  sf_defaultResync : Z;
  sf_customResync : gmap rtype Z;
  sf_informers : gmap rtype nat;
  sf_startedInformers : gmap rtype bool;
  sf_wg : Z;
  sf_shuttingDown : bool;
}.

Definition SharedInformerOption : Type := sharedInformerFactory -> sharedInformerFactory.

(** The configuration lists the types in the order in which the map of
    objects is visited. *)
Definition WithCustomResyncConfig (resyncConfig : list (rtype * Z)) : SharedInformerOption := fun f =>
  mkFactory (sf_client f) (sf_namespace f) (sf_tweakListOptions f) (sf_defaultResync f)
    (foldl (fun m '(k, v) => <[k := v]> m) (sf_customResync f) resyncConfig)
    (sf_informers f) (sf_startedInformers f) (sf_wg f) (sf_shuttingDown f).
Definition WithTweakListOptions (tweakListOptions : option TweakListOptionsFunc) : SharedInformerOption := fun f =>
  mkFactory (sf_client f) (sf_namespace f) tweakListOptions (sf_defaultResync f) (sf_customResync f)
    (sf_informers f) (sf_startedInformers f) (sf_wg f) (sf_shuttingDown f).
Definition WithNamespace (namespace : string) : SharedInformerOption := fun f =>
  mkFactory (sf_client f) namespace (sf_tweakListOptions f) (sf_defaultResync f) (sf_customResync f)
    (sf_informers f) (sf_startedInformers f) (sf_wg f) (sf_shuttingDown f).

(** [v1.NamespaceAll] is the empty namespace. *)
Definition NewSharedInformerFactoryWithOptions (client : Interface W) (defaultResync : Z) (options : list SharedInformerOption) : sharedInformerFactory :=
  foldl (fun factory opt => opt factory) (mkFactory client "" None defaultResync ∅ ∅ ∅ 0 false) options.
Definition NewSharedInformerFactory (client : Interface W) (defaultResync : Z) : sharedInformerFactory :=
  NewSharedInformerFactoryWithOptions client defaultResync [].
Definition NewFilteredSharedInformerFactory (client : Interface W) (defaultResync : Z) (namespace : string)
    (tweakListOptions : option TweakListOptionsFunc) : sharedInformerFactory :=
  NewSharedInformerFactoryWithOptions client defaultResync [WithNamespace namespace; WithTweakListOptions tweakListOptions].

Definition set_informers (m : gmap rtype nat) (f : sharedInformerFactory) : sharedInformerFactory :=
  mkFactory (sf_client f) (sf_namespace f) (sf_tweakListOptions f) (sf_defaultResync f) (sf_customResync f)
    m (sf_startedInformers f) (sf_wg f) (sf_shuttingDown f).
Definition set_started (m : gmap rtype bool) (n : Z) (f : sharedInformerFactory) : sharedInformerFactory :=
  mkFactory (sf_client f) (sf_namespace f) (sf_tweakListOptions f) (sf_defaultResync f) (sf_customResync f)
    (sf_informers f) m n (sf_shuttingDown f).
Definition set_shuttingDown (f : sharedInformerFactory) : sharedInformerFactory :=
  mkFactory (sf_client f) (sf_namespace f) (sf_tweakListOptions f) (sf_defaultResync f) (sf_customResync f)
    (sf_informers f) (sf_startedInformers f) (sf_wg f) true.

(** ** The process *)

(** A goroutine that runs an informer with a stop channel. *)
Record Goroutine := mkGoroutine { gr_informer : nat; gr_stopCh : nat; gr_running : bool }.

(** The calls that block: [Shutdown] waits for the goroutines, and
    [WaitForCacheSync] for the informers of its list, one after the other. *)
Inductive call :=
  | InShutdown
  | ShutdownReturned
  | InSync (stopCh : nat) (todo : list (rtype * nat)) (answer : gmap rtype bool)
  | SyncReturned (answer : gmap rtype bool).

Record Process := mkProcess {
  p_factory : sharedInformerFactory;
  p_made : list SharedIndexInformer;
  p_goroutines : list Goroutine;
  p_closed : gset nat;
  p_synced : gset nat;
  p_calls : list call;
  p_env : W;
}.

Definition on_factory (f : sharedInformerFactory -> sharedInformerFactory) (p : Process) : Process :=
  mkProcess (f (p_factory p)) (p_made p) (p_goroutines p) (p_closed p) (p_synced p) (p_calls p) (p_env p).
Definition set_goroutines (l : list Goroutine) (p : Process) : Process :=
  mkProcess (p_factory p) (p_made p) l (p_closed p) (p_synced p) (p_calls p) (p_env p).
Definition set_calls (l : list call) (p : Process) : Process :=
  mkProcess (p_factory p) (p_made p) (p_goroutines p) (p_closed p) (p_synced p) l (p_env p).

Definition InformerFor (informerType : rtype) (newFunc : NewInformerFunc) : M Process nat := fun p =>
  let f := p_factory p in
  match sf_informers f !! informerType with
  | Some informer => (Ok informer, p)
  | None =>
      let resyncPeriod := default (sf_defaultResync f) (sf_customResync f !! informerType) in
      let informer := length (p_made p) in
      (Ok informer, mkProcess (set_informers (<[informerType := informer]> (sf_informers f)) f)
        (p_made p ++ [newFunc (sf_client f) resyncPeriod]) (p_goroutines p) (p_closed p) (p_synced p) (p_calls p) (p_env p))
  end.

(** The body of the loop of [Start]: a type that is not started gets a
    goroutine, for which the wait group is raised. *)
Definition start_informer (stopCh : nat) (p : Process) (e : rtype * nat) : Process :=
  let '(informerType, informer) := e in
  if default false (sf_startedInformers (p_factory p) !! informerType) then p
  else set_goroutines (p_goroutines p ++ [mkGoroutine informer stopCh true])
         (on_factory (fun f => set_started (<[informerType := true]> (sf_startedInformers f)) (sf_wg f + 1) f) p).

Definition Start (stopCh : nat) (range : list (rtype * nat)) (p : Process) : Process :=
  if sf_shuttingDown (p_factory p) then p else foldl (start_informer stopCh) p range.

(** [Shutdown] up to its [Wait]. *)
Definition Shutdown (p : Process) : Process :=
  set_calls (p_calls p ++ [InShutdown]) (on_factory set_shuttingDown p).

(** [WaitForCacheSync] up to its loop: the informers that are started. *)
Definition started_of (f : sharedInformerFactory) (range : list (rtype * nat)) : list (rtype * nat) :=
  List.filter (fun e => default false (sf_startedInformers f !! e.1)) range.
Definition WaitForCacheSync (stopCh : nat) (range : list (rtype * nat)) (p : Process) : Process :=
  set_calls (p_calls p ++ [InSync stopCh (started_of (p_factory p) range) ∅]) p.

(** The goroutine [k] ends: [defer f.wg.Done()]. *)
Definition end_goroutine (k : nat) (g : Goroutine) (p : Process) : Process :=
  set_goroutines (<[k := mkGoroutine (gr_informer g) (gr_stopCh g) false]> (p_goroutines p))
    (on_factory (fun f => set_started (sf_startedInformers f) (sf_wg f - 1) f) p).

(** An informer has listed: its environment changed, and it has synced when
    the list succeeded. *)
Definition listed (i : nat) (ok : bool) (env : W) (p : Process) : Process :=
  mkProcess (p_factory p) (p_made p) (p_goroutines p) (p_closed p) (if ok then {[i]} ∪ p_synced p else p_synced p) (p_calls p) env.

(** ** The accessors (interface.go, generic.go, slurmbridgejob.go) *)

Record group := mkGroup { gp_namespace : string; gp_tweakListOptions : option TweakListOptionsFunc }.
Record version := mkVersion { vr_namespace : string; vr_tweakListOptions : option TweakListOptionsFunc }.
Record slurmBridgeJobInformer := mkslurmBridgeJobInformer { bi_namespace : string; bi_tweakListOptions : option TweakListOptionsFunc }.

Definition Kubecluster : M Process group := fun p =>
  (Ok (mkGroup (sf_namespace (p_factory p)) (sf_tweakListOptions (p_factory p))), p).
Definition V1alpha1 (g : group) : version := mkVersion (gp_namespace g) (gp_tweakListOptions g).
Definition version_SlurmBridgeJobs (v : version) : slurmBridgeJobInformer :=
  mkslurmBridgeJobInformer (vr_namespace v) (vr_tweakListOptions v).

Definition defaultInformer (f : slurmBridgeJobInformer) : NewInformerFunc := fun client resyncPeriod =>
  NewFilteredSlurmBridgeJobInformer client (bi_namespace f) resyncPeriod ["namespace"] (bi_tweakListOptions f).
Definition Informer (f : slurmBridgeJobInformer) : M Process nat := InformerFor SlurmBridgeJobType (defaultInformer f).

(** [factory.Kubecluster().V1alpha1().SlurmBridgeJobs().Informer()]. *)
Definition job_informer : M Process nat := g ← Kubecluster; Informer (version_SlurmBridgeJobs (V1alpha1 g)).

Record genericInformer := mkGenericInformer { gi_informer : nat; gi_resource : GroupResource }.

Definition ForResource (resource : GroupVersionResource) : M Process genericInformer :=
  if bool_decide (resource = WithResource SchemeGroupVersion "slurmbridgejobs") then
    i ← job_informer; mret (mkGenericInformer i (mkGR (gvr_Group resource) (gvr_Resource resource)))
  else fail (ErrNew "no informer found").

(** ** Interleavings *)

Inductive pstep : Process -> Process -> Prop :=
  | step_InformerFor p t newFunc : pstep p (InformerFor t newFunc p).2
  | step_Start p stopCh range :
      range ≡ₚ map_to_list (sf_informers (p_factory p)) -> pstep p (Start stopCh range p)
  | step_Shutdown p : pstep p (Shutdown p)
  | step_Wait p k :
      p_calls p !! k = Some InShutdown -> sf_wg (p_factory p) = 0%Z ->
      pstep p (set_calls (<[k := ShutdownReturned]> (p_calls p)) p)
  | step_WaitForCacheSync p stopCh range :
      range ≡ₚ map_to_list (sf_informers (p_factory p)) -> pstep p (WaitForCacheSync stopCh range p)
  | step_synced p k stopCh t i todo answer :
      p_calls p !! k = Some (InSync stopCh ((t, i) :: todo) answer) -> i ∈ p_synced p ->
      pstep p (set_calls (<[k := InSync stopCh todo (<[t := true]> answer)]> (p_calls p)) p)
  | step_not_synced p k stopCh t i todo answer :
      p_calls p !! k = Some (InSync stopCh ((t, i) :: todo) answer) -> stopCh ∈ p_closed p ->
      pstep p (set_calls (<[k := InSync stopCh todo (<[t := false]> answer)]> (p_calls p)) p)
  | step_answer p k stopCh answer :
      p_calls p !! k = Some (InSync stopCh [] answer) ->
      pstep p (set_calls (<[k := SyncReturned answer]> (p_calls p)) p)
  | step_close p stopCh :
      pstep p (mkProcess (p_factory p) (p_made p) (p_goroutines p) ({[stopCh]} ∪ p_closed p) (p_synced p) (p_calls p) (p_env p))
  | step_list p k g inf options l env :
      p_goroutines p !! k = Some g -> gr_running g = true -> p_made p !! gr_informer g = Some inf ->
      si_ListFunc inf options (p_env p) = (Ok l, env) -> pstep p (listed (gr_informer g) true env p)
  | step_list_fails p k g inf options e env :
      p_goroutines p !! k = Some g -> gr_running g = true -> p_made p !! gr_informer g = Some inf ->
      si_ListFunc inf options (p_env p) = (Err e, env) -> pstep p (listed (gr_informer g) false env p)
  | step_env p env : pstep p (listed 0 false env p)
  | step_run_returns p k g :
      p_goroutines p !! k = Some g -> gr_running g = true ->
      gr_stopCh g ∈ p_closed p \/ (exists k' g', k' < k /\ p_goroutines p !! k' = Some g' /\ gr_informer g' = gr_informer g) ->
      pstep p (end_goroutine k g p).

Definition new_process (f : sharedInformerFactory) (env : W) : Process := mkProcess f [] [] ∅ ∅ [] env.

(** A factory that was just made. *)
Definition new_factory (f : sharedInformerFactory) : Prop :=
  exists client defaultResync (opts : list SharedInformerOption), f = NewSharedInformerFactoryWithOptions client defaultResync opts /\
    Forall (fun o => exists resync tweak ns, o = WithCustomResyncConfig resync \/ o = WithTweakListOptions tweak \/ o = WithNamespace ns) opts.

Definition reachable (p : Process) : Prop := exists f env, new_factory f /\ rtc pstep (new_process f env) p.

(** ** The invariant *)

Definition running (l : list Goroutine) : nat := length (filter (fun g => gr_running g = true) l).
#[local] Arguments running : simpl never.

(** What an answer of [WaitForCacheSync] says of the informers. *)
Definition answers_hold (p : Process) (answer : gmap rtype bool) : Prop :=
  forall t, answer !! t = Some true -> exists i, sf_informers (p_factory p) !! t = Some i /\ i ∈ p_synced p.
Definition call_ok (p : Process) (c : call) : Prop :=
  match c with
  | InSync _ todo answer =>
      Forall (fun e => sf_informers (p_factory p) !! e.1 = Some e.2) todo /\ answers_hold p answer
  | SyncReturned answer => answers_hold p answer
  | InShutdown => sf_shuttingDown (p_factory p) = true
  | ShutdownReturned => sf_shuttingDown (p_factory p) = true /\ running (p_goroutines p) = 0
  end.

(** A list of the informer has succeeded. *)
Definition has_listed (p : Process) (i : nat) : Prop :=
  exists inf o w l w', p_made p !! i = Some inf /\ si_ListFunc inf o w = (Ok l, w').

Record wf (p : Process) : Prop := mkWf {
  wf_wg : sf_wg (p_factory p) = Z.of_nat (running (p_goroutines p));
  wf_once : NoDup (gr_informer <$> p_goroutines p);
  wf_run : forall g, g ∈ p_goroutines p ->
    exists t, sf_informers (p_factory p) !! t = Some (gr_informer g) /\ sf_startedInformers (p_factory p) !! t = Some true;
  wf_started : forall t, sf_startedInformers (p_factory p) !! t = Some true ->
    exists g, g ∈ p_goroutines p /\ sf_informers (p_factory p) !! t = Some (gr_informer g);
  wf_made : forall t i, sf_informers (p_factory p) !! t = Some i -> i < length (p_made p);
  wf_inj : forall t t' i, sf_informers (p_factory p) !! t = Some i -> sf_informers (p_factory p) !! t' = Some i -> t = t';
  wf_synced : forall i, i ∈ p_synced p -> has_listed p i;
  wf_calls : Forall (call_ok p) (p_calls p);
}.

Lemma running_app l l' : running (l ++ l') = running l + running l'.
Proof. unfold running. by rewrite list.filter_app, length_app. Qed.
Lemma running_cons g l : running (g :: l) = (if gr_running g then 1 else 0) + running l.
Proof. unfold running. rewrite filter_cons. by destruct (gr_running g). Qed.

Lemma running_end l k g i ch :
  l !! k = Some g -> gr_running g = true -> running l = S (running (<[k := mkGoroutine i ch false]> l)).
Proof.
  intros Hk Hg. rewrite <- (take_drop_middle l k g Hk) at 1.
  rewrite insert_take_drop by (by eapply lookup_lt_Some). rewrite !running_app, !running_cons, Hg. cbn. lia.
Qed.

Lemma running_0 l g : running l = 0 -> g ∈ l -> gr_running g = false.
Proof.
  intros Hr Hg. apply length_zero_iff_nil in Hr. apply not_true_is_false. intros Ht.
  assert (H : g ∈ filter (fun g => gr_running g = true) l) by by apply list_elem_of_filter. rewrite Hr in H. by apply elem_of_nil in H.
Qed.

Lemma has_listed_mono p p' i : p_made p `prefix_of` p_made p' -> has_listed p i -> has_listed p' i.
Proof. intros Hm (inf & o & w & l & w' & Hi & Hl). exists inf, o, w, l, w'. split; [|done]. by eapply prefix_lookup_Some. Qed.

Lemma answers_hold_mono p p' a :
  sf_informers (p_factory p) ⊆ sf_informers (p_factory p') -> p_synced p ⊆ p_synced p' -> answers_hold p a -> answers_hold p' a.
Proof. intros Hi Hs H t Ht. destruct (H t Ht) as (i & Hti & Hsy). exists i. split; [by eapply lookup_weaken|by apply Hs]. Qed.

Lemma call_ok_mono p p' c :
  sf_informers (p_factory p) ⊆ sf_informers (p_factory p') -> p_synced p ⊆ p_synced p' ->
  (sf_shuttingDown (p_factory p) = true -> sf_shuttingDown (p_factory p') = true /\ running (p_goroutines p') <= running (p_goroutines p)) ->
  call_ok p c -> call_ok p' c.
Proof.
  intros Hi Hs Hd. destruct c as [| |ch todo a|a]; cbn.
  - intros H. by apply Hd.
  - intros [H Hr]. destruct (Hd H). split; [done|lia].
  - intros [Ht Ha]. split; [|by apply (answers_hold_mono p)]. eapply Forall_impl; [|exact Ht]. cbn. intros e He. by eapply lookup_weaken.
  - intros Ha. by apply (answers_hold_mono p).
Qed.

(** ** The operations keep it *)

Lemma InformerFor_wf t newFunc p : wf p -> wf (InformerFor t newFunc p).2.
Proof.
  intros H. unfold InformerFor. destruct (sf_informers (p_factory p) !! t) as [i|] eqn:Et; [done|]. cbn [snd].
  assert (Hsub : sf_informers (p_factory p) ⊆ <[t := length (p_made p)]> (sf_informers (p_factory p))) by by apply insert_subseteq, Et.
  split; cbn.
  - apply H.
  - apply H.
  - intros g Hg. destruct (wf_run p H g Hg) as (t' & Hi & Hs). exists t'. split; [|done]. by eapply lookup_weaken.
  - intros t' Ht'. destruct (wf_started p H t' Ht') as (g & Hg & Hi). exists g. split; [done|]. by eapply lookup_weaken.
  - intros t' i. rewrite lookup_insert, length_app. case_decide; cbn; [intros [= <-]; lia|]. intros Hi. pose proof (wf_made p H t' i Hi). lia.
  - intros t1 t2 i. rewrite !lookup_insert. repeat case_decide; subst; cbn.
    + done.
    + intros [= <-] Hi. pose proof (wf_made p H _ _ Hi). lia.
    + intros Hi [= <-]. pose proof (wf_made p H _ _ Hi). lia.
    + apply (wf_inj p H).
  - intros i Hi. eapply has_listed_mono; [|by apply (wf_synced p H)]. cbn. by apply prefix_app_r.
  - eapply Forall_impl; [|apply H]. intros c. by apply call_ok_mono.
Qed.

Lemma start_informer_wf stopCh p t i :
  wf p -> sf_shuttingDown (p_factory p) = false -> sf_informers (p_factory p) !! t = Some i -> wf (start_informer stopCh p (t, i)).
Proof.
  intros H Hd Hi. unfold start_informer. destruct (default false (sf_startedInformers (p_factory p) !! t)) eqn:Es; [done|].
  split; cbn.
  - rewrite (wf_wg p H), running_app, running_cons. cbn [gr_running]. change (running []) with 0. lia.
  - rewrite fmap_app. apply list.NoDup_app. split_and!; [apply H| |apply NoDup_singleton]. intros j Hj Hj'. apply list_elem_of_singleton in Hj' as ->.
    apply list_elem_of_fmap in Hj as (g & Hj & Hg). cbn in Hj. subst i. destruct (wf_run p H g Hg) as (t' & Hi' & Hs').
    rewrite (wf_inj p H t t' _ Hi Hi') in Es. by rewrite Hs' in Es.
  - intros g [Hg|Hg]%elem_of_app.
    + destruct (wf_run p H g Hg) as (t' & Hi' & Hs). exists t'. split; [done|]. rewrite lookup_insert. by case_decide.
    + apply list_elem_of_singleton in Hg as ->. exists t. cbn. by rewrite lookup_insert_eq.
  - intros t'. rewrite lookup_insert. case_decide as E.
    + intros _. subst t'. eexists. split; [apply elem_of_app; right; by apply list_elem_of_singleton|done].
    + intros Hs. destruct (wf_started p H t' Hs) as (g & Hg & Hi'). exists g. split; [|done]. apply elem_of_app. by left.
  - apply H.
  - apply H.
  - apply H.
  - eapply Forall_impl; [|apply H]. intros c. apply call_ok_mono; cbn; [done|done|]. by rewrite Hd.
Qed.

Lemma start_informer_factory stopCh p e :
  sf_informers (p_factory (start_informer stopCh p e)) = sf_informers (p_factory p) /\
  sf_shuttingDown (p_factory (start_informer stopCh p e)) = sf_shuttingDown (p_factory p).
Proof. destruct e as [t i]. unfold start_informer. by destruct (default false _). Qed.

Lemma Start_wf stopCh range p :
  range ≡ₚ map_to_list (sf_informers (p_factory p)) -> wf p -> wf (Start stopCh range p).
Proof.
  intros Hr H. unfold Start. destruct (sf_shuttingDown (p_factory p)) eqn:Ed; [done|].
  assert (Hin : forall e, e ∈ range -> sf_informers (p_factory p) !! e.1 = Some e.2).
  { intros [t i]. rewrite Hr. apply elem_of_map_to_list. }
  clear Hr. revert p H Ed Hin. induction range as [|[t i] l IH]; intros p H Ed Hin; [done|]. cbn [foldl].
  destruct (start_informer_factory stopCh p (t, i)) as [Hi Hd]. apply IH.
  - apply start_informer_wf; [done|done|]. apply (Hin (t, i)). by left.
  - by rewrite Hd.
  - intros e He. rewrite Hi. apply Hin. by right.
Qed.

Lemma end_goroutine_wf k g p : p_goroutines p !! k = Some g -> gr_running g = true -> wf p -> wf (end_goroutine k g p).
Proof.
  intros Hk Hg H. pose proof (running_end _ _ _ (gr_informer g) (gr_stopCh g) Hk Hg) as Hr.
  assert (Hin : gr_informer <$> <[k := mkGoroutine (gr_informer g) (gr_stopCh g) false]> (p_goroutines p) = gr_informer <$> p_goroutines p).
  { rewrite list_fmap_insert. cbn. apply list_insert_id. by rewrite list_lookup_fmap, Hk. }
  split; cbn; try apply H.
  - rewrite (wf_wg p H). lia.
  - rewrite Hin. apply H.
  - intros g' Hg'. apply (list_elem_of_fmap_2 gr_informer) in Hg'. rewrite Hin in Hg'. apply list_elem_of_fmap in Hg' as (g2 & -> & Hg2).
    by apply (wf_run p H).
  - intros t Ht. destruct (wf_started p H t Ht) as (g' & Hg' & Hi). apply (list_elem_of_fmap_2 gr_informer) in Hg'.
    rewrite <- Hin in Hg'. apply list_elem_of_fmap in Hg' as (g2 & He & Hg2). exists g2. split; [done|]. by rewrite <- He.
  - eapply Forall_impl; [|apply H]. intros c. apply call_ok_mono; cbn; [done..|]. intros Hs. split; [done|lia].
Qed.

(** A step that changes the calls only. *)
Lemma set_calls_wf l p : Forall (call_ok p) l -> wf p -> wf (set_calls l p).
Proof. intros Hl H. split; cbn; try apply H. exact Hl. Qed.

Lemma update_call_wf k c p : call_ok p c -> wf p -> wf (set_calls (<[k := c]> (p_calls p)) p).
Proof. intros Hc H. apply set_calls_wf; [|done]. apply Forall_insert; [apply H|done]. Qed.

Lemma listed_wf i (ok : bool) env p : (ok = true -> has_listed p i) -> wf p -> wf (listed i ok env p).
Proof.
  intros Hi H. split; cbn; try apply H.
  - intros j Hj. destruct ok; [|by apply (wf_synced p H)]. apply elem_of_union in Hj as [->%elem_of_singleton|Hj]; [by apply Hi|by apply (wf_synced p H)].
  - eapply Forall_impl; [|apply H]. intros c. apply call_ok_mono; cbn; [done|destruct ok; set_solver|done].
Qed.

Lemma pstep_wf p p' : pstep p p' -> wf p -> wf p'.
Proof.
  intros Hst H. destruct Hst.
  - by apply InformerFor_wf.
  - by apply Start_wf.
  - assert (Hc : Forall (call_ok (on_factory set_shuttingDown p)) (p_calls p)).
    { eapply Forall_impl; [|apply H]. intros c. by apply call_ok_mono. }
    apply set_calls_wf; [apply Forall_app; split; [done|by repeat constructor]|]. split; cbn; try apply H. exact Hc.
  - apply update_call_wf; [|done]. pose proof (Forall_lookup_1 _ _ _ _ (wf_calls p H) H0) as Hc. cbn in Hc |- *. split; [done|].
    pose proof (wf_wg p H). lia.
  - apply set_calls_wf; [|done]. apply Forall_app. split; [apply H|]. repeat constructor; [|done]. unfold started_of.
    apply Forall_forall. intros e He. apply filter_In in He as [He%list_elem_of_In _]. rewrite H0 in He.
    destruct e. by apply elem_of_map_to_list in He.
  - apply update_call_wf; [|done]. pose proof (Forall_lookup_1 _ _ _ _ (wf_calls p H) H0) as [Ht Ha].
    apply Forall_cons_1 in Ht as [Ht Htodo]. split; [done|]. intros t'. rewrite lookup_insert. case_decide; [|apply Ha]. subst t'. intros _. by exists i.
  - apply update_call_wf; [|done]. pose proof (Forall_lookup_1 _ _ _ _ (wf_calls p H) H0) as [Ht Ha].
    apply Forall_cons_1 in Ht as [Ht Htodo]. split; [done|]. intros t'. rewrite lookup_insert. case_decide; [done|apply Ha].
  - apply update_call_wf; [|done]. pose proof (Forall_lookup_1 _ _ _ _ (wf_calls p H) H0) as [_ Ha]. exact Ha.
  - split; cbn; apply H.
  - apply listed_wf; [|done]. intros _. by exists inf, options, (p_env p), l, env.
  - by apply listed_wf.
  - by apply listed_wf.
  - by apply end_goroutine_wf.
Qed.

Lemma new_factory_fields f :
  new_factory f -> sf_informers f = ∅ /\ sf_startedInformers f = ∅ /\ sf_wg f = 0%Z /\ sf_shuttingDown f = false.
Proof.
  intros (client & d & opts & -> & Hopts). unfold NewSharedInformerFactoryWithOptions.
  assert (H : forall f0, sf_informers f0 = ∅ /\ sf_startedInformers f0 = ∅ /\ sf_wg f0 = 0%Z /\ sf_shuttingDown f0 = false ->
    let f := foldl (fun factory (opt : SharedInformerOption) => opt factory) f0 opts in
    sf_informers f = ∅ /\ sf_startedInformers f = ∅ /\ sf_wg f = 0%Z /\ sf_shuttingDown f = false); [|by apply H].
  induction Hopts as [|o opts (r & tw & ns & Ho) _ IH]; intros f0 H0; [done|]. cbn [foldl]. apply IH.
  by destruct Ho as [-> |[-> | ->]].
Qed.

Lemma reachable_wf p : reachable p -> wf p.
Proof.
  intros (f & env & Hf & Hs). destruct (new_factory_fields f Hf) as (Hi & Hst & Hwg & _).
  assert (H0 : wf (new_process f env)).
  { split; cbn; rewrite ?Hi, ?Hst; try done; [apply NoDup_nil_2|..]; by intros ? ?%elem_of_nil || set_solver. }
  clear Hf Hi Hst Hwg. induction Hs as [p|p p1 p2 Hst _ IH]; [done|]. by apply IH, (pstep_wf p).
Qed.

(** ** Sharing and starting *)

(** However the callers of a factory interleave, an informer is run by
    one goroutine in its life, a type that is started has its goroutine and
    one that is not has none, two types never share an informer, and the
    wait group counts the goroutines that run. *)
Theorem informers_run_once p :
  reachable p ->
  (forall k k' g g', p_goroutines p !! k = Some g -> p_goroutines p !! k' = Some g' -> gr_informer g = gr_informer g' -> k = k') /\
  (forall t i, sf_informers (p_factory p) !! t = Some i ->
     (sf_startedInformers (p_factory p) !! t = Some true <-> exists g, g ∈ p_goroutines p /\ gr_informer g = i)) /\
  (forall t t' i, sf_informers (p_factory p) !! t = Some i -> sf_informers (p_factory p) !! t' = Some i -> t = t') /\
  sf_wg (p_factory p) = Z.of_nat (running (p_goroutines p)).
Proof.
  intros H%reachable_wf. split_and!; [| |apply H|apply H].
  - intros k k' g g' Hk Hk' He. eapply (NoDup_lookup (gr_informer <$> p_goroutines p)); [apply H|rewrite list_lookup_fmap..].
    + by rewrite Hk.
    + by rewrite Hk', He.
  - intros t i Hi. split.
    + intros Hs. destruct (wf_started p H t Hs) as (g & Hg & Hi'). exists g. split; [done|]. congruence.
    + intros (g & Hg & <-). destruct (wf_run p H g Hg) as (t' & Hi' & Hs). by rewrite (wf_inj p H t t' _ Hi Hi').
Qed.

(** What a step never takes back. *)
Lemma pstep_keeps p p' :
  pstep p p' -> sf_informers (p_factory p) ⊆ sf_informers (p_factory p') /\ p_made p `prefix_of` p_made p' /\
    sf_defaultResync (p_factory p) = sf_defaultResync (p_factory p') /\ sf_customResync (p_factory p) = sf_customResync (p_factory p').
Proof.
  intros Hst. destruct Hst; try done.
  - unfold InformerFor. destruct (_ !! t) eqn:Et; [done|]. cbn. split_and!; [by apply insert_subseteq|by apply prefix_app_r|done..].
  - unfold Start. destruct (sf_shuttingDown _); [done|]. clear H. revert p.
    induction range as [|e l IH]; intros p; [done|]. cbn [foldl]. destruct (IH (start_informer stopCh p e)) as (H1 & H2 & H3 & H4).
    destruct e as [t i]. unfold start_informer in *. by destruct (default false _).
Qed.

Lemma psteps_keeps p p' : rtc pstep p p' -> sf_informers (p_factory p) ⊆ sf_informers (p_factory p') /\ p_made p `prefix_of` p_made p'.
Proof.
  induction 1 as [p|p p1 p2 Hst _ [IHi IHm]]; [done|]. destruct (pstep_keeps _ _ Hst) as (Hi & Hm & _).
  split; by etrans.
Qed.

(** The informer of a type is made once, with the resync period set for the
    type or the default one, and is the same for every caller from then on. *)
Lemma InformerFor_shared t newFunc p i p1 :
  InformerFor t newFunc p = (Ok i, p1) ->
  (forall p2 newFunc', rtc pstep p1 p2 -> InformerFor t newFunc' p2 = (Ok i, p2)) /\
  (sf_informers (p_factory p) !! t = None -> p_made p1 !! i =
     Some (newFunc (sf_client (p_factory p)) (default (sf_defaultResync (p_factory p)) (sf_customResync (p_factory p) !! t)))).
Proof.
  intros H. assert (Hi : sf_informers (p_factory p1) !! t = Some i).
  { unfold InformerFor in H. destruct (_ !! t) eqn:Et; injection H as <- <-; [done|]. cbn. apply lookup_insert_eq. }
  split.
  - intros p2 newFunc' Hs. destruct (psteps_keeps _ _ Hs) as [Hsub _]. unfold InformerFor. by rewrite (lookup_weaken _ _ _ _ Hi Hsub).
  - intros Hn. unfold InformerFor in H. rewrite Hn in H. injection H as <- <-. cbn. by rewrite list_lookup_middle.
Qed.

(** [Start] starts every informer requested so far, and what is started
    already it leaves alone. *)
Lemma Start_starts stopCh range p t :
  range ≡ₚ map_to_list (sf_informers (p_factory p)) -> sf_shuttingDown (p_factory p) = false ->
  is_Some (sf_informers (p_factory p) !! t) -> sf_startedInformers (p_factory (Start stopCh range p)) !! t = Some true.
Proof.
  intros Hr Hd [i Hi]. unfold Start. rewrite Hd. assert (Hin : t ∈ range.*1).
  { apply list_elem_of_fmap. exists (t, i). split; [done|]. by rewrite Hr, elem_of_map_to_list. }
  clear Hr Hi. assert (Hkeep : forall l q, default false (sf_startedInformers (p_factory q) !! t) = true ->
    sf_startedInformers (p_factory (foldl (start_informer stopCh) q l)) !! t = Some true).
  { induction l as [|[t' i'] l IH]; intros q Hq; cbn [foldl]; [by destruct (_ !! t) as [[]|]|]. apply IH. unfold start_informer.
    destruct (default false (_ !! t')); [done|]. cbn. rewrite lookup_insert. by case_decide. }
  clear Hd. revert p Hin. induction range as [|[t' i'] l IH]; intros p Hin; [by apply elem_of_nil in Hin|]. cbn [foldl].
  apply elem_of_cons in Hin as [Ht|Hin]; [|by apply IH]. apply Hkeep. cbn in Ht. subst t'.
  unfold start_informer. destruct (default false (sf_startedInformers (p_factory p) !! t)) eqn:E; [done|]. cbn. by rewrite lookup_insert_eq.
Qed.

Lemma Start_again stopCh range p :
  (forall e, e ∈ range -> sf_startedInformers (p_factory p) !! e.1 = Some true) -> Start stopCh range p = p.
Proof.
  intros H. unfold Start. destruct (sf_shuttingDown _); [done|]. induction range as [|[t i] l IH]; [done|]. cbn [foldl].
  pose proof (H (t, i) (list_elem_of_here _ _)) as Ht. cbn in Ht. unfold start_informer at 2. rewrite Ht. apply IH. intros e He. apply H. by right.
Qed.

(** ** Shutting down *)

(** Once the factory is shutting down, goroutines only end. *)
Lemma pstep_shutting p p' :
  pstep p p' -> sf_shuttingDown (p_factory p) = true ->
  sf_shuttingDown (p_factory p') = true /\ running (p_goroutines p') <= running (p_goroutines p) /\
  (running (p_goroutines p) = 0 -> p_goroutines p' = p_goroutines p).
Proof.
  intros Hst Hd. destruct Hst; try done.
  - unfold InformerFor. by destruct (_ !! t).
  - unfold Start. by rewrite Hd.
  - cbn. split; [done|]. rewrite (running_end _ _ _ (gr_informer g) (gr_stopCh g) H H0). split; [lia|done].
Qed.

Lemma psteps_shutting p p' :
  rtc pstep p p' -> sf_shuttingDown (p_factory p) = true ->
  sf_shuttingDown (p_factory p') = true /\ running (p_goroutines p') <= running (p_goroutines p) /\
  (running (p_goroutines p) = 0 -> p_goroutines p' = p_goroutines p).
Proof.
  induction 1 as [p|p p1 p2 Hst _ IH]; intros Hd; [done|]. destruct (pstep_shutting _ _ Hst Hd) as (Hd1 & Hr1 & Hg1).
  destruct (IH Hd1) as (Hd2 & Hr2 & Hg2). split_and!; [done|lia|]. intros H0. rewrite Hg2; [by apply Hg1|]. lia.
Qed.

(** When the stop channels are closed a call of [Shutdown] returns after one
    turn per goroutine. *)
Lemma Shutdown_returns p k :
  wf p -> p_calls p !! k = Some InShutdown -> (forall g, g ∈ p_goroutines p -> gr_running g = true -> gr_stopCh g ∈ p_closed p) ->
  exists p', nsteps pstep (S (running (p_goroutines p))) p p' /\ p_calls p' !! k = Some ShutdownReturned.
Proof.
  remember (running (p_goroutines p)) as n eqn:Hn. revert p Hn. induction n as [|n IH]; intros p Hn H Hk Hc.
  - eexists. split; [apply nsteps_once, (step_Wait p k Hk); rewrite (wf_wg p H); lia|]. cbn. apply list_lookup_insert_eq. by eapply lookup_lt_Some.
  - assert (exists i g, p_goroutines p !! i = Some g /\ gr_running g = true) as (i & g & Hi & Hg).
    { unfold running in Hn. destruct (filter (fun g => gr_running g = true) (p_goroutines p)) as [|g l] eqn:Hf; [done|].
      assert (Hin : g ∈ filter (fun g => gr_running g = true) (p_goroutines p)) by (rewrite Hf; by left).
      apply list_elem_of_filter in Hin as [Hg Hin]. apply list_elem_of_lookup_1 in Hin as [i Hi]. by exists i, g. }
    pose proof (running_end _ _ _ (gr_informer g) (gr_stopCh g) Hi Hg) as Hr.
    destruct (IH (end_goroutine i g p)) as (p' & Hs & Hk').
    + cbn. lia.
    + by apply end_goroutine_wf.
    + done.
    + cbn. intros g' Hg' Hrun. apply list_elem_of_lookup_1 in Hg' as [j Hj]. rewrite list_lookup_insert in Hj. case_decide.
      * injection Hj as <-. done.
      * by eapply Hc; [eapply list_elem_of_lookup_2|].
    + exists p'. split; [|done]. eapply nsteps_l; [|exact Hs]. apply step_run_returns; [done|done|]. left. apply Hc; [by eapply list_elem_of_lookup_2|done].
Qed.

(** C39. [Shutdown] keeps its promise. When a call of it has returned, every
    goroutine the factory started has ended and none is ever started again,
    whatever is called afterwards; and a call that waits returns as soon as
    the stop channels are closed, after one turn per goroutine, while
    nothing that happens in between can raise their number. *)
Theorem Shutdown_is_final p k :
  reachable p ->
  (p_calls p !! k = Some ShutdownReturned -> forall p', rtc pstep p p' ->
     p_goroutines p' = p_goroutines p /\ Forall (fun g => gr_running g = false) (p_goroutines p')) /\
  (p_calls p !! k = Some InShutdown ->
     (forall p', rtc pstep p p' -> running (p_goroutines p') <= running (p_goroutines p)) /\
     ((forall g, g ∈ p_goroutines p -> gr_running g = true -> gr_stopCh g ∈ p_closed p) ->
      exists p', nsteps pstep (S (running (p_goroutines p))) p p' /\ p_calls p' !! k = Some ShutdownReturned)).
Proof.
  intros H%reachable_wf. split.
  - intros Hk p' Hs. destruct (Forall_lookup_1 _ _ _ _ (wf_calls p H) Hk) as [Hd Hr].
    destruct (psteps_shutting _ _ Hs Hd) as (_ & _ & Hg). rewrite (Hg Hr). split; [done|]. apply list.Forall_forall. intros g. by apply running_0.
  - intros Hk. split; [|intros Hc; by apply Shutdown_returns]. intros p' Hs.
    by apply (psteps_shutting _ _ Hs (Forall_lookup_1 _ _ _ _ (wf_calls p H) Hk)).
Qed.
End factory.

(** ** The informers of a clientset made from a configuration *)

Section unserved.
Context {HTTPClient DiscoveryClient W : Type} {RT : RESTTransport W} {jobs : W -> gmap Key SlurmBridgeJob} {RL : RestLaws RT jobs}.
Variable agent : string.
Variable HTTPClientFor : RestConfig -> res HTTPClient.
Variable rest_client : RestConfig -> HTTPClient -> res RESTClient.
Variable discovery : RestConfig -> HTTPClient -> res DiscoveryClient.
Variable codecs : string.
Hypothesis RESTClient_version : forall c h client gv,
  rest_client c h = Ok client -> cf_GroupVersion c = Some gv -> rc_GroupVersion client = gv.

Lemma job_informer_refused (c : RestConfig) cs ns resync indexers tweak :
  NewForConfig agent HTTPClientFor rest_client discovery codecs c = Ok cs ->
  forall o, refused jobs (si_ListFunc (NewFilteredSlurmBridgeJobInformer (KubeclusterV1alpha1 cs) ns resync indexers tweak) o).
Proof.
  intros Hc o w. assert (Hu : useless jobs (KubeclusterV1alpha1 cs ns)).
  { apply unserved_client. cbn. rewrite (clientset_version _ _ _ _ _ RESTClient_version _ _ Hc). apply SchemeGroupVersion_unserved. }
  destruct Hu as (_ & _ & _ & _ & _ & _ & Hl & _). destruct (Hl (tweaked tweak o) w) as (e & w' & He & Hj).
  exists e, w'. split; [|done]. cbn [si_ListFunc NewFilteredSlurmBridgeJobInformer]. unfold mbind, M_bind. by rewrite He.
Qed.

Lemma refused_never_synced (p : Process) i inf :
  wf p -> p_made p !! i = Some inf -> (forall o, refused jobs (si_ListFunc inf o)) -> i ∉ p_synced p.
Proof.
  intros H Hi Hr Hs. destruct (wf_synced p H i Hs) as (inf' & o & w & l & w' & Hi' & Hl).
  rewrite Hi in Hi'. injection Hi' as <-. destruct (Hr o w) as (e & w2 & He & _). by rewrite He in Hl.
Qed.

(** The informer of SlurmBridgeJobs of a factory over a clientset made
    from a configuration never syncs: its lists are all refused, so in no
    interleaving does it have a cache to read, and no call of
    [WaitForCacheSync] ever answers that it has. *)
Theorem job_informer_never_syncs c cs p i p1 p' :
  NewForConfig agent HTTPClientFor rest_client discovery codecs c = Ok cs ->
  reachable p -> sf_client (p_factory p) = KubeclusterV1alpha1 cs -> sf_informers (p_factory p) !! SlurmBridgeJobType = None ->
  job_informer p = (Ok i, p1) -> rtc pstep p1 p' ->
  (i ∉ p_synced p') /\
  (forall k answer, p_calls p' !! k = Some (SyncReturned answer) -> answer !! SlurmBridgeJobType <> Some true).
Proof.
  intros Hc (f & env & Hf & Hrun) Hclient Hnone Hi Hs.
  set (newFunc := defaultInformer (W := W) (version_SlurmBridgeJobs (V1alpha1 (mkGroup (sf_namespace (p_factory p)) (sf_tweakListOptions (p_factory p)))))).
  change (job_informer p) with (InformerFor SlurmBridgeJobType newFunc p) in Hi.
  assert (H' : wf p').
  { apply reachable_wf. exists f, env. split; [done|]. etrans; [exact Hrun|]. eapply rtc_l; [|exact Hs].
    replace p1 with (InformerFor SlurmBridgeJobType newFunc p).2 by by rewrite Hi. apply step_InformerFor. }
  destruct (InformerFor_shared _ _ _ _ _ Hi) as [Hshared Hmade]. specialize (Hmade Hnone). rewrite Hclient in Hmade.
  destruct (psteps_keeps _ _ Hs) as [_ Hpre]. pose proof (prefix_lookup_Some _ _ _ _ Hmade Hpre) as Hmade'.
  assert (Hnot : i ∉ p_synced p') by (eapply refused_never_synced; [done|exact Hmade'|]; by eapply job_informer_refused).
  split; [done|]. intros k answer Hk Ha. destruct (Forall_lookup_1 _ _ _ _ (wf_calls p' H') Hk _ Ha) as (i' & Hi' & Hsy).
  specialize (Hshared p' newFunc Hs). unfold InformerFor in Hshared. rewrite Hi' in Hshared. injection Hshared as <-. done.
Qed.
End unserved.

(** The generic accessor does not know the resource under the version it has. *)
Lemma ForResource_v1alpha1 {W : Type} (p : Process (W := W)) :
  ForResource (WithResource v1alpha1_GroupVersion "slurmbridgejobs") p = (Err (ErrNew "no informer found"), p).
Proof. reflexivity. Qed.

(** ** A factory in use *)

Module InformersExamples.
Import ClientSetExamples.

Definition demo_factory (client : Interface Cluster) : sharedInformerFactory :=
  NewSharedInformerFactoryWithOptions client 30 [WithNamespace "default"; WithCustomResyncConfig [(SlurmBridgeJobType, 60%Z)]].

Lemma demo_new client : new_factory (demo_factory client).
Proof.
  exists client, 30%Z, [WithNamespace "default"; WithCustomResyncConfig [(SlurmBridgeJobType, 60%Z)]]. split; [done|].
  repeat constructor; [exists [], None, "default"; by right; right|exists [(SlurmBridgeJobType, 60%Z)], None, ""; by left].
Qed.

(** The factory over a clientset made from a configuration: the informer of
    jobs is requested and started, a sync is awaited, and the factory is
    shut down with its stop channel closed. *)
Definition no_client : Interface Cluster := fun ns => Typed.as_interface (mkslurmBridgeJobs v1alpha1_rest ns).
Definition demo_client : Interface Cluster := match demo_clientset with Ok cs => KubeclusterV1alpha1 cs | _ => no_client end.
Definition p0 : Process := new_process (demo_factory demo_client) ∅.
Definition p1 : Process := (job_informer p0).2.
Definition p2 : Process := WaitForCacheSync 7 [(SlurmBridgeJobType, 0%nat)] (Start 7 [(SlurmBridgeJobType, 0%nat)] p1).
Definition p3 : Process := Shutdown (mkProcess (p_factory p2) (p_made p2) (p_goroutines p2) {[7%nat]} (p_synced p2) (p_calls p2) (p_env p2)).

Lemma p1_step : pstep p0 p1.
Proof. exact (step_InformerFor p0 _ _). Qed.

Lemma p1_to_p3 : rtc pstep p1 p3.
Proof.
  eapply rtc_l; [exact (step_Start p1 7 [(SlurmBridgeJobType, 0%nat)] (reflexivity _))|].
  eapply rtc_l; [exact (step_WaitForCacheSync _ 7 [(SlurmBridgeJobType, 0%nat)] (reflexivity _))|].
  eapply rtc_l; [exact (step_close _ 7)|]. eapply rtc_l; [exact (step_Shutdown _)|]. apply rtc_refl.
Qed.

Lemma reachable_p0 : reachable p0.
Proof. exists (demo_factory demo_client), ∅. split; [apply demo_new|apply rtc_refl]. Qed.
Lemma reachable_p3 : reachable p3.
Proof.
  exists (demo_factory demo_client), ∅. split; [apply demo_new|]. eapply rtc_l; [exact p1_step|exact p1_to_p3].
Qed.

Lemma informers_run_once_witness :
  p_goroutines p3 = [mkGoroutine 0 7 true] /\ sf_wg (p_factory p3) = Z.of_nat (running (p_goroutines p3)).
Proof. split; [vm_compute; reflexivity|]. exact (proj2 (proj2 (proj2 (informers_run_once p3 reachable_p3)))). Defined.

Lemma Shutdown_is_final_witness :
  p_calls p3 !! 1%nat = Some InShutdown /\ exists p', nsteps pstep 2 p3 p' /\ p_calls p' !! 1%nat = Some ShutdownReturned.
Proof.
  assert (Hk : p_calls p3 !! 1%nat = Some InShutdown) by (vm_compute; reflexivity).
  split; [exact Hk|]. refine (proj2 (proj2 (Shutdown_is_final p3 1 reachable_p3) Hk) _).
  intros g Hg _. assert (Hg' : g ∈ [mkGoroutine 0 7 true]) by exact Hg. apply list_elem_of_singleton in Hg' as ->. vm_compute. reflexivity.
Defined.

Lemma job_informer_never_syncs_witness :
  exists cs, demo_clientset = Ok cs /\ 0%nat ∉ p_synced p3.
Proof.
  eexists. split; [reflexivity|].
  refine (proj1 (job_informer_never_syncs (jobs := fun w : Cluster => w) "agent" (fun _ => Ok tt) demo_rest (fun _ _ => Ok tt) "codecs" _ demo_config _ p0 0 p1 p3 _ reachable_p0 _ _ _ p1_to_p3)).
  - intros c h client gv Hc Hgv. unfold demo_rest in Hc. rewrite Hgv in Hc. by injection Hc as <-.
  - reflexivity.
  - reflexivity.
  - reflexivity.
  - reflexivity.
Defined.
End InformersExamples.
