(* ===== verification/Reconcile.v ===== *)
(** * The reconciler of the operator (pkg/slurm-bridge-operator/slurmbridgejob_controller.go, result.go)

    One call of [Reconcile] brings the cluster closer to what a
    SlurmBridgeJob asks for: it creates the sizing pod, copies what the
    virtual kubelet reports about it into the job's status, creates the
    worker pod once the Slurm jobs are known, and, when the job is finished
    and asks for its results, the job that fetches them. The job being
    reconciled is a copy the steps change ([RS]); it reaches the server only
    in the final status update. *)

From S2P Require Import Prelude GoStrings GoNum GoTime Workload Kube Crd Cluster OperatorPod.

(** The server and the copy of the job. *)
Record RS (W : Type) := mkRS { rs_w : W; rs_job : SlurmBridgeJob }.
Arguments mkRS {W}.
Arguments rs_w {W}.
Arguments rs_job {W}.

(** [ctrl.Result]. *)
Record Result := mkResult { res_Requeue : bool; res_RequeueAfter : Z }.
Definition zero_Result : Result := mkResult false 0.

Definition set_state (state : string) (s : SlurmBridgeJobStatus) : SlurmBridgeJobStatus :=
  mkSlurmBridgeJobStatus state (sjs_SubjobStatus s) (sjs_FetchResult s) (sjs_FetchResultStatus s) (sjs_ClusterEndPoint s).
Definition set_endpoint (e : string) (s : SlurmBridgeJobStatus) : SlurmBridgeJobStatus :=
  mkSlurmBridgeJobStatus (sjs_State s) (sjs_SubjobStatus s) (sjs_FetchResult s) (sjs_FetchResultStatus s) e.
Definition set_subjobs (m : gmap string SlurmSubjobStatus) (s : SlurmBridgeJobStatus) : SlurmBridgeJobStatus :=
  mkSlurmBridgeJobStatus (sjs_State s) (Some m) (sjs_FetchResult s) (sjs_FetchResultStatus s) (sjs_ClusterEndPoint s).
Definition set_fetch (b : bool) (s : SlurmBridgeJobStatus) : SlurmBridgeJobStatus :=
  mkSlurmBridgeJobStatus (sjs_State s) (sjs_SubjobStatus s) b (sjs_FetchResultStatus s) (sjs_ClusterEndPoint s).
Definition set_fetch_status (t : string) (s : SlurmBridgeJobStatus) : SlurmBridgeJobStatus :=
  mkSlurmBridgeJobStatus (sjs_State s) (sjs_SubjobStatus s) (sjs_FetchResult s) t (sjs_ClusterEndPoint s).

(** The name says the opposite: the job is still to be reconciled. *)
Definition isSBJFinished (j : SlurmBridgeJob) : bool :=
  negb (bool_decide (sjs_State (sbj_Status j) = PodSucceeded) || bool_decide (sjs_State (sbj_Status j) = PodFailed)).

(** [onOwnerCreateFunc] on a created SlurmBridgeJob: a change of the object in
    the cache of the manager. Every event passes. The scheme has no defaults
    for the kind, so [Scheme.Default] changes nothing. *)
Definition onOwnerCreateFunc (j : SlurmBridgeJob) : SlurmBridgeJob * bool :=
  (if bool_decide (sjs_State (sbj_Status j) = "")
   then mkSlurmBridgeJob (sbj_meta j) (sbj_Spec j) (set_state SlurmBridgeJobSubmitting (sbj_Status j)) else j, true).

(** A job is reconciled after its creation. *)
Lemma created_needs_reconcile j : sjs_State (sbj_Status j) = "" -> isSBJFinished (onOwnerCreateFunc j).1 = true.
Proof. intros H. unfold onOwnerCreateFunc. by rewrite bool_decide_eq_true_2. Qed.

Definition isFinishedFetchResult (status : string) : bool :=
  bool_decide (status = PodFailed) || bool_decide (status = PodSucceeded).

Definition sizecar_key (j : SlurmBridgeJob) : Key :=
  (sbj_namespace j, genPodNameByPodRole j SlurmBridgeJobPodRoleSizeCar).
Definition worker_key (j : SlurmBridgeJob) : Key :=
  (sbj_namespace j, genPodNameByPodRole j SlurmBridgeJobPodRoleSizeWorker).
Definition fetcher_name (j : SlurmBridgeJob) : string := sbj_name j +:+ "-result-fetcher".
Definition fetcher_key (j : SlurmBridgeJob) : Key := (sbj_namespace j, fetcher_name j).

(** The text of a validation error. *)
Definition validation_message (e : error) : string := match e with ErrNew msg => msg | _ => "" end.

(** ** Result fetching job *)

Definition result_to : string := "/result".

Definition fetcher_container (j : SlurmBridgeJob) (volume : Volume) (sub : SlurmSubjobStatus) : Container := {|
  ct_Name := sub_Name sub +:+ "-" +:+ sub_ID sub;
  ct_Image := "docker.io/chriskery/result-fetcher:latest";
  ct_ImagePullPolicy := "";
  ct_Command := ["sh"; "-c";
    "/result-fetcher --from " +:+ sub_StdOut sub +:+ " --to " +:+ result_to +:+ "/" +:+ sbj_name j +:+
    " --endpoint " +:+ sjs_ClusterEndPoint (sbj_Status j) +:+ " "];
  ct_Args := [];
  ct_WorkingDir := "";
  ct_Requests := ∅;
  ct_Limits := ∅;
  ct_SecurityContext := None;
  ct_Env := [];
  ct_Ports := [];
  ct_VolumeMounts := [mkVolumeMount (vol_Name volume) result_to] |}.

(** The containers, in the order [range] visits the map of subjobs. *)
Definition getJobResultContainers (order : list SlurmSubjobStatus) (j : SlurmBridgeJob) : res (list Container) :=
  mapR (fun sub => result ← of_option NilDeref (sp_Result (sbj_Spec j));
                   Ok (fetcher_container j (jr_Volume result) sub)) order.

Definition newJobForSJResult (order : list SlurmSubjobStatus) (j : SlurmBridgeJob) : res Job :=
  containers ← getJobResultContainers order j;
  result ← of_option NilDeref (sp_Result (sbj_Spec j));
  Ok {| jb_meta := add_owner (new_meta (fetcher_name j) (sbj_namespace j) None)
          (mkOwnerReference GroupVersion_String SlurmBridgeJobKind (sbj_name j) (m_UID (sbj_meta j)) true true);
        jb_Containers := containers;
        jb_RestartPolicy := "Never";
        jb_Volumes := [jr_Volume result];
        jb_BackoffLimit := Some 0%Z;
        jb_Succeeded := 0;
        jb_Failed := 0 |}.

(** ** Worker pods *)

Definition getWorkerPodContainerSecurityContext (info : JobInfo) : SecurityContext :=
  mkSecurityContext (Some (ParseInt_ (GetUserId (Some info)))).

Definition worker_container (info : JobInfo) : Container := {|
  ct_Name := ji_Id info;
  ct_Image := "useless-image";
  ct_ImagePullPolicy := "";
  ct_Command := [];
  ct_Args := [];
  ct_WorkingDir := ji_WorkingDir info;
  ct_Requests := ∅;
  ct_Limits := ∅;
  ct_SecurityContext := Some (getWorkerPodContainerSecurityContext info);
  ct_Env := [];
  ct_Ports := [];
  ct_VolumeMounts := [] |}.

Section reconcile.
Context {W : Type} {API : KubeAPI W} {PT : ProtoTime} {JR : Json JobInfoResponse}.
Context (SetControllerReference : SlurmBridgeJob -> ObjectMeta -> res ObjectMeta).
Context (NameIsDNS1035Label : string -> list string).
(** The order in which [range] visits a map of subjobs. *)
Context (range_order : gmap string SlurmSubjobStatus -> list SlurmSubjobStatus).

Definition on_api {A} (m : M W A) : M (RS W) A :=
  fun s => let '(r, w') := m (rs_w s) in (r, mkRS w' (rs_job s)).
Definition job : M (RS W) SlurmBridgeJob := fun s => (Ok (rs_job s), s).
Definition update_status (f : SlurmBridgeJobStatus -> SlurmBridgeJobStatus) : M (RS W) unit :=
  modify (fun s => mkRS (rs_w s) (with_status (rs_job s) (f (sbj_Status (rs_job s))))).
Definition event (type reason message : string) : M (RS W) unit :=
  on_api (api_Event (mkEvent type (NewReason SlurmBridgeJobKind reason) message)).

Definition newWorkerPodForSJ (sizecarPod : Pod) (j : SlurmBridgeJob) (info : JobInfoResponse) : res Pod :=
  labels ← map_set (pod_labels sizecarPod) LabelsRole SlurmBridgeJobPodRoleSizeWorker;
  let meta := new_meta (genPodNameByPodRole j SlurmBridgeJobPodRoleSizeWorker) (sbj_namespace j) (Some labels) in
  let spec := {|
    spec_NodeName := spec_NodeName (pod_spec sizecarPod);
    spec_Affinity := None;
    spec_SecurityContext :=
      Some (mkPodSecurityContext (sp_RunAsUser (sbj_Spec j)) (sp_RunAsGroup (sbj_Spec j)));
    spec_ServiceAccountName := "";
    spec_Tolerations := DefaultTolerations;
    spec_Containers := worker_container <$> jresp_Info info;
    spec_RestartPolicy := "Never";
    spec_Volumes := [] |} in
  meta ← SetControllerReference j meta;
  Ok (mkPod meta spec zero_PodStatus).

Definition waiting : M (RS W) unit :=
  event "Normal" SlurmBridgeJobResultFetchRunningReason "Waiting size car pod to be submitted".

Definition ReconcileWorkerPods (sizecarPod : Pod) : M (RS W) unit :=
  match pod_labels sizecarPod with
  | None => waiting
  | Some labels =>
      match labels !! LabelSlurmBridgeJobId with
      | None => waiting
      | Some _ =>
          info ← lift (Unmarshal (st_Message (pod_status sizecarPod)));
          if (length (jresp_Info info) =? 0)%nat then waiting
          else
            j ← job;
            sjPod ← lift (newWorkerPodForSJ sizecarPod j info);
            _ ← on_api (api_CreatePod sjPod);
            mret tt
      end
  end.

(** What the status says about one Slurm job. The two output files change
    places. *)
Definition subjob_of (info : JobInfo) : SlurmSubjobStatus := {|
  sub_ID := ji_Id info;
  sub_UserID := ji_UserId info;
  sub_ArrayJobID := ji_ArrayId info;
  sub_Name := ji_Name info;
  sub_ExitCode := ji_ExitCode info;
  sub_State := JobStatus_String (ji_Status info);
  sub_SubmitTime := Some (AsTime (ji_SubmitTime info));
  sub_StartTime := Some (AsTime (ji_StartTime info));
  sub_RunTime := DurationString (ji_RunTime info);
  sub_TimeLimit := DurationString (ji_TimeLimit info);
  sub_WorkDir := ji_WorkingDir info;
  sub_StdOut := ji_StdErr info;
  sub_StdErr := ji_StdOut info;
  sub_Partition := ji_Partition info;
  sub_NodeList := ji_NodeList info;
  sub_BatchHost := ji_BatchHost info;
  sub_NumNodes := ji_NumNodes info |}.

Definition add_subjobs (infos : list JobInfo) (m : gmap string SlurmSubjobStatus) : gmap string SlurmSubjobStatus :=
  foldl (fun m info => <[ji_Id info := subjob_of info]> m) m infos.

(** [pod] is nil when the sizing pod was not created. *)
Definition UpdateSBJStatus (pod : option Pod) : M (RS W) unit :=
  pod ← lift (of_option NilDeref pod);
  j ← job;
  let phase := st_Phase (pod_status pod) in
  when (negb (bool_decide (sjs_State (sbj_Status j) = phase)))
    (event "Normal" SlurmBridgeJobStatusChangeReason ("SlurmBridgeJob status change to " +:+ phase);;
     update_status (set_state phase));;
  match pod_annotations pod with
  | Some annotations =>
      match annotations !! LabelAgentEndPoint with
      | Some endpoint => update_status (set_endpoint endpoint)
      | None => mret tt
      end
  | None => mret tt
  end;;
  if bool_decide (st_Message (pod_status pod) = "") then mret tt
  else
    info ← lift (Unmarshal (st_Message (pod_status pod)));
    j ← job;
    update_status (set_subjobs (add_subjobs (jresp_Info info) (subjobs j))).

Definition ReconcileSizeCarPods : M (RS W) (option Pod) :=
  j ← job;
  if negb (size (subjobs j) =? 0)%nat then
    event "Warning" SlurmBridgeJobFailedReason
      "SlurmBridgeJob status change to failed, because pod not found but sub job status not empty";;
    update_status (set_state PodFailed);;
    mret None
  else
    sjPod ← lift (newSizeCarPodForSJ SetControllerReference j);
    created ← on_api (api_CreatePod sjPod);
    mret (Some created).

(** A [Get] whose [NotFound] is an answer: [None]. *)
Definition get_or_missing {A} (m : M W A) : M (RS W) (option A) :=
  r ← attempt (on_api m);
  match r with
  | inl a => mret (Some a)
  | inr e => if negb (IsNotFound e) then fail e else mret None
  end.

Definition ReconcileSlurmBridgeJob : M (RS W) unit :=
  j ← job;
  found ← get_or_missing (api_GetPod (sizecar_key j));
  sjSizeCarPod ← match found with Some p => mret (Some p) | None => ReconcileSizeCarPods end;
  UpdateSBJStatus sjSizeCarPod;;
  worker ← get_or_missing (api_GetPod (worker_key j));
  match worker with
  | Some _ => mret tt
  | None =>
      pod ← lift (of_option NilDeref sjSizeCarPod);
      ReconcileWorkerPods pod
  end.

Definition ReconcileSlurmBridgeJobResult : M (RS W) unit :=
  j ← job;
  if (size (subjobs j) =? 0)%nat then
    event "Warning" SlurmBridgeJobFailedValidationReason
      "SlurmBridgeJob had not sub jobs found, skip fetch result"
  else
    found ← get_or_missing (api_GetJob (fetcher_key j));
    go ← match found with
         | Some _ => mret true
         | None =>
             if sjs_FetchResult (sbj_Status j) then mret false
             else
               fj ← lift (newJobForSJResult (range_order (subjobs j)) j);
               _ ← on_api (api_CreateJob fj);
               event "Normal" SlurmBridgeJobResultFetchCreatedReason "SlurmBridgeJob begin to fetch result";;
               update_status (set_fetch true);;
               mret true
         end;
    when go
      (let fetchResultJob := default zero_Job found in
       if bool_decide (0 < jb_Succeeded fetchResultJob)%Z then
         update_status (set_fetch_status PodSucceeded);;
         event "Normal" SlurmBridgeJobResultFetchSucceedReason
           ("SlurmBridgeJob fetch result status change to " +:+ SlurmBridgeJobResultFetchSucceedReason)
       else if bool_decide (0 < jb_Failed fetchResultJob)%Z then
         update_status (set_fetch_status PodFailed);;
         event "Normal" SlurmBridgeJobResultFetchFailReason
           ("SlurmBridgeJob fetch result status change to " +:+ SlurmBridgeJobFailedReason)
       else
         update_status (set_fetch_status PodRunning);;
         event "Normal" SlurmBridgeJobResultFetchRunningReason
           ("SlurmBridgeJob fetch result status change to " +:+ SlurmBridgeJobResultFetchRunningReason)).

(** The steps for one job, and what happens to their error. The comparison
    of the two statuses has operands of different types and is always
    false: the status is always written back. *)
Definition reconcile_steps (j : SlurmBridgeJob) : M (RS W) (Result * option error) :=
  let needReconcile := isSBJFinished j in
  let finish : M (RS W) (Result * option error) :=
    j' ← job;
    _ ← attempt (on_api (api_UpdateSBJStatus j'));
    mret (zero_Result, None) in
  if negb needReconcile && bool_decide (sp_Result (sbj_Spec j) = None) then mret (zero_Result, None)
  else if negb needReconcile then
    if sjs_FetchResult (sbj_Status j) && isFinishedFetchResult (sjs_FetchResultStatus (sbj_Status j))
    then mret (zero_Result, None)
    else
      r ← attempt ReconcileSlurmBridgeJobResult;
      match r with
      | inr e => mret (mkResult true (30 * Second)%Z, Some e)
      | inl _ => finish
      end
  else
    r ← attempt ReconcileSlurmBridgeJob;
    match r with
    | inr e => mret (zero_Result, Some e)
    | inl _ => finish
    end.

Definition Reconcile (req : Key) : M W (Result * option error) :=
  got ← attempt (api_GetSBJ req);
  match got with
  | inr err => mret (zero_Result, if IsNotFound err then None else Some err)
  | inl j =>
      match ValidateV1alphaSlurmBridgeJob NameIsDNS1035Label j with
      | Some err =>
          api_Event (mkEvent "Warning" (NewReason SlurmBridgeJobKind SlurmBridgeJobFailedValidationReason)
            ("SlurmBridgeJob failed validation because " +:+ validation_message err));;
          mret (zero_Result, Some err)
      | None =>
          if bool_decide (is_Some (m_DeletionTimestamp (sbj_meta j))) then mret (zero_Result, None)
          else fun w => let '(r, s) := reconcile_steps j (mkRS w j) in (r, rs_w s)
      end
  end.
End reconcile.

(** ** What a reconciliation may change *)

Definition only_status (key : Key) (m m' : gmap Key SlurmBridgeJob) : Prop :=
  forall k, match m !! k with
            | Some old => exists st, m' !! k = Some (with_status old st) /\ (k <> key -> st = sbj_Status old)
            | None => m' !! k = None
            end.

(** The store changes a reconciliation of [j] may make. *)
Definition owned_change (j : SlurmBridgeJob) (s s' : Store) : Prop :=
  only_adds [sizecar_key j; worker_key j] (s_pods s) (s_pods s') /\
  only_adds [fetcher_key j] (s_jobs s) (s_jobs s') /\
  only_status (sbj_key j) (s_sbjs s) (s_sbjs s') /\
  s_nodes s' = s_nodes s.

Lemma with_status_status j st st' : with_status (with_status j st) st' = with_status j st'.
Proof. done. Qed.

#[export] Instance only_status_preorder key : PreOrder (only_status key).
Proof.
  split.
  - intros m k. destruct (m !! k) as [j|] eqn:E; [|done]. exists (sbj_Status j). by destruct j.
  - intros m1 m2 m3 H1 H2 k. specialize (H1 k). destruct (m1 !! k) as [j|].
    + destruct H1 as (st & H1 & E1). specialize (H2 k). rewrite H1 in H2. destruct H2 as (st' & H2 & E2).
      exists st'. rewrite with_status_status in H2. split; [done|]. intros Hk. by rewrite E2, <- E1.
    + specialize (H2 k). by rewrite H1 in H2.
Qed.

#[export] Instance owned_change_preorder j : PreOrder (owned_change j).
Proof.
  split.
  - intros s. split_and!; reflexivity.
  - intros s1 s2 s3 (H1 & H2 & H3 & H4) (G1 & G2 & G3 & G4). split_and!; etrans; done.
Qed.

Lemma only_status_insert key m old st :
  m !! key = Some old -> only_status key m (<[key := with_status old st]> m).
Proof.
  intros Hk k. destruct (decide (k = key)) as [->|Hn].
  - rewrite Hk. exists st. by rewrite lookup_insert_eq.
  - rewrite lookup_insert_ne by done. destruct (m !! k) as [j|]; [|done]. exists (sbj_Status j). by destruct j.
Qed.

Section facts.
Context {W : Type} {API : KubeAPI W} {KS : KubeStore W} {PT : ProtoTime} {JR : Json JobInfoResponse}.
Context (SetControllerReference : SlurmBridgeJob -> ObjectMeta -> res ObjectMeta).
Context (NameIsDNS1035Label : string -> list string).
Context (range_order : gmap string SlurmSubjobStatus -> list SlurmSubjobStatus).
(** A controller reference is an owner reference: the rest of the metadata stays. *)
Hypothesis SetControllerReference_meta : forall j m m', SetControllerReference j m = Ok m' ->
  exists o, m' = add_owner m o.

(** The copy of the job stays a copy of [j0], and the store changes as far
    as it may for [j0]. *)
Definition job_steps (j0 : SlurmBridgeJob) (s s' : RS W) : Prop :=
  sbj_meta (rs_job s) = sbj_meta j0 ->
  sbj_meta (rs_job s') = sbj_meta j0 /\ owned_change j0 (store (rs_w s)) (store (rs_w s')).

#[local] Instance job_steps_preorder j0 : PreOrder (job_steps j0).
Proof.
  split.
  - intros s H. split; [done|reflexivity].
  - intros s1 s2 s3 H1 H2 H. destruct (H1 H) as [E1 C1]. destruct (H2 E1) as [E2 C2].
    split; [done|]. by etrans.
Qed.

Lemma api_same {A} j0 (m : M W A) : (forall w, store (m w).2 = store w) -> steps (job_steps j0) (on_api m).
Proof.
  intros H s Hs. unfold on_api. specialize (H (rs_w s)). destruct (m (rs_w s)) as [r w']. cbn in *.
  split; [done|]. rewrite H. reflexivity.
Qed.

Lemma event_same e w : store (api_Event e w).2 = store w.
Proof. by destruct (Event_law e w) as (w' & -> & Hs). Qed.

Lemma event_steps j0 t r m : steps (job_steps j0) (event t r m).
Proof. apply api_same, event_same. Qed.

Lemma bind_job_steps {A} j0 (f : SlurmBridgeJob -> M (RS W) A) :
  (forall j, sbj_meta j = sbj_meta j0 -> steps (job_steps j0) (f j)) ->
  steps (job_steps j0) (job ≫= f).
Proof. intros H s Hs. unfold mbind, M_bind, job. by apply H. Qed.

Lemma update_status_steps j0 f : steps (job_steps j0) (update_status (W := W) f).
Proof. intros s Hs. split; [done|]. reflexivity. Qed.

Lemma get_steps {A} j0 (m : M W A) look : reads store m look -> steps (job_steps j0) (get_or_missing m).
Proof. intros H. unfold get_or_missing. by_steps ltac:(apply api_same, (reads_same store m look H)). Qed.

Lemma create_pod_steps j0 p :
  pod_key p ∈ [sizecar_key j0; worker_key j0] -> steps (job_steps j0) (on_api (api_CreatePod p)).
Proof.
  intros Hk s Hs. unfold on_api. destruct (CreatePod_law p (rs_w s)) as (r & w' & -> & H). cbn.
  split; [done|]. destruct r as [p'|e|q]; [| |done].
  - destruct H as (Hn & _ & ->). split_and!; [|reflexivity..]. by apply only_adds_insert.
  - rewrite H. reflexivity.
Qed.

Lemma create_job_steps j0 fj :
  job_key fj = fetcher_key j0 -> steps (job_steps j0) (on_api (api_CreateJob fj)).
Proof.
  intros Hk s Hs. unfold on_api. destruct (CreateJob_law fj (rs_w s)) as (r & w' & -> & H). cbn.
  split; [done|]. destruct r as [p'|e|q]; [| |done].
  - destruct H as (Hn & ->). split_and!; [reflexivity| |reflexivity..].
    apply only_adds_insert; [done|]. rewrite Hk. by left.
  - rewrite H. reflexivity.
Qed.

Lemma update_sbj_steps j0 j :
  sbj_meta j = sbj_meta j0 -> steps (job_steps j0) (on_api (api_UpdateSBJStatus j)).
Proof.
  intros Hm s Hs. unfold on_api. destruct (UpdateSBJStatus_law j (rs_w s)) as (r & w' & -> & H). cbn.
  split; [done|]. destruct r as [u|e|q]; [| |done].
  - destruct H as (old & Ho & ->). split_and!; [reflexivity..| |reflexivity].
    assert (Hk : sbj_key j = sbj_key j0) by (unfold sbj_key, sbj_name, sbj_namespace; by rewrite Hm).
    rewrite Hk in *. by apply only_status_insert.
  - rewrite H. reflexivity.
Qed.

Lemma same_names j j0 : sbj_meta j = sbj_meta j0 ->
  sizecar_key j = sizecar_key j0 /\ worker_key j = worker_key j0 /\ fetcher_key j = fetcher_key j0.
Proof.
  unfold sizecar_key, worker_key, fetcher_key, fetcher_name, genPodNameByPodRole, sbj_name, sbj_namespace.
  by intros ->.
Qed.

Lemma newSizeCarPod_key j p : newSizeCarPodForSJ SetControllerReference j = Ok p -> pod_key p = sizecar_key j.
Proof.
  unfold newSizeCarPodForSJ. intros H. apply bind_Ok_inv in H as (r & _ & H). cbv zeta in H.
  apply bind_Ok_inv in H as (a & _ & H). apply bind_Ok_inv in H as (m & Hm & H). injection H as <-.
  by apply SetControllerReference_meta in Hm as [o ->].
Qed.

Lemma newWorkerPod_key sp j info p :
  newWorkerPodForSJ SetControllerReference sp j info = Ok p -> pod_key p = worker_key j.
Proof.
  unfold newWorkerPodForSJ. intros H. apply bind_Ok_inv in H as (r & _ & H). cbv zeta in H.
  apply bind_Ok_inv in H as (m & Hm & H). injection H as <-.
  by apply SetControllerReference_meta in Hm as [o ->].
Qed.

Lemma newJob_key order j fj : newJobForSJResult order j = Ok fj -> job_key fj = fetcher_key j.
Proof.
  unfold newJobForSJResult. intros H. apply bind_Ok_inv in H as (cs & _ & H).
  apply bind_Ok_inv in H as (v & _ & H). by injection H as <-.
Qed.

(** A step that depends on the success of a pure computation. *)
Lemma bind_lift_steps {A B} j0 (r : res A) (f : A -> M (RS W) B) :
  (forall a, r = Ok a -> steps (job_steps j0) (f a)) -> steps (job_steps j0) (lift r ≫= f).
Proof.
  intros H s. unfold mbind, M_bind, lift. destruct r as [a|e|p]; [by apply H|reflexivity..].
Qed.

#[local] Ltac leaf :=
  first [apply event_steps | apply update_status_steps | apply bind_job_steps; intros ?j ?Hm
        | apply bind_lift_steps; intros ? ? | eapply get_steps; apply GetPod_law
        | eapply get_steps; apply GetJob_law].

Lemma ReconcileWorkerPods_steps j0 sp :
  steps (job_steps j0) (ReconcileWorkerPods SetControllerReference sp).
Proof.
  unfold ReconcileWorkerPods, waiting.
  by_steps ltac:(first [leaf | match goal with
    | H : newWorkerPodForSJ _ _ ?j _ = Ok ?p |- steps _ (on_api (api_CreatePod ?p)) =>
        apply create_pod_steps; rewrite (newWorkerPod_key _ _ _ _ H);
        destruct (same_names j j0) as (_ & -> & _); [done|]; right; by left
    end]).
Qed.

Lemma ReconcileSizeCarPods_steps j0 : steps (job_steps j0) (ReconcileSizeCarPods SetControllerReference).
Proof.
  unfold ReconcileSizeCarPods.
  by_steps ltac:(first [leaf | match goal with
    | H : newSizeCarPodForSJ _ ?j = Ok ?p |- steps _ (on_api (api_CreatePod ?p)) =>
        apply create_pod_steps; rewrite (newSizeCarPod_key _ _ H);
        destruct (same_names j j0) as (-> & _ & _); [done|]; by left
    end]).
Qed.

Lemma UpdateSBJStatus_steps j0 p : steps (job_steps j0) (UpdateSBJStatus p).
Proof. unfold UpdateSBJStatus. by_steps leaf. Qed.

Lemma ReconcileSlurmBridgeJob_steps j0 :
  steps (job_steps j0) (ReconcileSlurmBridgeJob SetControllerReference).
Proof.
  unfold ReconcileSlurmBridgeJob.
  by_steps ltac:(first [apply ReconcileWorkerPods_steps | apply ReconcileSizeCarPods_steps
                       | apply UpdateSBJStatus_steps | leaf]).
Qed.

Lemma ReconcileResult_steps j0 : steps (job_steps j0) (ReconcileSlurmBridgeJobResult range_order).
Proof.
  unfold ReconcileSlurmBridgeJobResult.
  by_steps ltac:(first [leaf | match goal with
    | H : newJobForSJResult _ ?j = Ok ?p |- steps _ (on_api (api_CreateJob ?p)) =>
        apply create_job_steps; rewrite (newJob_key _ _ _ H); by destruct (same_names j j0) as (_ & _ & ->)
    end]).
Qed.

Lemma reconcile_steps_steps j0 j :
  steps (job_steps j0) (reconcile_steps SetControllerReference range_order j).
Proof.
  unfold reconcile_steps. cbv zeta.
  by_steps ltac:(first [apply ReconcileResult_steps | apply ReconcileSlurmBridgeJob_steps | leaf
                       | by apply update_sbj_steps]).
Qed.

(** C10. A reconciliation of a job touches nothing but the job's own objects:
    no pod or fetch job is changed or deleted, a new pod is the job's sizing
    or worker pod, a new fetch job is the job's, no other SlurmBridgeJob
    changes, and of this one only the status. *)
Theorem Reconcile_owned req w :
  match s_sbjs (store w) !! req with
  | Some j => owned_change j (store w)
                (store (Reconcile SetControllerReference NameIsDNS1035Label range_order req w).2)
  | None => store (Reconcile SetControllerReference NameIsDNS1035Label range_order req w).2 = store w
  end.
Proof.
  unfold Reconcile, mbind, M_bind, attempt. destruct (GetSBJ_law req w) as (r & w1 & Hr & Hs & Hl).
  rewrite Hr. destruct r as [j|e|q]; [| |done].
  - rewrite Hl. destruct (ValidateV1alphaSlurmBridgeJob _ _) as [err|].
    + match goal with |- context [api_Event ?e w1] => pose proof (event_same e w1) as He; destruct (api_Event e w1) as [[u|e'|q] w2] end;
        cbn in *; rewrite He, Hs; reflexivity.
    + case_bool_decide; [cbn; rewrite Hs; reflexivity|].
      pose proof (reconcile_steps_steps j j (mkRS w1 j) eq_refl) as [_ Ho].
      destruct (reconcile_steps _ _ _ _) as [r s]. cbn in *. by rewrite <- Hs.
  - cbn. rewrite Hs. by destruct (s_sbjs (store w) !! req).
Qed.
End facts.

(** ** Reconciliations at a concrete server *)

Section server.
Context {PT : ProtoTime} {JR : Json JobInfoResponse}.
Context (SetControllerReference : SlurmBridgeJob -> ObjectMeta -> res ObjectMeta).
Context (NameIsDNS1035Label : string -> list string).
Context (range_order : gmap string SlurmSubjobStatus -> list SlurmSubjobStatus).
Hypothesis SetControllerReference_meta : forall j m m', SetControllerReference j m = Ok m' ->
  exists o, m' = add_owner m o.

(** The status after a look at the sizing pod. *)
Definition observed (pod : Pod) (info : JobInfoResponse) (s : SlurmBridgeJobStatus) : SlurmBridgeJobStatus :=
  let s := set_state (st_Phase (pod_status pod)) s in
  let s := match map_get (pod_annotations pod) LabelAgentEndPoint with Some e => set_endpoint e s | None => s end in
  if bool_decide (st_Message (pod_status pod) = "") then s
  else set_subjobs (add_subjobs (jresp_Info info) (default ∅ (sjs_SubjobStatus s))) s.

Lemma set_state_same s : set_state (sjs_State s) s = s.
Proof. by destruct s. Qed.

(** Events aside, the two states agree. *)
Definition same_store (w w' : Server) : Prop := sv_store w' = sv_store w.

Lemma UpdateSBJStatus_run pod info (s : RS Server) :
  (st_Message (pod_status pod) <> "" -> Unmarshal (st_Message (pod_status pod)) = Ok info) ->
  exists w', UpdateSBJStatus (Some pod) s =
      (Ok tt, mkRS w' (with_status (rs_job s) (observed pod info (sbj_Status (rs_job s))))) /\
    same_store (rs_w s) w'.
Proof.
  intros Hu. destruct s as [w j]. unfold UpdateSBJStatus, mbind, M_bind, lift, of_option, job.
  cbn [rs_w rs_job].
  assert (Hw : exists w', (when (negb (bool_decide (sjs_State (sbj_Status j) = st_Phase (pod_status pod))))
      (event "Normal" SlurmBridgeJobStatusChangeReason
         ("SlurmBridgeJob status change to " +:+ st_Phase (pod_status pod));;
       update_status (set_state (st_Phase (pod_status pod))))) (mkRS w j) =
    (Ok tt, mkRS w' (with_status j (set_state (st_Phase (pod_status pod)) (sbj_Status j)))) /\ same_store w w').
  { case_bool_decide as E; cbn [negb when].
    - exists w. split; [|done]. rewrite <- E, set_state_same. by destruct j.
    - eexists. split; [reflexivity|done]. }
  destruct Hw as (w' & Hw & Hsame). unfold mbind, M_bind in Hw. rewrite Hw.
  exists w'. split; [|done]. unfold observed, map_get.
  assert (Hann : forall st,
    (match pod_annotations pod with
     | Some annotations => match annotations !! LabelAgentEndPoint with
                           | Some endpoint => update_status (set_endpoint endpoint) | None => mret tt end
     | None => mret tt end) (mkRS w' (with_status j st)) =
    (Ok tt, mkRS w' (with_status j
      match pod_annotations pod ≫= (λ m, m !! LabelAgentEndPoint) with Some e => set_endpoint e st | None => st end))).
  { intros st. destruct (pod_annotations pod) as [a|]; [|done]. cbn [mbind option_bind].
    destruct (a !! LabelAgentEndPoint). reflexivity. done. }
  rewrite Hann. clear Hw. case_bool_decide as Hm; [done|].
  rewrite Hu by done. done.
Qed.

Lemma get_run {A} (look : Store -> option A) (s : RS Server) :
  get_or_missing (sv_read look) s = (Ok (look (sv_store (rs_w s))), s).
Proof.
  destruct s as [w j]. unfold get_or_missing, mbind, M_bind, attempt, on_api, sv_read. cbn.
  by destruct (look (sv_store w)).
Qed.

(** The labels of a request never say that the job was submitted. *)
Lemma request_labels_no_id spec : getResourceRequestLabelsForPod spec !! LabelSlurmBridgeJobId = None.
Proof.
  unfold getResourceRequestLabelsForPod, add_int_label. cbv zeta.
  repeat case_bool_decide; rewrite ?lookup_insert_ne by done; apply lookup_empty.
Qed.

Lemma newSizeCarPod_meta j p :
  newSizeCarPodForSJ SetControllerReference j = Ok p ->
  exists o, pod_meta p = add_owner (new_meta (genPodNameByPodRole j SlurmBridgeJobPodRoleSizeCar) (sbj_namespace j)
    (Some (<[LabelsRole := SlurmBridgeJobPodRoleSizeCar]> (getResourceRequestLabelsForPod (sbj_Spec j))))) o.
Proof.
  unfold newSizeCarPodForSJ. intros H. apply bind_Ok_inv in H as (r & _ & H). cbv zeta in H.
  apply bind_Ok_inv in H as (a & _ & H). apply bind_Ok_inv in H as (m & Hm & H). injection H as <-.
  by apply SetControllerReference_meta in Hm as [o ->]; exists o.
Qed.

(** A stored job that is to be reconciled. *)
Definition due (req : Key) (j : SlurmBridgeJob) (w : Server) : Prop :=
  s_sbjs (sv_store w) !! req = Some j /\ sbj_key j = req /\
  ValidateV1alphaSlurmBridgeJob NameIsDNS1035Label j = None /\
  m_DeletionTimestamp (sbj_meta j) = None /\ isSBJFinished j = true.

(** What is left of [Reconcile] for such a job. *)
Lemma Reconcile_due req j w st w' :
  due req j w ->
  ReconcileSlurmBridgeJob SetControllerReference (mkRS w j) = (Ok tt, mkRS w' (with_status j st)) ->
  s_sbjs (sv_store w') = s_sbjs (sv_store w) ->
  exists w'', Reconcile SetControllerReference NameIsDNS1035Label range_order req w = (Ok (zero_Result, None), w'') /\
    sv_store w'' = put_sbj (sv_store w') req (with_status j st).
Proof.
  intros (Hj & Hk & Hv & Hd & Hf) Hr Hs. unfold Reconcile, mbind, M_bind, attempt. cbn [api_GetSBJ store_api].
  unfold sv_read. rewrite Hj, Hv, Hd. rewrite bool_decide_eq_false_2 by (by intros []).
  unfold reconcile_steps. rewrite Hf. cbn [negb andb]. unfold mbind, M_bind, attempt. rewrite Hr.
  cbn -[with_status sbj_key]. unfold on_api. cbn -[with_status sbj_key].
  change (sbj_key (with_status j st)) with (sbj_key j). rewrite Hk, Hs, Hj. cbn -[with_status].
  eexists. split; [reflexivity|done].
Qed.

(** The first reconciliation of a new job creates its sizing pod and
    nothing else, and the job is pending from then on. *)
Lemma Reconcile_creates_sizecar req j p w :
  due req j w -> size (subjobs j) = 0%nat ->
  s_pods (sv_store w) !! sizecar_key j = None -> s_pods (sv_store w) !! worker_key j = None ->
  newSizeCarPodForSJ SetControllerReference j = Ok p ->
  exists w', Reconcile SetControllerReference NameIsDNS1035Label range_order req w = (Ok (zero_Result, None), w') /\
    sv_store w' = put_sbj (put_pod (sv_store w) (sizecar_key j) (admit_pod p)) req
                    (with_status j (set_state PodPending (sbj_Status j))).
Proof.
  intros Hdue Hsub Hsc Hwk Hp. destruct (newSizeCarPod_meta j p Hp) as [o Ho].
  assert (Hkey : pod_key p = sizecar_key j).
  { unfold pod_key, pod_namespace, pod_name. by rewrite Ho. }
  set (w1 := mkServer (put_pod (sv_store w) (sizecar_key j) (admit_pod p)) (sv_events w)).
  destruct (UpdateSBJStatus_run (admit_pod p) (mkJobInfoResponse []) (mkRS w1 j)) as (w2 & Hu & Hs2); [done|].
  assert (Hobs : observed (admit_pod p) (mkJobInfoResponse []) (sbj_Status j) = set_state PodPending (sbj_Status j)).
  { unfold observed, map_get, pod_annotations. cbn [pod_meta admit_pod]. by rewrite Ho. }
  assert (Hstep : exists w3, ReconcileSlurmBridgeJob SetControllerReference (mkRS w j) =
      (Ok tt, mkRS w3 (with_status j (set_state PodPending (sbj_Status j)))) /\ sv_store w3 = sv_store w1).
  { unfold ReconcileSlurmBridgeJob, mbind, M_bind, job. cbn [rs_job rs_w api_GetPod store_api].
    rewrite get_run. cbn [rs_w]. rewrite Hsc.
    unfold ReconcileSizeCarPods, mbind, M_bind, job, lift. cbn [rs_job]. rewrite Hsub. cbn [Nat.eqb negb].
    rewrite Hp. unfold on_api at 1. cbn [rs_w rs_job api_CreatePod store_api]. rewrite Hkey, Hsc.
    cbn [mret M_ret]. fold w1. rewrite Hu. cbn [rs_job]. rewrite Hobs.
    rewrite get_run. cbn [rs_w]. rewrite Hs2. unfold w1. cbn [rs_w sv_store s_pods put_pod].
    rewrite lookup_insert_ne, Hwk.
    2: { unfold sizecar_key, worker_key, genPodNameByPodRole. intros [= E]. by apply (inj (String.append _)) in E. }
    cbn [of_option]. unfold ReconcileWorkerPods, waiting, pod_labels. cbn [pod_meta admit_pod].
    rewrite Ho. cbn [m_Labels add_owner new_meta set_uid]. rewrite lookup_insert_ne, request_labels_no_id by done.
    eexists. split; [reflexivity|]. cbn. exact Hs2. }
  destruct Hstep as (w3 & H3 & Hs3).
  destruct (Reconcile_due req j w _ w3 Hdue H3) as (w4 & Hrec & Hs4); [by rewrite Hs3|].
  exists w4. split; [done|]. by rewrite Hs4, Hs3.
Qed.

(** Once the sizing pod carries a Slurm job id and the jobs' details, a
    reconciliation copies them into the status and creates the worker pod:
    on the sizing pod's node, one container per Slurm job. *)
Lemma Reconcile_creates_worker req j sp info wp w :
  due req j w ->
  s_pods (sv_store w) !! sizecar_key j = Some sp -> s_pods (sv_store w) !! worker_key j = None ->
  is_Some (map_get (pod_labels sp) LabelSlurmBridgeJobId) ->
  st_Message (pod_status sp) <> "" -> Unmarshal (st_Message (pod_status sp)) = Ok info -> jresp_Info info <> [] ->
  newWorkerPodForSJ SetControllerReference sp (with_status j (observed sp info (sbj_Status j))) info = Ok wp ->
  exists w', Reconcile SetControllerReference NameIsDNS1035Label range_order req w = (Ok (zero_Result, None), w') /\
    sv_store w' = put_sbj (put_pod (sv_store w) (worker_key j) (admit_pod wp)) req
                    (with_status j (observed sp info (sbj_Status j))) /\
    (ct_Name <$> spec_Containers (pod_spec wp)) = (ji_Id <$> jresp_Info info) /\
    spec_NodeName (pod_spec wp) = spec_NodeName (pod_spec sp).
Proof.
  intros Hdue Hsc Hwk [id Hid] Hm Hu Hi Hwp.
  destruct (UpdateSBJStatus_run sp info (mkRS w j)) as (w1 & Hup & Hs1); [done|].
  assert (Hkey : pod_key wp = worker_key j /\
    (ct_Name <$> spec_Containers (pod_spec wp)) = (ji_Id <$> jresp_Info info) /\
    spec_NodeName (pod_spec wp) = spec_NodeName (pod_spec sp)).
  { revert Hwp. unfold newWorkerPodForSJ. intros H. apply bind_Ok_inv in H as (l & _ & H). cbv zeta in H.
    apply bind_Ok_inv in H as (m & Hmeta & H). injection H as <-.
    apply SetControllerReference_meta in Hmeta as [o ->]. split_and!; [done| |done].
    cbn. by rewrite <- list_fmap_compose. }
  destruct Hkey as (Hkey & Hcts & Hnode).
  assert (Hstep : exists w3, ReconcileSlurmBridgeJob SetControllerReference (mkRS w j) =
      (Ok tt, mkRS w3 (with_status j (observed sp info (sbj_Status j)))) /\
      sv_store w3 = put_pod (sv_store w) (worker_key j) (admit_pod wp)).
  { unfold ReconcileSlurmBridgeJob, mbind, M_bind, job. cbn [rs_job rs_w api_GetPod store_api].
    rewrite get_run. cbn [rs_w]. rewrite Hsc. cbn [mret M_ret]. rewrite Hup. cbn [rs_job].
    rewrite get_run. unfold same_store in Hs1. cbn [rs_w] in *. rewrite Hs1, Hwk. unfold lift. cbn [of_option].
    unfold ReconcileWorkerPods. unfold map_get in Hid. destruct (pod_labels sp) as [labels|]; [|done].
    cbn [mbind option_bind] in Hid. rewrite Hid. unfold mbind, M_bind, lift. rewrite Hu.
    rewrite (proj2 (Nat.eqb_neq _ 0)) by (by destruct (jresp_Info info)).
    unfold job. cbn [rs_job]. rewrite Hwp. unfold on_api. cbn [rs_w rs_job api_CreatePod store_api].
    rewrite Hkey, Hs1, Hwk. eexists. split; [reflexivity|]. done. }
  destruct Hstep as (w3 & H3 & Hs3).
  destruct (Reconcile_due req j w _ w3 Hdue H3) as (w4 & Hrec & Hs4); [by rewrite Hs3|].
  exists w4. split_and!; [done|by rewrite Hs4, Hs3|done|done].
Qed.

(** A job whose sizing pod has disappeared after its Slurm jobs were
    seen makes the operator panic: no pod is created, and the nil pod is
    then dereferenced. *)
Theorem Reconcile_lost_pod_panics req j w :
  due req j w -> size (subjobs j) <> 0%nat -> s_pods (sv_store w) !! sizecar_key j = None ->
  exists w', Reconcile SetControllerReference NameIsDNS1035Label range_order req w = (Panic NilDeref, w') /\
    sv_store w' = sv_store w.
Proof.
  intros (Hj & Hk & Hv & Hd & Hf) Hsub Hsc. unfold Reconcile, mbind, M_bind, attempt. cbn [api_GetSBJ store_api].
  unfold sv_read. rewrite Hj, Hv, Hd. rewrite bool_decide_eq_false_2 by (by intros []).
  unfold reconcile_steps. rewrite Hf. cbn [negb andb]. unfold mbind, M_bind, attempt.
  unfold ReconcileSlurmBridgeJob, mbind, M_bind, job. cbn [rs_job rs_w api_GetPod store_api].
  rewrite get_run. cbn [rs_w]. rewrite Hsc.
  unfold ReconcileSizeCarPods, mbind, M_bind, job. cbn [rs_job].
  rewrite (proj2 (Nat.eqb_neq _ _) Hsub). eexists. split; [reflexivity|done].
Qed.

(** *** Finished jobs *)

(** A stored job that has ended. *)
Definition over (req : Key) (j : SlurmBridgeJob) (w : Server) : Prop :=
  s_sbjs (sv_store w) !! req = Some j /\ sbj_key j = req /\
  ValidateV1alphaSlurmBridgeJob NameIsDNS1035Label j = None /\
  m_DeletionTimestamp (sbj_meta j) = None /\ isSBJFinished j = false.

(** What a fetch job says about itself. *)
Definition fetch_phase (fj : Job) : string :=
  if bool_decide (0 < jb_Succeeded fj)%Z then PodSucceeded
  else if bool_decide (0 < jb_Failed fj)%Z then PodFailed else PodRunning.

(** The store after a reconciliation of a job that has ended. *)
Definition fetched (order : list SlurmSubjobStatus) (req : Key) (j : SlurmBridgeJob) (s : Store) : option Store :=
  let st := sbj_Status j in
  match sp_Result (sbj_Spec j) with
  | None => Some s
  | Some result =>
      if sjs_FetchResult st && isFinishedFetchResult (sjs_FetchResultStatus st) then Some s
      else if (size (subjobs j) =? 0)%nat then Some (put_sbj s req j)
      else
        match s_jobs s !! fetcher_key j with
        | Some fj => Some (put_sbj s req (with_status j (set_fetch_status (fetch_phase fj) st)))
        | None =>
            if sjs_FetchResult st then Some (put_sbj s req j)
            else match newJobForSJResult order j with
                 | Ok fj => Some (put_sbj (put_job s (fetcher_key j) fj) req (with_status j (set_fetch_status PodRunning (set_fetch true st))))
                 | _ => None
                 end
        end
  end.

Lemma with_status_same j : with_status j (sbj_Status j) = j.
Proof. by destruct j. Qed.

(** The steps about the results of such a job, up to events. *)
Lemma ReconcileResult_run req j w s' result :
  sp_Result (sbj_Spec j) = Some result -> sjs_FetchResult (sbj_Status j) && isFinishedFetchResult (sjs_FetchResultStatus (sbj_Status j)) = false ->
  fetched (range_order (subjobs j)) req j (sv_store w) = Some s' ->
  exists w1 st, ReconcileSlurmBridgeJobResult range_order (mkRS w j) = (Ok tt, mkRS w1 (with_status j st)) /\
    s_sbjs (sv_store w1) = s_sbjs (sv_store w) /\ put_sbj (sv_store w1) req (with_status j st) = s'.
Proof.
  intros Hres Hopen Hs. unfold fetched in Hs. rewrite Hres, Hopen in Hs.
  unfold ReconcileSlurmBridgeJobResult, mbind, M_bind, job. cbn [rs_job rs_w api_GetJob store_api].
  destruct (Nat.eqb (size (subjobs j)) 0).
  { injection Hs as <-. exists (mkServer (sv_store w) (sv_events w ++ [mkEvent "Warning" (NewReason SlurmBridgeJobKind SlurmBridgeJobFailedValidationReason)
      "SlurmBridgeJob had not sub jobs found, skip fetch result"])), (sbj_Status j). by rewrite with_status_same. }
  rewrite get_run. cbn [rs_w]. destruct (s_jobs (sv_store w) !! fetcher_key j) as [fj|] eqn:Hfj; cbn [mret M_ret].
  - injection Hs as <-. cbn [default from_option when]. unfold fetch_phase, event, on_api, update_status, modify, mbind, M_bind. cbn -[with_status].
    repeat case_bool_decide; eexists _, _; (split; [reflexivity|]); done.
  - destruct (sjs_FetchResult (sbj_Status j)) eqn:Hfr; cbn [mret M_ret].
    { injection Hs as <-. exists w, (sbj_Status j). by rewrite with_status_same. }
    destruct (newJobForSJResult (range_order (subjobs j)) j) as [fj| |] eqn:Hnew; [|done..]. injection Hs as <-.
    assert (Hkey : job_key fj = fetcher_key j).
    { unfold newJobForSJResult in Hnew. apply bind_Ok_inv in Hnew as (l & _ & H). apply bind_Ok_inv in H as (v & _ & [= <-]). done. }
    unfold lift, event, on_api, update_status, modify, mbind, M_bind. cbn -[with_status job_key]. rewrite Hkey, Hfj. cbn -[with_status].
    eexists _, _. split; [reflexivity|]. by split.
Qed.

Lemma Reconcile_over req j w s' :
  over req j w -> fetched (range_order (subjobs j)) req j (sv_store w) = Some s' ->
  exists w', Reconcile SetControllerReference NameIsDNS1035Label range_order req w = (Ok (zero_Result, None), w') /\ sv_store w' = s'.
Proof.
  intros (Hj & Hk & Hv & Hd & Hf) Hs. unfold Reconcile, mbind, M_bind, attempt. cbn [api_GetSBJ store_api].
  unfold sv_read. rewrite Hj, Hv, Hd. rewrite bool_decide_eq_false_2 by (by intros []).
  unfold reconcile_steps. rewrite Hf. cbn [negb andb].
  destruct (sp_Result (sbj_Spec j)) as [result|] eqn:Hres.
  2: { unfold fetched in Hs. rewrite Hres in Hs. injection Hs as <-. rewrite bool_decide_eq_true_2 by done. by exists w. }
  rewrite bool_decide_eq_false_2 by done.
  destruct (sjs_FetchResult (sbj_Status j) && isFinishedFetchResult (sjs_FetchResultStatus (sbj_Status j))) eqn:Hopen.
  { unfold fetched in Hs. rewrite Hres, Hopen in Hs. injection Hs as <-. by exists w. }
  destruct (ReconcileResult_run req j w s' result Hres Hopen Hs) as (w1 & st & Hrun & Hsame & <-).
  unfold mbind, M_bind, attempt. rewrite Hrun. cbn -[with_status sbj_key]. unfold on_api. cbn -[with_status sbj_key].
  change (sbj_key (with_status j st)) with (sbj_key j). rewrite Hk, Hsame, Hj. cbn -[with_status].
  eexists. split; [reflexivity|done].
Qed.


(** A job that has ended stays so while its results are fetched. *)
Lemma over_status req j st w w' :
  over req j w -> sjs_State st = sjs_State (sbj_Status j) -> s_sbjs (sv_store w') !! req = Some (with_status j st) ->
  over req (with_status j st) w'.
Proof.
  intros (_ & Hk & Hv & Hd & Hf) Hst Hw. split_and!; [done..|]. unfold isSBJFinished in *. cbn. by rewrite Hst.
Qed.

(** C22. The results of a job are fetched once. The first reconciliation after
    a job with a result volume has ended creates the job that fetches them
    and says that it runs; when the cluster reports that this job has ended,
    the next one says how; from then on a reconciliation changes nothing,
    whatever happens to the other objects and even when the fetch job is
    deleted. *)
Theorem results_fetched_once req j w fj :
  over req j w -> is_Some (sp_Result (sbj_Spec j)) -> size (subjobs j) <> 0%nat ->
  sjs_FetchResult (sbj_Status j) = false -> s_jobs (sv_store w) !! fetcher_key j = None ->
  newJobForSJResult (range_order (subjobs j)) j = Ok fj ->
  let running := with_status j (set_fetch_status PodRunning (set_fetch true (sbj_Status j))) in
  exists w1, Reconcile SetControllerReference NameIsDNS1035Label range_order req w = (Ok (zero_Result, None), w1) /\
    sv_store w1 = put_sbj (put_job (sv_store w) (fetcher_key j) fj) req running /\
  forall fj' w2, sv_store w2 = put_job (sv_store w1) (fetcher_key j) fj' -> fetch_phase fj' <> PodRunning ->
  let ended := with_status j (set_fetch_status (fetch_phase fj') (set_fetch true (sbj_Status j))) in
  exists w3, Reconcile SetControllerReference NameIsDNS1035Label range_order req w2 = (Ok (zero_Result, None), w3) /\
    sv_store w3 = put_sbj (sv_store w2) req ended /\
  forall w4, s_sbjs (sv_store w4) !! req = Some ended ->
    exists w5, Reconcile SetControllerReference NameIsDNS1035Label range_order req w4 = (Ok (zero_Result, None), w5) /\
      sv_store w5 = sv_store w4.
Proof.
  intros Ho [result Hres] Hsub%Nat.eqb_neq Hfr Hfj Hnew running.
  destruct (Reconcile_over req j w (put_sbj (put_job (sv_store w) (fetcher_key j) fj) req running) Ho) as (w1 & Hrun1 & Hs1).
  { unfold fetched. by rewrite Hres, Hfr, Hsub, Hfj, Hnew. }
  exists w1. split; [done|]. split; [done|]. intros fj' w2 Hs2 Hphase ended.
  assert (Hj2 : s_sbjs (sv_store w2) !! req = Some running) by (rewrite Hs2, Hs1; cbn -[running]; by rewrite lookup_insert_eq).
  destruct (Reconcile_over req running w2 (put_sbj (sv_store w2) req ended)) as (w3 & Hrun3 & Hs3); [by apply (over_status _ _ _ w)|..].
  { unfold fetched. cbn [sbj_Spec running with_status]. rewrite Hres. change (subjobs running) with (subjobs j). rewrite Hsub.
    change (fetcher_key running) with (fetcher_key j). rewrite Hs2. cbn [s_jobs put_job]. by rewrite lookup_insert_eq. }
  exists w3. split; [done|]. split; [done|]. intros w4 Hj4.
  destruct (Reconcile_over req ended w4 (sv_store w4)) as (w5 & Hrun5 & Hs5); [by apply (over_status _ _ _ w)|..|by exists w5].
  unfold fetched. cbn [sbj_Spec ended with_status]. rewrite Hres. cbn [sjs_FetchResult sjs_FetchResultStatus sbj_Status with_status set_fetch_status set_fetch andb].
  unfold isFinishedFetchResult. unfold fetch_phase in *. by repeat case_bool_decide.
Qed.
End server.

(** ** Examples *)

Module ReconcileExamples.

Definition demo_ref (j : SlurmBridgeJob) (m : ObjectMeta) : res ObjectMeta :=
  Ok (add_owner m (mkOwnerReference GroupVersion_String SlurmBridgeJobKind (sbj_name j) (m_UID (sbj_meta j)) true true)).
Lemma demo_ref_meta : forall j m m', demo_ref j m = Ok m' -> exists o, m' = add_owner m o.
Proof. intros j m m' [= <-]. by eexists. Defined.

Definition demo_names (name : string) : list string := [].
Definition demo_order (m : gmap string SlurmSubjobStatus) : list SlurmSubjobStatus := (map_to_list m).*2.

Definition demo_info (id : string) : JobInfo :=
  mkJobInfo id "1000" "train" "0:0" JobStatus_RUNNING None None None None "/work" "out" "err" "debug" "n1" "n1" "1" "" "" None.
Definition demo_infos : JobInfoResponse := mkJobInfoResponse [demo_info "7"; demo_info "8"].
(** Two job ids as a text. *)
#[local] Instance demo_json : Json JobInfoResponse := {|
  Marshal _ := Ok "7,8";
  Unmarshal text := Ok (mkJobInfoResponse (demo_info <$> Split text ",")) |}.

Definition demo_spec : SlurmBridgeJobSpec :=
  mkSlurmBridgeJobSpec "debug" ("#!/bin/sh" +:+ LF +:+ "#SBATCH --nodes=2" +:+ LF +:+ "srun hostname" +:+ LF)
    (Some 1000%Z) None "" 2 0 0 0 "/work" 0 "" "" None.
Definition demo_sbj : SlurmBridgeJob :=
  mkSlurmBridgeJob (new_meta "train" "default" None) demo_spec zero_Status.
Definition demo_req : Key := ("default", "train").
Definition demo_pod : Pod :=
  match newSizeCarPodForSJ demo_ref demo_sbj with Ok p => p | _ => mkPod (new_meta "" "" None) (mkPodSpec "" None None "" [] [] "" []) zero_PodStatus end.
(** The pod once the virtual kubelet has submitted it. *)
Definition submitted_pod : Pod :=
  mkPod (set_labels (pod_meta demo_pod)
           ((<[LabelSlurmBridgeJobId := "7"]>) <$> pod_labels demo_pod) (Some {[LabelAgentEndPoint := "agent:9999"]}))
        (pod_spec demo_pod) (mkPodStatus PodRunning [] "7,8" None []).
Definition new_world : Server := mkServer (mkStore ∅ ∅ {[demo_req := demo_sbj]} []) [].
Definition submitted_world : Server :=
  mkServer (mkStore {[sizecar_key demo_sbj := submitted_pod]} ∅ {[demo_req := demo_sbj]} []) [].
(** The job has seen a Slurm job, and the pod is gone. *)
Definition lost_sbj : SlurmBridgeJob :=
  with_status demo_sbj (set_subjobs {["7" := subjob_of (PT := proto_time_impl) (demo_info "7")]} zero_Status).
Definition lost_world : Server := mkServer (mkStore ∅ ∅ {[demo_req := lost_sbj]} []) [].

Lemma Reconcile_owned_witness :
  owned_change demo_sbj (sv_store new_world)
    (sv_store (Reconcile (PT := proto_time_impl) demo_ref demo_names demo_order demo_req new_world).2).
Proof.
  exact (Reconcile_owned (PT := proto_time_impl) demo_ref demo_names demo_order demo_ref_meta demo_req new_world).
Defined.

Lemma demo_due : due demo_names demo_req demo_sbj new_world.
Proof. by split_and!. Defined.

Lemma Reconcile_creates_sizecar_witness :
  exists w', Reconcile (PT := proto_time_impl) demo_ref demo_names demo_order demo_req new_world = (Ok (zero_Result, None), w') /\
    sv_store w' = put_sbj (put_pod (sv_store new_world) (sizecar_key demo_sbj) (admit_pod demo_pod)) demo_req
                    (with_status demo_sbj (set_state PodPending (sbj_Status demo_sbj))).
Proof.
  apply (Reconcile_creates_sizecar (PT := proto_time_impl) demo_ref demo_names demo_order demo_ref_meta
           demo_req demo_sbj demo_pod new_world demo_due); vm_compute; reflexivity.
Defined.

Definition demo_worker : Pod :=
  match newWorkerPodForSJ demo_ref submitted_pod demo_sbj demo_infos with Ok p => p | _ => demo_pod end.

Lemma Reconcile_creates_worker_witness :
  exists w', Reconcile (PT := proto_time_impl) demo_ref demo_names demo_order demo_req submitted_world =
      (Ok (zero_Result, None), w') /\
    sv_store w' = put_sbj (put_pod (sv_store submitted_world) (worker_key demo_sbj) (admit_pod demo_worker)) demo_req
                    (with_status demo_sbj (observed (PT := proto_time_impl) submitted_pod demo_infos (sbj_Status demo_sbj))) /\
    (ct_Name <$> spec_Containers (pod_spec demo_worker)) = (ji_Id <$> jresp_Info demo_infos) /\
    spec_NodeName (pod_spec demo_worker) = spec_NodeName (pod_spec submitted_pod).
Proof.
  apply (Reconcile_creates_worker (PT := proto_time_impl) demo_ref demo_names demo_order demo_ref_meta
           demo_req demo_sbj submitted_pod demo_infos demo_worker submitted_world); try (vm_compute; reflexivity).
  - by split_and!.
  - eexists. vm_compute. reflexivity.
  - done.
  - done.
Defined.

Lemma Reconcile_lost_pod_panics_witness :
  exists w', Reconcile (PT := proto_time_impl) demo_ref demo_names demo_order demo_req lost_world = (Panic NilDeref, w') /\
    sv_store w' = sv_store lost_world.
Proof.
  apply (Reconcile_lost_pod_panics (PT := proto_time_impl) demo_ref demo_names demo_order demo_req lost_sbj lost_world);
    [by split_and!|by vm_compute|vm_compute; reflexivity].
Defined.

(** A job that has succeeded and wants its results on a volume. *)
Definition over_sbj : SlurmBridgeJob :=
  mkSlurmBridgeJob (new_meta "train" "default" None)
    (mkSlurmBridgeJobSpec "debug" "#!/bin/sh" None None "" 0 0 0 0 "" 0 "" "" (Some (mkJobResult (mkVolume "results" "/srv/results" ""))))
    (mkSlurmBridgeJobStatus PodSucceeded (Some {["7" := subjob_of (PT := proto_time_impl) (demo_info "7")]}) false "" "agent:9999").
Definition over_world : Server := mkServer (mkStore ∅ ∅ {[demo_req := over_sbj]} []) [].
Definition over_fetcher : Job := match newJobForSJResult (demo_order (subjobs over_sbj)) over_sbj with Ok fj => fj | _ => zero_Job end.

Lemma results_fetched_once_witness :
  exists w1, Reconcile (PT := proto_time_impl) demo_ref demo_names demo_order demo_req over_world = (Ok (zero_Result, None), w1) /\
    s_jobs (sv_store w1) !! fetcher_key over_sbj = Some over_fetcher.
Proof.
  destruct (results_fetched_once (PT := proto_time_impl) demo_ref demo_names demo_order demo_req over_sbj over_world over_fetcher)
    as (w1 & Hrun & Hs & _).
  - by split_and!.
  - by eexists.
  - vm_compute. discriminate.
  - reflexivity.
  - reflexivity.
  - vm_compute. reflexivity.
  - exists w1. split; [exact Hrun|]. rewrite Hs. reflexivity.
Defined.
End ReconcileExamples.
