(* ===== verification/DeepCopy.v ===== *)
(** * Deep copies (apis/kubecluster.org/v1alpha1/zz_generated.deepcopy.go)

    The reconciler and the informers share objects: what the cache of the
    manager holds must not change when a reconciliation changes its job, and
    the status it compares with must stay the old one. The code relies on
    the generated [DeepCopy] methods for that. Here objects lie in a heap
    with their pointers, maps and slices, and a call allocates and stores.

    The interface [CopyLaws] says what [DeepCopyInto] of a type promises: a
    value that reads the same and lies in fresh cells only. The methods of
    the metadata and volume types are library code, of which only this
    interface is known; the generated methods are shown to satisfy it. On
    top of it [UpdateSBJStatus_mem] is the reconciler's function on the
    heap: it refines the one on values of [Reconcile], and writes nothing
    the cache can see. *)

From S2P Require Import Prelude GoStrings GoNum GoTime Workload Kube Crd OperatorPod VKStatus Cluster Reconcile.

Abbreviation loc := positive.

(** ** Structs in memory

    A pointer, a map and a slice are a location, absent when nil. [OM], [LM]
    and [VM] stand for [metav1.ObjectMeta], [metav1.ListMeta] and
    [corev1.Volume]. *)

Record ResultMem (VM : Type) := mkResultMem { rm_Volume : VM }.
Arguments mkResultMem {VM}.
Arguments rm_Volume {VM}.

Record SpecMem := mkSpecMem {
  sm_Partition : string;
  sm_SbatchScript : string;
  sm_RunAsUser : option loc;
  sm_RunAsGroup : option loc;
  sm_Array : string;
  sm_CpusPerTask : Z;
  sm_Ntasks : Z;
  sm_NtasksPerNode : Z;
  sm_Nodes : Z;
  sm_WorkingDir : string;
  sm_MemPerCpu : Z;
  sm_Gres : string;
  sm_Licenses : string;
  sm_Result : option loc;
}.

Record SubMem := mkSubMem {
  um_ID : string;
  um_UserID : string;
  um_ArrayJobID : string;
  um_Name : string;
  um_ExitCode : string;
  um_State : string;
  um_SubmitTime : option loc;
  um_StartTime : option loc;
  um_RunTime : string;
  um_TimeLimit : string;
  um_WorkDir : string;
  um_StdOut : string;
  um_StdErr : string;
  um_Partition : string;
  um_NodeList : string;
  um_BatchHost : string;
  um_NumNodes : string;
}.

Record StatusMem := mkStatusMem {
  tm_State : string;
  tm_SubjobStatus : option loc;
  tm_FetchResult : bool;
  tm_FetchResultStatus : string;
  tm_ClusterEndPoint : string;
}.

Record JobMem (OM : Type) := mkJobMem {
  jm_TypeMeta : TypeMeta;
  jm_ObjectMeta : OM;
  jm_Spec : SpecMem;
  jm_Status : StatusMem;
}.
Arguments mkJobMem {OM}.
Arguments jm_TypeMeta {OM}.
Arguments jm_ObjectMeta {OM}.
Arguments jm_Spec {OM}.
Arguments jm_Status {OM}.

Record ListMem (LM : Type) := mkListMem { lm_TypeMeta : TypeMeta; lm_ListMeta : LM; lm_Items : option loc }.
Arguments mkListMem {LM}.
Arguments lm_TypeMeta {LM}.
Arguments lm_ListMeta {LM}.
Arguments lm_Items {LM}.

Record ConfigMem (LM : Type) := mkConfigMem {
  cm_TypeMeta : TypeMeta;
  cm_ListMeta : LM;
  cm_Pods : string;
  cm_EnableServer : bool;
  cm_StaticPodPath : string;
  cm_SyncFrequency : Z;
  cm_FileCheckFrequency : Z;
  cm_HTTPCheckFrequency : Z;
  cm_StaticPodURL : string;
  cm_StaticPodURLHeader : option loc;
  cm_Address : string;
  cm_Port : Z;
  cm_ReadOnlyPort : Z;
  cm_VolumePluginDir : string;
  cm_ProviderID : string;
  cm_TLSCertFile : string;
  cm_TLSPrivateKeyFile : string;
  cm_TLSCipherSuites : option loc;
  cm_TLSMinVersion : string;
  cm_RotateCertificates : bool;
  cm_ServerTLSBootstrap : bool;
}.
Arguments mkConfigMem {LM}.

(** The cells of the heap; [CExt] is one the metadata or a volume points to. *)
Inductive cell (OM LM VM Ext : Type) :=
  | CInt64 (z : Z)
  | CTime (t : Time)
  | CStrings (l : list string)
  | CStringMap (m : gmap string (option loc))
  | CSubs (m : gmap string (option loc))
  | CResult (r : ResultMem VM)
  | CResources (r : Resources)
  | CSpec (s : SpecMem)
  | CSub (s : SubMem)
  | CStatus (s : StatusMem)
  | CJob (j : JobMem OM)
  | CItems (l : list (JobMem OM))
  | CList (l : ListMem LM)
  | CConfig (c : ConfigMem LM)
  | CExt (x : Ext).
Arguments CInt64 {OM LM VM Ext}.
Arguments CTime {OM LM VM Ext}.
Arguments CStrings {OM LM VM Ext}.
Arguments CStringMap {OM LM VM Ext}.
Arguments CSubs {OM LM VM Ext}.
Arguments CResult {OM LM VM Ext}.
Arguments CResources {OM LM VM Ext}.
Arguments CSpec {OM LM VM Ext}.
Arguments CSub {OM LM VM Ext}.
Arguments CStatus {OM LM VM Ext}.
Arguments CJob {OM LM VM Ext}.
Arguments CItems {OM LM VM Ext}.
Arguments CList {OM LM VM Ext}.
Arguments CConfig {OM LM VM Ext}.
Arguments CExt {OM LM VM Ext}.

Section memory.
Context {OM LM VM Ext : Type}.

#[local] Abbreviation heap := (gmap loc (cell OM LM VM Ext)).

Definition new (c : cell OM LM VM Ext) : M heap loc :=
  fun h => let l := fresh (dom h) in (Ok l, <[l := c]> h).
Definition store (l : loc) (c : cell OM LM VM Ext) : M heap unit := modify (fun h => <[l := c]> h).

(** A type that fills a cell. Dereferencing nil, or a cell of another type,
    does not happen in Go but for the first. *)
Class Boxed (R : Type) := {
  box : R -> cell OM LM VM Ext;
  unbox : cell OM LM VM Ext -> option R;
  zero : R;
  unbox_box : forall x, unbox (box x) = Some x;
}.

Definition load {R} {BX : Boxed R} (l : loc) : M heap R :=
  fun h => (of_option NilDeref ((h !! l) ≫= unbox), h).

(** ** What a deep copy promises *)

(** [shows h A x v]: in the heap [h] the struct [x] reads as the value [v],
    by cells in [A] only. *)
Class Shows (R V : Type) := shows : heap -> gset loc -> R -> V -> Prop.
Class CopyInto (R : Type) := DeepCopyInto : R -> M heap R.

(** The cells of [A] that exist stay as they are. *)
Definition keeps_cells (A : gset loc) (h h' : heap) : Prop :=
  forall l c, l ∈ A -> h !! l = Some c -> h' !! l = Some c.

(** The call allocates: what existed stays, and its result satisfies [Q]
    in [B0] and new cells. *)
Definition copies {R} (B0 : gset loc) (m : M heap R) (Q : heap -> gset loc -> R -> Prop) (h : heap) : Prop :=
  exists y h' B, m h = (Ok y, h') /\ h ⊆ h' /\ (B ## dom h /\ B ⊆ dom h') /\ Q h' (B0 ∪ B) y.

Class CopyLaws (R V : Type) {SW : Shows R V} {CI : CopyInto R} : Prop := {
  shows_mono : forall h h' A A' x v, shows h A x v -> A ⊆ A' -> keeps_cells A h h' -> shows h' A' x v;
  law_DeepCopyInto : forall h A x v, shows h A x v -> copies ∅ (DeepCopyInto x) (fun h' B y => shows h' B y v) h;
}.

(** A pointer to a struct, which does not reach itself. *)
Definition points {R V} {BX : Boxed R} {SW : Shows R V} (h : heap) (A : gset loc) (p : loc) (v : V) : Prop :=
  p ∈ A /\ exists x A0, h !! p = Some (box x) /\ A0 ⊆ A /\ (p ∉ A0) /\ shows h A0 x v.

(** A pointer that may be nil. *)
Definition maybe {P V} (Q : heap -> gset loc -> P -> V -> Prop) (h : heap) (A : gset loc) (p : option P) (v : option V) : Prop :=
  match p, v with
  | None, None => True
  | Some p, Some v => Q h A p v
  | _, _ => False
  end.

(** ** Copying calls, one after the other *)

Lemma keeps_refl A h : keeps_cells A h h.
Proof. by intros l c. Qed.
Lemma keeps_sub A h h' : h ⊆ h' -> keeps_cells A h h'.
Proof. intros Hs l c _ Hl. by eapply lookup_weaken. Qed.
Lemma keeps_store A (h : heap) l c : l ∉ A -> keeps_cells A h (<[l := c]> h).
Proof. intros Hl k d Hk Hd. rewrite lookup_insert_ne; [done|]. by intros ->. Qed.

Lemma copies_ret {R} B0 (y : R) (Q : heap -> gset loc -> R -> Prop) h : Q h B0 y -> copies B0 (mret y) Q h.
Proof. intros HQ. exists y, h, ∅. split_and!; [done|done|set_solver|set_solver|by rewrite (right_id_L ∅ (∪))]. Qed.

Lemma copies_bind {R R'} B0 (m : M heap R) (f : R -> M heap R') (P : heap -> gset loc -> R -> Prop) Q h :
  copies B0 m P h ->
  (forall y h1 B1, h ⊆ h1 -> B1 ## dom h /\ B1 ⊆ dom h1 -> P h1 (B0 ∪ B1) y -> copies (B0 ∪ B1) (f y) Q h1) ->
  copies B0 (m ≫= f) Q h.
Proof.
  intros (y & h1 & B1 & Hm & H1 & HB1 & HP) Hf. destruct (Hf y h1 B1 H1 HB1 HP) as (z & h2 & B2 & Hz & H2 & HB2 & HQ).
  apply subseteq_dom in H1 as Hd1. apply subseteq_dom in H2 as Hd2. destruct HB1, HB2.
  exists z, h2, (B1 ∪ B2). split_and!.
  - unfold mbind, M_bind. by rewrite Hm.
  - by etrans.
  - set_solver.
  - set_solver.
  - by rewrite (assoc_L (∪)).
Qed.

Lemma copies_weaken {R} B0 (m : M heap R) (P Q : heap -> gset loc -> R -> Prop) h :
  copies ∅ m P h -> (forall h' B y, h ⊆ h' -> P h' B y -> Q h' (B0 ∪ B) y) -> copies B0 m Q h.
Proof.
  intros (y & h' & B & Hm & Hs & [HB HBd] & HP) Hpq. exists y, h', B. split_and!; [done..|]. apply Hpq; [done|].
  by rewrite (left_id_L ∅ (∪)) in HP.
Qed.

Section pointer.
Context {R V : Type} {BX : Boxed R} {SW : Shows R V} {CI : CopyInto R} {CL : CopyLaws R V}.

Lemma shows_grow (h h' : heap) A A' x v : shows (R := R) (V := V) h A x v -> A ⊆ A' -> h ⊆ h' -> shows h' A' x v.
Proof. intros Hs HA Hh. eapply shows_mono; [done..|]. by apply keeps_sub. Qed.

Lemma points_mono h h' A A' p v : points (R := R) (V := V) h A p v -> A ⊆ A' -> keeps_cells A h h' -> points h' A' p v.
Proof.
  intros (Hp & x & A0 & Hx & HA0 & Hp0 & Hs) HA Hk. split; [by apply HA|]. exists x, A0.
  split_and!; [by apply Hk|by etrans|done|]. eapply shows_mono; [done|done|]. intros l c Hl. apply Hk. by apply HA0.
Qed.

Lemma copies_into B0 h A x (v : V) :
  shows h A x v -> copies B0 (DeepCopyInto x) (fun h' B y => shows h' B y v) h.
Proof.
  intros Hs. eapply copies_weaken; [by eapply law_DeepCopyInto|]. cbn. intros h' B y _ Hy. eapply shows_grow; [done|set_solver|done].
Qed.

(** [out := new(T); in.DeepCopyInto(out)], [in] being a pointer. *)
Definition copy_from (l : loc) : M heap R := x ← load l; DeepCopyInto x.
Definition copy_ptr (l : loc) : M heap loc :=
  out ← new (box zero);
  y ← copy_from l;
  store out (box y);;
  mret out.

(** A new cell that is filled once the copy is made. *)
Lemma new_then_store {Y} (c : cell OM LM VM Ext) (m : M heap Y) (bx : Y -> cell OM LM VM Ext) (Q : heap -> gset loc -> Y -> Prop) h :
  (forall h1, h ⊆ h1 -> copies ∅ m Q h1) ->
  (forall h' B y l, Q h' B y -> l ∉ B -> Q (<[l := bx y]> h') B y) ->
  copies ∅ (out ← new c; y ← m; store out (bx y);; mret out)
    (fun h' B l => l ∈ B /\ exists y B', h' !! l = Some (bx y) /\ B' ⊆ B /\ (l ∉ B') /\ Q h' B' y) h.
Proof.
  intros Hm HQ. set (l := fresh (dom h)). assert (Hl : l ∉ dom h) by apply is_fresh.
  assert (Hs : h ⊆ <[l := c]> h) by (apply insert_subseteq; by apply not_elem_of_dom).
  destruct (Hm (<[l := c]> h) Hs) as (y & h2 & B & Hy & H2 & [HB HBd] & Hq).
  rewrite (left_id_L ∅ (∪)) in Hq. rewrite dom_insert_L in HB. assert (HlB : l ∉ B) by set_solver.
  exists l, (<[l := bx y]> h2), ({[l]} ∪ B). split_and!.
  - unfold new, mbind, M_bind. cbn. fold l. by rewrite Hy.
  - apply map_subseteq_spec. intros k d Hk. rewrite lookup_insert_ne by (intros <-; apply Hl; by eapply elem_of_dom_2).
    eapply lookup_weaken; [|done]. by eapply lookup_weaken.
  - set_solver.
  - rewrite dom_insert_L. set_solver.
  - set_solver.
  - exists y, B. split_and!; [by rewrite lookup_insert_eq|set_solver|done|]. by apply HQ.
Qed.

Lemma copy_ptr_spec h A l (v : V) : points h A l v -> copies ∅ (copy_ptr l) (fun h' B l' => points h' B l' v) h.
Proof.
  intros (_ & x & A0 & Hx & _ & _ & Hs).
  refine (new_then_store (box zero) (copy_from l) box (fun h' B y => shows h' B y v) h _ _).
  - intros h1 Hh1. assert (Hr : copy_from l h1 = DeepCopyInto x h1).
    { unfold copy_from, load, mbind, M_bind. rewrite (lookup_weaken _ _ _ _ Hx Hh1). cbn. by rewrite unbox_box. }
    destruct (copies_into ∅ h1 A0 x v) as (y & h2 & B & Hy & Hrest); [exact (shows_grow _ _ _ _ _ _ Hs (reflexivity A0) Hh1)|].
    exists y, h2, B. by rewrite Hr.
  - intros h1 B y l1 Hy Hl1. eapply shows_mono; [done|done|by apply keeps_store].
Qed.

(** [DeepCopy] of a pointer. *)
Definition DeepCopy (p : option loc) : M heap (option loc) :=
  match p with
  | None => mret None
  | Some l => out ← copy_ptr l; mret (Some out)
  end.

Lemma DeepCopy_spec B0 h A p (v : option V) :
  maybe points h A p v -> copies B0 (DeepCopy p) (fun h' B p' => maybe points h' B p' v) h.
Proof.
  intros Hp. destruct p as [l|], v as [v|]; try done; [|by apply copies_ret]. cbn in Hp.
  apply (copies_bind _ _ _ (fun h' B l' => points h' B l' v)).
  - eapply copies_weaken; [by eapply copy_ptr_spec|]. intros h' B l' _ Hl.
    exact (points_mono _ _ _ _ _ _ Hl (union_subseteq_r B0 B) (keeps_refl B h')).
  - cbn. intros l' h1 B1 _ _ Hl. by apply copies_ret.
Qed.
End pointer.

(** ** Maps

    The loop over the map of a struct: the new map lies in a cell of its own
    and gets an entry per turn, a nil value as it is, another one copied. *)

Section maps.
Context {V : Type} (mk : gmap string (option loc) -> cell OM LM VM Ext) (get_map : cell OM LM VM Ext -> option (gmap string (option loc))).
Context (copy_val : loc -> M heap loc) (reads : heap -> gset loc -> option loc -> V -> Prop).
Hypothesis get_mk : forall m, get_map (mk m) = Some m.
Hypothesis reads_mono : forall h h' A A' p v, reads h A p v -> A ⊆ A' -> keeps_cells A h h' -> reads h' A' p v.
Hypothesis reads_nil : forall h h' A A' v, reads h A None v -> reads h' A' None v.
Hypothesis copy_val_spec : forall h A l v, reads h A (Some l) v -> copies ∅ (copy_val l) (fun h' B l' => reads h' B (Some l') v) h.
(** The order in which [range] visits the map. *)
Context (range : gmap string (option loc) -> list (string * option loc)).
Hypothesis range_all : forall m, range m ≡ₚ map_to_list m.

Definition assign (q : loc) (key : string) (val : option loc) : M heap unit := fun h =>
  match (h !! q) ≫= get_map with
  | Some m => (Ok tt, <[q := mk (<[key := val]> m)]> h)
  | None => (Panic NilMapWrite, h)
  end.

(** The value to enter for a key. *)
Definition copy_value (q : loc) (key : string) (val : option loc) : M heap (option loc) :=
  match val with
  | None => assign q key None;; mret None
  | Some p => o ← copy_val p; mret (Some o)
  end.

Fixpoint copy_entries (q : loc) (l : list (string * option loc)) : M heap unit :=
  match l with
  | [] => mret tt
  | (key, val) :: l' =>
      outVal ← copy_value q key val;
      assign q key outVal;;
      copy_entries q l'
  end.

Definition copy_map (p : option loc) : M heap (option loc) :=
  match p with
  | None => mret None
  | Some p =>
      fun h => match (h !! p) ≫= get_map with
               | Some m => (q ← new (mk ∅); copy_entries q (range m);; mret (Some q)) h
               | None => (Panic NilDeref, h)
               end
  end.

(** A map value reads as [v], entry by entry. *)
Definition reads_entry (h : heap) (A : gset loc) (e : option (option loc)) (v : option V) : Prop :=
  match e, v with Some p, Some v => reads h A p v | None, None => True | _, _ => False end.
Definition reads_map (h : heap) (A : gset loc) (p : loc) (v : gmap string V) : Prop :=
  p ∈ A /\ exists m A0, h !! p = Some (mk m) /\ A0 ⊆ A /\ (p ∉ A0) /\ forall k, reads_entry h A0 (m !! k) (v !! k).

Lemma reads_entry_mono h h' A A' e v : reads_entry h A e v -> A ⊆ A' -> keeps_cells A h h' -> reads_entry h' A' e v.
Proof. destruct e as [p|], v as [v|]; try done. apply reads_mono. Qed.

Lemma reads_map_mono h h' A A' p v : reads_map h A p v -> A ⊆ A' -> keeps_cells A h h' -> reads_map h' A' p v.
Proof.
  intros (Hp & m & A0 & Hm & HA0 & Hp0 & He) HA Hk. split; [by apply HA|]. exists m, A0.
  split_and!; [by apply Hk|by etrans|done|]. intros k. eapply reads_entry_mono; [done|done|].
  intros l c Hl. apply Hk. by apply HA0.
Qed.

(** One turn, from the heap [h0] on in which the copy began: the new map
    and what it holds are outside of it. *)
Definition in_progress (h0 h : heap) (q : loc) (B : gset loc) (acc : gmap string (option loc)) : Prop :=
  h0 ⊆ h /\ (B ## dom h0 /\ B ⊆ dom h) /\ (q ∉ dom h0) /\ (q ∉ B) /\ h !! q = Some (mk acc).

Lemma assign_progress h0 h q B acc key val :
  in_progress h0 h q B acc ->
  exists h', assign q key val h = (Ok tt, h') /\ in_progress h0 h' q B (<[key := val]> acc) /\ forall l, l <> q -> h' !! l = h !! l.
Proof.
  intros (H0 & [HB HBd] & Hq & HqB & Hm). exists (<[q := mk (<[key := val]> acc)]> h). unfold in_progress. split_and!.
  - unfold assign. rewrite Hm. cbn. by rewrite get_mk.
  - apply map_subseteq_spec. intros k c Hk. rewrite lookup_insert_ne; [by eapply lookup_weaken|].
    intros <-. apply Hq. by eapply elem_of_dom_2.
  - done.
  - rewrite dom_insert_L. set_solver.
  - done.
  - done.
  - by rewrite lookup_insert_eq.
  - intros l Hl. by rewrite lookup_insert_ne.
Qed.
Lemma copy_value_spec A h0 h q B acc key val x :
  in_progress h0 h q B acc -> reads h0 A val x ->
  exists h1 B1 acc1 out, copy_value q key val h = (Ok out, h1) /\ in_progress h0 h1 q (B ∪ B1) acc1 /\
    reads h1 B1 out x /\ (forall k, k <> key -> acc1 !! k = acc !! k) /\ keeps_cells B h h1.
Proof.
  intros Hp Hval. pose proof Hp as (H0 & [HB HBd] & Hq & HqB & Hm). destruct val as [p|].
  - destruct (copy_val_spec h A p x) as (o & h1 & B1 & Ho & Hh & [HB1 HB1d] & Hr).
    { eapply reads_mono; [done..|]. by apply keeps_sub. }
    rewrite (left_id_L ∅ (∪)) in Hr. exists h1, B1, acc, (Some o). split_and!; [| |done|done|by apply keeps_sub].
    + unfold copy_value, mbind, M_bind. by rewrite Ho.
    + assert (Hd : q ∈ dom h) by by eapply elem_of_dom_2. apply subseteq_dom in H0 as Hd0. apply subseteq_dom in Hh as Hd1.
      split_and!; [by etrans|set_solver..|by eapply lookup_weaken].
  - destruct (assign_progress h0 h q B acc key None Hp) as (h1 & Ha & Hp1 & Hk).
    exists h1, ∅, (<[key := None]> acc), None. rewrite (right_id_L ∅ (∪)).
    split_and!; [|done|by eapply reads_nil|by intros k Hne; rewrite lookup_insert_ne|].
    + unfold copy_value, mbind, M_bind. by rewrite Ha.
    + intros l' c Hl' Hc. rewrite Hk; [done|]. by intros ->.
Qed.

Lemma copy_entries_spec A (v : gmap string V) h0 q l done h B acc :
  in_progress h0 h q B acc -> NoDup (l.*1 ++ done) ->
  Forall (fun kv => exists x, v !! kv.1 = Some x /\ reads h0 A kv.2 x) l ->
  (forall k, if decide (k ∈ done) then reads_entry h B (acc !! k) (v !! k) else acc !! k = None) ->
  exists h' B' acc', copy_entries q l h = (Ok tt, h') /\ in_progress h0 h' q B' acc' /\
    forall k, if decide (k ∈ l.*1 ++ done) then reads_entry h' B' (acc' !! k) (v !! k) else acc' !! k = None.
Proof.
  revert done h B acc. induction l as [|[key val] l IH]; intros done h B acc Hp Hnd Hl Hacc.
  - by exists h, B, acc.
  - apply list.Forall_cons in Hl as [(x & Hx & Hval) Hl]. cbn in Hx, Hval.
    destruct (copy_value_spec A h0 h q B acc key val x Hp Hval) as (h1 & B1 & acc1 & out & Hrun & Hp1 & Hout & Hacc1 & Hkeep).
    destruct (assign_progress h0 h1 q (B ∪ B1) acc1 key out Hp1) as (h2 & Ha & Hp2 & Hk2).
    assert (Hq1 : q ∉ B ∪ B1) by apply Hp1.
    assert (Hkeep2 : keeps_cells (B ∪ B1) h1 h2) by (intros l' c Hl' Hc; rewrite Hk2; [done|by intros ->]).
    destruct (IH (key :: done) h2 (B ∪ B1) (<[key := out]> acc1)) as (h' & B' & acc' & Hc & Hp' & Hall); [done| |done| |].
    + cbn in Hnd. by rewrite <- Permutation_middle.
    + intros k. specialize (Hacc k). destruct (decide (k = key)) as [->|Hne].
      * rewrite decide_True by set_solver. rewrite lookup_insert_eq, Hx. cbn. eapply reads_mono; [done|set_solver|].
        intros l' c Hl' Hc. apply Hkeep2; [set_solver|done].
      * rewrite lookup_insert_ne, Hacc1 by done. destruct (decide (k ∈ done)) as [Hin|Hin].
        -- rewrite decide_True by set_solver. eapply reads_entry_mono; [done|set_solver|].
           intros l' c Hl' Hc. apply Hkeep2; [set_solver|]. by apply Hkeep.
        -- rewrite decide_False by set_solver. done.
    + exists h', B', acc'. split_and!; [|done|].
      * cbn [copy_entries]. unfold mbind at 1, M_bind at 1. rewrite Hrun. unfold mbind at 1, M_bind at 1. by rewrite Ha.
      * intros k. specialize (Hall k). cbn [fmap list_fmap fst app]. cbn in Hall.
        destruct (decide (k ∈ key :: l.*1 ++ done)) as [Hin|Hin]; destruct (decide (k ∈ l.*1 ++ key :: done)) as [Hin'|Hin']; try done; set_solver.
Qed.

Lemma copy_map_spec B0 h A p (v : option (gmap string V)) :
  maybe reads_map h A p v -> copies B0 (copy_map p) (fun h' B p' => maybe reads_map h' B p' v) h.
Proof.
  intros Hp. destruct p as [p|], v as [v|]; try done; [|by apply copies_ret]. destruct Hp as (_ & m & A0 & Hm & _ & _ & Hall).
  set (q := fresh (dom h)). assert (Hq : q ∉ dom h) by apply is_fresh.
  destruct (copy_entries_spec A0 v h q (range m) [] (<[q := mk ∅]> h) ∅ ∅) as (h' & B' & acc' & Hc & (H0 & [HB HBd] & _ & HqB & Hm') & Hacc).
  - unfold in_progress. split_and!; [by apply insert_subseteq, not_elem_of_dom|set_solver|set_solver|done|set_solver|by rewrite lookup_insert_eq].
  - rewrite app_nil_r, range_all. apply NoDup_fst_map_to_list.
  - rewrite range_all. apply list.Forall_forall. intros [k e] He%elem_of_map_to_list. specialize (Hall k). rewrite He in Hall. cbn in *.
    destruct (v !! k) as [x|]; [|done]. by exists x.
  - intros k. by rewrite decide_False by set_solver.
  - exists (Some q), h', ({[q]} ∪ B'). split_and!; [|done|set_solver| |].
    + unfold copy_map. rewrite Hm. cbn. rewrite get_mk. unfold mbind, M_bind, new. cbn. fold q. by rewrite Hc.
    + assert (Hqd : q ∈ dom h') by by eapply elem_of_dom_2. set_solver.
    + cbn. split; [set_solver|]. exists acc', B'. split_and!; [done|set_solver|done|]. intros k. specialize (Hacc k).
      assert (Hk : k ∈ (range m).*1 ++ [] <-> k ∈ dom v).
      { rewrite app_nil_r, range_all. specialize (Hall k). rewrite list_elem_of_fmap, elem_of_dom. split.
        - intros ([k' e] & -> & He%elem_of_map_to_list). cbn in *. rewrite He in Hall. by destruct (v !! k').
        - intros [x Hx]. rewrite Hx in Hall. destruct (m !! k) as [e|] eqn:E; [|done]. exists (k, e). by rewrite elem_of_map_to_list. }
      destruct (decide _) as [Hin|Hin].
      * exact Hacc.
      * rewrite Hacc. rewrite Hk in Hin. apply not_elem_of_dom in Hin. by rewrite Hin.
Qed.
End maps.

(** ** The generated methods *)

(** The zero value of a library type, [metav1.Time.DeepCopy], and the order
    in which [range] visits a map. *)
Class ZeroValue (R : Type) := zero_value : R.
Class TimeCopy := Time_DeepCopy : loc -> M heap (option loc).
Class MapRange := range : gmap string (option loc) -> list (string * option loc).

Section generated.
(** The library types: what a value of them is, and their [DeepCopyInto]. *)
Context {LV : Type}.
Context {SO : Shows OM ObjectMeta} {CO : CopyInto OM} {LO : CopyLaws OM ObjectMeta}.
Context {SL : Shows LM LV} {CL : CopyInto LM} {LL : CopyLaws LM LV}.
Context {SV : Shows VM Volume} {CV : CopyInto VM} {LV' : CopyLaws VM Volume}.
Context {ZO : ZeroValue OM} {ZL : ZeroValue LM} {ZV : ZeroValue VM} {TC : TimeCopy} {MR : MapRange}.

Definition zero_TypeMeta : TypeMeta := mkTypeMeta "" "".
Definition zero_SpecMem : SpecMem := mkSpecMem "" "" None None "" 0 0 0 0 "" 0 "" "" None.
Definition zero_StatusMem : StatusMem := mkStatusMem "" None false "" "".

#[export] Instance boxed_int64 : Boxed Z.
Proof. refine {| box := CInt64; unbox c := match c with CInt64 z => Some z | _ => None end; zero := 0%Z |}. done. Defined.
#[export] Instance boxed_strings : Boxed (list string).
Proof. refine {| box := CStrings; unbox c := match c with CStrings l => Some l | _ => None end; zero := [] |}. done. Defined.
#[export] Instance boxed_result : Boxed (ResultMem VM).
Proof. refine {| box := CResult; unbox c := match c with CResult r => Some r | _ => None end; zero := mkResultMem zero_value |}. done. Defined.
#[export] Instance boxed_resources : Boxed Resources.
Proof. refine {| box := CResources; unbox c := match c with CResources r => Some r | _ => None end; zero := zero_Resources |}. done. Defined.
#[export] Instance boxed_spec : Boxed SpecMem.
Proof. refine {| box := CSpec; unbox c := match c with CSpec s => Some s | _ => None end; zero := zero_SpecMem |}. done. Defined.
#[export] Instance boxed_sub : Boxed SubMem.
Proof.
  refine {| box := CSub; unbox c := match c with CSub s => Some s | _ => None end;
    zero := mkSubMem "" "" "" "" "" "" None None "" "" "" "" "" "" "" "" "" |}. done.
Defined.
#[export] Instance boxed_status : Boxed StatusMem.
Proof. refine {| box := CStatus; unbox c := match c with CStatus s => Some s | _ => None end; zero := zero_StatusMem |}. done. Defined.
#[export] Instance boxed_job : Boxed (JobMem OM).
Proof.
  refine {| box := CJob; unbox c := match c with CJob j => Some j | _ => None end;
    zero := mkJobMem zero_TypeMeta zero_value zero_SpecMem zero_StatusMem |}. done.
Defined.
#[export] Instance boxed_items : Boxed (list (JobMem OM)).
Proof. refine {| box := CItems; unbox c := match c with CItems l => Some l | _ => None end; zero := [] |}. done. Defined.
#[export] Instance boxed_list : Boxed (ListMem LM).
Proof.
  refine {| box := CList; unbox c := match c with CList l => Some l | _ => None end;
    zero := mkListMem zero_TypeMeta zero_value None |}. done.
Defined.
#[export] Instance boxed_config : Boxed (ConfigMem LM).
Proof.
  refine {| box := CConfig; unbox c := match c with CConfig x => Some x | _ => None end;
    zero := mkConfigMem zero_TypeMeta zero_value "" false "" 0 0 0 "" None "" 0 0 "" "" "" "" None "" false false |}. done.
Defined.

(** A value without pointers is copied by assignment. *)
#[export] Instance int64_copy : CopyInto Z := fun z => mret z.
#[export] Instance strings_copy : CopyInto (list string) := fun l => mret l.

#[export] Instance JobResult_DeepCopyInto : CopyInto (ResultMem VM) := fun input =>
  volume ← DeepCopyInto (rm_Volume input);
  mret (mkResultMem volume).

#[export] Instance Resources_DeepCopyInto : CopyInto Resources := fun input => mret input.

#[export] Instance SlurmBridgeJobSpec_DeepCopyInto : CopyInto SpecMem := fun input =>
  user ← DeepCopy (R := Z) (sm_RunAsUser input);
  group ← DeepCopy (R := Z) (sm_RunAsGroup input);
  result ← DeepCopy (R := ResultMem VM) (sm_Result input);
  mret (mkSpecMem (sm_Partition input) (sm_SbatchScript input) user group (sm_Array input) (sm_CpusPerTask input)
    (sm_Ntasks input) (sm_NtasksPerNode input) (sm_Nodes input) (sm_WorkingDir input) (sm_MemPerCpu input)
    (sm_Gres input) (sm_Licenses input) result).

Definition copy_time (p : option loc) : M heap (option loc) :=
  match p with None => mret None | Some l => Time_DeepCopy l end.

#[export] Instance SlurmSubjobStatus_DeepCopyInto : CopyInto SubMem := fun input =>
  submit ← copy_time (um_SubmitTime input);
  start ← copy_time (um_StartTime input);
  mret (mkSubMem (um_ID input) (um_UserID input) (um_ArrayJobID input) (um_Name input) (um_ExitCode input)
    (um_State input) submit start (um_RunTime input) (um_TimeLimit input) (um_WorkDir input) (um_StdOut input)
    (um_StdErr input) (um_Partition input) (um_NodeList input) (um_BatchHost input) (um_NumNodes input)).

Definition get_subs (c : cell OM LM VM Ext) : option (gmap string (option loc)) := match c with CSubs m => Some m | _ => None end.
Definition get_string_map (c : cell OM LM VM Ext) : option (gmap string (option loc)) := match c with CStringMap m => Some m | _ => None end.

#[export] Instance SlurmBridgeJobStatus_DeepCopyInto : CopyInto StatusMem := fun input =>
  subs ← copy_map CSubs get_subs (copy_ptr (R := SubMem)) range (tm_SubjobStatus input);
  mret (mkStatusMem (tm_State input) subs (tm_FetchResult input) (tm_FetchResultStatus input) (tm_ClusterEndPoint input)).

#[export] Instance SlurmBridgeJob_DeepCopyInto : CopyInto (JobMem OM) := fun input =>
  meta ← DeepCopyInto (jm_ObjectMeta input);
  spec ← DeepCopyInto (jm_Spec input);
  status ← DeepCopyInto (jm_Status input);
  mret (mkJobMem (jm_TypeMeta input) meta spec status).

(** The loop over the items of a list. *)
#[export] Instance items_copy : CopyInto (list (JobMem OM)) := fix copy_items l :=
  match l with
  | [] => mret []
  | j :: l' => j' ← DeepCopyInto j; items ← copy_items l'; mret (j' :: items)
  end.

#[export] Instance SlurmBridgeJobList_DeepCopyInto : CopyInto (ListMem LM) := fun input =>
  meta ← DeepCopyInto (lm_ListMeta input);
  items ← DeepCopy (R := list (JobMem OM)) (lm_Items input);
  mret (mkListMem (lm_TypeMeta input) meta items).

#[export] Instance SlurmVirtualKubeletConfiguration_DeepCopyInto : CopyInto (ConfigMem LM) := fun input =>
  meta ← DeepCopyInto (cm_ListMeta _ input);
  header ← copy_map CStringMap get_string_map (copy_ptr (R := list string)) range (cm_StaticPodURLHeader _ input);
  ciphers ← DeepCopy (R := list string) (cm_TLSCipherSuites _ input);
  mret (mkConfigMem (cm_TypeMeta _ input) meta (cm_Pods _ input) (cm_EnableServer _ input) (cm_StaticPodPath _ input)
    (cm_SyncFrequency _ input) (cm_FileCheckFrequency _ input) (cm_HTTPCheckFrequency _ input) (cm_StaticPodURL _ input)
    header (cm_Address _ input) (cm_Port _ input) (cm_ReadOnlyPort _ input) (cm_VolumePluginDir _ input)
    (cm_ProviderID _ input) (cm_TLSCertFile _ input) (cm_TLSPrivateKeyFile _ input) ciphers (cm_TLSMinVersion _ input)
    (cm_RotateCertificates _ input) (cm_ServerTLSBootstrap _ input)).

(** [DeepCopy] of the types. *)
Definition JobResult_DeepCopy : option loc -> M heap (option loc) := DeepCopy (R := ResultMem VM).
Definition Resources_DeepCopy : option loc -> M heap (option loc) := DeepCopy (R := Resources).
Definition SlurmBridgeJob_DeepCopy : option loc -> M heap (option loc) := DeepCopy (R := JobMem OM).
Definition SlurmBridgeJobList_DeepCopy : option loc -> M heap (option loc) := DeepCopy (R := ListMem LM).
Definition SlurmBridgeJobSpec_DeepCopy : option loc -> M heap (option loc) := DeepCopy (R := SpecMem).
Definition SlurmBridgeJobStatus_DeepCopy : option loc -> M heap (option loc) := DeepCopy (R := StatusMem).
Definition SlurmSubjobStatus_DeepCopy : option loc -> M heap (option loc) := DeepCopy (R := SubMem).
Definition SlurmVirtualKubeletConfiguration_DeepCopy : option loc -> M heap (option loc) := DeepCopy (R := ConfigMem LM).

(** A [runtime.Object]: nil, or a type with a pointer that may be nil. *)
Definition Object : Type := option (string * option loc).

Definition as_object (kind : string) (copy : option loc -> M heap (option loc)) (input : option loc) : M heap Object :=
  c ← copy input;
  mret (match c with Some _ => Some (kind, c) | None => None end).
Definition SlurmBridgeJob_DeepCopyObject := as_object "SlurmBridgeJob" SlurmBridgeJob_DeepCopy.
Definition SlurmBridgeJobList_DeepCopyObject := as_object "SlurmBridgeJobList" SlurmBridgeJobList_DeepCopy.
Definition SlurmVirtualKubeletConfiguration_DeepCopyObject :=
  as_object "SlurmVirtualKubeletConfiguration" SlurmVirtualKubeletConfiguration_DeepCopy.

(** ** What a struct in memory says *)

#[export] Instance int64_shows : Shows Z Z := fun h A z v => z = v.
#[export] Instance strings_shows : Shows (list string) (list string) := fun h A l v => l = v.
#[export] Instance result_shows : Shows (ResultMem VM) JobResult := fun h A x v => shows h A (rm_Volume x) (jr_Volume v).
#[export] Instance resources_shows : Shows Resources Resources := fun h A x v => x = v.

#[export] Instance spec_shows : Shows SpecMem SlurmBridgeJobSpec := fun h A x v =>
  v = mkSlurmBridgeJobSpec (sm_Partition x) (sm_SbatchScript x) (sp_RunAsUser v) (sp_RunAsGroup v) (sm_Array x) (sm_CpusPerTask x)
    (sm_Ntasks x) (sm_NtasksPerNode x) (sm_Nodes x) (sm_WorkingDir x) (sm_MemPerCpu x) (sm_Gres x) (sm_Licenses x) (sp_Result v) /\
  maybe (points (R := Z)) h A (sm_RunAsUser x) (sp_RunAsUser v) /\
  maybe (points (R := Z)) h A (sm_RunAsGroup x) (sp_RunAsGroup v) /\
  maybe (points (R := ResultMem VM)) h A (sm_Result x) (sp_Result v).

Definition time_at (h : heap) (A : gset loc) (p : loc) (t : Time) : Prop := p ∈ A /\ h !! p = Some (CTime t).

#[export] Instance sub_shows : Shows SubMem SlurmSubjobStatus := fun h A x v =>
  v = mkSlurmSubjobStatus (um_ID x) (um_UserID x) (um_ArrayJobID x) (um_Name x) (um_ExitCode x) (um_State x)
    (sub_SubmitTime v) (sub_StartTime v) (um_RunTime x) (um_TimeLimit x) (um_WorkDir x) (um_StdOut x) (um_StdErr x)
    (um_Partition x) (um_NodeList x) (um_BatchHost x) (um_NumNodes x) /\
  maybe time_at h A (um_SubmitTime x) (sub_SubmitTime v) /\
  maybe time_at h A (um_StartTime x) (sub_StartTime v).

(** The operator never stores a nil sub job. *)
Definition reads_sub (h : heap) (A : gset loc) (p : option loc) (v : SlurmSubjobStatus) : Prop :=
  match p with Some l => points h A l v | None => False end.

#[export] Instance status_shows : Shows StatusMem SlurmBridgeJobStatus := fun h A x v =>
  v = mkSlurmBridgeJobStatus (tm_State x) (sjs_SubjobStatus v) (tm_FetchResult x) (tm_FetchResultStatus x) (tm_ClusterEndPoint x) /\
  maybe (reads_map CSubs reads_sub) h A (tm_SubjobStatus x) (sjs_SubjobStatus v).

#[export] Instance job_shows : Shows (JobMem OM) (TypeMeta * SlurmBridgeJob) := fun h A x v =>
  jm_TypeMeta x = v.1 /\ shows h A (jm_ObjectMeta x) (sbj_meta v.2) /\ shows h A (jm_Spec x) (sbj_Spec v.2) /\
  shows h A (jm_Status x) (sbj_Status v.2).

#[export] Instance items_shows : Shows (list (JobMem OM)) (list (TypeMeta * SlurmBridgeJob)) := fun h A l v =>
  Forall2 (fun x j => shows h A x j) l v.

#[export] Instance list_shows : Shows (ListMem LM) (TypeMeta * LV * option (list (TypeMeta * SlurmBridgeJob))) := fun h A x v =>
  lm_TypeMeta x = v.1.1 /\ shows h A (lm_ListMeta x) v.1.2 /\ maybe (points (R := list (JobMem OM))) h A (lm_Items x) v.2.

(** A slice: a nil one is empty. *)
Definition reads_slice (h : heap) (A : gset loc) (p : option loc) (v : list string) : Prop :=
  match p with Some l => points h A l v | None => v = [] end.

#[export] Instance config_shows : Shows (ConfigMem LM) (TypeMeta * LV * SlurmVirtualKubeletConfiguration) := fun h A x v =>
  cm_TypeMeta _ x = v.1.1 /\ shows h A (cm_ListMeta _ x) v.1.2 /\
  v.2 = mkVKConfig (cm_Pods _ x) (cm_EnableServer _ x) (cm_StaticPodPath _ x) (cm_SyncFrequency _ x) (cm_FileCheckFrequency _ x)
    (cm_HTTPCheckFrequency _ x) (cm_StaticPodURL _ x) (vc_StaticPodURLHeader v.2) (cm_Address _ x) (cm_Port _ x) (cm_ReadOnlyPort _ x)
    (cm_VolumePluginDir _ x) (cm_ProviderID _ x) (cm_TLSCertFile _ x) (cm_TLSPrivateKeyFile _ x) (vc_TLSCipherSuites v.2)
    (cm_TLSMinVersion _ x) (cm_RotateCertificates _ x) (cm_ServerTLSBootstrap _ x) /\
  maybe (reads_map CStringMap reads_slice) h A (cm_StaticPodURLHeader _ x) (vc_StaticPodURLHeader v.2) /\
  reads_slice h A (cm_TLSCipherSuites _ x) (vc_TLSCipherSuites v.2).

Hypothesis Time_DeepCopy_law : forall h l t, h !! l = Some (CTime t) ->
  copies ∅ (Time_DeepCopy l) (fun h' B p => maybe time_at h' B p (Some t)) h.
Hypothesis range_all : forall m, range m ≡ₚ map_to_list m.

(** ** The laws *)

Lemma maybe_mono {P V} (Q : heap -> gset loc -> P -> V -> Prop) h h' A A' p v :
  (forall l x, Q h A l x -> Q h' A' l x) -> maybe Q h A p v -> maybe Q h' A' p v.
Proof. destruct p, v; try done. cbn. auto. Qed.

#[local] Ltac plain_laws := split; [intros h h' A A' x v -> _ _; reflexivity | intros h A x v ->; by apply copies_ret].

#[export] Instance int64_laws : CopyLaws Z Z.
Proof. plain_laws. Qed.
#[export] Instance strings_laws : CopyLaws (list string) (list string).
Proof. plain_laws. Qed.
#[export] Instance resources_laws : CopyLaws Resources Resources.
Proof. plain_laws. Qed.

(** What was known stays known in more cells of a grown heap. *)
#[local] Ltac grown := first [assumption | reflexivity | apply union_subseteq_l | etrans; apply union_subseteq_l | apply keeps_sub; repeat (etrans; [eassumption|]); reflexivity].
#[local] Ltac carry :=
  match goal with
  | H : ?P |- ?P => exact H
  | |- shows _ _ ?x _ => eapply shows_mono; [eassumption|grown|grown]
  | |- points _ _ _ _ => eapply points_mono; [eassumption|grown|grown]
  end.

#[export] Instance result_laws : CopyLaws (ResultMem VM) JobResult.
Proof.
  split.
  - intros h h' A A' x v Hs HA Hk. exact (shows_mono (R := VM) h h' A A' (rm_Volume x) (jr_Volume v) Hs HA Hk).
  - intros h A x v Hs. apply (copies_bind _ _ _ (fun h' B y => shows h' B y (jr_Volume v))); [by eapply (law_DeepCopyInto (R := VM))|].
    intros y h1 B1 _ _ Hy. apply copies_ret. exact Hy.
Qed.

Lemma maybe_points_mono {R V} {BX : Boxed R} {SW : Shows R V} {CI : CopyInto R} {CL' : CopyLaws R V} h h' A A' p v :
  maybe (points (R := R)) h A p v -> A ⊆ A' -> keeps_cells A h h' -> maybe (points (R := R)) h' A' p v.
Proof. intros Hm HA Hk. eapply maybe_mono; [|done]. intros l x Hl. by eapply points_mono. Qed.

#[export] Instance spec_laws : CopyLaws SpecMem SlurmBridgeJobSpec.
Proof.
  split.
  - intros h h' A A' x v (Hv & Hu & Hg & Hr) HA Hk. split_and!; [done| | |]; by eapply maybe_points_mono.
  - intros h A x v (Hv & Hu & Hg & Hr).
    eapply copies_bind; [by eapply DeepCopy_spec|]. cbn beta. intros u h1 B1 H1 _ Hu'.
    eapply copies_bind; [eapply DeepCopy_spec, maybe_points_mono; [exact Hg|reflexivity|by apply keeps_sub]|].
    cbn beta. intros g h2 B2 H2 _ Hg'.
    eapply copies_bind; [eapply DeepCopy_spec, maybe_points_mono; [exact Hr|reflexivity|grown]|].
    cbn beta. intros r h3 B3 H3 _ Hr'. apply copies_ret. split_and!; [by rewrite Hv at 1| | |]; cbn; (eapply maybe_points_mono; [eassumption|grown|grown]).
Qed.

Lemma time_at_mono h h' A A' p v : maybe time_at h A p v -> A ⊆ A' -> keeps_cells A h h' -> maybe time_at h' A' p v.
Proof. intros Hm HA Hk. eapply maybe_mono; [|done]. intros l x [Hl Hx]. split; [by apply HA|]. by apply Hk. Qed.

Lemma copy_time_spec B0 h A p v : maybe time_at h A p v -> copies B0 (copy_time p) (fun h' B p' => maybe time_at h' B p' v) h.
Proof.
  destruct p as [l|], v as [t|]; intros Hm; try done; [|by apply copies_ret]. destruct Hm as [_ Hl].
  eapply copies_weaken; [by apply Time_DeepCopy_law|]. cbn beta. intros h' B y _ Hy. eapply time_at_mono; [exact Hy|set_solver|apply keeps_refl].
Qed.

#[export] Instance sub_laws : CopyLaws SubMem SlurmSubjobStatus.
Proof.
  split.
  - intros h h' A A' x v (Hv & Hs & Ht) HA Hk. split_and!; [done| |]; by eapply time_at_mono.
  - intros h A x v (Hv & Hs & Ht).
    eapply copies_bind; [by eapply copy_time_spec|]. cbn beta. intros s h1 B1 H1 _ Hs'.
    eapply copies_bind; [eapply copy_time_spec, time_at_mono; [exact Ht|reflexivity|by apply keeps_sub]|].
    cbn beta. intros t h2 B2 H2 _ Ht'. apply copies_ret. split_and!; [by rewrite Hv at 1| |]; cbn; (eapply time_at_mono; [eassumption|grown|grown]).
Qed.

Lemma reads_sub_mono h h' A A' p v : reads_sub h A p v -> A ⊆ A' -> keeps_cells A h h' -> reads_sub h' A' p v.
Proof. destruct p as [l|]; [|done]. apply points_mono. Qed.
Lemma get_mk_subs m : get_subs (CSubs m) = Some m.
Proof. done. Qed.

Lemma subs_mono h h' A A' p v :
  maybe (reads_map CSubs reads_sub) h A p v -> A ⊆ A' -> keeps_cells A h h' -> maybe (reads_map CSubs reads_sub) h' A' p v.
Proof. intros Hm HA Hk. eapply maybe_mono; [|done]. intros l x Hl. by eapply reads_map_mono; [apply reads_sub_mono|..]. Qed.

#[export] Instance status_laws : CopyLaws StatusMem SlurmBridgeJobStatus.
Proof.
  split.
  - intros h h' A A' x v (Hv & Hs) HA Hk. split; [done|]. by eapply subs_mono.
  - intros h A x v (Hv & Hs).
    eapply copies_bind.
    { apply (copy_map_spec CSubs get_subs (copy_ptr (R := SubMem)) reads_sub get_mk_subs reads_sub_mono ltac:(done)) with (A := A) (v := sjs_SubjobStatus v);
        [|done..]. intros h1 A1 l x1 Hl. by eapply copy_ptr_spec. }
    cbn beta. intros s h1 B1 H1 _ Hs'. apply copies_ret. split; [by rewrite Hv at 1|done].
Qed.

#[export] Instance job_laws : CopyLaws (JobMem OM) (TypeMeta * SlurmBridgeJob).
Proof.
  split.
  - intros h h' A A' x v (Ht & Hm & Hs & Hst) HA Hk. split_and!; [done| | |]; by eapply shows_mono.
  - intros h A x v (Ht & Hm & Hs & Hst).
    eapply copies_bind; [by eapply (copies_into (R := OM))|]. cbn beta. intros m h1 B1 H1 _ Hm'.
    eapply copies_bind; [eapply (copies_into (R := SpecMem)), shows_mono; [exact Hs|reflexivity|by apply keeps_sub]|].
    cbn beta. intros s h2 B2 H2 _ Hs'.
    eapply copies_bind; [eapply (copies_into (R := StatusMem)), shows_mono; [exact Hst|reflexivity|grown]|].
    cbn beta. intros st h3 B3 H3 _ Hst'. apply copies_ret. split_and!; [done| | |]; cbn; (eapply shows_mono; [eassumption|grown|grown]).
Qed.

#[export] Instance items_laws : CopyLaws (list (JobMem OM)) (list (TypeMeta * SlurmBridgeJob)).
Proof.
  split.
  - intros h h' A A' l v Hl HA Hk. apply (list.Forall2_impl _ _ _ _ Hl). intros x j Hx. by eapply shows_mono.
  - intros h A l v Hl. revert h Hl. generalize (∅ : gset loc). revert v.
    induction l as [|x l IH]; intros v B0 h Hl; apply Forall2_cons_inv_l in Hl as Hv || apply Forall2_nil_inv_l in Hl as Hv.
    + subst v. apply copies_ret. constructor.
    + destruct Hv as (j & v' & Hx & Hl' & ->). unfold DeepCopyInto, items_copy.
      eapply copies_bind; [by eapply (copies_into (R := JobMem OM))|]. cbn beta. intros y h1 B1 H1 _ Hy.
      eapply copies_bind; [apply (IH v')|].
      { apply (list.Forall2_impl _ _ _ _ Hl'). intros x' j' Hx'. eapply shows_mono; [exact Hx'|reflexivity|by apply keeps_sub]. }
      cbn beta. intros ys h2 B2 H2 _ Hys. apply copies_ret. constructor; [|exact Hys].
      eapply shows_mono; [exact Hy|grown|grown].
Qed.

#[export] Instance list_laws : CopyLaws (ListMem LM) (TypeMeta * LV * option (list (TypeMeta * SlurmBridgeJob))).
Proof.
  split.
  - intros h h' A A' x v (Ht & Hm & Hi) HA Hk. split_and!; [done|by eapply shows_mono|by eapply maybe_points_mono].
  - intros h A x v (Ht & Hm & Hi).
    eapply copies_bind; [by eapply (copies_into (R := LM))|]. cbn beta. intros m h1 B1 H1 _ Hm'.
    eapply copies_bind; [eapply DeepCopy_spec, maybe_points_mono; [exact Hi|reflexivity|by apply keeps_sub]|].
    cbn beta. intros i h2 B2 H2 _ Hi'. apply copies_ret. split_and!; [done|eapply shows_mono; [exact Hm'|grown|grown]|exact Hi'].
Qed.

Lemma reads_slice_mono h h' A A' p v : reads_slice h A p v -> A ⊆ A' -> keeps_cells A h h' -> reads_slice h' A' p v.
Proof. destruct p as [l|]; [|done]. apply points_mono. Qed.
Lemma header_mono h h' A A' p v :
  maybe (reads_map CStringMap reads_slice) h A p v -> A ⊆ A' -> keeps_cells A h h' -> maybe (reads_map CStringMap reads_slice) h' A' p v.
Proof. intros Hm HA Hk. eapply maybe_mono; [|done]. intros l x Hl. by eapply reads_map_mono; [apply reads_slice_mono|..]. Qed.
Lemma get_mk_header m : get_string_map (CStringMap m) = Some m.
Proof. done. Qed.

Lemma slice_copy_spec B0 h A p v :
  reads_slice h A p v -> copies B0 (DeepCopy (R := list string) p) (fun h' B p' => reads_slice h' B p' v) h.
Proof.
  destruct p as [l|]; intros Hp; [|by apply copies_ret].
  destruct (DeepCopy_spec (R := list string) B0 h A (Some l) (Some v) Hp) as (y & h' & B & Hy & Hh & HB & Hr).
  exists y, h', B. split; [done|]. split; [done|]. split; [done|]. by destruct y.
Qed.

#[export] Instance config_laws : CopyLaws (ConfigMem LM) (TypeMeta * LV * SlurmVirtualKubeletConfiguration).
Proof.
  split.
  - intros h h' A A' x v (Ht & Hm & Hv & Hh & Hc) HA Hk.
    split_and!; [done|by eapply shows_mono|done|by eapply header_mono|by eapply reads_slice_mono].
  - intros h A x v (Ht & Hm & Hv & Hh & Hc).
    eapply copies_bind; [by eapply (copies_into (R := LM))|]. cbn beta. intros m h1 B1 H1 _ Hm'.
    eapply copies_bind.
    { apply (copy_map_spec CStringMap get_string_map (copy_ptr (R := list string)) reads_slice get_mk_header reads_slice_mono ltac:(done))
        with (A := A) (v := vc_StaticPodURLHeader v.2); [|done|].
      - intros h2 A1 l x1 Hl. by eapply copy_ptr_spec.
      - eapply header_mono; [exact Hh|reflexivity|by apply keeps_sub]. }
    cbn beta. intros hd h2 B2 H2 _ Hh'.
    eapply copies_bind; [eapply slice_copy_spec, reads_slice_mono; [exact Hc|reflexivity|grown]|].
    cbn beta. intros ci h3 B3 H3 _ Hc'. apply copies_ret. split_and!; [done|eapply shows_mono; [exact Hm'|grown|grown]|by rewrite Hv at 1| |exact Hc'].
    eapply header_mono; [exact Hh'|grown|grown].
Qed.

(** ** Independence *)

Lemma points_outside {R V} {BX : Boxed R} {SW : Shows R V} {CI : CopyInto R} {CL' : CopyLaws R V} h h' h2 A B p v :
  points (R := R) h A p v -> h ⊆ h' -> B ## dom h -> (forall l, l ∉ B -> h2 !! l = h' !! l) -> points (R := R) h2 A p v.
Proof.
  intros Hp Hh HB H2. eapply points_mono; [exact Hp|done|]. intros l c _ Hl. rewrite H2; [by eapply lookup_weaken|].
  apply elem_of_dom_2 in Hl. set_solver.
Qed.

(** C12. [DeepCopy] of a SlurmBridgeJob gives a job of its own: it reads the
    same, the original is untouched, and the two share no cell. Whatever is
    written to cells of the copy is not seen in the original, and whatever is
    written elsewhere is not seen in the copy. *)
Theorem DeepCopy_independent h A p v :
  points (R := JobMem OM) h A p v ->
  exists q h' B, SlurmBridgeJob_DeepCopy (Some p) h = (Ok (Some q), h') /\ h ⊆ h' /\ B ## dom h /\
    points (R := JobMem OM) h' B q v /\
    (forall h2, (forall l, l ∉ B -> h2 !! l = h' !! l) -> points (R := JobMem OM) h2 A p v) /\
    (forall h2, (forall l, l ∈ B -> h2 !! l = h' !! l) -> points (R := JobMem OM) h2 B q v).
Proof.
  intros Hp. destruct (copy_ptr_spec (R := JobMem OM) h A p v Hp) as (q & h' & B & Hq & Hh & [HB _] & Hpt).
  rewrite (left_id_L ∅ (∪)) in Hpt. exists q, h', B. split_and!; [|done|done|done| |].
  - unfold SlurmBridgeJob_DeepCopy, DeepCopy, mbind, M_bind. by rewrite Hq.
  - intros h2 H2. by eapply points_outside.
  - intros h2 H2. eapply points_mono; [exact Hpt|done|]. intros l c Hl Hc. by rewrite H2.
Qed.

(** A [runtime.Object] is never a nil pointer with a type. *)
Lemma DeepCopyObject_not_typed_nil kind (copy : option loc -> M heap (option loc)) input h k :
  (as_object kind copy input h).1 <> Ok (Some (k, None)).
Proof. unfold as_object, mbind, M_bind. by destruct (copy input h) as [[[q|]|e|x] h']. Qed.

(** ** The reconciler on the heap (slurmbridgejob_controller.go) *)

Context {PT : ProtoTime} {JR : Json JobInfoResponse}.

Definition set_status (q : loc) (f : StatusMem -> StatusMem) : M heap unit :=
  j ← load (R := JobMem OM) q;
  store q (CJob (mkJobMem (jm_TypeMeta j) (jm_ObjectMeta j) (jm_Spec j) (f (jm_Status j)))).

Definition set_state_mem (state : string) (s : StatusMem) : StatusMem :=
  mkStatusMem state (tm_SubjobStatus s) (tm_FetchResult s) (tm_FetchResultStatus s) (tm_ClusterEndPoint s).
Definition set_endpoint_mem (e : string) (s : StatusMem) : StatusMem :=
  mkStatusMem (tm_State s) (tm_SubjobStatus s) (tm_FetchResult s) (tm_FetchResultStatus s) e.
Definition set_subjobs_mem (m : loc) (s : StatusMem) : StatusMem :=
  mkStatusMem (tm_State s) (Some m) (tm_FetchResult s) (tm_FetchResultStatus s) (tm_ClusterEndPoint s).

(** [util.GetMetaTimePointer]. *)
Definition GetMetaTimePointer (t : Time) : M heap loc := new (CTime t).

(** [&v1alpha1.SlurmSubjobStatus{...}]; the two output files change places. *)
Definition new_subjob (info : JobInfo) : M heap loc :=
  submit ← GetMetaTimePointer (AsTime (ji_SubmitTime info));
  start ← GetMetaTimePointer (AsTime (ji_StartTime info));
  new (CSub (mkSubMem (ji_Id info) (ji_UserId info) (ji_ArrayId info) (ji_Name info) (ji_ExitCode info)
    (JobStatus_String (ji_Status info)) (Some submit) (Some start) (DurationString (ji_RunTime info))
    (DurationString (ji_TimeLimit info)) (ji_WorkingDir info) (ji_StdErr info) (ji_StdOut info) (ji_Partition info)
    (ji_NodeList info) (ji_BatchHost info) (ji_NumNodes info))).

(** The map of sub jobs, made when it is nil. *)
Definition subjobs_map (q : loc) : M heap loc :=
  j ← load (R := JobMem OM) q;
  match tm_SubjobStatus (jm_Status j) with
  | Some m => mret m
  | None => m ← new (CSubs ∅); set_status q (set_subjobs_mem m);; mret m
  end.

Definition add_subjob (m : loc) (info : JobInfo) : M heap unit :=
  sub ← new_subjob info;
  assign CSubs get_subs m (ji_Id info) (Some sub).

(** [UpdateSBJStatus], the events left out. *)
Definition UpdateSBJStatus_mem (q : loc) (pod : option Pod) : M heap unit :=
  pod ← lift (of_option NilDeref pod);
  j ← load (R := JobMem OM) q;
  when (negb (bool_decide (tm_State (jm_Status j) = st_Phase (pod_status pod))))
    (set_status q (set_state_mem (st_Phase (pod_status pod))));;
  match map_get (pod_annotations pod) LabelAgentEndPoint with
  | Some endpoint => set_status q (set_endpoint_mem endpoint)
  | None => mret tt
  end;;
  if bool_decide (st_Message (pod_status pod) = "") then mret tt
  else
    info ← lift (Unmarshal (st_Message (pod_status pod)));
    m ← subjobs_map q;
    forM (jresp_Info info) (add_subjob m).

(** The start of [Reconcile]: a copy of the job the cache holds, and one of
    its status to compare with. *)
Definition copy_status (q : loc) : M heap loc :=
  out ← new (box zero_StatusMem);
  y ← (j ← load (R := JobMem OM) q; DeepCopyInto (jm_Status j));
  store out (box y);;
  mret out.
Definition begin_reconcile (cached : loc) : M heap (loc * loc) :=
  copied ← SlurmBridgeJob_DeepCopy (Some cached);
  sjb ← lift (of_option NilDeref copied);
  oldStatus ← copy_status sjb;
  mret (sjb, oldStatus).

(** ** A job in cells of its own *)

(** The plain fields of a status. *)
Definition plain_status (x : StatusMem) (v : SlurmBridgeJobStatus) : Prop :=
  v = mkSlurmBridgeJobStatus (tm_State x) (sjs_SubjobStatus v) (tm_FetchResult x) (tm_FetchResultStatus x) (tm_ClusterEndPoint x).

(** The map of sub jobs is a cell that nothing else of the job reaches. *)
Definition own_map (h : heap) (B C0 : gset loc) (p : option loc) (v : option (gmap string SlurmSubjobStatus)) : Prop :=
  match p, v with
  | None, None => True
  | Some m, Some subs =>
      m ∈ B /\ (m ∉ C0) /\ exists acc, h !! m = Some (CSubs acc) /\ forall k, reads_entry reads_sub h C0 (acc !! k) (subs !! k)
  | _, _ => False
  end.

Definition own_body (h : heap) (B : gset loc) (x : JobMem OM) (v : TypeMeta * SlurmBridgeJob) : Prop :=
  exists C0, C0 ⊆ B /\ jm_TypeMeta x = v.1 /\ shows h C0 (jm_ObjectMeta x) (sbj_meta v.2) /\
    shows h C0 (jm_Spec x) (sbj_Spec v.2) /\ plain_status (jm_Status x) (sbj_Status v.2) /\
    own_map h B C0 (tm_SubjobStatus (jm_Status x)) (sjs_SubjobStatus (sbj_Status v.2)).

Definition owns (h : heap) (C : gset loc) (q : loc) (x : JobMem OM) (v : TypeMeta * SlurmBridgeJob) : Prop :=
  q ∈ C /\ h !! q = Some (CJob x) /\ exists B, B ⊆ C /\ (q ∉ B) /\ own_body h B x v.

Lemma own_body_mono h h' B B' x v : own_body h B x v -> B ⊆ B' -> keeps_cells B h h' -> own_body h' B' x v.
Proof.
  intros (C0 & HC & Ht & Hm & Hs & Hp & Hsub) HB Hk.
  assert (Hk0 : keeps_cells C0 h h') by (intros l c Hl; by apply Hk, HC).
  exists C0. split_and!; [by etrans|done|by eapply shows_mono|by eapply shows_mono|done|].
  unfold own_map in *. destruct (tm_SubjobStatus _) as [m|], (sjs_SubjobStatus _) as [subs|]; try done.
  destruct Hsub as (HmB & HmC & acc & Hacc & Hall). split_and!; [by apply HB|done|]. exists acc. split; [by apply Hk|].
  intros k. eapply reads_entry_mono; [apply reads_sub_mono|done..].
Qed.

Lemma own_body_shows h B x v : own_body h B x v -> shows h B x v.
Proof.
  intros (C0 & HC & Ht & Hm & Hs & Hp & Hsub).
  split_and!; [done|eapply shows_mono; [exact Hm|done|apply keeps_refl]|eapply shows_mono; [exact Hs|done|apply keeps_refl]|].
  split; [exact Hp|]. unfold own_map, maybe in *. destruct (tm_SubjobStatus _) as [m|], (sjs_SubjobStatus _) as [subs|]; try done.
  destruct Hsub as (HmB & HmC & acc & Hacc & Hall). split; [done|]. by exists acc, C0.
Qed.

Lemma owns_points h C q x v : owns h C q x v -> points (R := JobMem OM) h C q v.
Proof. intros (Hq & Hx & B & HB & HqB & Hb). split; [done|]. exists x, B. split_and!; [done..|]. by apply own_body_shows. Qed.

Lemma job_copied h A x v : shows h A x v -> copies ∅ (DeepCopyInto (R := JobMem OM) x) (fun h' B y => own_body h' B y v) h.
Proof.
  intros (Ht & Hm & Hs & Hp & Hsub).
  destruct (law_DeepCopyInto (R := OM) h A _ _ Hm) as (m & h1 & B1 & E1 & H1 & [D1 D1'] & S1).
  destruct (law_DeepCopyInto (R := SpecMem) h1 A (jm_Spec x) (sbj_Spec v.2)) as (s & h2 & B2 & E2 & H2 & [D2 D2'] & S2).
  { eapply shows_mono; [exact Hs|done|by apply keeps_sub]. }
  destruct (copy_map_spec CSubs get_subs (copy_ptr (R := SubMem)) reads_sub get_mk_subs reads_sub_mono ltac:(done)
    ltac:(intros h3 A1 l x1 Hl; by eapply copy_ptr_spec) range range_all ∅ h2 A _ _
    ltac:(eapply subs_mono; [exact Hsub|done|apply keeps_sub; by etrans])) as (p & h3 & B3 & E3 & H3 & [D3 D3'] & S3).
  rewrite (left_id_L ∅ (∪)) in S1, S2, S3. apply subseteq_dom in H1 as Hd1. apply subseteq_dom in H2 as Hd2. apply subseteq_dom in H3 as Hd3.
  exists (mkJobMem (jm_TypeMeta x) m s (mkStatusMem (tm_State (jm_Status x)) p (tm_FetchResult (jm_Status x)) (tm_FetchResultStatus (jm_Status x)) (tm_ClusterEndPoint (jm_Status x)))),
    h3, (B1 ∪ B2 ∪ B3). split_and!; [|by repeat (etrans; [eassumption|])|set_solver|set_solver|].
  - unfold DeepCopyInto, SlurmBridgeJob_DeepCopyInto, mbind, M_bind. rewrite E1, E2.
    unfold DeepCopyInto, SlurmBridgeJobStatus_DeepCopyInto, mbind, M_bind. by rewrite E3.
  - assert (Hgo : exists C3, C3 ⊆ B3 /\ own_map h3 (∅ ∪ (B1 ∪ B2 ∪ B3)) (B1 ∪ B2 ∪ C3) p (sjs_SubjobStatus (sbj_Status v.2))).
    { unfold own_map, maybe in *. destruct p as [pm|], (sjs_SubjobStatus _) as [subs|]; try done; [|by exists ∅].
      destruct S3 as (Hpm & acc & A0 & Hacc & HA0 & Hn & Hall). exists A0. split; [done|]. split_and!; [set_solver|set_solver|].
      exists acc. split; [done|]. intros k. eapply reads_entry_mono; [apply reads_sub_mono|apply Hall|set_solver|apply keeps_refl]. }
    destruct Hgo as (C3 & HC3 & Hmap). exists (B1 ∪ B2 ∪ C3). split_and!; [set_solver|done| | |exact Hp|exact Hmap]; cbn.
    + eapply shows_mono; [exact S1|set_solver|apply keeps_sub; by etrans].
    + eapply shows_mono; [exact S2|set_solver|by apply keeps_sub].
Qed.

Lemma DeepCopy_owns h A p v :
  points (R := JobMem OM) h A p v ->
  exists q x h' C, SlurmBridgeJob_DeepCopy (Some p) h = (Ok (Some q), h') /\ h ⊆ h' /\ C ## dom h /\ C ⊆ dom h' /\ owns h' C q x v.
Proof.
  intros (_ & x & A0 & Hx & _ & _ & Hs).
  destruct (new_then_store (box (zero (R := JobMem OM))) (copy_from (R := JobMem OM) p) box (fun h' B y => own_body h' B y v) h)
    as (q & h' & C & Hq & Hh & [HC HCd] & HqC & y & B & Hy & HB & HqB & Hb).
  - intros h1 Hh1. destruct (job_copied h1 A0 x v) as (y & h2 & B & Hy & Hrest); [eapply shows_mono; [exact Hs|done|by apply keeps_sub]|].
    exists y, h2, B. split; [|done]. unfold copy_from, load, mbind at 1, M_bind. by rewrite (lookup_weaken _ _ _ _ Hx Hh1).
  - intros h1 B y l Hb Hl. eapply own_body_mono; [exact Hb|done|by apply keeps_store].
  - rewrite (left_id_L ∅ (∪)) in *. exists q, y, h', C. split_and!; [|done..|].
    + change (copy_ptr (R := JobMem OM) p h = (Ok q, h')) in Hq. unfold SlurmBridgeJob_DeepCopy, DeepCopy, mbind, M_bind. by rewrite Hq.
    + split_and!; [done..|]. by exists B.
Qed.

(** [copy_status] copies the status of a job in memory. *)
Lemma copy_status_spec h C q x v :
  owns h C q x v ->
  copies ∅ (copy_status q) (fun h' D old => points (R := StatusMem) h' D old (sbj_Status v.2)) h.
Proof.
  intros Ho. pose proof (owns_points _ _ _ _ _ Ho) as Hp. destruct Ho as (_ & Hx & B & _ & _ & Hb).
  apply own_body_shows in Hb as (_ & _ & _ & Hst).
  refine (new_then_store (box zero_StatusMem) (j ← load (R := JobMem OM) q; DeepCopyInto (jm_Status j)) box
    (fun h' B y => shows h' B y (sbj_Status v.2)) h _ _).
  - intros h1 Hh1. destruct (copies_into (R := StatusMem) ∅ h1 B (jm_Status x) (sbj_Status v.2)) as (y & h2 & B2 & Hy & Hrest).
    { eapply shows_mono; [exact Hst|done|by apply keeps_sub]. }
    exists y, h2, B2. split; [|done]. unfold load, mbind at 1, M_bind. by rewrite (lookup_weaken _ _ _ _ Hx Hh1).
  - intros h1 B1 y l Hy Hl. eapply shows_mono; [done|done|by apply keeps_store].
Qed.

(** ** The steps of an update *)

(** A step writes to cells of [C] and to new ones, which join it. *)
Definition evolves (h : heap) (C : gset loc) (h' : heap) (C' : gset loc) : Prop :=
  C ⊆ C' /\ C' ∖ C ## dom h /\ C' ⊆ dom h' /\ dom h ⊆ dom h' /\ forall l c, l ∉ C -> h !! l = Some c -> h' !! l = Some c.

Lemma evolves_refl h C : C ⊆ dom h -> evolves h C h C.
Proof. intros HC. split_and!; [done|set_solver|done..]. Qed.
Lemma evolves_trans h C h1 C1 h2 C2 : evolves h C h1 C1 -> evolves h1 C1 h2 C2 -> evolves h C h2 C2.
Proof.
  intros (A1 & A2 & A3 & A4 & A5) (B1 & B2 & B3 & B4 & B5). split_and!; [by etrans| |done|by etrans|].
  - intros l. destruct (decide (l ∈ C1)); set_solver.
  - intros l c Hl Hc. apply B5; [|by apply A5]. apply elem_of_dom_2 in Hc. set_solver.
Qed.

(** The outcome of a step: the job is owned with the value [v]. *)
Definition step_to {R} (m : M heap R) (h : heap) (C : gset loc) (q : loc) (v : TypeMeta * SlurmBridgeJob) (Q : R -> heap -> JobMem OM -> Prop) : Prop :=
  exists r h' C' x, m h = (Ok r, h') /\ evolves h C h' C' /\ owns h' C' q x v /\ Q r h' x.

Lemma step_bind {R R'} (m : M heap R) (f : R -> M heap R') h C q v v' Q Q' :
  step_to m h C q v Q ->
  (forall r h1 C1 x, C1 ⊆ dom h1 -> owns h1 C1 q x v -> Q r h1 x -> step_to (f r) h1 C1 q v' Q') ->
  step_to (m ≫= f) h C q v' Q'.
Proof.
  intros (r & h1 & C1 & x & Hm & He & Ho & HQ) Hf. destruct (Hf r h1 C1 x) as (r' & h2 & C2 & x2 & Hr & He2 & Ho2 & HQ2); [apply He|done..|].
  exists r', h2, C2, x2. split_and!; [|by eapply evolves_trans|done|done]. unfold mbind, M_bind. by rewrite Hm.
Qed.

Lemma step_ret {R} (r : R) h C q x v (Q : R -> heap -> JobMem OM -> Prop) :
  C ⊆ dom h -> owns h C q x v -> Q r h x -> step_to (mret r) h C q v Q.
Proof. intros HC Ho HQ. exists r, h, C, x. split_and!; [done|by apply evolves_refl|done|done]. Qed.

(** Storing the job with another status. *)
Lemma store_job_step h C q x y tm j j' :
  C ⊆ dom h -> owns h C q x (tm, j) -> (forall B h', B ⊆ C -> q ∉ B -> keeps_cells B h h' -> own_body h B x (tm, j) -> own_body h' B y (tm, j')) ->
  evolves h C (<[q := CJob y]> h) C /\ owns (<[q := CJob y]> h) C q y (tm, j').
Proof.
  intros HC (Hq & Hx & B & HB & HqB & Hb) Hnew. split.
  - split_and!; [done|set_solver|rewrite dom_insert_L; set_solver|rewrite dom_insert_L; set_solver|].
    intros l c Hl Hc. rewrite lookup_insert_ne; [done|]. by intros <-.
  - split_and!; [done|by rewrite lookup_insert_eq|]. exists B. split_and!; [done..|]. apply Hnew; [done..|by apply keeps_store|done].
Qed.

(** An assignment to a plain field of the status. *)
Lemma set_status_step f F h C q x tm j :
  (forall y s, plain_status y s -> plain_status (f y) (F s)) ->
  (forall y, tm_SubjobStatus (f y) = tm_SubjobStatus y) -> (forall s, sjs_SubjobStatus (F s) = sjs_SubjobStatus s) ->
  C ⊆ dom h -> owns h C q x (tm, j) ->
  step_to (set_status q f) h C q (tm, with_status j (F (sbj_Status j))) (fun _ _ x' => jm_Status x' = f (jm_Status x)).
Proof.
  intros Hf Hfm HFm HC Ho. pose proof Ho as (_ & Hx & _).
  set (y := mkJobMem (jm_TypeMeta x) (jm_ObjectMeta x) (jm_Spec x) (f (jm_Status x))).
  destruct (store_job_step h C q x y tm j (with_status j (F (sbj_Status j))) HC Ho) as [He Ho'].
  - intros B h' HB HqB Hk Hb. apply (own_body_mono h h' B B) in Hb as (C0 & HC0 & Ht & Hm & Hs & Hp & Hsub); [|done|exact Hk].
    exists C0. split_and!; [exact HC0|exact Ht|exact Hm|exact Hs| |].
    + cbn. by apply Hf.
    + cbn. by rewrite Hfm, HFm.
  - exists tt, (<[q := CJob y]> h), C, y. split_and!; [|done..]. unfold set_status, load, mbind, M_bind. by rewrite Hx.
Qed.

(** The map of sub jobs exists. *)
Definition has_map (m : loc) (x : JobMem OM) : Prop := tm_SubjobStatus (jm_Status x) = Some m.

Lemma with_subjobs_same h C q x tm j m :
  owns h C q x (tm, j) -> has_map m x -> with_status j (set_subjobs (subjobs j) (sbj_Status j)) = j.
Proof.
  intros (_ & _ & B & _ & _ & C0 & _ & _ & _ & _ & _ & Hsub) Hm. unfold has_map in Hm. cbn [fst snd] in Hsub. rewrite Hm in Hsub.
  unfold own_map, subjobs, set_subjobs in *. destruct j as [jm js [st [subs|] fr fs ep]]; [done|by destruct Hsub].
Qed.

Lemma subjobs_map_step h C q x tm j :
  C ⊆ dom h -> owns h C q x (tm, j) ->
  step_to (subjobs_map q) h C q (tm, with_status j (set_subjobs (subjobs j) (sbj_Status j))) (fun m _ x' => has_map m x').
Proof.
  intros HC Ho. pose proof Ho as (Hq & Hx & B & HB & HqB & Hb). pose proof Hb as (C0 & HC0 & Ht & Hm & Hs & Hp & Hsub).
  cbn [fst snd] in *. destruct (tm_SubjobStatus (jm_Status x)) as [m|] eqn:E.
  - exists m, h, C, x. split_and!; [|by apply evolves_refl| |done].
    + unfold subjobs_map, load, mbind, M_bind. rewrite Hx. cbn. by rewrite E.
    + by rewrite (with_subjobs_same h C q x tm j m).
  - destruct (sjs_SubjobStatus (sbj_Status j)) as [subs|] eqn:E2; [done|].
    set (m := fresh (dom h)). assert (Hm0 : m ∉ dom h) by apply is_fresh.
    set (y := mkJobMem (jm_TypeMeta x) (jm_ObjectMeta x) (jm_Spec x) (set_subjobs_mem m (jm_Status x))).
    assert (Hqm : q <> m) by (intros ->; apply Hm0, HC, Hq).
    exists m, (<[q := CJob y]> (<[m := CSubs ∅]> h)), ({[m]} ∪ C), y. split_and!; [| | |done].
    + unfold subjobs_map, load, mbind, M_bind. rewrite Hx. cbn. rewrite E. cbn. fold m.
      unfold set_status, load, mbind, M_bind. rewrite lookup_insert_ne by done. by rewrite Hx.
    + split_and!; [set_solver|set_solver|rewrite !dom_insert_L; set_solver|rewrite !dom_insert_L; set_solver|].
      intros l c Hl Hc. rewrite !lookup_insert_ne; [done| |by intros <-]. intros <-. by apply elem_of_dom_2 in Hc.
    + split_and!; [set_solver|by rewrite lookup_insert_eq|]. exists ({[m]} ∪ B). split_and!; [set_solver|set_solver|].
      assert (Hk : keeps_cells C0 h (<[q := CJob y]> (<[m := CSubs ∅]> h))).
      { intros l c Hl Hc. rewrite !lookup_insert_ne; [done| |]; intros <-; [|set_solver]. by apply elem_of_dom_2 in Hc. }
      exists C0. split_and!; [set_solver|done|by eapply shows_mono|by eapply shows_mono| |].
      * cbn. unfold plain_status in *. by rewrite Hp.
      * cbn. split_and!; [set_solver|set_solver|]. exists ∅. unfold subjobs. rewrite E2. cbn.
        split; [by rewrite lookup_insert_ne, lookup_insert_eq|]. intros k. by rewrite !lookup_empty.
Qed.

Lemma new_run c (h : heap) : new c h = (Ok (fresh (dom h)), <[fresh (dom h) := c]> h).
Proof. done. Qed.

Lemma new_subjob_spec info h : copies ∅ (new_subjob info) (fun h' B l => points (R := SubMem) h' B l (subjob_of info)) h.
Proof.
  unfold copies, new_subjob, GetMetaTimePointer, mbind, M_bind. rewrite new_run. set (l1 := fresh (dom h)).
  set (h1 := <[l1 := _]> h). rewrite new_run. set (l2 := fresh (dom h1)). set (h2 := <[l2 := _]> h1). rewrite new_run.
  set (l3 := fresh (dom h2)). set (h3 := <[l3 := _]> h2).
  assert (F1 : l1 ∉ dom h) by apply is_fresh. assert (F2 : l2 ∉ dom h1) by apply is_fresh. assert (F3 : l3 ∉ dom h2) by apply is_fresh.
  assert (S1 : h ⊆ h1) by by apply insert_subseteq, not_elem_of_dom. assert (S2 : h1 ⊆ h2) by by apply insert_subseteq, not_elem_of_dom.
  assert (S3 : h2 ⊆ h3) by by apply insert_subseteq, not_elem_of_dom.
  assert (G1 : h3 !! l1 = Some (CTime (AsTime (ji_SubmitTime info)))).
  { eapply lookup_weaken; [|exact S3]. eapply lookup_weaken; [|exact S2]. apply lookup_insert_eq. }
  assert (G2 : h3 !! l2 = Some (CTime (AsTime (ji_StartTime info)))) by (eapply lookup_weaken; [|exact S3]; apply lookup_insert_eq).
  unfold h1 in F2. unfold h2, h1 in F3. rewrite !dom_insert_L in F2, F3.
  exists l3, h3, {[l1; l2; l3]}. split_and!; [done|by do 2 (etrans; [|eassumption])|set_solver|unfold h3, h2, h1; rewrite !dom_insert_L; set_solver|].
  rewrite (left_id_L ∅ (∪)). split; [set_solver|]. eexists _, {[l1; l2]}. split_and!; [apply lookup_insert_eq|set_solver|set_solver|].
  split_and!; [done|split; [set_solver|done]..].
Qed.

(** One Slurm job enters the map. *)
Lemma add_subjob_step m info h C q x tm j :
  C ⊆ dom h -> owns h C q x (tm, j) -> has_map m x ->
  step_to (add_subjob m info) h C q (tm, with_status j (set_subjobs (<[ji_Id info := subjob_of info]> (subjobs j)) (sbj_Status j)))
    (fun _ _ x' => has_map m x').
Proof.
  intros HC (Hq & Hx & B & HB & HqB & C0 & HC0 & Ht & Hm & Hs & Hp & Hsub) Hmap. cbn [fst snd] in *.
  destruct (new_subjob_spec info h) as (l & h1 & B1 & Hl & H1 & [HB1 HB1d] & Hpt). rewrite (left_id_L ∅ (∪)) in Hpt.
  unfold has_map in Hmap. rewrite Hmap in Hsub. unfold own_map in Hsub.
  destruct (sjs_SubjobStatus (sbj_Status j)) as [subs|] eqn:Es; [|done]. destruct Hsub as (HmB & HmC0 & acc & Hacc & Hall).
  set (h2 := <[m := CSubs (<[ji_Id info := Some l]> acc)]> h1). apply subseteq_dom in H1 as Hd1.
  assert (Hmd : m ∈ dom h) by by eapply elem_of_dom_2. assert (Hmq : m <> q) by (intros ->; done).
  assert (Hk : keeps_cells C0 h h2).
  { intros a c Ha Hc. unfold h2. rewrite lookup_insert_ne by (by intros <-). by eapply lookup_weaken. }
  assert (Hk1 : keeps_cells B1 h1 h2) by (apply keeps_store; set_solver).
  exists tt, h2, (C ∪ B1), x. split_and!; [| |split_and!|done].
  - unfold add_subjob, mbind, M_bind. rewrite Hl. unfold assign. by rewrite (lookup_weaken _ _ _ _ Hacc H1).
  - split_and!; [set_solver|set_solver|unfold h2; rewrite dom_insert_L; set_solver|unfold h2; rewrite dom_insert_L; set_solver|].
    intros a c Ha Hc. unfold h2. rewrite lookup_insert_ne; [by eapply lookup_weaken|]. intros <-. set_solver.
  - set_solver.
  - unfold h2. rewrite lookup_insert_ne by done. by eapply lookup_weaken.
  - assert (Hqd : q ∉ B1) by set_solver. exists (B ∪ B1). split_and!; [set_solver|set_solver|].
    exists (C0 ∪ B1). split_and!; [set_solver|done| | |exact (f_equal (set_subjobs _) Hp)|].
    + eapply shows_mono; [exact Hm|set_solver|exact Hk].
    + eapply shows_mono; [exact Hs|set_solver|exact Hk].
    + cbn. rewrite Hmap. cbn. split_and!; [set_solver|set_solver|]. eexists. split; [apply lookup_insert_eq|].
      intros k. unfold subjobs. rewrite Es. cbn. destruct (decide (k = ji_Id info)) as [->|Hne].
      * rewrite !lookup_insert_eq. cbn. eapply points_mono; [exact Hpt|set_solver|exact Hk1].
      * rewrite !lookup_insert_ne by done. eapply reads_entry_mono; [apply reads_sub_mono|apply Hall|set_solver|exact Hk].
Qed.

Lemma add_subjobs_step m infos h C q x tm j :
  C ⊆ dom h -> owns h C q x (tm, j) -> has_map m x ->
  step_to (forM infos (add_subjob m)) h C q (tm, with_status j (set_subjobs (add_subjobs infos (subjobs j)) (sbj_Status j)))
    (fun _ _ x' => has_map m x').
Proof.
  revert h C x j. induction infos as [|info infos IH]; intros h C x j HC Ho Hm.
  - cbn [forM add_subjobs foldl]. rewrite (with_subjobs_same h C q x tm j m) by done. by eapply step_ret.
  - cbn [forM]. eapply step_bind; [by eapply add_subjob_step|]. cbn beta. intros [] h1 C1 x1 HC1 Ho1 Hm1.
    exact (IH h1 C1 x1 _ HC1 Ho1 Hm1).
Qed.

Lemma plain_state p a s : plain_status a s -> plain_status (set_state_mem p a) (set_state p s).
Proof. unfold plain_status. intros Hs. by rewrite Hs. Qed.
Lemma plain_endpoint e a s : plain_status a s -> plain_status (set_endpoint_mem e a) (set_endpoint e s).
Proof. unfold plain_status. intros Hs. by rewrite Hs. Qed.

(** The whole update, on a job in cells of its own. *)
Lemma UpdateSBJStatus_mem_step pod info h C q x tm j :
  (st_Message (pod_status pod) <> "" -> Unmarshal (st_Message (pod_status pod)) = Ok info) ->
  C ⊆ dom h -> owns h C q x (tm, j) ->
  step_to (UpdateSBJStatus_mem q (Some pod)) h C q (tm, with_status j (observed pod info (sbj_Status j))) (fun _ _ _ => True).
Proof.
  intros Hu HC Ho. pose proof Ho as (_ & Hx & B & _ & _ & C0 & _ & _ & _ & _ & Hp & _). unfold UpdateSBJStatus_mem.
  eapply step_bind with (v := (tm, j)) (Q := fun p h1 x1 => p = pod /\ h1 = h /\ x1 = x); [by eapply step_ret|].
  intros p h0 C1 x0 HC1 Ho1 (-> & -> & ->).
  eapply step_bind with (v := (tm, j)) (Q := fun y h1 x1 => y = x /\ h1 = h).
  { exists x, h, C1, x. split_and!; [|by apply evolves_refl|done..]. unfold load. by rewrite Hx. }
  intros y h0 C2 x2 HC2 Ho2 [-> ->].
  eapply step_bind with (v := (tm, with_status j (set_state (st_Phase (pod_status pod)) (sbj_Status j)))) (Q := fun _ _ _ => True).
  { case_bool_decide as E; cbn [negb when].
    - assert (with_status j (set_state (st_Phase (pod_status pod)) (sbj_Status j)) = j) as ->; [|by eapply step_ret].
      cbn [fst snd] in Hp. rewrite <- E. replace (tm_State (jm_Status x)) with (sjs_State (sbj_Status j)) by (by rewrite Hp).
      rewrite set_state_same. by destruct j.
    - destruct (set_status_step (set_state_mem (st_Phase (pod_status pod))) (set_state (st_Phase (pod_status pod))) h C2 q x2 tm j) as (r & h1 & C3 & x3 & H1 & H2 & H3 & _);
        [apply plain_state|done..|]. by exists r, h1, C3, x3. }
  intros [] h1 C3 x3 HC3 Ho3 _. unfold observed. set (j1 := with_status j (set_state (st_Phase (pod_status pod)) (sbj_Status j))) in *.
  set (s2 := match map_get (pod_annotations pod) LabelAgentEndPoint with Some e => set_endpoint e (sbj_Status j1) | None => sbj_Status j1 end).
  eapply step_bind with (v := (tm, with_status j s2)) (Q := fun _ _ _ => True).
  { unfold s2. destruct (map_get _ _) as [e|]; [|exact (step_ret tt h1 C3 q x3 _ _ HC3 Ho3 I)].
    destruct (set_status_step (set_endpoint_mem e) (set_endpoint e) h1 C3 q x3 tm j1) as (r & h2 & C4 & x4 & H1 & H2 & H3 & _);
      [by intros a s ->|done..|]. by exists r, h2, C4, x4. }
  intros [] h2 C4 x4 HC4 Ho4 _. fold j1. case_bool_decide as Em; [by eapply step_ret|].
  eapply step_bind with (v := (tm, with_status j s2)) (Q := fun i _ _ => i = info).
  { exists info, h2, C4, x4. split_and!; [|by apply evolves_refl|done..]. unfold lift. by rewrite Hu. }
  intros i h3 C5 x5 HC5 Ho5 ->. eapply step_bind; [by eapply subjobs_map_step|]. cbn beta. intros m h4 C6 x6 HC6 Ho6 Hm.
  destruct (add_subjobs_step m (jresp_Info info) h4 C6 q x6 tm _ HC6 Ho6 Hm) as (r & h5 & C7 & x7 & H1 & H2 & H3 & _).
  by exists r, h5, C7, x7.
Qed.

(** C11. A reconciliation does not write into the cache. It starts with a deep
    copy of the cached job and one of the copy's status; then, whatever the
    sizing pod reports, [UpdateSBJStatus] on the heap does to the copy what
    the function on values does to the job, the status kept for comparison
    is still the old one, and every cell that existed before is as it was,
    so the cached job reads the same. *)
Theorem UpdateSBJStatus_refines pod info h A cached tm j :
  points (R := JobMem OM) h A cached (tm, j) ->
  (st_Message (pod_status pod) <> "" -> Unmarshal (st_Message (pod_status pod)) = Ok info) ->
  exists q old h1 h2 C D j', begin_reconcile cached h = (Ok (q, old), h1) /\ UpdateSBJStatus_mem q (Some pod) h1 = (Ok tt, h2) /\
    (forall s : RS Server, rs_job s = j -> exists w', UpdateSBJStatus (Some pod) s = (Ok tt, mkRS w' j')) /\
    points (R := JobMem OM) h2 C q (tm, j') /\ points (R := StatusMem) h2 D old (sbj_Status j) /\
    h ⊆ h2 /\ points (R := JobMem OM) h2 A cached (tm, j).
Proof.
  intros Hp Hu. destruct (DeepCopy_owns h A cached (tm, j) Hp) as (q & x & h0 & C & Hq & Hh & HC & HCd & Ho).
  destruct (copy_status_spec h0 C q x (tm, j) Ho) as (old & h1 & D & Hold & H1 & [HD HDd] & Hpold). rewrite (left_id_L ∅ (∪)) in Hpold.
  assert (Ho1 : owns h1 C q x (tm, j)).
  { destruct Ho as (Hq0 & Hx & B & HB & HqB & Hb). split_and!; [done|by eapply lookup_weaken|]. exists B. split_and!; [done..|].
    eapply own_body_mono; [exact Hb|done|by apply keeps_sub]. }
  apply subseteq_dom in H1 as Hd1.
  destruct (UpdateSBJStatus_mem_step pod info h1 C q x tm j Hu ltac:(set_solver) Ho1) as ([] & h2 & C2 & x2 & Hup & (E1 & E2 & E3 & E4 & E5) & Ho2 & _).
  assert (Hsub : h ⊆ h2).
  { apply map_subseteq_spec. intros l c Hl. apply E5; [|by do 2 (eapply lookup_weaken; [|eassumption])]. apply elem_of_dom_2 in Hl. set_solver. }
  exists q, old, h1, h2, C2, D, (with_status j (observed pod info (sbj_Status j))). split_and!; [|done| | | |done|].
  - unfold begin_reconcile. rewrite (M_bind_run _ _ _ _ _ Hq), (M_bind_run _ _ _ q h0) by done. by rewrite (M_bind_run _ _ _ _ _ Hold).
  - intros s <-. destruct (UpdateSBJStatus_run pod info s Hu) as (w' & Hrun & _). by exists w'.
  - by eapply owns_points.
  - eapply points_mono; [exact Hpold|done|]. intros l c Hl Hc. apply E5; [set_solver|done].
  - eapply points_mono; [exact Hp|done|by apply keeps_sub].
Qed.
End generated.
End memory.

Module DeepCopyExamples.
Import ReconcileExamples.
#[local] Existing Instance proto_time_impl.
#[local] Existing Instance ReconcileExamples.demo_json.

(** Metadata whose labels are a map in a cell of its own. *)
Record Meta := mkMeta { mt_plain : ObjectMeta; mt_Labels : option loc }.
#[local] Abbreviation demo_cell := (cell Meta unit Volume StrMap).
#[local] Abbreviation demo_heap := (gmap loc demo_cell).

Definition labels_at (h : demo_heap) (A : gset loc) (p : loc) (m : StrMap) : Prop := p ∈ A /\ h !! p = Some (CExt m).
#[export] Instance meta_shows : Shows (OM := Meta) (LM := unit) (VM := Volume) (Ext := StrMap) Meta ObjectMeta := fun h A x v =>
  v = set_labels (mt_plain x) (m_Labels v) (m_Annotations (mt_plain x)) /\ maybe labels_at h A (mt_Labels x) (m_Labels v).
#[export] Instance meta_copy : CopyInto (OM := Meta) (LM := unit) (VM := Volume) (Ext := StrMap) Meta := fun x =>
  match mt_Labels x with
  | None => mret x
  | Some l => fun h => match h !! l with
                       | Some (CExt m) => (q ← new (CExt m); mret (mkMeta (mt_plain x) (Some q))) h
                       | _ => (Panic NilDeref, h)
                       end
  end.
#[export] Instance unit_shows : Shows (OM := Meta) (LM := unit) (VM := Volume) (Ext := StrMap) unit unit := fun h A x v => True.
#[export] Instance unit_copy : CopyInto (OM := Meta) (LM := unit) (VM := Volume) (Ext := StrMap) unit := fun x => mret x.
#[export] Instance volume_shows : Shows (OM := Meta) (LM := unit) (VM := Volume) (Ext := StrMap) Volume Volume := fun h A x v => x = v.
#[export] Instance volume_copy : CopyInto (OM := Meta) (LM := unit) (VM := Volume) (Ext := StrMap) Volume := fun x => mret x.

(** A copied cell. *)
Lemma cell_copied (c : demo_cell) h :
  copies ∅ (new c) (fun h' B q => q ∈ B /\ h' !! q = Some c) h.
Proof.
  assert (Hf : fresh (dom h) ∉ dom h) by apply is_fresh.
  exists (fresh (dom h)), (<[fresh (dom h) := c]> h), {[fresh (dom h)]}. split_and!; [done|by apply insert_subseteq, not_elem_of_dom|set_solver| | |].
  - rewrite dom_insert_L. set_solver.
  - set_solver.
  - by rewrite lookup_insert_eq.
Qed.

#[export] Instance meta_laws : CopyLaws Meta ObjectMeta.
Proof.
  split.
  - intros h h' A A' x v [Hv Hl] HA Hk. split; [done|]. eapply maybe_mono; [|done]. intros l m [Hl' Hm]. split; [by apply HA|by apply Hk].
  - intros h A [x [l|]] v [Hv Hl]; cbn [mt_plain mt_Labels] in *; destruct (m_Labels v) as [m|] eqn:E; try done.
    + destruct Hl as [_ Hl]. destruct (cell_copied (CExt m) h) as (q & h' & B & Hq & Hh & HB & Hqq).
      exists (mkMeta x (Some q)), h', B. split_and!; [|done|apply HB|apply HB|].
      * unfold DeepCopyInto, meta_copy. cbn [mt_Labels]. rewrite Hl. unfold mbind, M_bind. by rewrite Hq.
      * split; cbn; rewrite E; [exact Hv|exact Hqq].
    + apply copies_ret. split; cbn; by rewrite E.
Qed.
#[export] Instance unit_laws : CopyLaws unit unit.
Proof. split; [done|]. intros h A x v _. by apply copies_ret. Qed.
#[export] Instance volume_laws : CopyLaws Volume Volume.
Proof. split; [done|]. intros h A x v Hv. by apply copies_ret. Qed.

#[export] Instance demo_time : TimeCopy (OM := Meta) (LM := unit) (VM := Volume) (Ext := StrMap) := fun l h =>
  match h !! l with Some (CTime t) => (q ← new (CTime t); mret (Some q)) h | _ => (Panic NilDeref, h) end.
Lemma demo_time_law : forall (h : demo_heap) l t, h !! l = Some (CTime t) ->
  copies ∅ (demo_time l) (fun h' B p => maybe time_at h' B p (Some t)) h.
Proof.
  intros h l t Hl. destruct (cell_copied (CTime t) h) as (q & h' & B & Hq & Hh & [HB HBd] & Hqq).
  exists (Some q), h', B. split_and!; [|done..]. unfold demo_time. rewrite Hl. unfold mbind, M_bind. by rewrite Hq.
Qed.

#[export] Instance meta_zero : ZeroValue Meta := mkMeta (new_meta "" "" None) None.
#[export] Instance unit_zero : ZeroValue unit := tt.
#[export] Instance volume_zero : ZeroValue Volume := mkVolume "" "" "".
#[export] Instance demo_range : MapRange := fun m => map_to_list m.

(** A job in the cache, with a label, a user and one sub job. *)
Definition cached_value : SlurmBridgeJob :=
  mkSlurmBridgeJob (new_meta "train" "default" (Some {["team" := "ml"]})) demo_spec
    (set_subjobs {["7" := subjob_of (demo_info "7")]} zero_Status).
Definition cached_mem : JobMem Meta :=
  mkJobMem (mkTypeMeta "SlurmBridgeJob" "v1") (mkMeta (new_meta "train" "default" None) (Some 2%positive))
    (mkSpecMem "debug" (sp_SbatchScript demo_spec) (Some 3%positive) None "" 2 0 0 0 "/work" 0 "" "" None)
    (mkStatusMem "" (Some 4%positive) false "" "").
Definition cached_sub : SubMem :=
  mkSubMem "7" "1000" "" "train" "0:0" "RUNNING" (Some 6%positive) (Some 7%positive) "" "" "/work" "err" "out" "debug" "n1" "n1" "1".
Definition cache : demo_heap := list_to_map [
  (1%positive, CJob cached_mem); (2%positive, CExt {["team" := "ml"]}); (3%positive, CInt64 1000);
  (4%positive, CSubs {["7" := Some 5%positive]}); (5%positive, CSub cached_sub);
  (6%positive, CTime (AsTime None)); (7%positive, CTime (AsTime None))].
Definition cells : gset loc := {[1; 2; 3; 4; 5; 6; 7]}%positive.

Lemma cached_points : points (R := JobMem Meta) cache cells 1%positive (mkTypeMeta "SlurmBridgeJob" "v1", cached_value).
Proof.
  split; [by_compute|]. exists cached_mem, {[2; 3; 4; 5; 6; 7]}%positive. split_and!; [reflexivity|by_compute|by_compute|].
  split_and!; [done| | |].
  - split; [done|]. split; [by_compute|reflexivity].
  - split_and!; [done| |done|done]. split; [by_compute|]. exists 1000%Z, ∅. by split_and!; [|by_compute..|].
  - split; [done|]. split; [by_compute|]. exists {["7" := Some 5%positive]}, {[5; 6; 7]}%positive. split_and!; [reflexivity|by_compute|by_compute|].
    intros k. destruct (decide (k = "7")) as [->|Hk]; [|by rewrite !lookup_singleton_ne].
    rewrite !lookup_singleton_eq. split; [by_compute|]. exists cached_sub, {[6; 7]}%positive. split_and!; [reflexivity|by_compute|by_compute|].
    split_and!; [done|..]; (split; [by_compute|reflexivity]).
Qed.

Lemma DeepCopy_independent_witness :
  exists q h' B, SlurmBridgeJob_DeepCopy (Some 1%positive) cache = (Ok (Some q), h') /\ cache ⊆ h' /\ B ## dom cache /\
    points (R := JobMem Meta) h' B q (mkTypeMeta "SlurmBridgeJob" "v1", cached_value).
Proof.
  destruct (DeepCopy_independent (OM := Meta) (LM := unit) (VM := Volume) (Ext := StrMap) demo_time_law (fun m => reflexivity _)
    cache cells 1%positive _ cached_points) as (q & h' & B & Hq & Hh & HB & Hp & _).
  exists q, h', B. exact (conj Hq (conj Hh (conj HB Hp))).
Defined.

Lemma UpdateSBJStatus_refines_witness :
  exists q old h1 h2 C j', begin_reconcile 1%positive cache = (Ok (q, old), h1) /\ UpdateSBJStatus_mem q (Some submitted_pod) h1 = (Ok tt, h2) /\
    sjs_State (sbj_Status j') = PodRunning /\
    points (R := JobMem Meta) h2 C q (mkTypeMeta "SlurmBridgeJob" "v1", j') /\
    points (R := JobMem Meta) h2 cells 1%positive (mkTypeMeta "SlurmBridgeJob" "v1", cached_value).
Proof.
  destruct (UpdateSBJStatus_refines (OM := Meta) (LM := unit) (VM := Volume) (Ext := StrMap) demo_time_law (fun m => reflexivity _)
    submitted_pod demo_infos cache cells 1%positive _ cached_value cached_points) as (q & old & h1 & h2 & C & D & j' & Hb & Hu & Hval & Hp & _ & _ & Hc).
  - intros _. vm_compute. reflexivity.
  - exists q, old, h1, h2, C, j'. split_and!; [done|done| |done|done].
    destruct (Hval (mkRS new_world cached_value) eq_refl) as (w' & Hrun).
    assert (Hj : rs_job (UpdateSBJStatus (PT := proto_time_impl) (Some submitted_pod) (mkRS new_world cached_value)).2 = j') by by rewrite Hrun.
    rewrite <- Hj. vm_compute. reflexivity.
Defined.

(** What the deep copy is for: a copy of the struct alone shares the map of
    sub jobs, and an update of the copy shows in the cache. *)
Definition shallow : demo_heap := <[9%positive := CJob cached_mem]> cache.
Example shallow_copy_leaks :
  match (UpdateSBJStatus_mem 9%positive (Some submitted_pod) shallow).2 !! 4%positive with
  | Some (CSubs m) => (map_to_list m).*1 = ["8"; "7"] \/ (map_to_list m).*1 = ["7"; "8"]
  | _ => False
  end.
Proof. vm_compute. auto. Qed.
End DeepCopyExamples.
