(* ===== verification/VKReader.v ===== *)
(** * Readers over file streams (pkg/slurm-virtual-kubelet/reader.go)

    The virtual kubelet serves the log of a pod from streams of chunks.
    [OpenFileReader] reads several streams one after the other, keeping what
    a chunk has left over for the next [Read]; [TailFileReader] reads one. *)

From S2P Require Import Prelude GoStrings Workload.

(** The receiving end of a stream: the chunks to come, and the error that
    every [Recv] after them reports. *)
Record Stream := mkStream { st_chunks : list string; st_end : error }.

Definition Recv (s : Stream) : (string + error) * Stream :=
  match st_chunks s with
  | c :: cs => (inl c, mkStream cs (st_end s))
  | [] => (inr (st_end s), s)
  end.

Record OpenFileReader := mkOpenFileReader {
  OpenFileClient : list Stream;
  readIndex : nat;
  buff : string;
}.

(** What a [Read] into a buffer of some size returns: the bytes, whose
    number is the [n] of the code, and the error. *)
Definition ReadOut : Type := string * option error.

(** The copy at the end of [Read], with the buffer of [n] bytes. *)
Definition copy_out (n : nat) (o : OpenFileReader) : ReadOut * OpenFileReader :=
  let readLen := Nat.min n (String.length (buff o)) in
  ((str_take readLen (buff o), None),
   mkOpenFileReader (OpenFileClient o) (readIndex o) (str_drop readLen (buff o))).

(** From the label [readLoop] on; every turn moves to the next stream. The
    result is [None] when the fuel is used up. *)
Fixpoint readLoop (fuel n : nat) (o : OpenFileReader) : option (res ReadOut * OpenFileReader) :=
  match fuel with
  | O => None
  | S fuel' =>
      if bool_decide (buff o = "") then
        match OpenFileClient o !! readIndex o with
        | None => Some (Panic IndexOutOfRange, o)
        | Some client =>
            let '(r, client') := Recv client in
            let clients := <[readIndex o := client']> (OpenFileClient o) in
            match r with
            | inr err =>
                let o' := mkOpenFileReader clients (readIndex o) (buff o) in
                if (readIndex o =? length clients - 1)%nat then Some (Ok ("", Some err), o')
                else if negb (errors_Is err EOF) then Some (Ok ("", Some err), o')
                else readLoop fuel' n (mkOpenFileReader clients (S (readIndex o)) (buff o))
            | inl content =>
                let '(out, o') := copy_out n (mkOpenFileReader clients (readIndex o) content) in
                Some (Ok out, o')
            end
        end
      else let '(out, o') := copy_out n o in Some (Ok out, o')
  end.

Definition read_fuel (o : OpenFileReader) : nat := length (OpenFileClient o) - readIndex o.

Definition OpenFileReader_Read (n : nat) (o : OpenFileReader) : option (res ReadOut * OpenFileReader) :=
  if (length (OpenFileClient o) <=? readIndex o)%nat
  then Some (Ok ("", Some (ErrNew "Read index exceeds OpenFileClient length")), o)
  else readLoop (read_fuel o) n o.

(** ** The reader of a followed file *)

Record TailFileReader := mkTailFileReader { tr_client : Stream; tr_buff : string }.

Definition TailFileReader_Read (n : nat) (o : TailFileReader) : ReadOut * TailFileReader :=
  let copy client buff :=
    let readLen := Nat.min n (String.length buff) in
    ((str_take readLen buff, None), mkTailFileReader client (str_drop readLen buff)) in
  if bool_decide (tr_buff o = "") then
    let '(r, client') := Recv (tr_client o) in
    match r with
    | inr err => (("", Some err), mkTailFileReader client' (tr_buff o))
    | inl content => copy client' content
    end
  else copy (tr_client o) (tr_buff o).

(** ** Reading to the end *)

(** Reads into buffers of the given sizes until one reports an error: the
    bytes so far, the error, and the reader afterwards. *)
Fixpoint read_all {R} (Read : nat -> R -> option (res ReadOut * R)) (sizes : list nat) (o : R) :
    option (string * option error) :=
  match sizes with
  | [] => Some ("", None)
  | n :: sizes' =>
      match Read n o with
      | Some (Ok (data, Some e), _) => Some (data, Some e)
      | Some (Ok (data, None), o') => prod_map (String.append data) id <$> read_all Read sizes' o'
      | _ => None
      end
  end.

(** What a sequence of streams has to say: each is read to its end, and the
    next one only after a normal end. *)
Fixpoint said (ss : list Stream) : string * error :=
  match ss with
  | [] => ("", ErrNew "Read index exceeds OpenFileClient length")
  | [s] => (cat (st_chunks s), st_end s)
  | s :: ss' =>
      if errors_Is (st_end s) EOF then (cat (st_chunks s) +:+ (said ss').1, (said ss').2)
      else (cat (st_chunks s), st_end s)
  end.

(** The same of a reader, whose buffer comes first. *)
Definition to_say (o : OpenFileReader) : string * error :=
  let '(data, e) := said (drop (readIndex o) (OpenFileClient o)) in (buff o +:+ data, e).

(** A bound on the reads of non-empty buffers until the end. *)
Definition stream_work (s : Stream) : nat := length (st_chunks s) + String.length (cat (st_chunks s)).
Definition work (o : OpenFileReader) : nat :=
  String.length (buff o) + list_sum (stream_work <$> drop (readIndex o) (OpenFileClient o)).

Lemma said_cons s ss :
  ss <> [] -> errors_Is (st_end s) EOF = true ->
  said (s :: ss) = (cat (st_chunks s) +:+ (said ss).1, (said ss).2).
Proof. intros Hne He. destruct ss; [done|]. cbn [said]. by rewrite He. Qed.

Lemma said_chunk c cs e ss :
  said (mkStream (c :: cs) e :: ss) = (c +:+ (said (mkStream cs e :: ss)).1, (said (mkStream cs e :: ss)).2).
Proof.
  destruct ss; cbn [said st_chunks st_end]; [done|].
  destruct (errors_Is e EOF); cbn; by rewrite ?str_app_assoc.
Qed.

(** One read: it ends the reading with the error that is due when nothing
    is left to say, or delivers the next bytes. *)
Definition read_ok (n : nat) (o : OpenFileReader) (r : option (res ReadOut * OpenFileReader)) : Prop :=
  (exists o', r = Some (Ok ("", Some (to_say o).2), o') /\ (to_say o).1 = "") \/
  (exists data o', r = Some (Ok (data, None), o') /\
     to_say o = (data +:+ (to_say o').1, (to_say o').2) /\
     (readIndex o' < length (OpenFileClient o'))%nat /\
     (0 < n -> work o' < work o)%nat).

Lemma copy_out_ok n o :
  (readIndex o < length (OpenFileClient o))%nat -> (0 < n -> buff o <> "")%nat ->
  exists data o', copy_out n o = ((data, None), o') /\ to_say o = (data +:+ (to_say o').1, (to_say o').2) /\
    (readIndex o' < length (OpenFileClient o'))%nat /\ (0 < n -> work o' < work o)%nat.
Proof.
  intros Hi Hb. unfold copy_out. eexists _, _. split; [reflexivity|]. split_and!; [|done|].
  - unfold to_say. cbn [buff readIndex OpenFileClient]. destruct (said _) as [d e]. cbn.
    by rewrite <- str_app_assoc, str_take_drop.
  - intros Hn. specialize (Hb Hn). unfold work. cbn [buff readIndex OpenFileClient].
    set (k := Nat.min n (String.length (buff o))).
    assert (Hk : (0 < k <= String.length (buff o))%nat).
    { split; [|lia]. unfold k. destruct (buff o); [done|]. cbn. lia. }
    pose proof (f_equal String.length (str_take_drop k (buff o))) as Hl.
    rewrite length_str_app, length_str_take in Hl by lia. lia.
Qed.

Lemma copy_chunk_ok o content cs e ss :
  (readIndex o < length (OpenFileClient o))%nat -> buff o = "" ->
  drop (readIndex o) (OpenFileClient o) = mkStream (content :: cs) e :: ss ->
  let o1 := mkOpenFileReader (<[readIndex o := mkStream cs e]> (OpenFileClient o)) (readIndex o) content in
  to_say o1 = to_say o /\ (S (work o1) = work o)%nat /\ (readIndex o1 < length (OpenFileClient o1))%nat.
Proof.
  intros Hi Hb Hd o1. unfold o1.
  assert (Hd1 : drop (readIndex o) (<[readIndex o := mkStream cs e]> (OpenFileClient o)) = mkStream cs e :: ss).
  { rewrite <- (take_drop (readIndex o) (OpenFileClient o)) at 1. rewrite Hd.
    rewrite insert_app_r_alt by (rewrite length_take; lia).
    rewrite length_take. replace (readIndex o - _)%nat with 0%nat by lia. cbn.
    by rewrite drop_app_length' by (rewrite length_take; lia). }
  split_and!.
  - unfold to_say. cbn [buff readIndex OpenFileClient]. rewrite Hd1, Hd, Hb, said_chunk.
    by destruct (said (mkStream cs e :: ss)).
  - unfold work. cbn [buff readIndex OpenFileClient]. rewrite Hd1, Hd, Hb.
    unfold stream_work. cbn [fmap list_fmap list_sum foldr st_chunks length]. rewrite cat_cons, length_str_app. cbn. lia.
  - cbn. by rewrite length_insert.
Qed.

Lemma readLoop_ok fuel n o :
  (readIndex o < length (OpenFileClient o))%nat -> (read_fuel o <= fuel)%nat ->
  read_ok n o (readLoop fuel n o).
Proof.
  revert o. induction fuel as [|fuel IH]; intros o Hi Hf; [unfold read_fuel in Hf; lia|].
  cbn [readLoop]. case_bool_decide as Hb.
  2: { destruct (copy_out_ok n o Hi) as (d & o' & -> & H); [done|]. right. by exists d, o'. }
  destruct (lookup_lt_is_Some_2 _ _ Hi) as [s Hs]. rewrite Hs.
  pose proof (drop_S _ _ _ Hs) as Hd. destruct s as [[|c cs] e]; unfold Recv; cbn [st_chunks st_end].
  - rewrite list_insert_id by done.
    assert (Heq : mkOpenFileReader (OpenFileClient o) (readIndex o) (buff o) = o) by by destruct o.
    rewrite Heq. destruct (Nat.eqb_spec (readIndex o) (length (OpenFileClient o) - 1)) as [Hl|Hl].
    + left. exists o. unfold to_say. rewrite Hd, drop_ge, Hb by lia. done.
    + assert (Hne : drop (S (readIndex o)) (OpenFileClient o) <> []).
      { intros H. apply (f_equal length) in H. rewrite length_drop in H. cbn in H. lia. }
      destruct (errors_Is e EOF) eqn:He; cbn [negb].
      * set (o1 := mkOpenFileReader _ _ _).
        assert (Hsay : to_say o1 = to_say o).
        { unfold to_say, o1. cbn [buff readIndex OpenFileClient]. rewrite Hd, said_cons by done. cbn.
          rewrite Hb. by destruct (said _). }
        assert (Hw : work o1 = work o) by (unfold work, o1; cbn [buff readIndex OpenFileClient]; by rewrite Hd).
        specialize (IH o1). unfold read_ok in *. rewrite Hsay, Hw in IH. apply IH; unfold read_fuel, o1 in *; cbn; lia.
      * left. exists o. unfold to_say. rewrite Hd, Hb. cbn [said st_chunks st_end].
        revert Hne. destruct (drop (S _) _); intros Hne; [done|]. cbn. by rewrite He.
  - destruct (copy_chunk_ok o c cs e _ Hi Hb Hd) as (Hsay & Hw & Hi1).
    set (o1 := mkOpenFileReader _ _ c) in *.
    (* an empty chunk is delivered as it is *)
    destruct (decide (c = "")) as [->|Hc].
    + right. unfold copy_out, o1. cbn [buff OpenFileClient readIndex String.length]. rewrite Nat.min_0_r. cbn [str_take str_drop].
      eexists _, _. split; [reflexivity|]. fold o1. rewrite <- Hsay. split_and!; [by destruct (to_say o1)|done|lia].
    + destruct (copy_out_ok n o1 Hi1) as (d & o' & -> & H1 & H2 & H3); [done|]. right. exists d, o'.
      rewrite <- Hsay. split_and!; [done..|]. intros Hn. specialize (H3 Hn). lia.
Qed.

(** C20. Reading a list of streams through an [OpenFileReader], whatever the
    sizes of the buffers, delivers the bytes of the streams one after the
    other, each exactly once and in order, goes on to the next stream only
    at the end of one, and stops with the error of the stream it stopped
    in; enough non-empty buffers reach that end. *)
Theorem OpenFileReader_reads o sizes :
  (readIndex o < length (OpenFileClient o))%nat ->
  exists data e, read_all OpenFileReader_Read sizes o = Some (data, e) /\
    (e = Some (to_say o).2 /\ data = (to_say o).1 \/
     e = None /\ exists rest, (to_say o).1 = data +:+ rest) /\
    (Forall (fun n => 0 < n)%nat sizes -> (work o < length sizes)%nat -> e <> None).
Proof.
  revert o. induction sizes as [|n sizes IH]; intros o Hi.
  - exists "", None. split_and!; [done| |cbn; lia]. right. split; [done|]. by eexists.
  - cbn [read_all]. unfold OpenFileReader_Read at 1. rewrite (proj2 (Nat.leb_gt _ _)) by done.
    destruct (readLoop_ok (read_fuel o) n o Hi) as [(o' & -> & He)|(d & o' & -> & Hsay & Hi' & Hw)]; [done|..].
    + exists "", (Some (to_say o).2). split_and!; [done| |done]. left. by rewrite He.
    + destruct (IH o' Hi') as (data & e & -> & Hend & Hlen). cbn [fmap option_fmap option_map prod_map fst snd id].
      exists (d +:+ data), e. split_and!; [done| |].
      * rewrite Hsay. cbn. destruct Hend as [[-> ->]|[-> [rest ->]]]; [by left|]. right. split; [done|].
        exists rest. by rewrite str_app_assoc.
      * rewrite list.Forall_cons. intros [Hn Hs] Hl. apply Hlen; [done|]. specialize (Hw Hn). cbn in Hl. lia.
Qed.

(** A [TailFileReader] reads its stream exactly as an [OpenFileReader]
    with that one stream does, read by read. *)
Theorem TailFileReader_one_stream n (o : TailFileReader) :
  let one (o : TailFileReader) := mkOpenFileReader [tr_client o] 0 (tr_buff o) in
  OpenFileReader_Read n (one o) =
    Some (Ok (TailFileReader_Read n o).1, one (TailFileReader_Read n o).2).
Proof.
  destruct o as [[chunks e] b]. cbv zeta. unfold OpenFileReader_Read, TailFileReader_Read. cbn.
  case_bool_decide as Hb; [|done]. by destruct chunks.
Qed.

(** ** Examples *)

Module ReaderExamples.
Definition two_streams : OpenFileReader :=
  mkOpenFileReader [mkStream ["hello "; "out"] EOF; mkStream ["err"] EOF] 0 "".

Example read_two : read_all OpenFileReader_Read [4; 4; 4; 4; 4] two_streams = Some ("hello outerr", Some EOF).
Proof. reflexivity. Qed.

Lemma OpenFileReader_reads_witness :
  let sizes := replicate 17 4%nat in
  exists data e, read_all OpenFileReader_Read sizes two_streams = Some (data, e) /\
    (e = Some EOF /\ data = "hello outerr" \/ e = None /\ exists rest, "hello outerr" = data +:+ rest) /\
    (Forall (fun n => 0 < n)%nat sizes -> (work two_streams < length sizes)%nat -> e <> None).
Proof. apply (OpenFileReader_reads two_streams (replicate 17 4%nat)). cbn. lia. Defined.
End ReaderExamples.
