(* ===== verification/VKProvider.v ===== *)
(** * The pod provider of the virtual kubelet (pkg/slurm-virtual-kubelet/provider.go)

    The virtual kubelet library hands the pods of its node to this provider.
    Creating a sizing pod submits its script to the Slurm agent and records
    the job id twice: in [knownPods], by pod uid, and as a label of the pod.
    Every other call finds the job through one of the two. Calls run in the
    state [Prov], the pods the provider knows and the environment, which
    answers for the API server and for the agent. *)

From S2P Require Import Prelude GoStrings GoNum GoTime Workload Kube Crd Cluster OperatorPod VKStatus VKReader.

(** The options of the kubelet that the provider uses. *)
Record KubeletServer := mkKubeletServer { SlurmPartition : string; AgentEndpoint : string }.

Record Prov (W : Type) := mkProv { knownPods : gmap string string; pv_w : W }.
Arguments mkProv {W}.
Arguments knownPods {W}.
Arguments pv_w {W}.

(** The streaming calls of the agent's client. A followed file is a client
    to which the request is sent. *)
Class WorkloadStreams (W : Type) := {
  rpc_OpenFile : OpenFileRequest -> M W Stream;
  rpc_TailFile : M W nat;
  tail_Send : nat -> TailFileRequest -> M W unit;
  tail_stream : nat -> W -> Stream;
}.

(** ** Submitting *)

Definition DaemonSetKind : string := "DaemonSet".

Definition needReconcile (pod : Pod) : bool :=
  if match m_OwnerReferences (pod_meta pod) with o :: _ => bool_decide (or_Kind o = DaemonSetKind) | [] => false end
  then false
  else if bool_decide (is_Some (map_get (pod_labels pod) LabelSlurmBridgeJobId)) then false
  else bool_decide (default "" (map_get (pod_labels pod) LabelsRole) = SlurmBridgeJobPodRoleSizeCar).

Definition validateCreatePod (pod : Pod) : option error :=
  match spec_Containers (pod_spec pod) with
  | [c] =>
      match ct_Command c with
      | [_] => None
      | _ => Some (ErrNew "Pod first container command's (will be submitted as sbatch script) len must be 1")
      end
  | _ => Some (ErrNew "Pod container len must be 1")
  end.

(** The number of a label; a text that is no number is logged and ignored. *)
Definition label_int (labels : option StrMap) (key : string) : Z :=
  match map_get labels key with
  | Some text => match ParseIntR text with Ok n => n | _ => 0%Z end
  | None => 0%Z
  end.

Definition newSubmitRequestForPod (vk : KubeletServer) (pod : Pod) : res SubmitJobRequest :=
  c ← index (spec_Containers (pod_spec pod)) 0;
  let runAsUser :=
    match ct_SecurityContext c with
    | Some sc => match sctx_RunAsUser sc with Some u => FormatInt u | None => "" end
    | None => ""
    end in
  script ← index (ct_Command c) 0;
  let labels := pod_labels pod in
  Ok {| sj_Script := script;
        sj_Partition := SlurmPartition vk;
        sj_ClientId := "";
        sj_RunAsUser := runAsUser;
        sj_RunAsGroup := "";
        sj_Uid := pod_uid pod;
        sj_CpufsPerTask := label_int labels LabelsResourceRequestCpusPerTask;
        sj_MemPerCpu := label_int labels LabelsResourceRequestMemPerCpu;
        sj_NtasksPerNode := label_int labels LabelsResourceRequestNTasksPerNode;
        sj_Array := default "" (map_get labels LabelsResourceRequestArray);
        sj_Ntasks := label_int labels LabelsResourceRequestNTasks;
        sj_Nodes := label_int labels LabelsResourceRequestNodes;
        sj_JobName := ct_Name c;
        sj_WorkingDir := ct_WorkingDir c |}.

(** The pod with the job's label and the agent's annotation. *)
Definition with_job_id (vk : KubeletServer) (pod : Pod) (id : string) : Pod :=
  mkPod (set_labels (pod_meta pod)
           (Some (<[LabelSlurmBridgeJobId := id]> (default ∅ (pod_labels pod))))
           (Some (<[LabelAgentEndPoint := AgentEndpoint vk]> (default ∅ (pod_annotations pod)))))
        (pod_spec pod) (pod_status pod).

Definition zero_Pod : Pod := mkPod (new_meta "" "" None) (mkPodSpec "" None None "" [] [] "" []) zero_PodStatus.

(** ** Go pointers to a loop variable

    The variable of a [range] loop is one cell for all rounds: every pointer
    taken to it ends up at the last element. *)
Definition range_pointers {A} (items : list A) : list A :=
  let '(cell, pointers) :=
    foldl (fun '(_, pointers) item => (Some item, pointers ++ [tt])) (None, []) items in
  omap (fun _ : unit => cell) pointers.

(** What [GetContainerLogs] returns (it does not look at the container's
    name): a reader over streams, or the reader
    of a followed file and the path asked for. *)
Inductive LogReader :=
  | ReadFiles (r : OpenFileReader)
  | FollowFile (path : string) (client : nat).

Section provider.
Context {W : Type} {API : KubeAPI W} {WM : WorkloadManager W} {WS : WorkloadStreams W}.
Context {PT : ProtoTime} {JR : Json JobInfoResponse} {JI : Json JobInfo}.
Variable vk : KubeletServer.

Definition on_env {A} (m : M W A) : M (Prov W) A :=
  fun s => let '(r, w') := m (pv_w s) in (r, mkProv (knownPods s) w').
Definition store_known (uid id : string) : M (Prov W) unit :=
  modify (fun s => mkProv (<[uid := id]> (knownPods s)) (pv_w s)).
Definition delete_known (uid : string) : M (Prov W) unit :=
  modify (fun s => mkProv (delete uid (knownPods s)) (pv_w s)).

(** The pod after the call, the object the caller shares; an error of the
    update is logged. *)
Definition addAndUpdateSlurmJobInfo (pod : Pod) (id : string) : M (Prov W) Pod :=
  match map_get (pod_labels pod) LabelSlurmBridgeJobId with
  | Some _ => mret pod
  | None =>
      let pod := with_job_id vk pod id in
      _ ← attempt (on_env (api_UpdatePodStatus pod));
      mret pod
  end.

Definition created_event (id : Z) : Event :=
  mkEvent "Normal" (NewReason SlurmBridgeJobKind SlurmBridgeJobCreatedReason)
    ("SlurmBridgeJob submit to the slurm-agent " +:+ AgentEndpoint vk +:+ ", job id is " +:+ FormatInt id).

Definition CreatePod (pod : Pod) : M (Prov W) Pod :=
  if negb (needReconcile pod) then mret pod
  else
    match validateCreatePod pod with
    | Some err => fail err
    | None =>
        submitRequest ← lift (newSubmitRequestForPod vk pod);
        submitJobResp ← on_env (rpc_SubmitJob submitRequest);
        on_env (api_Event (created_event (sjr_JobId submitJobResp)));;
        store_known (pod_uid pod) (FormatInt (sjr_JobId submitJobResp));;
        addAndUpdateSlurmJobInfo pod (FormatInt (sjr_JobId submitJobResp))
    end.

(** Updates are ignored, but the id in the labels is remembered. *)
Definition UpdatePod (pod : Pod) : M (Prov W) unit :=
  match pod_labels pod with
  | Some labels =>
      match labels !! LabelSlurmBridgeJobId with
      | Some jobId => store_known (pod_uid pod) jobId
      | None => mret tt
      end
  | None => mret tt
  end.

(** ** Deleting *)

Definition cancel_jobs (jobIds : string) : M (Prov W) unit :=
  forM (Split jobIds ",") (fun jobId =>
    match AtoiR jobId with
    | Ok n => _ ← on_env (rpc_CancelJob (mkCancelJobRequest n)); mret tt
    | Err _ => mret tt
    | Panic p => panicM p
    end).

(** The pod is forgotten however the call ends. *)
Definition DeletePod (pod : Pod) : M (Prov W) unit :=
  deferred
    (match map_get (pod_labels pod) LabelSlurmBridgeJobId with
     | Some jobIds => cancel_jobs jobIds
     | None =>
         s ← get;
         match knownPods s !! pod_uid pod with
         | Some jobIds => cancel_jobs jobIds
         | None => mret tt
         end
     end)
    (delete_known (pod_uid pod)).

(** ** Looking pods up *)

Definition getSlurmJobId (pod : Pod) : M (Prov W) string :=
  match map_get (pod_labels pod) LabelSlurmBridgeJobId with
  | Some jobId => mret jobId
  | None => s ← get; mret (default "" (knownPods s !! pod_uid pod))
  end.

(** A pod that is not found leaves the client's empty object. *)
Definition GetPod (namespace name : string) : M (Prov W) (option Pod) :=
  r ← attempt (on_env (api_GetPod (namespace, name)));
  pod ← match r with
        | inl pod => mret pod
        | inr err => if negb (IsNotFound err) then fail err else mret zero_Pod
        end;
  jobId ← getSlurmJobId pod;
  if negb (bool_decide (jobId = "")) then mret (Some pod) else mret None.

Definition GetPodStatus (namespace name : string) : M (Prov W) (option PodStatus) :=
  pod ← GetPod namespace name;
  match pod with
  | None => mret None
  | Some pod =>
      jobId ← getSlurmJobId pod;
      if bool_decide (jobId = "") then mret None
      else
        parseInt ← lift (ParseIntR jobId);
        jobInfo ← on_env (rpc_JobInfo (mkJobInfoRequest parseInt));
        status ← lift (convertJobInfo2PodStatus pod jobInfo);
        mret (Some status)
  end.

Definition GetPods : M (Prov W) (list Pod) :=
  items ← on_env api_ListPods;
  mret (range_pointers items).

(** ** Calls without an effect *)

Definition RunInContainer (namespace podName containerName : string) (cmd : list string) : M (Prov W) unit := mret tt.
Definition AttachToContainer (namespace podName containerName : string) : M (Prov W) unit := mret tt.
Definition PortForward (namespace pod : string) (port : Z) : M (Prov W) unit := mret tt.
(** The summary and the metrics are nil. *)
Definition GetStatsSummary {Summary : Type} : M (Prov W) (option Summary) := mret None.
Definition GetMetricsResource {MetricFamily : Type} : M (Prov W) (list MetricFamily) := mret [].
(** [Ping] answers the error of its context. *)
Definition Ping (ctx_Err : option error) : M (Prov W) unit := match ctx_Err with Some e => fail e | None => mret tt end.

(** A method nobody calls: it stores the jobs in a label of the pod, an empty
    text when they cannot be written, and updates the pod at any version. *)
Definition addOrUpdateSlurmJobInfoLabels (json_Marshal : JobInfoResponse -> res string) (api_UpdatePod : string -> Pod -> M W Pod)
    (pod : Pod) (info : JobInfoResponse) : M (Prov W) Pod :=
  let infoDetail := match json_Marshal info with Ok s => s | _ => "" end in
  let meta := pod_meta pod in
  let pod := mkPod (mkObjectMeta (m_Name meta) (m_Namespace meta) (m_UID meta) (Some (<[LabelLastJobInfo := infoDetail]> (default ∅ (m_Labels meta))))
    (m_Annotations meta) (m_OwnerReferences meta) (m_DeletionTimestamp meta)) (pod_spec pod) (pod_status pod) in
  _ ← attempt (on_env (api_UpdatePod "0" pod));
  mret pod.

(** ** Logs *)

Definition getJobInfo (pod : Pod) : res JobInfoResponse :=
  if bool_decide (st_Message (pod_status pod) = "")
  then Err (ErrNew ("Can not found log file path for pod " +:+ pod_namespace pod +:+ "/" +:+ pod_name pod))
  else Unmarshal (st_Message (pod_status pod)).

(** The loop looks for a job whose id is its own: the first one. *)
Fixpoint find_job (infos : list JobInfo) (jobInfo : JobInfo) : JobInfo :=
  match infos with
  | [] => jobInfo
  | info :: infos' => if bool_decide (GetId (Some info) = ji_Id info) then info else find_job infos' jobInfo
  end.

Definition log_files (jobInfo : JobInfo) : list string :=
  [ji_StdOut jobInfo] ++
  (if negb (bool_decide (ji_StdOut jobInfo = ji_StdErr jobInfo)) then [ji_StdErr jobInfo] else []).

Fixpoint open_files (paths : list string) : M (Prov W) (list Stream) :=
  match paths with
  | [] => mret []
  | path :: paths' =>
      s ← on_env (rpc_OpenFile (mkOpenFileRequest path));
      ss ← open_files paths';
      mret (s :: ss)
  end.

Definition GetContainerLogs (namespace podName containerName : string) (follow : bool) : M (Prov W) LogReader :=
  pod ← GetPod namespace podName;
  match pod with
  | None => fail (ErrNew ("Pod " +:+ namespace +:+ "/" +:+ podName +:+ " not found"))
  | Some pod =>
      jobInfos ← lift (getJobInfo pod);
      if (length (jresp_Info jobInfos) =? 0)%nat then fail (ErrNew "Invalid jobInfo")
      else
        first ← lift (index (jresp_Info jobInfos) 0);
        let jobInfo := find_job (jresp_Info jobInfos) first in
        if follow && negb (isSlurmJobFinished (ji_Status jobInfo)) then
          openReq ← on_env rpc_TailFile;
          on_env (tail_Send openReq (mkTailFileRequest TailAction_Start (ji_StdOut jobInfo)));;
          mret (FollowFile (ji_StdOut jobInfo) openReq)
        else
          logReq ← open_files (log_files jobInfo);
          mret (ReadFiles (mkOpenFileReader logReq 0 ""))
  end.
End provider.

(** ** From the labels of a sizing pod back to the request *)

Lemma lookup_add_int_label key n labels key' :
  add_int_label key n labels !! key' =
    if bool_decide (key = key' /\ 0 < n)%Z then Some (FormatInt n) else labels !! key'.
Proof.
  unfold add_int_label. repeat case_bool_decide; destruct_and?; subst; try tauto.
  - by rewrite lookup_insert_eq.
  - rewrite lookup_insert_ne; [done|]. tauto.
Qed.

Lemma lookup_array_label (b : bool) v (labels : StrMap) key :
  (if b then <[LabelsResourceRequestArray := v]> labels else labels) !! key =
    if bool_decide (LabelsResourceRequestArray = key /\ b = true) then Some v else labels !! key.
Proof.
  destruct b; case_bool_decide as H; destruct_and?; subst; try done.
  - by rewrite lookup_insert_eq.
  - rewrite lookup_insert_ne; [done|]. tauto.
Qed.

Lemma label_int_max labels key n :
  in_int64 n -> map_get labels key = (if bool_decide (0 < n)%Z then Some (FormatInt n) else None) ->
  label_int labels key = Z.max 0 n.
Proof.
  unfold label_int. intros Hn ->. case_bool_decide; [|lia].
  unfold ParseIntR. rewrite ParseInt_FormatInt by done. cbn. lia.
Qed.

Definition spec_ints_ok (spec : SlurmBridgeJobSpec) : Prop :=
  Forall in_int64 [sp_CpusPerTask spec; sp_MemPerCpu spec; sp_NtasksPerNode spec; sp_Ntasks spec; sp_Nodes spec].

(** The labels of a sizing pod at the keys the provider reads. *)
Lemma request_labels spec :
  let labels := Some (<[LabelsRole := SlurmBridgeJobPodRoleSizeCar]> (getResourceRequestLabelsForPod spec)) in
  let int n := if bool_decide (0 < n)%Z then Some (FormatInt n) else None in
  map_get labels LabelsResourceRequestCpusPerTask = int (sp_CpusPerTask spec) /\
  map_get labels LabelsResourceRequestMemPerCpu = int (sp_MemPerCpu spec) /\
  map_get labels LabelsResourceRequestNTasksPerNode = int (sp_NtasksPerNode spec) /\
  map_get labels LabelsResourceRequestNTasks = int (sp_Ntasks spec) /\
  map_get labels LabelsResourceRequestNodes = int (sp_Nodes spec) /\
  default "" (map_get labels LabelsResourceRequestArray) = sp_Array spec /\
  map_get labels LabelSlurmBridgeJobId = None /\
  map_get labels LabelsRole = Some SlurmBridgeJobPodRoleSizeCar.
Proof.
  intros labels int. unfold labels, int, map_get, getResourceRequestLabelsForPod. cbn [mbind option_bind].
  rewrite lookup_insert_eq, !lookup_insert_ne by done.
  rewrite !lookup_add_int_label, !lookup_array_label, !lookup_add_int_label.
  assert (Hk : forall (P : Prop) `{Decision P} (a b : string), (a =? b)%string = false -> bool_decide (a = b /\ P) = false).
  { intros P HP a b Hab. apply bool_decide_eq_false_2. intros [-> _]. by rewrite String.eqb_refl in Hab. }
  assert (Hs : forall (P : Prop) `{Decision P} (a : string), bool_decide (a = a /\ P) = bool_decide P).
  { intros P HP a. apply bool_decide_ext. tauto. }
  rewrite !Hs. rewrite !Hk by reflexivity. rewrite lookup_empty. split_and!; try done.
  case_bool_decide as Ha; [done|]. cbn. destruct (sp_Array spec); [done|]. exfalso. apply Ha.
  apply bool_decide_eq_true_2. unfold str_len. cbn. lia.
Qed.

(** The request the virtual kubelet makes of a sizing pod: the user of the
    job is in it, the group, generic resources and licenses are not. *)
Definition spec_request (vk : KubeletServer) (j : SlurmBridgeJob) (uid : string) : SubmitJobRequest := {|
  sj_Script := sp_SbatchScript (sbj_Spec j);
  sj_Partition := SlurmPartition vk;
  sj_ClientId := "";
  sj_RunAsUser := from_option FormatInt "" (sp_RunAsUser (sbj_Spec j));
  sj_RunAsGroup := "";
  sj_Uid := uid;
  sj_CpufsPerTask := Z.max 0 (sp_CpusPerTask (sbj_Spec j));
  sj_MemPerCpu := Z.max 0 (sp_MemPerCpu (sbj_Spec j));
  sj_NtasksPerNode := Z.max 0 (sp_NtasksPerNode (sbj_Spec j));
  sj_Array := sp_Array (sbj_Spec j);
  sj_Ntasks := Z.max 0 (sp_Ntasks (sbj_Spec j));
  sj_Nodes := Z.max 0 (sp_Nodes (sbj_Spec j));
  sj_JobName := sbj_name j;
  sj_WorkingDir := sp_WorkingDir (sbj_Spec j) |}.

Section sizing_pods.
Context (SetControllerReference : SlurmBridgeJob -> ObjectMeta -> res ObjectMeta).
(** A controller reference is one more owner, of the kind of the controller. *)
Hypothesis SetControllerReference_owner : forall j m m', SetControllerReference j m = Ok m' ->
  exists o, m' = add_owner m o /\ or_Kind o = SlurmBridgeJobKind.

Lemma sizecar_shape j p :
  newSizeCarPodForSJ SetControllerReference j = Ok p ->
  pod_labels p = Some (<[LabelsRole := SlurmBridgeJobPodRoleSizeCar]> (getResourceRequestLabelsForPod (sbj_Spec j))) /\
  (exists o, m_OwnerReferences (pod_meta p) = [o] /\ or_Kind o = SlurmBridgeJobKind) /\
  exists c, spec_Containers (pod_spec p) = [c] /\ ct_Name c = sbj_name j /\
    ct_Command c = [sp_SbatchScript (sbj_Spec j)] /\ ct_WorkingDir c = sp_WorkingDir (sbj_Spec j) /\
    ct_SecurityContext c = Some (mkSecurityContext (sp_RunAsUser (sbj_Spec j))).
Proof.
  unfold newSizeCarPodForSJ. intros H. apply bind_Ok_inv in H as (r & _ & H). cbv zeta in H.
  apply bind_Ok_inv in H as (a & _ & H). apply bind_Ok_inv in H as (m & Hm & H). injection H as <-.
  apply SetControllerReference_owner in Hm as (o & -> & Ho). split_and!; [done|by exists o|].
  eexists. by split_and!.
Qed.

(** What the operator asks for is what the virtual kubelet submits: the
    request made from the stored sizing pod of a SlurmBridgeJob carries the
    job's script, user, name, directory, array and numbers (non-positive
    ones absent), and the provider accepts the pod. *)
Lemma sizecar_request vk j p p' :
  newSizeCarPodForSJ SetControllerReference j = Ok p -> admitted p p' -> spec_ints_ok (sbj_Spec j) ->
  needReconcile p' = true /\ validateCreatePod p' = None /\
  newSubmitRequestForPod vk p' = Ok (spec_request vk j (pod_uid p')).
Proof.
  intros Hp (_ & _ & Hl & Hs & Ho) Hints.
  destruct (sizecar_shape j p Hp) as (Hlab & (o & Hown & Hkind) & c & Hc & Hname & Hcmd & Hwd & Hsc).
  rewrite <- Hl in Hlab. rewrite <- Ho in Hown. rewrite <- Hs in Hc.
  destruct (request_labels (sbj_Spec j)) as (L1 & L2 & L3 & L4 & L5 & L6 & L7 & L8). rewrite <- Hlab in *.
  unfold spec_ints_ok in Hints. rewrite !list.Forall_cons in Hints. destruct Hints as (I1 & I2 & I3 & I4 & I5 & _).
  split_and!.
  - unfold needReconcile. rewrite Hown, L7, L8, Hkind. done.
  - unfold validateCreatePod. by rewrite Hc, Hcmd.
  - unfold newSubmitRequestForPod, index. rewrite Hc. cbn. rewrite Hcmd, Hsc. cbn.
    rewrite (label_int_max _ _ _ I1 L1), (label_int_max _ _ _ I2 L2),
      (label_int_max _ _ _ I3 L3), (label_int_max _ _ _ I4 L4),
      (label_int_max _ _ _ I5 L5). rewrite L6, Hname, Hwd. unfold spec_request.
    by destruct (sp_RunAsUser (sbj_Spec j)).
Qed.
End sizing_pods.

(** ** The life of a submitted pod *)

Section life.
Context {W : Type} {API : KubeAPI W} {WM : WorkloadManager W} {WS : WorkloadStreams W}.
Context {PT : ProtoTime} {JR : Json JobInfoResponse} {JI : Json JobInfo}.
Variable vk : KubeletServer.

(** The calls the library makes. *)
Inductive call :=
  | CCreate (p : Pod)
  | CUpdate (p : Pod)
  | CDelete (p : Pod)
  | CGet (namespace name : string)
  | CStatus (namespace name : string)
  | CPods
  | CLogs (namespace name container : string) (follow : bool).

(** The pod a call may make the provider remember or forget. *)
Definition call_uid (c : call) : option string :=
  match c with CCreate p | CUpdate p | CDelete p => Some (pod_uid p) | _ => None end.

Definition run (c : call) (s : Prov W) : Prov W :=
  match c with
  | CCreate p => (CreatePod vk p s).2
  | CUpdate p => (UpdatePod p s).2
  | CDelete p => (DeletePod p s).2
  | CGet ns n => (GetPod ns n s).2
  | CStatus ns n => (GetPodStatus ns n s).2
  | CPods => (GetPods s).2
  | CLogs ns n c f => (GetContainerLogs ns n c f s).2
  end.

(** What the provider knows of the pod [uid] stays. *)
Definition same_known (uid : string) (s s' : Prov W) : Prop := knownPods s' !! uid = knownPods s !! uid.

#[local] Instance same_known_preorder uid : PreOrder (same_known uid).
Proof. split; [done|]. intros s1 s2 s3 H1 H2. unfold same_known in *. congruence. Qed.

Lemma env_known {A} uid (m : M W A) : steps (same_known uid) (on_env m).
Proof. intros s. unfold on_env. by destruct (m (pv_w s)). Qed.
Lemma store_known_other uid u id : u <> uid -> steps (same_known uid) (store_known u id).
Proof. intros Hu s. unfold same_known. cbn. by rewrite lookup_insert_ne. Qed.
Lemma get_known {A} uid (f : Prov W -> M (Prov W) A) :
  (forall s, steps (same_known uid) (f s)) -> steps (same_known uid) (get ≫= f).
Proof. intros H s. unfold mbind, M_bind, get. apply H. Qed.
Lemma deferred_known {A} uid u (m : M (Prov W) A) :
  u <> uid -> steps (same_known uid) m -> steps (same_known uid) (deferred m (delete_known u)).
Proof.
  intros Hu H s. unfold deferred. specialize (H s). destruct (m s) as [r s']. unfold same_known in *. cbn in *.
  by rewrite lookup_delete_ne.
Qed.

#[local] Ltac known :=
  idtac; match goal with
  | |- steps _ (on_env _) => apply env_known
  | |- steps _ (store_known _ _) => by apply store_known_other
  | |- steps _ (get ≫= _) => apply get_known; intros ?
  | |- steps _ (deferred _ _) => apply deferred_known; [done|]
  end.

Lemma getSlurmJobId_known uid p : steps (same_known uid) (getSlurmJobId (W := W) p).
Proof. unfold getSlurmJobId. by_steps known. Qed.
Lemma GetPod_known uid ns n : steps (same_known uid) (GetPod ns n).
Proof. unfold GetPod. by_steps ltac:(first [apply getSlurmJobId_known | known]). Qed.
Lemma cancel_jobs_known uid ids : steps (same_known uid) (cancel_jobs ids).
Proof. unfold cancel_jobs. by_steps known. Qed.
Lemma open_files_known uid ps : steps (same_known uid) (open_files ps).
Proof. induction ps as [|p ps IH]; cbn [open_files]; by_steps ltac:(first [apply IH | known]). Qed.

(** A call about other pods leaves this one alone. *)
Lemma run_known uid c s : call_uid c <> Some uid -> same_known uid s (run c s).
Proof.
  intros Hc. destruct c; cbn [run call_uid] in *; revert s;
    match goal with |- forall s, same_known uid s (?m s).2 => change (steps (same_known uid) m) end.
  - unfold CreatePod, addAndUpdateSlurmJobInfo. assert (pod_uid p <> uid) by congruence. by_steps known.
  - unfold UpdatePod. assert (pod_uid p <> uid) by congruence. by_steps known.
  - unfold DeletePod. assert (pod_uid p <> uid) by congruence. by_steps ltac:(first [apply cancel_jobs_known | known]).
  - apply GetPod_known.
  - unfold GetPodStatus. by_steps ltac:(first [apply GetPod_known | apply getSlurmJobId_known | known]).
  - unfold GetPods. by_steps known.
  - unfold GetContainerLogs. by_steps ltac:(first [apply GetPod_known | apply open_files_known | known]).
Qed.

Lemma runs_known uid cs s :
  Forall (fun c => call_uid c <> Some uid) cs -> same_known uid s (foldl (fun s c => run c s) s cs).
Proof.
  intros H. revert s. induction H as [|c cs Hc _ IH]; intros s; [done|]. cbn [foldl].
  etrans; [by apply run_known|apply IH].
Qed.

Lemma needReconcile_unlabelled pod :
  needReconcile pod = true -> map_get (pod_labels pod) LabelSlurmBridgeJobId = None.
Proof.
  unfold needReconcile. destruct (map_get (pod_labels pod) LabelSlurmBridgeJobId); [|done].
  rewrite (bool_decide_eq_true_2 (is_Some _)) by done.
  destruct (m_OwnerReferences (pod_meta pod)); [done|]. by case_bool_decide.
Qed.

(** A created pod: the job the agent answered, and what is remembered. *)
Lemma CreatePod_submitted pod s pod' s' :
  needReconcile pod = true -> CreatePod vk pod s = (Ok pod', s') ->
  exists req id w1, newSubmitRequestForPod vk pod = Ok req /\
    rpc_SubmitJob req (pv_w s) = (Ok (mkSubmitJobResponse id), w1) /\
    knownPods s' = <[pod_uid pod := FormatInt id]> (knownPods s) /\
    pod' = with_job_id vk pod (FormatInt id).
Proof.
  intros Hn. unfold CreatePod. rewrite Hn. cbn [negb]. destruct (validateCreatePod pod); [done|].
  intros H. apply M_bind_Ok_inv in H as (req & s1 & [= Hreq <-] & H).
  apply M_bind_Ok_inv in H as ([id] & s2 & H2 & H). unfold on_env in H2.
  destruct (rpc_SubmitJob req (pv_w s)) as [r w1] eqn:Hrpc. injection H2 as -> <-.
  apply M_bind_Ok_inv in H as (u & s3 & H3 & H). unfold on_env in H3. cbn [pv_w knownPods] in H3.
  destruct (api_Event _ w1) as [r3 w3]. injection H3 as _ <-.
  apply M_bind_Ok_inv in H as (u' & s4 & [= _ <-] & H). cbn [sjr_JobId knownPods pv_w] in H.
  exists req, id, w1. split_and!; [done..| |];
    unfold addAndUpdateSlurmJobInfo in H; pose proof (needReconcile_unlabelled pod Hn) as Hl;
    rewrite Hl in H; unfold mbind, M_bind, attempt, on_env, mret, M_ret in H; cbn [knownPods pv_w] in H;
    destruct (api_UpdatePodStatus _ w3) as [[a|e|q] w4]; (discriminate H || by injection H as <- <-).
Qed.

(** Either version of a created pod leads to its job. *)
Lemma job_of_created pod id p1 (s : Prov W) :
  needReconcile pod = true -> knownPods s !! pod_uid pod = Some (FormatInt id) ->
  p1 = pod \/ p1 = with_job_id vk pod (FormatInt id) ->
  getSlurmJobId p1 s = (Ok (FormatInt id), s) /\ pod_uid p1 = pod_uid pod /\
  DeletePod p1 s = deferred (cancel_jobs (FormatInt id)) (delete_known (pod_uid pod)) s.
Proof.
  intros Hn Hk Hp. apply needReconcile_unlabelled in Hn. destruct Hp as [-> | ->].
  - unfold getSlurmJobId, DeletePod. rewrite Hn. unfold mbind, M_bind, get, mret, M_ret. rewrite Hk.
    split_and!; [done..|]. unfold deferred. by rewrite Hk.
  - assert (Hl : map_get (pod_labels (with_job_id vk pod (FormatInt id))) LabelSlurmBridgeJobId = Some (FormatInt id)).
    { unfold map_get. cbn. by rewrite lookup_insert_eq. }
    unfold getSlurmJobId, DeletePod. rewrite Hl. by split_and!.
Qed.

Lemma cancel_one id (s : Prov W) :
  in_int64 id ->
  cancel_jobs (FormatInt id) s =
    (_ ← on_env (rpc_CancelJob (mkCancelJobRequest id)); mret tt) s.
Proof.
  intros Hid. unfold cancel_jobs. change "," with (String ","%char "").
  rewrite Split_lacks by (by apply FormatInt_lacks). cbn [forM].
  unfold AtoiR. rewrite ParseInt_FormatInt by done. cbn [num_res].
  unfold mbind, M_bind, on_env, mret, M_ret. by destruct (rpc_CancelJob _ (pv_w s)) as [[[]|e|p] s'].
Qed.

(** C13. A submitted pod can be followed and stopped: after [CreatePod], and
    whatever calls about other pods come in between, deleting the pod, in
    the version before or after it got its label, cancels exactly the job
    the agent answered and forgets the pod, and asking for its status asks
    the agent for that job and converts the answer. *)
Theorem created_pod_job pod s pod' s1 cs :
  needReconcile pod = true -> CreatePod vk pod s = (Ok pod', s1) ->
  Forall (fun c => call_uid c <> Some (pod_uid pod)) cs ->
  exists req id w1,
    newSubmitRequestForPod vk pod = Ok req /\
    rpc_SubmitJob req (pv_w s) = (Ok (mkSubmitJobResponse id), w1) /\
    (in_int64 id -> forall p1, p1 = pod \/ p1 = pod' ->
     let s2 := foldl (fun s c => run c s) s1 cs in
     (let '(r, w) := rpc_CancelJob (mkCancelJobRequest id) (pv_w s2) in
      DeletePod p1 s2 = ((fun _ => tt) <$> r, mkProv (delete (pod_uid pod) (knownPods s2)) w)) /\
     (forall ns n w2, api_GetPod (ns, n) (pv_w s2) = (Ok p1, w2) ->
      let '(r, w) := rpc_JobInfo (mkJobInfoRequest id) w2 in
      GetPodStatus ns n s2 = (info ← r; Some <$> convertJobInfo2PodStatus p1 info, mkProv (knownPods s2) w))).
Proof.
  intros Hn Hc Hcs. destruct (CreatePod_submitted pod s pod' s1 Hn Hc) as (req & id & w1 & Hreq & Hrpc & Hk & ->).
  exists req, id, w1. split_and!; [done..|]. intros Hid p1 Hp1 s2.
  assert (Hk2 : knownPods s2 !! pod_uid pod = Some (FormatInt id)).
  { pose proof (runs_known (pod_uid pod) cs s1 Hcs) as H. unfold same_known in H. fold s2 in H.
    by rewrite H, Hk, lookup_insert_eq. }
  clearbody s2. split.
  - destruct (job_of_created pod id p1 s2 Hn Hk2 Hp1) as (_ & _ & ->).
    unfold deferred. rewrite cancel_one by done. unfold mbind, M_bind, on_env.
    by destruct (rpc_CancelJob _ (pv_w s2)) as [[r|e|q] w].
  - intros ns n w2 Hget. unfold GetPodStatus, GetPod. unfold mbind at 1, M_bind at 1.
    set (s3 := mkProv (knownPods s2) w2).
    assert (Hg : (r ← attempt (on_env (api_GetPod (ns, n)));
                  pod0 ← match r with inl pod0 => mret pod0
                         | inr err => if negb (IsNotFound err) then fail err else mret zero_Pod end;
                  jobId ← getSlurmJobId pod0;
                  if negb (bool_decide (jobId = "")) then mret (Some pod0) else mret None) s2 = (Ok (Some p1), s3)).
    { unfold mbind, M_bind, attempt, on_env. rewrite Hget. cbn [mret M_ret]. fold s3.
      destruct (job_of_created pod id p1 s3 Hn Hk2 Hp1) as (-> & _). by rewrite bool_decide_eq_false_2 by apply FormatInt_nonempty. }
    rewrite Hg. unfold mbind at 1, M_bind at 1. destruct (job_of_created pod id p1 s3 Hn Hk2 Hp1) as (-> & _).
    rewrite bool_decide_eq_false_2 by apply FormatInt_nonempty.
    unfold mbind, M_bind, lift, ParseIntR. rewrite ParseInt_FormatInt by done. cbn [num_res]. unfold on_env. cbn [pv_w s3 knownPods].
    destruct (rpc_JobInfo _ w2) as [[info|e|q] w]; [|done..]. cbn.
    by destruct (convertJobInfo2PodStatus p1 info).
Qed.
End life.

(** ** Listing and logs *)

Lemma range_pointers_last {A} (items : list A) :
  range_pointers items = match list.last items with Some x => replicate (length items) x | None => [] end.
Proof.
  unfold range_pointers.
  assert (H : forall (l : list A) cell ps,
    foldl (fun '((_, ps) : option A * list unit) (item : A) => (Some item, ps ++ [tt])) (cell, ps) l =
      (match list.last l with Some x => Some x | None => cell end, ps ++ replicate (length l) tt)).
  { induction l as [|x l IH]; intros cell ps; [by rewrite app_nil_r|]. cbn [foldl]. rewrite IH.
    cbn [length replicate]. rewrite <- app_assoc, list.last_cons. by destruct (list.last l). }
  rewrite H. destruct (list.last items) as [x|] eqn:E.
  - cbn [app]. clear. induction (length items) as [|n IH]; [done|]. cbn. by rewrite IH.
  - apply list.last_None in E. by rewrite E.
Qed.

Section listing.
Context {W : Type} {API : KubeAPI W} {WM : WorkloadManager W} {WS : WorkloadStreams W}.
Context {PT : ProtoTime} {JR : Json JobInfoResponse} {JI : Json JobInfo}.

(** [GetPods] answers as many pods as the API server lists, but every
    one of them is the last pod of the list: the pointers it collects all
    point to the loop variable. *)
Theorem GetPods_all_last (items : list Pod) (pod : Pod) (s : Prov W) w' :
  api_ListPods (pv_w s) = (Ok (items ++ [pod]), w') ->
  GetPods s = (Ok (replicate (S (length items)) pod), mkProv (knownPods s) w').
Proof.
  intros H. unfold GetPods, mbind, M_bind, on_env. rewrite H. rewrite range_pointers_last, list.last_snoc.
  rewrite length_app, Nat.add_comm. done.
Qed.

Lemma find_job_first first infos : find_job (first :: infos) first = first.
Proof. cbn. by rewrite bool_decide_eq_true_2. Qed.

(** The log of a container, unless a job that still runs is followed, is
    what the files of the pod's first Slurm job say: its standard output
    and, when it is another file, its standard error after it, for every
    container of the pod alike. *)
Theorem GetContainerLogs_files (files : string -> list string) ns n container follow pod info first rest (s s1 : Prov W) :
  (forall path w, rpc_OpenFile (mkOpenFileRequest path) w = (Ok (mkStream (files path) EOF), w)) ->
  GetPod ns n s = (Ok (Some pod), s1) ->
  getJobInfo pod = Ok info -> jresp_Info info = first :: rest ->
  follow && negb (isSlurmJobFinished (ji_Status first)) = false ->
  exists r, GetContainerLogs ns n container follow s = (Ok (ReadFiles r), s1) /\
    to_say r = (cat (files (ji_StdOut first)) +:+
                (if bool_decide (ji_StdOut first = ji_StdErr first) then "" else cat (files (ji_StdErr first))), EOF).
Proof.
  intros Hf Hp Hi Hj Hfol.
  assert (Ho : forall paths s, open_files paths s = (Ok ((fun p => mkStream (files p) EOF) <$> paths), s)).
  { intros paths. induction paths as [|p paths IH]; intros [k w]; [done|]. cbn [open_files].
    unfold mbind, M_bind, on_env. cbn [pv_w knownPods]. rewrite Hf, IH. done. }
  unfold GetContainerLogs, mbind, M_bind, lift. rewrite Hp, Hi, Hj. cbn [length Nat.eqb index of_option].
  unfold index. cbn [lookup list_lookup of_option]. rewrite find_job_first, Hfol, Ho.
  eexists. split; [reflexivity|]. unfold to_say. cbn [OpenFileClient readIndex buff drop].
  unfold log_files. case_bool_decide; cbn; by rewrite ?str_app_nil_r.
Qed.
End listing.

(** ** Examples *)

Module ProviderExamples.

(** An agent that answers 42, an API server with one pod, and two files. *)
Definition demo_container : Container :=
  mkContainer "train" "useless-image" "" ["#!/bin/sh"] [] "/work" ∅ ∅ (Some (mkSecurityContext (Some 1000%Z))) [] [] [].
Definition demo_meta : ObjectMeta :=
  mkObjectMeta "train-sizecar" "default" "u-1"
    (Some {[LabelsRole := SlurmBridgeJobPodRoleSizeCar; LabelsResourceRequestNodes := "2"]}) None [] None.
Definition demo_pod : Pod :=
  mkPod demo_meta (mkPodSpec "n" None None "" [] [demo_container] "Never" []) (mkPodStatus PodPending [] "info" None []).
Definition other_pod : Pod := mkPod (new_meta "other" "default" None) (pod_spec demo_pod) zero_PodStatus.
Definition demo_vk : KubeletServer := mkKubeletServer "debug" "agent:9999".

Definition demo_job : JobInfo :=
  mkJobInfo "42" "1000" "train" "0:0" JobStatus_COMPLETED None None None None "/work" "/out" "/err" "debug" "n1" "n1" "1" "" "" None.
#[local] Instance demo_json : Json JobInfoResponse :=
  {| Marshal _ := Ok "info"; Unmarshal _ := Ok (mkJobInfoResponse [demo_job]) |}.
#[local] Instance demo_json_info : Json JobInfo := {| Marshal _ := Ok "info"; Unmarshal _ := Ok demo_job |}.

#[local] Instance demo_agent : WorkloadManager Server := {|
  rpc_SubmitJob r := mret (mkSubmitJobResponse 42);
  rpc_CancelJob r := mret mkCancelJobResponse;
  rpc_JobInfo r := mret (mkJobInfoResponse [demo_job]);
  rpc_Partition r := mret (mkPartitionResponse []);
  rpc_Partitions := mret (mkPartitionsResponse []);
  rpc_Nodes r := mret (mkNodesResponse []) |}.
Definition demo_files (path : string) : list string := if bool_decide (path = "/out") then ["a"; "b"] else ["c"].
#[local] Instance demo_streams : WorkloadStreams Server := {|
  rpc_OpenFile r := mret (mkStream (demo_files (of_Path r)) EOF);
  rpc_TailFile := mret 0%nat;
  tail_Send c r := mret tt;
  tail_stream c w := mkStream [] EOF |}.

Definition demo_world : Server := mkServer (mkStore {[pod_key demo_pod := demo_pod]} ∅ ∅ []) [].
Definition demo_state : Prov Server := mkProv ∅ demo_world.

Lemma created_pod_job_witness :
  exists req id w1,
    newSubmitRequestForPod demo_vk demo_pod = Ok req /\
    rpc_SubmitJob req (pv_w demo_state) = (Ok (mkSubmitJobResponse id), w1) /\
    (in_int64 id -> forall p1, p1 = demo_pod \/ p1 = with_job_id demo_vk demo_pod "42" ->
     let s2 := foldl (fun s c => run (PT := proto_time_impl) demo_vk c s) (CreatePod demo_vk demo_pod demo_state).2
                 [CUpdate other_pod; CPods] in
     (let '(r, w) := rpc_CancelJob (mkCancelJobRequest id) (pv_w s2) in
      DeletePod p1 s2 = ((fun _ => tt) <$> r, mkProv (delete "u-1" (knownPods s2)) w)) /\
     (forall ns n w2, api_GetPod (ns, n) (pv_w s2) = (Ok p1, w2) ->
      let '(r, w) := rpc_JobInfo (mkJobInfoRequest id) w2 in
      GetPodStatus (PT := proto_time_impl) ns n s2 =
        (info ← r; Some <$> convertJobInfo2PodStatus (PT := proto_time_impl) p1 info, mkProv (knownPods s2) w))).
Proof.
  apply (created_pod_job (PT := proto_time_impl) demo_vk demo_pod demo_state (with_job_id demo_vk demo_pod "42")
    (CreatePod demo_vk demo_pod demo_state).2 [CUpdate other_pod; CPods]).
  - vm_compute. reflexivity.
  - vm_compute. reflexivity.
  - repeat constructor; vm_compute; discriminate.
Defined.

Lemma GetPods_all_last_witness :
  GetPods demo_state = (Ok [demo_pod], demo_state).
Proof. apply (GetPods_all_last [] demo_pod demo_state demo_world). vm_compute. reflexivity. Defined.

Definition submitted_state : Prov Server := mkProv {["u-1" := "42"]} demo_world.

Lemma GetContainerLogs_files_witness :
  exists r, GetContainerLogs "default" "train-sizecar" "any" true submitted_state = (Ok (ReadFiles r), submitted_state) /\
    to_say r = ("abc", EOF).
Proof.
  apply (GetContainerLogs_files demo_files "default" "train-sizecar" "any" true demo_pod
    (mkJobInfoResponse [demo_job]) demo_job [] submitted_state submitted_state); vm_compute; reflexivity.
Defined.
End ProviderExamples.
