(* ===== verification/VKOptions.v ===== *)
(** * The options of the virtual kubelet (cmd/slurm-virtual-kubelet/app, labels, validation)

    The command line options with their defaults, the labels the kubelet
    gives its node, which labels it may set, and the validation of flags
    and configuration. *)

From S2P Require Import Prelude GoStrings GoNum GoTime Kube Crd.

Record TracingExporterOptions := mkTracing { tr_Tags : option StrMap; tr_ServiceName : string }.

Record SlurmVirtualKubeletFlags := mkFlags {
  fl_KubeConfig : string;
  fl_NodeName : string;
  fl_NodeIP : string;
  fl_NodeLabels : option StrMap;
  fl_VirtualKubeletConfigFile : string;
  fl_KubeNamespace : string;
  fl_OperatingSystem : string;
  fl_Provider : string;
  fl_ProviderConfigPath : string;
  fl_AgentEndpoint : string;
  fl_SlurmPartition : string;
  fl_MetricsAddr : string;
  fl_PodSyncWorkers : Z;
  fl_InformerResyncPeriod : Z;
  fl_EnableNodeLease : bool;
  fl_TraceExporters : list string;
  fl_TraceSampleRate : string;
  fl_TraceConfig : TracingExporterOptions;
  fl_StartupTimeout : Z;
  fl_Version : string;
}.

Definition DefaultNodeName : string := "virtual-kubelet".
Definition DefaultOperatingSystem : string := "Linux".
Definition DefaultInformerResyncPeriod : Z := (60 * Second)%Z.
Definition DefaultMetricsAddr : string := ":10255".
Definition DefaultPodSyncWorkers : Z := 10.
Definition DefaultKubeNamespace : string := "".

Definition or_default (s d : string) : string := if bool_decide (s = "") then d else s.

(** The environment: [os.LookupEnv], and the home directory. *)
Section defaults.
Variable env : string -> option string.
Variable home : string.
Variable filepath_Join : list string -> string.

Definition getEnvOrDefault (key defaultValue : string) : string := default defaultValue (env key).

Definition setDefaultSlurmVirtualKubeletFlags (c : SlurmVirtualKubeletFlags) : SlurmVirtualKubeletFlags := {|
  fl_KubeConfig :=
    if bool_decide (fl_KubeConfig c = "") then
      let fromEnv := default "" (env "KUBECONFIG") in
      if bool_decide (fromEnv = "") then
        if negb (bool_decide (home = "")) then filepath_Join [home; ".kube"; "config"] else fromEnv
      else fromEnv
    else fl_KubeConfig c;
  fl_NodeName :=
    if bool_decide (fl_NodeName c = "") then getEnvOrDefault "DEFAULT_NODE_NAME" DefaultNodeName else fl_NodeName c;
  fl_NodeIP := fl_NodeIP c;
  fl_NodeLabels := fl_NodeLabels c;
  fl_VirtualKubeletConfigFile := fl_VirtualKubeletConfigFile c;
  fl_KubeNamespace := or_default (fl_KubeNamespace c) DefaultKubeNamespace;
  fl_OperatingSystem := or_default (fl_OperatingSystem c) DefaultOperatingSystem;
  fl_Provider := fl_Provider c;
  fl_ProviderConfigPath := fl_ProviderConfigPath c;
  fl_AgentEndpoint := fl_AgentEndpoint c;
  fl_SlurmPartition := fl_SlurmPartition c;
  fl_MetricsAddr := or_default (fl_MetricsAddr c) DefaultMetricsAddr;
  fl_PodSyncWorkers := if bool_decide (fl_PodSyncWorkers c = 0%Z) then DefaultPodSyncWorkers else fl_PodSyncWorkers c;
  fl_InformerResyncPeriod :=
    if bool_decide (fl_InformerResyncPeriod c = 0%Z) then DefaultInformerResyncPeriod else fl_InformerResyncPeriod c;
  fl_EnableNodeLease := fl_EnableNodeLease c;
  fl_TraceExporters := fl_TraceExporters c;
  fl_TraceSampleRate := fl_TraceSampleRate c;
  fl_TraceConfig := fl_TraceConfig c;
  fl_StartupTimeout := fl_StartupTimeout c;
  fl_Version := or_default (fl_Version c) "v0.0.1" |}.

Definition zero_Flags : SlurmVirtualKubeletFlags :=
  mkFlags "" "" "" None "" "" "" "" "" "" "" "" 0 0 false [] "" (mkTracing None "") 0 "".

Definition set_NodeLabels (f : SlurmVirtualKubeletFlags) (name : string) (labels : option StrMap) : SlurmVirtualKubeletFlags :=
  mkFlags (fl_KubeConfig f) name (fl_NodeIP f) labels (fl_VirtualKubeletConfigFile f)
    (fl_KubeNamespace f) (fl_OperatingSystem f) (fl_Provider f) (fl_ProviderConfigPath f) (fl_AgentEndpoint f)
    (fl_SlurmPartition f) (fl_MetricsAddr f) (fl_PodSyncWorkers f) (fl_InformerResyncPeriod f) (fl_EnableNodeLease f)
    (fl_TraceExporters f) (fl_TraceSampleRate f) (fl_TraceConfig f) (fl_StartupTimeout f) (fl_Version f).

Definition NewSlurmVirtualKubeletFlags : SlurmVirtualKubeletFlags :=
  setDefaultSlurmVirtualKubeletFlags (set_NodeLabels zero_Flags "" (Some ∅)).
End defaults.

(** ** The labels of the node *)

Definition LabelHostname : string := "kubernetes.io/hostname".

Section node_labels.
(** [nodeutil.GetHostname]. *)
Variable GetHostname : string -> res string.

(** Writing to a nil map of labels panics. *)
Definition set_label (key value : string) (labels : option StrMap) : res (option StrMap) :=
  m ← map_set labels key value; Ok (Some m).

Fixpoint set_all (kvs : list (string * string)) (labels : option StrMap) : res (option StrMap) :=
  match kvs with
  | [] => Ok labels
  | (k, v) :: kvs' => labels' ← set_label k v labels; set_all kvs' labels'
  end.

Definition node_label_values (flags : SlurmVirtualKubeletFlags) (hostName : string) : list (string * string) :=
  DefaultNodeSelectors ++
  [("alpha.service-slurm-bridge-operator.kubernetes.io/exclude-balancer", "true");
   ("node.kubernetes.io/exclude-from-external-load-balancers", "true");
   ("kubernetes.io/role", "slurm-bridge");
   (LabelHostname, hostName);
   (PartitionLabel, fl_SlurmPartition flags)].

Definition setDefaultSlurmVKFlags (flags : SlurmVirtualKubeletFlags) : res SlurmVirtualKubeletFlags :=
  hostName ← GetHostname (fl_NodeName flags);
  labels ← set_all (node_label_values flags hostName) (fl_NodeLabels flags);
  Ok (set_NodeLabels flags hostName labels).
End node_labels.

(** ** Labels a kubelet may set (labels/well_known_labels.go) *)

Definition getLabelNamespace (key : string) : string :=
  match SplitN2 key "/" with [ns; _] => ns | _ => "" end.

Definition kubeletLabels : list string :=
  [LabelHostname; "topology.kubernetes.io/zone"; "topology.kubernetes.io/region";
   "failure-domain.beta.kubernetes.io/zone"; "failure-domain.beta.kubernetes.io/region";
   "beta.kubernetes.io/instance-type"; "node.kubernetes.io/instance-type";
   "kubernetes.io/os"; "kubernetes.io/arch"; "beta.kubernetes.io/os"; "beta.kubernetes.io/arch";
   "alpha.service-slurm-bridge-operator.kubernetes.io/exclude-balancer";
   "node.kubernetes.io/exclude-from-external-load-balancers"; "kubernetes.io/role"].
Definition kubeletLabelNamespaces : list string := ["kubelet.kubernetes.io"; "node.kubernetes.io"].

(** The namespace itself or one of its subdomains. *)
Definition in_domain (namespace allowed : string) : bool :=
  bool_decide (namespace = allowed) || HasSuffix namespace ("." +:+ allowed).

Definition IsKubeletLabel (key : string) : bool :=
  if bool_decide (key ∈ kubeletLabels) then true
  else existsb (in_domain (getLabelNamespace key)) kubeletLabelNamespaces.

Definition isKubernetesLabel (key : string) : bool :=
  let namespace := getLabelNamespace key in
  if in_domain namespace "kubernetes.io" then true
  else if in_domain namespace "k8s.io" then true
  else false.

(** ** Validation *)

Section validation.
(** The validation functions of apimachinery: the errors they find. *)
Variables IsQualifiedName IsValidLabelValue : string -> list string.

Definition unknown_label (kv : string * string) : bool := isKubernetesLabel kv.1 && negb (IsKubeletLabel kv.1).
Definition invalid_label (kv : string * string) : bool :=
  negb (length (IsQualifiedName kv.1) =? 0)%nat || negb (length (IsValidLabelValue kv.2) =? 0)%nat.

(** The text of the errors depends on the order of the map; which error is
    returned does not. *)
Definition ValidateKubeletFlags (f : SlurmVirtualKubeletFlags) : option error :=
  let labels := map_to_list (default ∅ (fl_NodeLabels f)) in
  if existsb unknown_label labels
  then Some (ErrNew "unknown 'kubernetes.io' or 'k8s.io' labels specified with --node-labels")
  else if existsb invalid_label labels then Some (ErrNew "invalid node labels")
  else if bool_decide (fl_PodSyncWorkers f = 0%Z) then Some (ErrNew "pod sync workers must be greater than 0")
  else if bool_decide (fl_SlurmPartition f = "") then Some (ErrNew "slurm partition can not be empty")
  else None.

(** [utilvalidation.IsValidPortNum]: the ports are 1 to 65535. *)
Definition valid_port (port : Z) : bool := bool_decide (1 <= port <= 65535)%Z.

Definition ValidateSlurmVirtualKubeletConfiguration (kc : SlurmVirtualKubeletConfiguration) : list string :=
  (if negb (valid_port (vc_Port kc))
   then ["invalid configuration: port (--port) " +:+ FormatInt (vc_Port kc) +:+ " must be between 1 and 65535, inclusive"]
   else []) ++
  (if negb (bool_decide (vc_ReadOnlyPort kc = 0%Z)) && negb (valid_port (vc_ReadOnlyPort kc))
   then ["invalid configuration: readOnlyPort (--read-only-port) " +:+ FormatInt (vc_ReadOnlyPort kc)
           +:+ " must be between 0 and 65535, inclusive"]
   else []).

Definition ValidateKubeletServer (flags : SlurmVirtualKubeletFlags) (kc : SlurmVirtualKubeletConfiguration) : option error :=
  match ValidateSlurmVirtualKubeletConfiguration kc with
  | _ :: _ as errs => Some (ErrNew (Join errs ", "))
  | [] => ValidateKubeletFlags flags
  end.
End validation.

(** ** Tracing (tracing.go, tracing_register.go) *)

Definition reservedTagNames : list string := ["operatingSystem"; "provider"; "nodeName"].

(** What a sample rate asks for: nothing, or a sampler. *)
Inductive Sampler := AlwaysSample | NeverSample | ProbabilitySampler (percent : Z).

Definition sampler_of (rate : string) : res (option Sampler) :=
  let lower := ToLower rate in
  if bool_decide (lower = "") then Ok None
  else if bool_decide (lower = "always") then Ok (Some AlwaysSample)
  else if bool_decide (lower = "never") then Ok (Some NeverSample)
  else
    match AtoiR rate with
    | Err e => Err (ErrWrap e "unsupported trace sample rate")
    | Panic p => Panic p
    | Ok n =>
        (* [errors.Wrap] of the nil error of [Atoi] is nil: no error *)
        if bool_decide (n < 0)%Z || bool_decide (100 < n)%Z then Ok None
        else Ok (Some (ProbabilitySampler n))
    end.

Section tracing.
(** An exporter registered with the tracing library, and the registry of
    the exporters this program was built with. *)
Context {Exporter : Type} (tracingExporters : gmap string (TracingExporterOptions -> res Exporter)).

Definition GetTracingExporter (name : string) (opts : TracingExporterOptions) : res Exporter :=
  match tracingExporters !! name with
  | None => Err (ErrNew ("tracing exporter " +:+ name +:+ " not found"))
  | Some f => f opts
  end.

(** What [SetupTracing] did to the tracing library. *)
Record TracerState := mkTracer { exporters : list Exporter; sampler : option Sampler; zpages : nat }.

Definition setup_exporter (opts : TracingExporterOptions) (e : string) : M TracerState unit :=
  if bool_decide (e = "zpages") then modify (fun s => mkTracer (exporters s) (sampler s) (S (zpages s)))
  else
    exporter ← lift (GetTracingExporter e opts);
    modify (fun s => mkTracer (exporters s ++ [exporter]) (sampler s) (zpages s)).

Definition trace_tags (f : SlurmVirtualKubeletFlags) : StrMap :=
  <["nodeName" := fl_NodeName f]> (<["provider" := fl_Provider f]>
    (<["operatingSystem" := fl_OperatingSystem f]> (default ∅ (tr_Tags (fl_TraceConfig f))))).

Definition SetupTracing (f : SlurmVirtualKubeletFlags) : M TracerState unit :=
  let tags := (map_to_list (default ∅ (tr_Tags (fl_TraceConfig f)))).*1 in
  if existsb (fun k => bool_decide (k ∈ reservedTagNames)) tags
  then fail (ErrNew "invalid trace tag, must not use a reserved tag key")
  else
    let opts := mkTracing (Some (trace_tags f)) (tr_ServiceName (fl_TraceConfig f)) in
    forM (fl_TraceExporters f) (setup_exporter opts);;
    if (0 <? length (fl_TraceExporters f))%nat then
      s ← lift (sampler_of (fl_TraceSampleRate f));
      match s with
      | Some s => modify (fun t => mkTracer (exporters t) (Some s) (zpages t))
      | None => mret tt
      end
    else mret tt.
End tracing.
Arguments TracerState : clear implicits.

(** *** The exporters (tracing_register*.go)

    Build tags can leave out either of the two. *)

Record JaegerOptions := mkJaegerOptions {
  jg_Endpoint : string;
  jg_AgentEndpoint : string;
  jg_Username : string;
  jg_Password : string;
  jg_ServiceName : string;
  jg_Tags : list (string * string);
}.
Inductive OCAgentOption := WithServiceName (name : string) | WithAddress (endpoint : string) | WithInsecure.

Section exporters.
Context {Exporter : Type}.
(** The environment, the libraries, and the order in which a map is visited. *)
Variable env : string -> string.
Variable jaeger_NewExporter : JaegerOptions -> res Exporter.
Variable ocagent_NewExporter : list OCAgentOption -> res Exporter.
Variable range_order : StrMap -> list (string * string).

Abbreviation TracingExporterInitFunc := (TracingExporterOptions -> res Exporter).

Definition RegisterTracingExporter (name : string) (f : TracingExporterInitFunc) (tracingExporters : gmap string TracingExporterInitFunc) :
    gmap string TracingExporterInitFunc := <[name := f]> tracingExporters.

(** The names, in the order of the map. *)
Definition AvailableTraceExporters (tracingExporters : gmap string TracingExporterInitFunc) : list string :=
  (map_to_list tracingExporters).*1.

Definition NewJaegerExporter (opts : TracingExporterOptions) : res Exporter :=
  let jOpts := mkJaegerOptions (env "JAEGER_ENDPOINT") (env "JAEGER_AGENT_ENDPOINT") (env "JAEGER_USER") (env "JAEGER_PASSWORD")
    (tr_ServiceName opts) (from_option range_order [] (tr_Tags opts)) in
  if bool_decide (jg_Endpoint jOpts = "") && bool_decide (jg_AgentEndpoint jOpts = "")
  then Err (ErrNew "Must specify either JAEGER_ENDPOINT or JAEGER_AGENT_ENDPOINT")
  else jaeger_NewExporter jOpts.

Definition NewOCAgentExporter (opts : TracingExporterOptions) : res Exporter :=
  let agentOpts := [WithServiceName (tr_ServiceName opts)] in
  let endpoint := env "OCAGENT_ENDPOINT" in
  if bool_decide (endpoint = "") then Err (ErrNew "must set endpoint address in OCAGENT_ENDPOINT")
  else
    let agentOpts := agentOpts ++ [WithAddress endpoint] in
    let insecure := env "OCAGENT_INSECURE" in
    if bool_decide (insecure ∈ ["0"; "no"; "n"; "off"; ""]) then ocagent_NewExporter agentOpts
    else if bool_decide (insecure ∈ ["1"; "yes"; "y"; "on"]) then ocagent_NewExporter (agentOpts ++ [WithInsecure])
    else Err (ErrNew "invalid value for OCAGENT_INSECURE").

(** The two [init] functions. *)
Definition registered_exporters : gmap string TracingExporterInitFunc :=
  RegisterTracingExporter "ocagent" NewOCAgentExporter (RegisterTracingExporter "jaeger" NewJaegerExporter ∅).

Lemma available_registered name : name ∈ AvailableTraceExporters registered_exporters <-> name = "jaeger" \/ name = "ocagent".
Proof.
  unfold AvailableTraceExporters. rewrite list_elem_of_fmap. split.
  - intros ([n f] & -> & H). apply elem_of_map_to_list in H. unfold registered_exporters, RegisterTracingExporter in H.
    apply lookup_insert_Some in H as [[<- _]|[_ H]]; [by right|]. apply lookup_insert_Some in H as [[<- _]|[_ H]]; [by left|].
    by rewrite lookup_empty in H.
  - intros H. destruct (registered_exporters !! name) as [f|] eqn:E.
    + exists (name, f). split; [done|]. by apply elem_of_map_to_list.
    + exfalso. unfold registered_exporters, RegisterTracingExporter in E. destruct H as [-> | ->]; by simplify_map_eq.
Qed.

(** Without a setting of its own an exporter is not made. *)
Lemma exporters_need_environment opts : env "OCAGENT_ENDPOINT" = "" -> env "JAEGER_ENDPOINT" = "" -> env "JAEGER_AGENT_ENDPOINT" = "" ->
  forall name e, GetTracingExporter registered_exporters name opts <> Ok e.
Proof.
  intros H1 H2 H3 name e. unfold GetTracingExporter. destruct (registered_exporters !! name) as [f|] eqn:E; [|intros [=]].
  unfold registered_exporters, RegisterTracingExporter in E.
  apply lookup_insert_Some in E as [[_ <-]|[_ E]]; [|apply lookup_insert_Some in E as [[_ <-]|[_ E]]; [|by rewrite lookup_empty in E]].
  - unfold NewOCAgentExporter. rewrite H1. by rewrite bool_decide_eq_true_2.
  - unfold NewJaegerExporter. cbn. by rewrite H2, H3, !bool_decide_eq_true_2.
Qed.
End exporters.

(** ** The kubelet's own labels *)

Lemma set_all_lookup kvs m :
  exists m', set_all kvs (Some m) = Ok (Some m') /\
    forall k v, m' !! k = Some v -> m !! k = Some v \/ (k, v) ∈ kvs.
Proof.
  revert m. induction kvs as [|[k1 v1] kvs IH]; intros m; cbn.
  - exists m. split; [done|by left].
  - destruct (IH (<[k1 := v1]> m)) as (m' & Hm & H). exists m'. split; [exact Hm|].
    intros k v Hk. destruct (H k v Hk) as [H1|H1].
    + destruct (decide (k = k1)) as [->|Hn].
      * rewrite lookup_insert_eq in H1. injection H1 as <-. right. by left.
      * rewrite lookup_insert_ne in H1 by done. by left.
    + right. by right.
Qed.

Lemma existsb_false {A} (p : A -> bool) l : (forall x, x ∈ l -> p x = false) -> existsb p l = false.
Proof.
  induction l as [|x l IH]; intros H; [done|]. cbn. rewrite H by by left. apply IH. intros y Hy. apply H. by right.
Qed.

Section own_labels.
Variables IsQualifiedName IsValidLabelValue : string -> list string.
Variable GetHostname : string -> res string.

(** The labels a kubelet gives its own node pass its own validation: if
    the labels given on the command line are acceptable and the written
    names and values are well formed, the flags with the defaults applied
    are valid, provided there is a partition and at least one worker. *)
Theorem default_labels_valid flags m h :
  fl_NodeLabels flags = Some m -> GetHostname (fl_NodeName flags) = Ok h ->
  (forall k v, m !! k = Some v -> unknown_label (k, v) = false /\
     invalid_label IsQualifiedName IsValidLabelValue (k, v) = false) ->
  Forall (fun kv => invalid_label IsQualifiedName IsValidLabelValue kv = false) (node_label_values flags h) ->
  fl_SlurmPartition flags <> "" -> fl_PodSyncWorkers flags <> 0%Z ->
  exists flags', setDefaultSlurmVKFlags GetHostname flags = Ok flags' /\
    ValidateKubeletFlags IsQualifiedName IsValidLabelValue flags' = None.
Proof.
  intros Hm Hh Hl Hv Hp Hw. unfold setDefaultSlurmVKFlags. rewrite Hh, Hm. cbn [mbind res_bind].
  destruct (set_all_lookup (node_label_values flags h) m) as (m' & -> & Hm'). cbn [mbind res_bind].
  eexists. split; [reflexivity|]. unfold ValidateKubeletFlags. cbn [fl_NodeLabels set_NodeLabels default].
  assert (Hall : forall kv, kv ∈ map_to_list m' ->
    unknown_label kv = false /\ invalid_label IsQualifiedName IsValidLabelValue kv = false).
  { intros [k v] Hkv. apply elem_of_map_to_list in Hkv. destruct (Hm' k v Hkv) as [H|H]; [by apply Hl|].
    split; [|rewrite list.Forall_forall in Hv; by apply Hv].
    apply list_elem_of_In in H. cbn in H. repeat destruct H as [H|H]; try done; by injection H as <- <-. }
  cbn [default from_option id].
  rewrite !existsb_false by (intros; by apply Hall). cbn [fl_PodSyncWorkers fl_SlurmPartition set_NodeLabels].
  by rewrite !bool_decide_eq_false_2.
Qed.
End own_labels.

(** A configuration whose unset fields were filled in validates exactly
    when the ports given are valid ones, the port 0 standing for unset. *)
Theorem defaults_validate kc :
  ValidateSlurmVirtualKubeletConfiguration (SetDefaults_SlurmVirtualKubeletConfiguration kc) = [] <->
  (0 <= vc_Port kc <= 65535)%Z /\ (0 <= vc_ReadOnlyPort kc <= 65535)%Z.
Proof.
  unfold ValidateSlurmVirtualKubeletConfiguration, valid_port. cbn [vc_Port vc_ReadOnlyPort SetDefaults_SlurmVirtualKubeletConfiguration].
  unfold DefaultListenPort. repeat case_bool_decide; cbn; split; intros; try done; try lia.
Qed.

Lemma lower_int_byte c s : int_byte c = true -> ToLower (String c s) = String c (ToLower s).
Proof. by destruct c as [[] [] [] [] [] [] [] []]. Qed.
Lemma lower_ints s : str_forall int_byte s = true -> ToLower s = s.
Proof.
  induction s as [|c s IH]; [done|]. intros [Hc Hs]%andb_true_iff. by rewrite lower_int_byte, IH.
Qed.

(** A sample rate outside 0 to 100 is not an error: the check wraps the
    nil error of the number's parse, so tracing is set up without a sampler. *)
Theorem sampler_out_of_range n :
  in_int64 n -> (n < 0 \/ 100 < n)%Z -> sampler_of (FormatInt n) = Ok None.
Proof.
  intros Hn Hr. unfold sampler_of. cbv zeta.
  assert (Hlow : forall w, str_forall int_byte w = false -> ToLower (FormatInt n) <> w).
  { intros w Hw Heq. enough (str_forall int_byte (ToLower (FormatInt n)) = true) by congruence.
    rewrite lower_ints; by apply FormatInt_bytes. }
  rewrite (bool_decide_eq_false_2 (_ = "")).
  2: { rewrite lower_ints by (by apply FormatInt_bytes). apply FormatInt_nonempty. }
  rewrite (bool_decide_eq_false_2 (_ = "always")), (bool_decide_eq_false_2 (_ = "never")) by (by apply Hlow).
  unfold AtoiR. rewrite ParseInt_FormatInt by done. cbn [num_res].
  destruct Hr; [by rewrite (bool_decide_eq_true_2 (n < 0)%Z)|].
  by rewrite (bool_decide_eq_true_2 (100 < n)%Z), orb_true_r.
Qed.

(** ** Examples *)

Module OptionsExamples.
Definition demo_flags : SlurmVirtualKubeletFlags :=
  mkFlags "" "vk-1" "" (Some ∅) "" "" "Linux" "" "" "" "debug" "" 10 0 false [] "" (mkTracing None "") 0 "".
Definition no_errors (s : string) : list string := [].

Lemma default_labels_valid_witness :
  exists flags', setDefaultSlurmVKFlags Ok demo_flags = Ok flags' /\
    ValidateKubeletFlags no_errors no_errors flags' = None.
Proof.
  apply (default_labels_valid no_errors no_errors Ok demo_flags ∅ "vk-1"); try done.
  repeat constructor.
Defined.

Lemma sampler_out_of_range_witness : sampler_of "200" = Ok None.
Proof. apply (sampler_out_of_range 200); [by_compute|by right]. Defined.
End OptionsExamples.
