(* ===== verification/VKNode.v ===== *)
(** * The node of the virtual kubelet (pkg/slurm-virtual-kubelet/node.go)

    The node a virtual kubelet registers: its labels and taints, which the
    operator's sizing pods are made to match, and its capacity, the sum over
    the nodes of the Slurm partition. *)

From S2P Require Import Prelude GoStrings GoNum GoTime Workload Kube Crd Cluster OperatorPod VKOptions.

(** ** Capacity *)

Open Scope go_scope.

(** The sums of [GetPartitionCapacity]. The allocated GPUs are summed from
    the allocated CPUs. *)
Record Sums := mkSums { cpu : Z; allocpu : Z; mem : Z; allomem : Z; gpu : Z; allogpu : Z }.
Definition add_node (s : Sums) (node : Workload.Node) : Sums :=
  mkSums (cpu s +64 n_Cpus node) (allocpu s +64 n_AlloCpus node)
         (mem s +64 n_Memory node) (allomem s +64 n_AlloMemory node)
         (gpu s +64 n_Gpus node) (allogpu s +64 n_AlloCpus node).
Definition sum_nodes (nodes : list Workload.Node) : Sums := foldl add_node (mkSums 0 0 0 0 0 0) nodes.

Definition capacity_of (s : Sums) : gmap string Z :=
  let rl := <["memory" := mem s *64 2048%Z]> (<["cpu" := cpu s]> ∅) in
  let rl := if bool_decide (0 < gpu s)%Z then <["nvidia.com/gpu" := gpu s]> rl else rl in
  <["pods" := cpu s]> rl.

Close Scope go_scope.

(** ** The node *)

Definition getDefaultTaints : list Taint :=
  (fun t => mkTaint (tol_Key t) (tol_Value t) (tol_Effect t)) <$> DefaultTolerations.

Definition nodeConditions : list NodeCondition :=
  [mkNodeCondition "Ready" "True" "KubeletReady" "kubelet is ready.";
   mkNodeCondition "OutOfDisk" "False" "KubeletHasSufficientDisk" "kubelet has sufficient disk space available";
   mkNodeCondition "MemoryPressure" "False" "KubeletHasSufficientMemory" "kubelet has sufficient memory available";
   mkNodeCondition "DiskPressure" "False" "KubeletHasNoDiskPressure" "kubelet has no disk pressure";
   mkNodeCondition "NetworkUnavailable" "False" "RouteCreated" "RouteController created a route";
   mkNodeCondition "PIDPressure" "False" "KubeletHasSufficientPID" " kubelet has sufficient PID available"].

(** An address of [net.InterfaceAddrs]: its text, and what the net package
    says of it. *)
Record NetAddr := mkNetAddr { na_isIPNet : bool; na_IsLoopback : bool; na_isIPv4 : bool; na_text : string }.

Fixpoint pick_address (addrList : list NetAddr) : string :=
  match addrList with
  | [] => ""
  | a :: addrList' =>
      if na_isIPNet a && negb (na_IsLoopback a) then
        if na_isIPv4 a then na_text a else pick_address addrList'
      else pick_address addrList'
  end.

Definition getNodeAddress (addrs : res (list NetAddr)) : string :=
  match addrs with Ok addrList => pick_address addrList | _ => "" end.

Definition nodeAddresses (addrs : res (list NetAddr)) : list (string * string) := [("InternalIP", getNodeAddress addrs)].

(** The port of the kubelet endpoint. *)
Definition nodeDaemonEndpoints (config : SlurmVirtualKubeletConfiguration) : Z := vc_Port config.

(** [uname -a]: the error of any step leaves the empty text. *)
Definition getNodeKernelVersion (uname : res string) : string :=
  match uname with Ok out => out | _ => "" end.

Section node.
Context {W : Type} {WM : WorkloadManager W}.
(** What the machine answers. *)
Variables (interfaceAddrs : res (list NetAddr)) (uname : res string) (uuid : string).

Definition GetPartitionCapacity (partition : string) : M W (gmap string Z) :=
  partitionResp ← rpc_Partition (mkPartitionRequest partition);
  nodesResp ← rpc_Nodes (mkNodesRequest (presp_Nodes partitionResp));
  mret (capacity_of (sum_nodes (nresp_Nodes nodesResp))).

Definition NewNodeOrDie (flags : SlurmVirtualKubeletFlags) (config : SlurmVirtualKubeletConfiguration) : M W KNode :=
  let taints := getDefaultTaints in
  capacity ← GetPartitionCapacity (fl_SlurmPartition flags);
  mret {| kn_Name := fl_NodeName flags;
          kn_Labels := fl_NodeLabels flags;
          kn_Taints := taints;
          kn_OperatingSystem := fl_OperatingSystem flags;
          kn_Architecture := "amd64";
          kn_KubeletVersion := fl_Version flags;
          kn_MachineID := uuid;
          kn_SystemUUID := uuid;
          kn_BootID := uuid;
          kn_KernelVersion := getNodeKernelVersion uname;
          kn_OSImage := "CentOS Linux 7 (Core)";
          kn_Capacity := capacity;
          kn_Allocatable := capacity;
          kn_Conditions := nodeConditions;
          kn_Addresses := nodeAddresses interfaceAddrs;
          kn_Port := nodeDaemonEndpoints config |}.

(** What the loop of [NotifyNodeStatus] waits for. *)
Inductive node_event := MinutePassed | ContextDone.

(** The nodes handed to [nodeFunc] while the events happen. The timer fires a
    minute after its creation, and once: nothing resets it. *)
Fixpoint notify_loop (flags : SlurmVirtualKubeletFlags) (config : SlurmVirtualKubeletConfiguration) (fired : bool)
    (evs : list node_event) : M W (list KNode) :=
  match evs with
  | [] | ContextDone :: _ => mret []
  | MinutePassed :: evs' =>
      if fired then notify_loop flags config fired evs'
      else
        node ← attempt (NewNodeOrDie flags config);
        match node with
        | inr _ => notify_loop flags config true evs'
        | inl node => nodes ← notify_loop flags config true evs'; mret (node :: nodes)
        end
  end.

Definition NotifyNodeStatus (flags : SlurmVirtualKubeletFlags) (config : SlurmVirtualKubeletConfiguration) : list node_event -> M W (list KNode) :=
  notify_loop flags config false.

(** However long the kubelet runs, its node is refreshed at most once. *)
Lemma notify_fired flags config evs w : notify_loop flags config true evs w = (Ok [], w).
Proof. induction evs as [|[|] evs IH]; [done| |done]. exact IH. Qed.

Lemma NotifyNodeStatus_once flags config evs w nodes w' :
  NotifyNodeStatus flags config evs w = (Ok nodes, w') -> (length nodes <= 1)%nat.
Proof.
  unfold NotifyNodeStatus. destruct evs as [|[|] evs]; [intros [= <- <-]; cbn; lia| |intros [= <- <-]; cbn; lia].
  cbn [notify_loop]. unfold mbind, M_bind, attempt. destruct (NewNodeOrDie flags config w) as [[n|e|p] w1]; [| |done].
  - rewrite notify_fired. intros [= <- <-]. cbn. lia.
  - rewrite notify_fired. intros [= <- <-]. cbn. lia.
Qed.
End node.

(** ** Capacity of a partition *)

Definition total (f : Workload.Node -> Z) (nodes : list Workload.Node) : Z := foldr (fun n z => f n + z)%Z 0%Z nodes.

Lemma sum_nodes_total nodes :
  sum_nodes nodes =
    mkSums (wrap64 (total n_Cpus nodes)) (wrap64 (total n_AlloCpus nodes)) (wrap64 (total n_Memory nodes))
           (wrap64 (total n_AlloMemory nodes)) (wrap64 (total n_Gpus nodes)) (wrap64 (total n_AlloCpus nodes)).
Proof.
  assert (H : forall a b c d e g : Z, foldl add_node (mkSums (wrap64 a) (wrap64 b) (wrap64 c) (wrap64 d) (wrap64 e) (wrap64 g)) nodes =
    mkSums (wrap64 (a + total n_Cpus nodes)) (wrap64 (b + total n_AlloCpus nodes)) (wrap64 (c + total n_Memory nodes))
           (wrap64 (d + total n_AlloMemory nodes)) (wrap64 (e + total n_Gpus nodes)) (wrap64 (g + total n_AlloCpus nodes))).
  { induction nodes as [|n nodes IH]; intros; [by rewrite !Z.add_0_r|].
    cbn [foldl]. unfold add_node at 2. cbn [cpu allocpu mem allomem gpu allogpu].
    rewrite !wrap64_add_l, IH. cbn [total foldr]. by rewrite <- !Z.add_assoc. }
  exact (H 0 0 0 0 0 0)%Z.
Qed.

(** The capacity of the virtual node is the sum over the partition's
    nodes, in 64-bit arithmetic: as many CPUs, 2048 bytes for every unit of
    memory the agent reports, a GPU entry only when there is a GPU, and as
    many pods as CPUs. *)
Theorem capacity_sums {W} {WM : WorkloadManager W} partition names nodes w w1 w2 :
  rpc_Partition (mkPartitionRequest partition) w = (Ok (mkPartitionResponse names), w1) ->
  rpc_Nodes (mkNodesRequest names) w1 = (Ok (mkNodesResponse nodes), w2) ->
  exists rl, GetPartitionCapacity partition w = (Ok rl, w2) /\
    rl !! "cpu" = Some (wrap64 (total n_Cpus nodes)) /\
    rl !! "memory" = Some (wrap64 (2048 * total n_Memory nodes)) /\
    rl !! "pods" = rl !! "cpu" /\
    (in_int64 (total n_Gpus nodes) ->
     rl !! "nvidia.com/gpu" = if bool_decide (0 < total n_Gpus nodes)%Z then Some (total n_Gpus nodes) else None) /\
    dom rl ⊆ {["cpu"; "memory"; "pods"; "nvidia.com/gpu"]}.
Proof.
  intros Hp Hn. unfold GetPartitionCapacity, mbind, M_bind. rewrite Hp. cbn [presp_Nodes]. rewrite Hn.
  eexists. split; [reflexivity|]. cbn [nresp_Nodes]. rewrite sum_nodes_total. unfold capacity_of. cbn [cpu mem gpu].
  set (rl := <["memory" := _]> _).
  assert (Hrl : rl !! "cpu" = Some (wrap64 (total n_Cpus nodes)) /\
                rl !! "memory" = Some (wrap64 (2048 * total n_Memory nodes)) /\ rl !! "nvidia.com/gpu" = None).
  { unfold rl. rewrite lookup_insert_eq, !(lookup_insert_ne _ "memory"), lookup_insert_eq by done.
    by rewrite (lookup_insert_ne _ "cpu"), wrap64_mul_l, Z.mul_comm by done. }
  destruct Hrl as (H1 & H2 & H3). split_and!.
  - rewrite lookup_insert_ne by done. case_bool_decide; [by rewrite lookup_insert_ne|done].
  - rewrite lookup_insert_ne by done. case_bool_decide; [by rewrite lookup_insert_ne|done].
  - rewrite lookup_insert_eq, lookup_insert_ne by done. case_bool_decide; [by rewrite lookup_insert_ne|done].
  - intros Hg. rewrite (wrap64_id (total n_Gpus nodes)), lookup_insert_ne by done.
    case_bool_decide; [by rewrite lookup_insert_eq|done].
  - unfold rl. case_bool_decide; rewrite !dom_insert_L, dom_empty_L; intros k; rewrite !elem_of_union, !elem_of_singleton, ?elem_of_empty; tauto.
Qed.

(** ** Scheduling *)

Section scheduling.
(** How the scheduler reads a requirement, a toleration and a quantity: the
    documented meaning of the operators the program uses, and of the text of
    an integer. An empty key or effect of a toleration stands for all. *)
Variable requirement_matches : option StrMap -> NodeSelectorRequirement -> bool.
Hypothesis matches_In : forall labels key values,
  requirement_matches labels (mkNodeSelectorRequirement key "In" values) = true <->
  exists v, map_get labels key = Some v /\ v ∈ values.
Variable tolerates : Toleration -> Taint -> bool.
Hypothesis tolerates_Equal : forall key value effect t,
  tolerates (mkToleration key "Equal" value effect) t = true <->
  (effect = "" \/ effect = taint_Effect t) /\ (key = "" \/ key = taint_Key t) /\ value = taint_Value t.
Variable quantity : string -> Z.
Hypothesis quantity_int : forall n, in_int64 n -> quantity (FormatInt n) = n.
Variable SetControllerReference : SlurmBridgeJob -> ObjectMeta -> res ObjectMeta.
Variable GetHostname : string -> res string.

(** What the containers of a pod request of a resource. *)
Definition requested (p : Pod) (name : string) : Z :=
  foldr (fun c n => (match ct_Requests c !! name with Some q => quantity q | None => 0 end + n)%Z) 0%Z (spec_Containers (pod_spec p)).

(** A node has what a pod requests beside the pods that run there: [used] is
    what these request, [running] how many they are. *)
Definition fits (p : Pod) (n : KNode) (used : string -> Z) (running : Z) : Prop :=
  (forall name, (requested p name <= 0)%Z \/ (used name + requested p name <= default 0 (kn_Allocatable n !! name))%Z) /\
  (running + 1 <= default 0 (kn_Allocatable n !! "pods"))%Z.

(** A pod may be put on a node: every requirement of its affinity holds,
    every taint of the node is tolerated, and it fits. *)
Definition schedulable (p : Pod) (n : KNode) (used : string -> Z) (running : Z) : Prop :=
  (forall a, spec_Affinity (pod_spec p) = Some a -> Forall (fun r => requirement_matches (kn_Labels n) r = true) a) /\
  Forall (fun t => Exists (fun tol => tolerates tol t = true) (spec_Tolerations (pod_spec p))) (kn_Taints n) /\
  fits p n used running.

(** The resources of a job: what its script asks for, its specification
    over that, and the defaults. *)
Definition job_resources (j : SlurmBridgeJob) (script : Crd.Resources) : Crd.Resources :=
  setDefaultRequireResource (setRequireResourceBySpec (sbj_Spec j) script).

Lemma sizecar_placement j p :
  newSizeCarPodForSJ SetControllerReference j = Ok p ->
  spec_Affinity (pod_spec p) =
    Some [mkNodeSelectorRequirement "type" "In" ["virtual-kubelet"];
          mkNodeSelectorRequirement PartitionLabel "In" [sp_Partition (sbj_Spec j)]] /\
  spec_Tolerations (pod_spec p) = DefaultTolerations /\
  exists script, extractBatchResourcesFromScript (sp_SbatchScript (sbj_Spec j)) = Ok script /\
    ct_Requests <$> spec_Containers (pod_spec p) = [genResourceListForPod (job_resources j script)].
Proof.
  unfold newSizeCarPodForSJ. intros H. apply bind_Ok_inv in H as (r & Hr & H). cbv zeta in H. apply wrap_err_Ok_inv in Hr.
  apply bind_Ok_inv in H as (a & Ha & H). apply bind_Ok_inv in H as (m & _ & H). injection H as <-.
  injection Ha as <-. split_and!; [done..|]. by exists r.
Qed.

Lemma node_labels_set flags flags' :
  setDefaultSlurmVKFlags GetHostname flags = Ok flags' ->
  map_get (fl_NodeLabels flags') "type" = Some "virtual-kubelet" /\
  map_get (fl_NodeLabels flags') PartitionLabel = Some (fl_SlurmPartition flags).
Proof.
  unfold setDefaultSlurmVKFlags. intros H. apply bind_Ok_inv in H as (h & _ & H).
  apply bind_Ok_inv in H as (labels & Hl & H). injection H as <-. cbn [fl_NodeLabels set_NodeLabels].
  destruct (fl_NodeLabels flags) as [m|]; [|done]. cbn in Hl. injection Hl as <-. unfold map_get. cbn [mbind option_bind].
  rewrite lookup_insert_eq, !(lookup_insert_ne _ _ "type") by done. by rewrite lookup_insert_eq.
Qed.

Lemma requested_sizecar p r name :
  ct_Requests <$> spec_Containers (pod_spec p) = [genResourceListForPod r] -> in_int64 (cpu_count r) ->
  requested p name =
    (if bool_decide (name = "cpu") then cpu_count r else if bool_decide (name = "memory") then mem_bytes r else 0)%Z.
Proof.
  intros Hc Hr. unfold requested. destruct (spec_Containers (pod_spec p)) as [|c [|? ?]]; [done| |done].
  cbn in Hc. injection Hc as Hc. cbn [foldr]. rewrite Hc, Z.add_0_r. unfold genResourceListForPod.
  unfold ResourceMemory, ResourceCPU. destruct (decide (name = "memory")) as [->|Hm].
  - rewrite lookup_insert_eq. cbn. apply quantity_int. unfold mem_bytes. apply wrap64_range.
  - rewrite lookup_insert_ne by done. rewrite (bool_decide_eq_false_2 (name = "memory")) by done.
    case_bool_decide as Hn; [|by rewrite lookup_insert_ne]. subst. rewrite lookup_insert_eq. by apply quantity_int.
Qed.

(** C24. The sizing pod of a job passes the scheduler's checks of affinity,
    taints and resources on the node of a virtual kubelet exactly when the
    kubelet serves the partition the job asks for, the CPUs and the memory
    the job needs are free in the sums over the nodes of this partition, and
    one pod more than those that run is no more than their CPUs. *)
Theorem sizecar_schedulable {W} {WM : WorkloadManager W} j p script flags flags' addrs uname uuid config w w1 w2 names nodes n w' used running :
  extractBatchResourcesFromScript (sp_SbatchScript (sbj_Spec j)) = Ok script ->
  newSizeCarPodForSJ SetControllerReference j = Ok p ->
  setDefaultSlurmVKFlags GetHostname flags = Ok flags' ->
  rpc_Partition (mkPartitionRequest (fl_SlurmPartition flags)) w = (Ok (mkPartitionResponse names), w1) ->
  rpc_Nodes (mkNodesRequest names) w1 = (Ok (mkNodesResponse nodes), w2) ->
  NewNodeOrDie addrs uname uuid flags' config w = (Ok n, w') ->
  let cpus := cpu_count (job_resources j script) in
  let mem := mem_bytes (job_resources j script) in
  in_int64 cpus ->
  schedulable p n used running <->
    fl_SlurmPartition flags = sp_Partition (sbj_Spec j) /\
    (cpus <= 0 \/ used "cpu" + cpus <= wrap64 (total n_Cpus nodes))%Z /\
    (mem <= 0 \/ used "memory" + mem <= wrap64 (2048 * total n_Memory nodes))%Z /\
    (running + 1 <= wrap64 (total n_Cpus nodes))%Z.
Proof.
  intros Hscript Hp Hf Hpart Hnodes Hn cpus mem Hcpus. destruct (sizecar_placement j p Hp) as (Ha & Ht & script' & Hs & Hreq).
  rewrite Hscript in Hs. injection Hs as <-. destruct (node_labels_set flags flags' Hf) as [Hty Hpa].
  assert (fl_SlurmPartition flags' = fl_SlurmPartition flags) as Hfp.
  { unfold setDefaultSlurmVKFlags in Hf. apply bind_Ok_inv in Hf as (h & _ & Hf). apply bind_Ok_inv in Hf as (? & _ & Hf).
    by injection Hf as <-. }
  destruct (capacity_sums (fl_SlurmPartition flags) names nodes w w1 w2 Hpart Hnodes) as (rl & Hcap & Hc & Hm & Hpods & _).
  unfold NewNodeOrDie in Hn. rewrite Hfp in Hn. apply M_bind_Ok_inv in Hn as (cap & w3 & Hcap' & Hn). rewrite Hcap in Hcap'.
  injection Hcap' as <- <-. injection Hn as <- _.
  unfold schedulable, fits. cbn [kn_Labels kn_Taints kn_Allocatable]. rewrite Ha, Ht, Hpods, Hc. cbn [default]. split.
  - intros (H & _ & Hfit & Hrun). specialize (H _ eq_refl). rewrite !list.Forall_cons in H. destruct H as (_ & H & _).
    apply matches_In in H as (v & Hv & Hin). rewrite Hpa in Hv. injection Hv as <-. split_and!; [by apply list_elem_of_singleton in Hin| | |done].
    + specialize (Hfit "cpu"). by rewrite (requested_sizecar p _ _ Hreq Hcpus), Hc in Hfit.
    + specialize (Hfit "memory"). by rewrite (requested_sizecar p _ _ Hreq Hcpus), Hm in Hfit.
  - intros (Heq & H1 & H2 & H3). split_and!; [| | |done].
    + intros a [= <-]. rewrite !list.Forall_cons. split_and!; [| |constructor]; apply matches_In.
      * eexists. split; [done|by left].
      * eexists. split; [done|]. rewrite Heq. by left.
    + repeat constructor. apply tolerates_Equal. split_and!; [by right|by right|done].
    + intros name. rewrite (requested_sizecar p _ _ Hreq Hcpus). case_bool_decide as E1; [subst; by rewrite Hc|].
      case_bool_decide as E2; [subst; by rewrite Hm|by left].
Qed.
End scheduling.

(** ** Examples *)

Module NodeExamples.

#[local] Instance demo_agent : WorkloadManager unit := {|
  rpc_SubmitJob r := mret (mkSubmitJobResponse 42);
  rpc_CancelJob r := mret mkCancelJobResponse;
  rpc_JobInfo r := mret (mkJobInfoResponse []);
  rpc_Partition r := mret (mkPartitionResponse ["n1"; "n2"]);
  rpc_Partitions := mret (mkPartitionsResponse []);
  rpc_Nodes r := mret (mkNodesResponse ((fun _ => Workload.mkNode 4 8000 0 "" 1 0 0) <$> nr_Nodes r)) |}.

Lemma capacity_sums_witness :
  exists rl, GetPartitionCapacity "debug" tt = (Ok rl, tt) /\
    rl !! "cpu" = Some 8%Z /\ rl !! "memory" = Some 32768000%Z /\ rl !! "pods" = rl !! "cpu" /\
    (in_int64 0 -> rl !! "nvidia.com/gpu" = None) /\
    dom rl ⊆ {["cpu"; "memory"; "pods"; "nvidia.com/gpu"]}.
Proof.
  apply (capacity_sums "debug" ["n1"; "n2"] [Workload.mkNode 4 8000 0 "" 1 0 0; Workload.mkNode 4 8000 0 "" 1 0 0] tt tt tt);
    reflexivity.
Defined.

Definition demo_matches (labels : option StrMap) (r : NodeSelectorRequirement) : bool :=
  match map_get labels (nsr_Key r) with Some v => bool_decide (v ∈ nsr_Values r) | None => false end.
Lemma demo_matches_In : forall labels key values,
  demo_matches labels (mkNodeSelectorRequirement key "In" values) = true <->
  exists v, map_get labels key = Some v /\ v ∈ values.
Proof.
  intros labels key values. unfold demo_matches. cbn. destruct (map_get labels key) as [v|].
  - rewrite bool_decide_eq_true. split; [intros H; by exists v|]. by intros (v' & [= <-] & H).
  - split; [done|]. by intros (v & [=] & _).
Defined.
(** Kubernetes' [ToleratesTaint] for the operators of 1.28. *)
Definition demo_tolerates (t : Toleration) (u : Taint) : bool :=
  (bool_decide (tol_Effect t = "") || bool_decide (tol_Effect t = taint_Effect u)) &&
  (bool_decide (tol_Key t = "") || bool_decide (tol_Key t = taint_Key u)) &&
  (bool_decide (tol_Operator t = "Exists") ||
   (bool_decide (tol_Operator t = "") || bool_decide (tol_Operator t = "Equal")) && bool_decide (tol_Value t = taint_Value u)).
Lemma demo_tolerates_Equal : forall key value effect t,
  demo_tolerates (mkToleration key "Equal" value effect) t = true <->
  (effect = "" \/ effect = taint_Effect t) /\ (key = "" \/ key = taint_Key t) /\ value = taint_Value t.
Proof.
  intros key value effect [k v e]. unfold demo_tolerates. cbn. rewrite !andb_true_iff, !orb_true_iff, andb_true_iff, orb_true_iff, !bool_decide_eq_true. split.
  - intros [[He Hk] [|[_ Hv]]]; [done|]. split_and!; auto.
  - intros (He & Hk & Hv). split; [by split|]. right. split; [by right|done].
Defined.
Lemma demo_quantity : forall n, in_int64 n -> ParseInt_ (FormatInt n) = n.
Proof. intros n Hn. unfold ParseInt_. by rewrite ParseInt_FormatInt. Defined.

Definition demo_ref (j : SlurmBridgeJob) (m : ObjectMeta) : res ObjectMeta := Ok m.
Definition demo_sbj : SlurmBridgeJob :=
  mkSlurmBridgeJob (new_meta "train" "default" None)
    (mkSlurmBridgeJobSpec "debug" "#!/bin/sh" None None "" 2 0 0 0 "/work" 0 "" "" None) zero_Status.
Definition demo_pod : Pod :=
  match newSizeCarPodForSJ demo_ref demo_sbj with Ok p => p
  | _ => mkPod (new_meta "" "" None) (mkPodSpec "" None None "" [] [] "" []) zero_PodStatus end.
Definition demo_flags (partition : string) : SlurmVirtualKubeletFlags :=
  mkFlags "" "vk-1" "" (Some ∅) "" "" "Linux" "" "" "" partition "" 10 0 false [] "" (mkTracing None "") 0 "".
Definition demo_config : SlurmVirtualKubeletConfiguration :=
  mkVKConfig "" false "" 0 0 0 "" None "" 10250 0 "" "" "" "" [] "" false false.
Definition demo_flags' (partition : string) : SlurmVirtualKubeletFlags :=
  match setDefaultSlurmVKFlags Ok (demo_flags partition) with Ok f => f | _ => demo_flags partition end.
Definition demo_node (partition : string) : option KNode :=
  match NewNodeOrDie (Ok []) (Ok "Linux") "u" (demo_flags' partition) demo_config tt with (Ok n, _) => Some n | _ => None end.

(** The job asks for two CPUs; six of the eight of the partition are in use,
    by three pods. *)
Definition demo_used (name : string) : Z := if bool_decide (name = "cpu") then 6%Z else 0%Z.
Lemma sizecar_schedulable_witness :
  exists n, demo_node "debug" = Some n /\ schedulable demo_matches demo_tolerates ParseInt_ demo_pod n demo_used 3.
Proof.
  eexists. split; [reflexivity|].
  apply (proj2 (sizecar_schedulable demo_matches demo_matches_In demo_tolerates demo_tolerates_Equal ParseInt_ demo_quantity demo_ref Ok
    demo_sbj demo_pod zero_Resources (demo_flags "debug") (demo_flags' "debug") (Ok []) (Ok "Linux") "u" demo_config tt tt tt
    ["n1"; "n2"] [Workload.mkNode 4 8000 0 "" 1 0 0; Workload.mkNode 4 8000 0 "" 1 0 0] _ tt demo_used 3%Z
    ltac:(vm_compute; reflexivity) ltac:(vm_compute; reflexivity) eq_refl eq_refl eq_refl eq_refl
    ltac:(vm_compute; split; congruence))).
  split_and!; [reflexivity|right; vm_compute; congruence|right; vm_compute; congruence|vm_compute; congruence].
Defined.
End NodeExamples.
