(* ===== verification/Configurator.v ===== *)
(** * The configurator (pkg/configurator)

    The configurator keeps one virtual kubelet running for every Slurm
    partition: it compares the partitions the agent reports with those of
    the cluster's virtual nodes, creates a pod for each partition without a
    node and deletes the pods of the nodes whose partition is gone. *)

From S2P Require Import Prelude GoStrings Workload Kube Crd Cluster.

Definition VKNodeLabel : string := "type=slurm-agent-virtual-kubelet".

(** The options of the configurator the reconciliation uses. *)
Record SlurmBridgeConfigurator := mkConfigurator {
  SlurmAgentEndpoint : string;
  VKNodeNamespace : string;
  VKServiceAccount : string;
  VKKubeletImage : string;
}.

(** [contains], [notIn] and [partitionNames], with their loops. *)
Fixpoint contains (s : list string) (e : string) : bool :=
  match s with [] => false | e1 :: s' => if bool_decide (e = e1) then true else contains s' e end.

Definition notIn (s1 s2 : list string) : list string :=
  foldl (fun notIn e1 => if contains s2 e1 then notIn else notIn ++ [e1]) [] s1.

Definition partitionNames (nodes : list KNode) : list string :=
  foldl (fun names n =>
    match map_get (kn_Labels n) "kubecluster.org/partition" with
    | Some l => names ++ [l]
    | None => names
    end) [] nodes.

Definition partitionNodeName (partition : string) : string := "slurm-partition-" +:+ partition.

(** [NewConfiguratorOrDie]: what it reads from the environment. *)
Definition NewConfiguratorOrDie (env : string -> string) (addr : string) : res SlurmBridgeConfigurator :=
  let namespace := env "NAMESPACE" in
  let r := mkConfigurator addr (if bool_decide (namespace = "") then "default" else namespace)
             (env "SERVICE_ACCOUNT") (env "KUBELET_IMAGE") in
  if bool_decide (VKKubeletImage r = "") then
    Panic (ProcessExit "slurm-agent virtual kubelet image can not be empty, please set $KUBELET_IMAGE")
  else Ok r.

Section configurator.
Context {W : Type} {API : KubeAPI W} {WM : WorkloadManager W}.
Variable c : SlurmBridgeConfigurator.

Definition virtualKubeletPodTemplate (partitionName : string) : Pod :=
  let value name v := mkEnvVar name v "" in
  let field name path := mkEnvVar name "" path in
  mkPod (new_meta (partitionNodeName partitionName) (VKNodeNamespace c) None)
  {| spec_NodeName := "";
     spec_Affinity := None;
     spec_SecurityContext := None;
     spec_ServiceAccountName := VKServiceAccount c;
     spec_Tolerations := [];
     spec_Containers := [{|
       ct_Name := "slurm-agent-virtual-kubelet";
       ct_Image := VKKubeletImage c;
       ct_ImagePullPolicy := "Always";
       ct_Command := [];
       ct_Args := ["--nodename"; partitionNodeName partitionName; "--partition"; partitionName;
                   "--endpoint"; SlurmAgentEndpoint c];
       ct_WorkingDir := "";
       ct_Requests := ∅;
       ct_Limits := ∅;
       ct_SecurityContext := None;
       ct_Env := [field "VK_HOST_NAME" "spec.nodeName"; field "VK_POD_NAME" "metadata.name";
                  field "VKUBELET_POD_IP" "status.podIP"; value "PARTITION" partitionName;
                  value "AGNET_ENDPOINT" (SlurmAgentEndpoint c);
                  value "APISERVER_CERT_LOCATION" "/kubelet.crt"; value "APISERVER_KEY_LOCATION" "/kubelet.key"];
       ct_Ports := [("metrics", 10255%Z)];
       ct_VolumeMounts := [mkVolumeMount "kubelet-crt" "/var/lib/kubelet/pki/kubelet.crt";
                           mkVolumeMount "kubelet-key" "/var/lib/kubelet/pki/kubelet.key"] |}];
     spec_RestartPolicy := "Always";
     spec_Volumes := [mkVolume "kubelet-crt" "/var/lib/kubelet/pki/kubelet.crt" "File";
                      mkVolume "kubelet-key" "/var/lib/kubelet/pki/kubelet.key" "File"] |}
  zero_PodStatus.

(** The pod of a partition, or of the node of one. *)
Definition partition_key (partition : string) : Key := (VKNodeNamespace c, partitionNodeName partition).

Definition ReconcileCreateNodeForPartition (partitions : list string) : M W unit :=
  forM partitions (fun p =>
    r ← attempt (api_GetPod (partition_key p));
    match r with
    | inl _ => mret tt
    | inr err =>
        if negb (IsNotFound err) then fail err
        else _ ← wrapM (api_CreatePod (virtualKubeletPodTemplate p)) ("could not create pod for " +:+ p +:+ " partition");
             mret tt
    end).

Definition ReconcileDeleteControllingPod (nodes : list string) : M W unit :=
  forM nodes (fun n =>
    wrapM (api_DeletePod (partition_key n)) ("could not delete pod " +:+ partitionNodeName n)).

(** [errors.Errorf] with the error as text. *)
Definition errorf {S A} (m : M S A) (msg : string) : M S A :=
  fun s => let '(r, s') := m s in (match r with Err e => Err (ErrFmt msg e) | _ => r end, s').

Definition Reconcile (partitionsResp : PartitionsResponse) : M W unit :=
  nodes ← errorf (api_ListNodes VKNodeLabel) "Can't get virtual nodes ";
  let nNames := partitionNames nodes in
  let partitionToCreate := notIn (psr_Partition partitionsResp) nNames in
  errorf (ReconcileCreateNodeForPartition partitionToCreate) "Can't create partitions  ";;
  let nodesToDelete := notIn nNames (psr_Partition partitionsResp) in
  errorf (ReconcileDeleteControllingPod nodesToDelete) "Can't delete controlling pod ".

(** One tick of [WatchPartitions]: errors are logged. *)
Definition watch_tick : M W unit :=
  r ← attempt rpc_Partitions;
  match r with
  | inr _ => mret tt
  | inl partitionsResp => _ ← attempt (Reconcile partitionsResp); mret tt
  end.

(** [WatchPartitions] for a number of ticks of its timer. *)
Fixpoint WatchPartitions (ticks : nat) : M W unit :=
  match ticks with O => mret tt | S n => watch_tick;; WatchPartitions n end.
End configurator.

(** ** List functions *)

Lemma contains_In s e : contains s e = true <-> e ∈ s.
Proof.
  induction s as [|e1 s IH]; cbn; [by rewrite elem_of_nil|]. rewrite elem_of_cons.
  case_bool_decide; [tauto|]. rewrite IH. intuition congruence.
Qed.

Lemma notIn_elem s1 s2 e : e ∈ notIn s1 s2 <-> e ∈ s1 /\ e ∉ s2.
Proof.
  unfold notIn. assert (H : forall acc, e ∈ foldl (fun notIn e1 => if contains s2 e1 then notIn else notIn ++ [e1]) acc s1
    <-> e ∈ acc \/ (e ∈ s1 /\ e ∉ s2)).
  { induction s1 as [|x s1 IH]; intros acc; cbn [foldl]; [rewrite elem_of_nil; tauto|].
    rewrite IH, elem_of_cons. destruct (contains s2 x) eqn:E.
    - apply contains_In in E. split; [tauto|]. intros [?|[[->|?] ?]]; tauto.
    - assert (x ∉ s2) by (rewrite <- contains_In, E; done). rewrite elem_of_app, list_elem_of_singleton.
      split; [|tauto]. intros [[?| ->]|?]; tauto. }
  rewrite H, elem_of_nil. tauto.
Qed.

Lemma partitionNames_elem nodes p :
  p ∈ partitionNames nodes <-> exists n, n ∈ nodes /\ map_get (kn_Labels n) "kubecluster.org/partition" = Some p.
Proof.
  unfold partitionNames. set (f := fun names n => _).
  assert (H : forall acc, p ∈ foldl f acc nodes <->
    p ∈ acc \/ exists n, n ∈ nodes /\ map_get (kn_Labels n) "kubecluster.org/partition" = Some p).
  { induction nodes as [|n nodes IH]; intros acc; cbn [foldl].
    - split; [tauto|]. intros [H|(n & H & _)]; [done|]. by apply elem_of_nil in H.
    - rewrite IH. unfold f at 1. destruct (map_get (kn_Labels n) _) as [l|] eqn:E.
      + rewrite elem_of_app, list_elem_of_singleton. split.
        * intros [[H| ->]|(m & Hm & H)]; [by left|right; exists n; split; [by left|done]|].
          right. exists m. split; [by right|done].
        * intros [H|(m & Hm & H)]; [tauto|]. apply elem_of_cons in Hm as [->|Hm]; [left; right; congruence|].
          right. by exists m.
      + split.
        * intros [H|(m & Hm & H)]; [by left|]. right. exists m. split; [by right|done].
        * intros [H|(m & Hm & H)]; [by left|]. apply elem_of_cons in Hm as [->|Hm]; [congruence|].
          right. by exists m. }
  rewrite H, elem_of_nil. tauto.
Qed.

Lemma partition_key_inj c p q : partition_key c p = partition_key c q -> p = q.
Proof. unfold partition_key, partitionNodeName. intros [= H]. by apply (inj (String.append _)) in H. Qed.

(** ** What a reconciliation does to the cluster *)

Section facts.
Context {W : Type} {API : KubeAPI W} {KS : KubeStore W}.
Variable c : SlurmBridgeConfigurator.

(** A virtual node of the cluster stands for the partition. *)
Definition represented (s : Store) (p : string) : Prop :=
  exists n, n ∈ s_nodes s /\ selects VKNodeLabel n = true /\
    map_get (kn_Labels n) "kubecluster.org/partition" = Some p.

(** The store but for its pods. *)
Definition same_rest (s s' : Store) : Prop :=
  s_jobs s' = s_jobs s /\ s_sbjs s' = s_sbjs s /\ s_nodes s' = s_nodes s.

Definition creates (ps : list string) (w w' : W) : Prop :=
  only_adds (partition_key c <$> ps) (s_pods (store w)) (s_pods (store w')) /\ same_rest (store w) (store w').
Definition deletes (ns : list string) (w w' : W) : Prop :=
  only_drops (partition_key c <$> ns) (s_pods (store w)) (s_pods (store w')) /\ same_rest (store w) (store w').

#[local] Instance same_rest_preorder : PreOrder same_rest.
Proof.
  split; [by intros s|]. intros s1 s2 s3 (H1 & H2 & H3) (G1 & G2 & G3). split_and!; congruence.
Qed.
#[local] Instance creates_preorder ps : PreOrder (creates ps).
Proof.
  split; [intros w; split_and!; reflexivity|].
  intros w1 w2 w3 [H1 H2] [G1 G2]. split; etrans; done.
Qed.
#[local] Instance deletes_preorder ns : PreOrder (deletes ns).
Proof.
  split; [intros w; split_and!; reflexivity|].
  intros w1 w2 w3 [H1 H2] [G1 G2]. split; etrans; done.
Qed.

Lemma create_one_steps ps p :
  p ∈ ps -> steps (creates ps) (api_CreatePod (virtualKubeletPodTemplate c p)).
Proof.
  intros Hp w. destruct (CreatePod_law (virtualKubeletPodTemplate c p) w) as (r & w' & -> & H).
  destruct r as [p'|e|q]; [| |done]; unfold creates; cbn [snd].
  - destruct H as (Hn & _ & ->). split_and!; [|done..]. apply only_adds_insert; [done|].
    apply list_elem_of_fmap. by exists p.
  - rewrite H. split; reflexivity.
Qed.

Lemma delete_one_steps ns n : n ∈ ns -> steps (deletes ns) (api_DeletePod (partition_key c n)).
Proof.
  intros Hn w. destruct (DeletePod_law (partition_key c n) w) as (r & w' & -> & H).
  destruct r as [u|e|q]; [| |done]; unfold deletes; cbn [snd]; rewrite H; [|split; reflexivity].
  split; [|by split_and!]. apply only_drops_delete, list_elem_of_fmap. by exists n.
Qed.

(** A loop over a list all of whose bodies take the steps. *)
Lemma forM_steps {S A} (R : relation S) `{!PreOrder R} (l : list A) body :
  (forall x, x ∈ l -> steps R (body x)) -> steps R (forM (S := S) l body).
Proof.
  induction l as [|x l IH]; intros H; cbn [forM]; [apply steps_ret; typeclasses eauto|].
  apply steps_bind; [typeclasses eauto|apply H; by left|]. intros _. apply IH. intros y Hy. apply H. by right.
Qed.

Lemma create_steps ps : steps (creates ps) (ReconcileCreateNodeForPartition c ps).
Proof.
  unfold ReconcileCreateNodeForPartition. apply forM_steps; [typeclasses eauto|]. intros p Hp.
  by_steps ltac:(first [by apply create_one_steps | match goal with |- steps _ (api_GetPod ?k) =>
    intros w; unfold creates; rewrite (reads_same _ _ _ (GetPod_law k)); split; reflexivity end]).
Qed.

Lemma delete_steps ns : steps (deletes ns) (ReconcileDeleteControllingPod c ns).
Proof.
  unfold ReconcileDeleteControllingPod. apply forM_steps; [typeclasses eauto|]. intros n Hn.
  by_steps ltac:(by apply delete_one_steps).
Qed.

(** A successful loop has a pod for every partition, or none left. *)
Lemma create_ok ps w w' :
  ReconcileCreateNodeForPartition c ps w = (Ok tt, w') ->
  Forall (fun p => is_Some (s_pods (store w') !! partition_key c p)) ps.
Proof.
  revert w. induction ps as [|p ps IH]; intros w H; [constructor|].
  apply M_bind_Ok_inv in H as (u & w1 & H1 & H2). constructor; [|by eapply IH].
  assert (Hk : is_Some (s_pods (store w1) !! partition_key c p)).
  { apply M_bind_Ok_inv in H1 as (r & w2 & H1 & H3). unfold attempt in H1.
    destruct (GetPod_law (partition_key c p) w) as (g & w3 & Hg & Hs & Hl). rewrite Hg in H1.
    destruct g as [a|e|q]; [| |done]; injection H1 as <- <-.
    - injection H3 as _ <-. rewrite Hs. by exists a.
    - destruct (negb (IsNotFound e)); [done|]. apply M_bind_Ok_inv in H3 as (p' & w4 & H3 & H4).
      injection H4 as _ <-. unfold wrapM in H3.
      destruct (CreatePod_law (virtualKubeletPodTemplate c p) w3) as (r & w5 & Hr & Hp). rewrite Hr in H3.
      destruct r as [p5|e5|q5]; [|done..]. injection H3 as <- <-. destruct Hp as (_ & _ & ->). cbn.
      by rewrite lookup_insert_eq. }
  destruct Hk as [a Ha]. pose proof (create_steps ps w1) as [[Hadd _] _].
  assert (H2' : ReconcileCreateNodeForPartition c ps w1 = (Ok tt, w')) by exact H2. rewrite H2' in Hadd.
  by exists a; apply Hadd.
Qed.

Lemma delete_ok ns w w' :
  ReconcileDeleteControllingPod c ns w = (Ok tt, w') ->
  Forall (fun n => s_pods (store w') !! partition_key c n = None) ns.
Proof.
  revert w. induction ns as [|n ns IH]; intros w H; [constructor|].
  apply M_bind_Ok_inv in H as (u & w1 & H1 & H2). constructor; [|by eapply IH].
  unfold wrapM in H1. destruct (DeletePod_law (partition_key c n) w) as (r & w5 & Hr & Hp). rewrite Hr in H1.
  destruct r as [u'|e|q]; [|done..]. injection H1 as _ <-.
  pose proof (delete_steps ns w5) as [Hd _].
  assert (H2' : ReconcileDeleteControllingPod c ns w5 = (Ok tt, w')) by exact H2. rewrite H2' in Hd.
  destruct (Hd (partition_key c n)) as [E|[E _]]; [|done]. cbn in E. by rewrite E, Hp; cbn; rewrite lookup_delete_eq.
Qed.

(** The partitions to start and to stop. *)
Definition to_start (reported : list string) (s : Store) (p : string) : Prop := p ∈ reported /\ ~ represented s p.
Definition to_stop (reported : list string) (s : Store) (p : string) : Prop := represented s p /\ p ∉ reported.

Lemma represented_names s p :
  p ∈ partitionNames (List.filter (selects VKNodeLabel) (s_nodes s)) <-> represented s p.
Proof.
  rewrite partitionNames_elem. unfold represented. setoid_rewrite list_elem_of_In.
  setoid_rewrite filter_In. split; intros (n & H1 & H2); exists n; tauto.
Qed.

(** The two loops, as the reconciliation reaches them. *)
Lemma Reconcile_phases resp w :
  let names := partitionNames (List.filter (selects VKNodeLabel) (s_nodes (store w))) in
  let reported := psr_Partition resp in
  (exists e w1, Reconcile c resp w = (Err e, w1) /\ store w1 = store w) \/
  exists w1, store w1 = store w /\
    let '(r2, w2) := ReconcileCreateNodeForPartition c (notIn reported names) w1 in
    match r2 with
    | Ok _ =>
        let '(r3, w3) := ReconcileDeleteControllingPod c (notIn names reported) w2 in
        (Reconcile c resp w).2 = w3 /\ ((Reconcile c resp w).1 = Ok tt <-> r3 = Ok tt)
    | _ => (Reconcile c resp w).2 = w2 /\ (Reconcile c resp w).1 <> Ok tt
    end.
Proof.
  intros names reported. unfold Reconcile, mbind, M_bind, errorf.
  destruct (ListNodes_law VKNodeLabel w) as (r & w1 & Hr & Hs & Hl). rewrite Hr.
  destruct r as [nodes|e|q]; [|left; by eexists _, _|done]. injection Hl as <-. right. exists w1. split; [done|].
  fold names reported. destruct (ReconcileCreateNodeForPartition c _ w1) as [[[]|e|q] w2]; [|done..].
  destruct (ReconcileDeleteControllingPod c _ w2) as [[[]|e|q] w3]; done.
Qed.

(** Pods change only by appearing where one is to be started or
    disappearing where one is to be stopped, and nothing else changes. *)
Definition moves_towards (reported : list string) (s s' : Store) : Prop :=
  same_rest s s' /\
  (forall k a, s_pods s !! k = Some a ->
     s_pods s' !! k = Some a \/
     s_pods s' !! k = None /\ exists p, k = partition_key c p /\ to_stop reported s p) /\
  (forall k, s_pods s !! k = None ->
     s_pods s' !! k = None \/ exists p, k = partition_key c p /\ to_start reported s p).

Definition reached (reported : list string) (s s' : Store) : Prop :=
  (forall p, to_start reported s p -> is_Some (s_pods s' !! partition_key c p)) /\
  (forall p, to_stop reported s p -> s_pods s' !! partition_key c p = None).

(** C14. A reconciliation moves the cluster towards the reported partitions
    and harms nothing: pods change only by appearing for a reported
    partition without a node or disappearing for a node whose partition is
    not reported, even when it fails half way; and when it succeeds every
    reported partition without node has its pod and no pod of an unreported
    node is left. *)
Theorem Reconcile_converges resp w :
  let reported := psr_Partition resp in
  let '(r, w') := Reconcile c resp w in
  moves_towards reported (store w) (store w') /\ (r = Ok tt -> reached reported (store w) (store w')).
Proof.
  intros reported.
  set (names := partitionNames (List.filter (selects VKNodeLabel) (s_nodes (store w)))).
  assert (Hstart : forall p, p ∈ notIn reported names <-> to_start reported (store w) p).
  { intros p. rewrite notIn_elem. unfold names. by rewrite represented_names. }
  assert (Hstop : forall p, p ∈ notIn names reported <-> to_stop reported (store w) p).
  { intros p. rewrite notIn_elem. unfold names. by rewrite represented_names. }
  pose proof (Reconcile_phases resp w) as H. fold names reported in H.
  destruct (Reconcile c resp w) as [r w']. cbn [fst snd] in H.
  destruct H as [(e & w1 & [= -> ->] & Hs)|(w1 & Hs1 & H)].
  { split; [|done]. unfold moves_towards. rewrite Hs. by split_and!; auto. }
  pose proof (create_steps (notIn reported names) w1) as [[Hc1 Hc2] Hcr].
  destruct (ReconcileCreateNodeForPartition c (notIn reported names) w1) as [r2 w2] eqn:E2. cbn [snd] in *.
  rewrite Hs1 in *.
  assert (Hnew : forall k, s_pods (store w) !! k = None -> s_pods (store w2) !! k = None \/
            exists p, k = partition_key c p /\ to_start reported (store w) p).
  { intros k Hk. destruct (s_pods (store w2) !! k) as [a|] eqn:Ek; [right|by left].
    assert (Hin : k ∈ partition_key c <$> notIn reported names) by (apply Hc2; eauto).
    apply list_elem_of_fmap in Hin as (p & -> & Hp). exists p. split; [done|]. by apply Hstart. }
  destruct r2 as [[]|e|q]; [|destruct H as [-> Hne]; split; [split_and!; auto|done]..].
  pose proof (delete_steps (notIn names reported) w2) as [Hd Hdr].
  destruct (ReconcileDeleteControllingPod c (notIn names reported) w2) as [r3 w3] eqn:E3. cbn [snd] in *.
  destruct H as [-> Hok].
  assert (Hdrop : forall k, k ∈ partition_key c <$> notIn names reported ->
            exists p, k = partition_key c p /\ to_stop reported (store w) p).
  { intros k Hin. apply list_elem_of_fmap in Hin as (p & -> & Hp). exists p. split; [done|]. by apply Hstop. }
  split; [split_and!|].
  - by etrans.
  - intros k a Ha. destruct (Hd k) as [E|[E Hk]]; [left; rewrite E; auto|right; auto].
  - intros k Hk. destruct (Hd k) as [E|[E _]]; [rewrite E; auto|by left].
  - intros H. apply Hok in H as ->. split.
    + intros p Hp. destruct (Hd (partition_key c p)) as [->|[_ Hk]].
      * apply create_ok in E2. rewrite list.Forall_forall in E2. by apply E2, Hstart.
      * apply Hdrop in Hk as (q & Hq & [Hr _]). apply partition_key_inj in Hq as <-. by destruct Hp.
    + intros p Hp. apply delete_ok in E3. rewrite list.Forall_forall in E3. by apply E3, Hstop.
Qed.

(** As the virtual kubelets label their nodes, the configurator never
    stops one: when every node has the label [type=virtual-kubelet], no node
    is selected, no pod is deleted, and a pod is created again for every
    reported partition whose pod is missing. *)
Theorem Reconcile_never_stops resp w :
  Forall (fun n => map_get (kn_Labels n) "type" = Some "virtual-kubelet") (s_nodes (store w)) ->
  let pods' := s_pods (store (Reconcile c resp w).2) in
  (forall k a, s_pods (store w) !! k = Some a -> pods' !! k = Some a) /\
  ((Reconcile c resp w).1 = Ok tt ->
   forall p, p ∈ psr_Partition resp -> is_Some (pods' !! partition_key c p)).
Proof.
  intros Hn. cbv zeta.
  assert (Hrep : forall p, ~ represented (store w) p).
  { intros p (n & Hin & Hsel & _). rewrite list.Forall_forall in Hn. specialize (Hn n Hin).
    unfold selects in Hsel. cbn in Hsel. rewrite Hn in Hsel. by apply bool_decide_eq_true in Hsel. }
  destruct (Reconcile_phases resp w) as [(e & w1 & -> & Hs)|(w1 & Hs1 & H)].
  { cbn [fst snd]. by rewrite Hs. }
  assert (Hnames : partitionNames (List.filter (selects VKNodeLabel) (s_nodes (store w))) = []).
  { destruct (partitionNames _) as [|p l] eqn:E; [done|]. exfalso. apply (Hrep p), represented_names. rewrite E. by left. }
  rewrite Hnames in H.
  pose proof (create_steps (notIn (psr_Partition resp) []) w1) as [[Hc1 _] _].
  destruct (ReconcileCreateNodeForPartition c _ w1) as [r2 w2] eqn:E2. cbn [snd] in Hc1. rewrite Hs1 in Hc1.
  destruct r2 as [[]|e|q]; [|by destruct H as [-> ?]..]. cbn in H. destruct H as [-> _]. split; [done|].
  intros _ p Hp. apply create_ok in E2. rewrite list.Forall_forall in E2. apply E2, notIn_elem.
  split; [done|]. by intros ?%elem_of_nil.
Qed.
End facts.

(** ** Examples *)

Module ConfiguratorExamples.

Definition demo_conf : SlurmBridgeConfigurator := mkConfigurator "agent:9999" "default" "vk" "vk:latest".
Definition demo_node (type partition : string) : KNode :=
  mkKNode ("slurm-partition-" +:+ partition)
    (Some {["type" := type; "kubecluster.org/partition" := partition]})
    [] "Linux" "amd64" "" "" "" "" "" "" ∅ ∅ [] [] 10250.
Definition demo_pod (partition : string) : Key * Pod :=
  (partition_key demo_conf partition, admit_pod (virtualKubeletPodTemplate demo_conf partition)).
(** The cluster serves [old] and [debug]; Slurm reports [debug] and [gpu]. *)
Definition demo_world (type : string) : Server :=
  mkServer (mkStore (list_to_map [demo_pod "old"; demo_pod "debug"]) ∅ ∅ [demo_node type "old"; demo_node type "debug"]) [].
Definition demo_resp : PartitionsResponse := mkPartitionsResponse ["debug"; "gpu"].

Example selected_world :
  (fun p => bool_decide (is_Some (s_pods (sv_store (Reconcile demo_conf demo_resp
      (demo_world "slurm-agent-virtual-kubelet")).2) !! partition_key demo_conf p))) <$> ["old"; "debug"; "gpu"]
  = [false; true; true].
Proof. vm_compute. reflexivity. Qed.

Lemma Reconcile_converges_witness :
  let reported := psr_Partition demo_resp in
  let '(r, w') := Reconcile demo_conf demo_resp (demo_world "slurm-agent-virtual-kubelet") in
  moves_towards demo_conf reported (store (demo_world "slurm-agent-virtual-kubelet")) (store w') /\
  (r = Ok tt -> reached demo_conf reported (store (demo_world "slurm-agent-virtual-kubelet")) (store w')).
Proof. exact (Reconcile_converges demo_conf demo_resp (demo_world "slurm-agent-virtual-kubelet")). Defined.

Lemma Reconcile_never_stops_witness :
  let w := demo_world "virtual-kubelet" in
  let pods' := s_pods (store (Reconcile demo_conf demo_resp w).2) in
  (forall k a, s_pods (store w) !! k = Some a -> pods' !! k = Some a) /\
  ((Reconcile demo_conf demo_resp w).1 = Ok tt ->
   forall p, p ∈ psr_Partition demo_resp -> is_Some (pods' !! partition_key demo_conf p)).
Proof.
  apply (Reconcile_never_stops demo_conf demo_resp (demo_world "virtual-kubelet")).
  repeat constructor.
Defined.
End ConfiguratorExamples.
