(* ===== verification/RateLimit.v ===== *)
(** * The rate limiter of the file follower (pkg/tail/ratelimiter)

    A leaky bucket whose level is a [float64], and a store of buckets with
    a garbage collection. The floating point operations are those of
    [SpecFloat], executable IEEE 754 arithmetic, at the precision of
    [float64]; the current time is an argument where the code calls the
    bucket's clock. *)

From Stdlib Require Import SpecFloat.
From S2P Require Import Prelude GoTime.
#[local] Open Scope Z_scope.

(** ** Floating point and durations *)

Definition float64 : Type := spec_float.
Definition f64_of_int (z : Z) : float64 := binary_normalize 53 1024 z 0 false.
Definition f64_add : float64 -> float64 -> float64 := SFadd 53 1024.
Definition f64_sub : float64 -> float64 -> float64 := SFsub 53 1024.
Definition f64_mul : float64 -> float64 -> float64 := SFmul 53 1024.
Definition f64_div : float64 -> float64 -> float64 := SFdiv 53 1024.
Definition f64_lt : float64 -> float64 -> bool := SFltb.

(** [int64(x)]: truncation towards zero. The language leaves a value out of
    range open; here it is the smallest integer, as on amd64. *)
Definition f64_to_int (x : float64) : Z :=
  match x with
  | S754_zero _ => 0
  | S754_finite s m e =>
      let abs := Z.shiftl (Z.pos m) e in
      let z := if s then - abs else abs in
      if bool_decide (int64_min <= z) && bool_decide (z <= int64_max) then z else int64_min
  | _ => int64_min
  end.

(** [t.Sub(u)] saturates at the bounds of a duration. *)
Definition time_Sub (t u : Time) : Z :=
  let d := (t_sec t - t_sec u) * Second + (t_nsec t - t_nsec u) in
  Z.max int64_min (Z.min int64_max d).

Definition time_Add (t : Time) (d : Z) : Time :=
  let ns := t_nsec t + d in mkTime (t_sec t + ns / Second) (ns `mod` Second).

(** ** The bucket *)

Record LeakyBucket := mkLeakyBucket {
  lb_Size : Z;
  lb_Fill : float64;
  lb_LeakInterval : Z;
  lb_Lastupdate : Time;
}.

Definition NewLeakyBucket (size leakInterval : Z) (now : Time) : LeakyBucket :=
  mkLeakyBucket size (S754_zero false) leakInterval now.

(** The form of a bucket without its clock. *)
Record LeakyBucketSer := mkLeakyBucketSer {
  ls_Size : Z;
  ls_Fill : float64;
  ls_LeakInterval : Z;
  ls_Lastupdate : Time;
}.
Definition Serialise (b : LeakyBucket) : LeakyBucketSer :=
  mkLeakyBucketSer (lb_Size b) (lb_Fill b) (lb_LeakInterval b) (lb_Lastupdate b).
Definition DeSerialise (b : LeakyBucketSer) : LeakyBucket :=
  mkLeakyBucket (ls_Size b) (ls_Fill b) (ls_LeakInterval b) (ls_Lastupdate b).

Definition updateFill (now : Time) (b : LeakyBucket) : LeakyBucket :=
  let fill :=
    if f64_lt (S754_zero false) (lb_Fill b) then
      let elapsed := time_Sub now (lb_Lastupdate b) in
      let fill := f64_sub (lb_Fill b) (f64_div (f64_of_int elapsed) (f64_of_int (lb_LeakInterval b))) in
      if f64_lt fill (S754_zero false) then S754_zero false else fill
    else lb_Fill b in
  mkLeakyBucket (lb_Size b) fill (lb_LeakInterval b) now.

Definition with_fill (b : LeakyBucket) (fill : float64) : LeakyBucket :=
  mkLeakyBucket (lb_Size b) fill (lb_LeakInterval b) (lb_Lastupdate b).

Definition Pour (now : Time) (amount : Z) (b : LeakyBucket) : bool * LeakyBucket :=
  let b := updateFill now b in
  let newfill := f64_add (lb_Fill b) (f64_of_int amount) in
  if f64_lt (f64_of_int (lb_Size b)) newfill then (false, b) else (true, with_fill b newfill).

Definition DrainedAt (b : LeakyBucket) : Time :=
  time_Add (lb_Lastupdate b) (f64_to_int (f64_mul (lb_Fill b) (f64_of_int (lb_LeakInterval b)))).

Definition TimeToDrain (now : Time) (b : LeakyBucket) : Z := time_Sub (DrainedAt b) now.
Definition TimeSinceLastUpdate (now : Time) (b : LeakyBucket) : Z := time_Sub now (lb_Lastupdate b).

(** ** The store *)

Definition GC_SIZE : nat := 100.
Definition GC_PERIOD : Z := 60 * Second.

Record Memory := mkMemory { mem_store : gmap string LeakyBucket; mem_lastGCCollected : Time }.

Definition NewMemory (now : Time) : Memory := mkMemory ∅ now.

Definition GetBucketFor (key : string) (m : Memory) : res LeakyBucket :=
  match mem_store m !! key with Some bucket => Ok bucket | None => Err (ErrNew "miss") end.

(** A drained bucket is one whose level reached zero before now. *)
Definition drained (now : Time) (b : LeakyBucket) : bool := bool_decide (t_sec (DrainedAt b) < t_sec now).

Definition GarbageCollect (now : Time) (m : Memory) : Memory :=
  if bool_decide (t_sec (time_Add (mem_lastGCCollected m) GC_PERIOD) <= t_sec now)
  then mkMemory (filter (fun kb => drained now kb.2 = false) (mem_store m)) now
  else m.

Definition SetBucketFor (now : Time) (key : string) (bucket : LeakyBucket) (m : Memory) : Memory :=
  let m := if (GC_SIZE <? size (mem_store m))%nat then GarbageCollect now m else m in
  mkMemory (<[key := bucket]> (mem_store m)) (mem_lastGCCollected m).

(** ** Facts *)

(** An accepted amount never leaves the bucket above its size. *)
Lemma Pour_level now amount b b' :
  Pour now amount b = (true, b') -> f64_lt (f64_of_int (lb_Size b')) (lb_Fill b') = false.
Proof.
  unfold Pour. set (b1 := updateFill now b).
  destruct (f64_lt (f64_of_int (lb_Size b1)) _) eqn:Hlt; [discriminate|]. by intros [= <-].
Qed.

(** A refused amount leaves what has not leaked. *)
Lemma Pour_refused now amount b b' :
  Pour now amount b = (false, b') -> b' = updateFill now b.
Proof. unfold Pour. destruct (f64_lt _ _); congruence. Qed.

Lemma GarbageCollect_keeps now m key b :
  mem_store m !! key = Some b -> drained now b = false ->
  mem_store (GarbageCollect now m) !! key = Some b.
Proof.
  intros Hk Hd. unfold GarbageCollect. case_bool_decide; [|done]. cbn.
  by apply map_lookup_filter_Some.
Qed.

(** What was stored under a key is found again, and storing a bucket drops
    no bucket of another key that is not drained. *)
Lemma SetBucketFor_spec now key b m :
  GetBucketFor key (SetBucketFor now key b m) = Ok b /\
  forall key' b', key' <> key -> GetBucketFor key' m = Ok b' -> drained now b' = false ->
    GetBucketFor key' (SetBucketFor now key b m) = Ok b'.
Proof.
  unfold SetBucketFor, GetBucketFor. cbn [mem_store]. split; [by rewrite lookup_insert_eq|].
  intros key' b' Hne Hget Hd. rewrite lookup_insert_ne by done.
  destruct (mem_store m !! key') as [b0|] eqn:Hk; [|discriminate]. injection Hget as ->.
  destruct (GC_SIZE <? _)%nat; [by rewrite (GarbageCollect_keeps now m key' b')|by rewrite Hk].
Qed.

Module RateLimitExamples.
(** A bucket of size 60 that leaks one unit per second. *)
Definition at_sec (s : Z) : Time := mkTime s 0.
Definition bucket : LeakyBucket := NewLeakyBucket 60 Second (at_sec 0).

Fixpoint pours (l : list (Z * Z)) (b : LeakyBucket) : list bool :=
  match l with
  | [] => []
  | (s, amount) :: l' => let '(ok, b') := Pour (at_sec s) amount b in ok :: pours l' b'
  end.

Example pour_run :
  pours [(1, 61); (1, 10); (1, 49); (1, 2); (61, 60); (61, 1); (70, 1)] bucket =
  [false; true; true; false; true; false; true].
Proof. vm_compute. reflexivity. Qed.

Example drain_run :
  let b := (Pour (at_sec 1) 10 bucket).2 in
  (TimeToDrain (at_sec 1) b, TimeToDrain (at_sec 2) b, TimeSinceLastUpdate (at_sec 2) b) =
  (10 * Second, 9 * Second, Second).
Proof. vm_compute. reflexivity. Qed.
End RateLimitExamples.
