(* ===== verification/Tail.v ===== *)
(** * Following a file (pkg/tail)

    [tail -F] as the agent uses it for the log of a running job: a goroutine
    reads the file line by line into a channel and, at the end of the file,
    goes back to the start of an unfinished line and waits for a change.
    TailReader models the buffer the agent reads the lines from.
    The operating system, the watcher of file changes and the [tomb] that
    stops the goroutine are the class [TailOS]. The theorems say that a file
    that only grows is delivered line by line, nothing lost, repeated or
    torn, up to the last complete line. *)

From S2P Require Import Prelude GoStrings GoTime RateLimit.
#[local] Open Scope Z_scope.

(** ** Lines and configuration *)

Record Line := mkLine { l_Text : string; l_Time : Time; l_Err : option error }.
Record SeekInfo := mkSeekInfo { Offset : Z; Whence : Z }.

Definition SEEK_SET : Z := 0.
Definition SEEK_CUR : Z := 1.
Definition SEEK_END : Z := 2.

Record Config := mkConfig {
  Location : option SeekInfo;
  ReOpen : bool;
  MustExist : bool;
  Poll : bool;
  Pipe : bool;
  RateLimiter : option LeakyBucket;
  Follow : bool;
  MaxLineSize : Z;
}.

Definition ErrStop : error := ErrSentinel "tail should now stop".
Definition errStopAtEOF : error := ErrSentinel "tail: stop at eof".
Definition ErrDying : error := ErrSentinel "tomb: dying".

(** What [waitForChanges] can be woken by. *)
Inductive change := Modified | Deleted | Truncated | Dying.

(** A descriptor is a number. [file_Read fd n] is one read of at most [n]
    bytes, with error [EOF] at the end of the file; [tomb_Dying] and
    [after_second] are the two selects on the channel [Dying]. *)
Class TailOS (W : Type) := {
  file_Open : string -> M W nat;
  file_Read : nat -> nat -> M W string;
  file_Seek : nat -> Z -> Z -> M W Z;
  file_Close : nat -> M W unit;
  time_Now : M W Time;
  BlockUntilExists : M W unit;
  ChangeEvents : Z -> M W unit;
  select_changes : M W change;
  Lines_send : Line -> M W unit;
  Lines_close : M W unit;
  tomb_Kill : option error -> M W unit;
  tomb_Dying : M W bool;
  tomb_Err : M W (option error);
  tomb_Done : M W unit;
  tomb_Wait : M W (option error);
  after_second : M W bool;
}.

(** ** util.PartitionString *)

(** The loop over [start] and [end]; one turn per chunk. *)
Fixpoint partition_loop (fuel : nat) (s : string) (chunkSize start end_ : nat) (parts : list string) : list string :=
  match fuel with
  | O => parts
  | S fuel' =>
      let end_ := if (String.length s <? end_)%nat then String.length s else end_ in
      let parts := parts ++ [str_take (end_ - start) (str_drop start s)] in
      if (end_ =? String.length s)%nat then parts
      else partition_loop fuel' s chunkSize end_ (end_ + chunkSize) parts
  end.

Definition PartitionString (s : string) (chunkSize : Z) : res (list string) :=
  if bool_decide (chunkSize <= 0) then Panic (PanicWith "invalid chunkSize")
  else
    let n := Z.to_nat chunkSize in
    Ok (partition_loop (1 + String.length s / n) s n 0 n []).

(** ** Buffered reading *)

(** A [bufio.Reader] over a descriptor: its unread bytes and its size. *)
Record Bufio := mkBufio { b_fd : nat; b_buf : string; b_size : nat }.

Definition NewReaderSize (fd : nat) (size : Z) : Bufio := mkBufio fd "" (Nat.max 16 (Z.to_nat size)).
Definition bufio_default : Z := 4096.
Definition Buffered (b : Bufio) : Z := str_len (b_buf b).
Definition with_buf (b : Bufio) (buf : string) : Bufio := mkBufio (b_fd b) buf (b_size b).

Section follow.
Context {W : Type} {OS : TailOS W}.

(** [ReadString] with delimiter line feed: the bytes up to and including
    the delimiter, or what there is and an error. [acc] collects the
    fragments of full buffers. One turn per read or fragment; [None] when
    the fuel is used up. *)
Fixpoint ReadString (fuel : nat) (b : Bufio) (acc : string) : M W (option (Bufio * string * option error)) :=
  match fuel with
  | O => mret None
  | S fuel' =>
      match split_once LF (b_buf b) with
      | Some (line, rest) => mret (Some (with_buf b rest, acc +:+ line +:+ LF, None))
      | None =>
          if (b_size b <=? String.length (b_buf b))%nat then ReadString fuel' (with_buf b "") (acc +:+ b_buf b)
          else
            r ← attempt (file_Read (b_fd b) (b_size b - String.length (b_buf b)));
            match r with
            | inr e => mret (Some (with_buf b "", acc +:+ b_buf b, Some e))
            | inl d => ReadString fuel' (with_buf b (b_buf b +:+ d)) acc
            end
      end
  end.

(** ** The follower *)

Record Tail := mkTail {
  t_Filename : string;
  t_Config : Config;
  t_RateLimiter : option LeakyBucket;
  t_file : option nat;
  t_reader : option Bufio;
  t_changes : bool;
}.

(** The follower and the operating system it runs on. *)
Record TS := mkTS { ts_tail : Tail; ts_w : W }.

Definition on_w {A} (m : M W A) : M TS A :=
  fun s => let '(r, w) := m (ts_w s) in (r, mkTS (ts_tail s) w).
Definition tail_get : M TS Tail := fun s => (Ok (ts_tail s), s).
Definition tail_set (f : Tail -> Tail) : M TS unit := fun s => (Ok tt, mkTS (f (ts_tail s)) (ts_w s)).

Definition set_file (f : option nat) (t : Tail) : Tail :=
  mkTail (t_Filename t) (t_Config t) (t_RateLimiter t) f (t_reader t) (t_changes t).
Definition set_reader (b : option Bufio) (t : Tail) : Tail :=
  mkTail (t_Filename t) (t_Config t) (t_RateLimiter t) (t_file t) b (t_changes t).
Definition set_changes (c : bool) (t : Tail) : Tail :=
  mkTail (t_Filename t) (t_Config t) (t_RateLimiter t) (t_file t) (t_reader t) c.
Definition set_limiter (l : option LeakyBucket) (t : Tail) : Tail :=
  mkTail (t_Filename t) (t_Config t) l (t_file t) (t_reader t) (t_changes t).

(** A method on a nil [*os.File] returns an error. *)
Definition seek (off whence : Z) : M TS Z :=
  t ← tail_get;
  match t_file t with
  | None => fail (ErrOS OsOther)
  | Some fd => on_w (file_Seek fd off whence)
  end.

Definition Tell : M TS Z :=
  t ← tail_get;
  match t_file t with
  | None => mret 0
  | Some _ =>
      offset ← seek 0 SEEK_CUR;
      match t_reader t with
      | None => mret offset
      | Some b => mret (offset - Buffered b)
      end
  end.

Definition closeFile : M TS unit :=
  t ← tail_get;
  match t_file t with
  | None => mret tt
  | Some fd => _ ← attempt (on_w (file_Close fd)); tail_set (set_file None)
  end.

Definition close : M TS unit := on_w Lines_close;; closeFile.

(** [reopen]: one turn per attempt to open the file; [None] when the fuel
    is used up while the file keeps disappearing. *)
Fixpoint reopen_loop (fuel : nat) : M TS (option unit) :=
  match fuel with
  | O => mret None
  | S fuel' =>
      t ← tail_get;
      r ← attempt (on_w (file_Open (t_Filename t)));
      match r with
      | inl fd => tail_set (set_file (Some fd));; mret (Some tt)
      | inr err =>
          tail_set (set_file None);;
          if IsNotExist err then
            b ← attempt (on_w BlockUntilExists);
            match b with
            | inl _ => reopen_loop fuel'
            | inr err =>
                if errors_Is err ErrDying then fail err
                else fail (ErrFmt ("Failed to detect creation of " +:+ t_Filename t) err)
            end
          else fail (ErrFmt ("Unable to open file " +:+ t_Filename t) err)
      end
  end.

Definition reopen (fuel : nat) : M TS (option unit) := closeFile;; reopen_loop fuel.

Definition openReader : M TS unit :=
  t ← tail_get;
  let fd := default 0%nat (t_file t) in
  let size := if bool_decide (0 < MaxLineSize (t_Config t)) then MaxLineSize (t_Config t) + 2 else bufio_default in
  tail_set (set_reader (Some (NewReaderSize fd size))).

(** A seek discards what the reader has buffered. *)
Definition seekTo (pos : SeekInfo) : M TS unit :=
  r ← attempt (seek (Offset pos) (Whence pos));
  t ← tail_get;
  match r with
  | inr err => fail (ErrFmt ("Seek error on " +:+ t_Filename t) err)
  | inl _ =>
      match t_reader t with
      | None => panicM NilDeref
      | Some b => tail_set (set_reader (Some (mkBufio (default 0%nat (t_file t)) "" (b_size b))))
      end
  end.

Definition seekEnd : M TS unit := seekTo (mkSeekInfo 0 SEEK_END).

Definition readLine (fuel : nat) : M TS (option (string * option error)) :=
  t ← tail_get;
  match t_reader t with
  | None => panicM NilDeref
  | Some b =>
      r ← on_w (ReadString fuel b "");
      match r with
      | None => mret None
      | Some (b', line, err) =>
          tail_set (set_reader (Some b'));;
          match err with
          | Some e => mret (Some (line, Some e))
          | None => mret (Some (TrimRightByte line "010", None))
          end
      end
  end.

(** [sendLine] answers false when the rate limit is reached. *)
Definition sendLine (line : string) : M TS bool :=
  now ← on_w time_Now;
  t ← tail_get;
  let max := MaxLineSize (t_Config t) in
  lines ← (if bool_decide (0 < max) && bool_decide (max < str_len line)
           then lift (PartitionString line max) else mret [line]);
  forM lines (fun l => on_w (Lines_send (mkLine l now None)));;
  match t_RateLimiter t with
  | None => mret true
  | Some limiter =>
      now ← on_w time_Now;
      let '(ok, limiter') := Pour now (Z.of_nat (length lines) `mod` 65536) limiter in
      tail_set (set_limiter (Some limiter'));;
      mret ok
  end.

(** The [select] of [waitForChanges]. *)
Definition await_change (fuel : nat) : M TS (option unit) :=
  t ← tail_get;
  c ← on_w select_changes;
  match c with
  | Modified => mret (Some tt)
  | Deleted =>
      tail_set (set_changes false);;
      if ReOpen (t_Config t) then
        o ← reopen fuel;
        match o with None => mret None | Some _ => openReader;; mret (Some tt) end
      else fail ErrStop
  | Truncated =>
      o ← reopen fuel;
      match o with None => mret None | Some _ => openReader;; mret (Some tt) end
  | Dying => fail ErrStop
  end.

Definition waitForChanges (fuel : nat) : M TS (option unit) :=
  t ← tail_get;
  (if t_changes t then mret tt
   else
     pos ← seek 0 SEEK_CUR;
     r ← attempt (on_w (ChangeEvents pos));
     match r with
     | inl _ => tail_set (set_changes true)
     | inr err => tail_set (set_changes false);; fail err
     end);;
  await_change fuel.

(** ** The goroutine *)

(** How a turn of the loop ends: go on, with the position of the last
    [Tell]; the function returned; or the fuel of a call is used up. *)
Inductive status := Continue (offset : Z) | Returned | OutOfFuel.

(** The [select] at the end of a turn. *)
Definition poll_dying (offset : Z) : M TS status :=
  d ← on_w tomb_Dying;
  match d with
  | false => mret (Continue offset)
  | true =>
      e ← on_w tomb_Err;
      if bool_decide (e = Some errStopAtEOF) then mret (Continue offset) else mret Returned
  end.

Definition kill (err : error) : M TS status := on_w (tomb_Kill (Some err));; mret Returned.

Definition rate_msg : string := "Too much log activity; waiting a second before resuming tailing".

(** After the rate limit is reached: wait, then go to the end of the file. *)
Definition cooloff (offset : Z) : M TS status :=
  now ← on_w time_Now;
  on_w (Lines_send (mkLine rate_msg now (Some (ErrNew rate_msg))));;
  woken ← on_w after_second;
  match woken with
  | true =>
      r ← attempt seekEnd;
      match r with inr err => kill err | inl _ => poll_dying offset end
  | false => mret Returned
  end.

(** The end of the file is reached with [line] unfinished. *)
Definition at_eof (fuel : nat) (offset : Z) (line : string) : M TS status :=
  t ← tail_get;
  if negb (Follow (t_Config t)) then
    (if nonempty line then _ ← sendLine line; mret tt else mret tt);; mret Returned
  else
    s ← (if nonempty line then attempt (seekTo (mkSeekInfo offset SEEK_SET)) else mret (inl tt));
    match s with
    | inr err => kill err
    | inl _ =>
        w ← attempt (waitForChanges fuel);
        match w with
        | inr err => if bool_decide (err = ErrStop) then mret Returned else kill err
        | inl None => mret OutOfFuel
        | inl (Some _) => poll_dying offset
        end
    end.

Definition tail_turn (fuel : nat) (offset : Z) : M TS status :=
  t ← tail_get;
  o ← (if Pipe (t_Config t) then mret (inl offset) else attempt Tell);
  match o with
  | inr err => kill err
  | inl offset =>
      l ← readLine fuel;
      match l with
      | None => mret OutOfFuel
      | Some (line, None) =>
          ok ← sendLine line;
          match ok with true => poll_dying offset | false => cooloff offset end
      | Some (line, Some err) =>
          if bool_decide (err = EOF) then at_eof fuel offset line
          else kill (ErrFmt ("Error reading " +:+ t_Filename t) err)
      end
  end.

(** At most [n] turns. *)
Fixpoint tail_loop (fuel n : nat) (offset : Z) : M TS status :=
  match n with
  | O => mret (Continue offset)
  | S n' =>
      st ← tail_turn fuel offset;
      match st with Continue offset' => tail_loop fuel n' offset' | _ => mret st end
  end.

Definition tail_body (fuel n : nat) : M TS status :=
  t ← tail_get;
  opened ← (if MustExist (t_Config t) then mret (Some true)
            else
              r ← attempt (reopen fuel);
              match r with
              | inl None => mret None
              | inl (Some _) => mret (Some true)
              | inr err =>
                  when (negb (errors_Is err ErrDying)) (on_w (tomb_Kill (Some err)));; mret (Some false)
              end);
  match opened with
  | None => mret OutOfFuel
  | Some false => mret Returned
  | Some true =>
      s ← (match Location (t_Config t) with
           | None => mret (inl 0)
           | Some loc => attempt (seek (Offset loc) (Whence loc))
           end : M TS (Z + error));
      match s with
      | inr err => kill (ErrFmt ("Seek error on " +:+ t_Filename t) err)
      | inl _ => openReader;; tail_loop fuel n 0
      end
  end.

(** The goroutine, for at most [n] turns of its loop; its deferred calls run
    when it returns. *)
Definition tailFileSync (fuel n : nat) : M TS status :=
  st ← tail_body fuel n;
  match st with
  | Returned => close;; on_w tomb_Done;; mret Returned
  | _ => mret st
  end.

(** [TailFile], up to the start of the goroutine. *)
Definition TailFile (filename : string) (config : Config) : M W Tail :=
  (if ReOpen config && negb (Follow config) then panicM (ProcessExit "cannot set ReOpen without Follow.") else mret tt);;
  file ← (if MustExist config then fd ← file_Open filename; mret (Some fd) else mret None);
  mret (mkTail filename config (RateLimiter config) file None false).

Definition Stop : M W (option error) := tomb_Kill None;; tomb_Wait.
Definition StopAtEOF : M W (option error) := tomb_Kill (Some errStopAtEOF);; tomb_Wait.

(** The follower of [tail.NewReader]. *)
Definition reader_config : Config := mkConfig None true false false false None true 0.
End follow.

(** ** Splitting long lines *)

(** Pieces of length [n], the last one of at most [n]. *)
Fixpoint pieces (n : nat) (ps : list string) : Prop :=
  match ps with
  | [] => False
  | [p] => (String.length p <= n)%nat
  | p :: ps' => String.length p = n /\ pieces n ps'
  end.

Lemma partition_loop_spec fuel s n start parts :
  (0 < n)%nat -> (start <= String.length s)%nat -> (String.length s - start < n * fuel)%nat ->
  exists ps, partition_loop fuel s n start (start + n) parts = parts ++ ps /\
    cat ps = str_drop start s /\ pieces n ps.
Proof.
  intros Hn. revert start parts. induction fuel as [|fuel IH]; intros start parts Hs Hf; [lia|].
  cbn [partition_loop].
  set (e := if (String.length s <? start + n)%nat then String.length s else (start + n)%nat).
  assert (He : e = Nat.min (String.length s) (start + n)).
  { unfold e. destruct (Nat.ltb_spec (String.length s) (start + n)); lia. }
  pose proof (length_str_drop start s) as Hd.
  destruct (Nat.eqb_spec e (String.length s)) as [Heq|Hne].
  - eexists. split; [done|]. rewrite str_take_all by lia. split; [apply str_app_nil_r|]. cbn. lia.
  - destruct (IH e (parts ++ [str_take (e - start) (str_drop start s)])) as (ps & Hps & Hcat & Hp); [lia..|].
    exists (str_take (e - start) (str_drop start s) :: ps). replace (start + n)%nat with e by lia.
    rewrite Hps, <- app_assoc. split; [done|]. split.
    + rewrite cat_cons, Hcat. rewrite <- (str_take_drop (e - start) (str_drop start s)) at 2.
      by rewrite str_drop_drop, <- Nat.le_add_sub by lia.
    + destruct ps as [|p ps]; [done|]. split; [|done]. rewrite length_str_take; lia.
Qed.

(** A string is cut into pieces of the given size, the last one shorter,
    that make it up in order. *)
Lemma PartitionString_spec s n :
  0 < n -> exists ps, PartitionString s n = Ok ps /\ cat ps = s /\ pieces (Z.to_nat n) ps.
Proof.
  intros Hn. unfold PartitionString. rewrite bool_decide_eq_false_2 by lia.
  destruct (partition_loop_spec (1 + String.length s / Z.to_nat n) s (Z.to_nat n) 0 []) as (ps & Hps & Hc & Hp).
  - lia.
  - lia.
  - pose proof (Nat.mul_succ_div_gt (String.length s) (Z.to_nat n)). lia.
  - exists ps. cbn [app] in Hps. split; [by f_equal|done].
Qed.

(** ** A file that only grows *)

(** What the theorems observe: the bytes of the file, the offsets of the
    descriptors and the lines sent. *)
Class FileView (W : Type) := {
  content : W -> string;
  position : W -> nat -> nat;
  sent : W -> list Line;
}.

Section views.
Context {W : Type} {FV : FileView W}.

(** [w'] is a later moment than [w]; in between the lines [l] were sent. *)
Definition later (l : list Line) (w w' : W) : Prop :=
  (exists t, content w' = content w +:+ t) /\ sent w' = sent w ++ l.
Definition idle (w w' : W) : Prop := later [] w w' /\ forall fd, position w' fd = position w fd.

(** A call that moves no descriptor and sends nothing, and one that in
    addition does not fail. *)
Definition quiet {A} (m : M W A) : Prop :=
  forall w, wp m (fun r w' => no_panic r /\ idle w w') w.
Definition total {A} (m : M W A) : Prop :=
  forall w, wp m (fun r w' => is_ok r = true /\ idle w w') w.

Lemma later_refl w : later [] w w.
Proof. split; [exists ""; by rewrite str_app_nil_r|by rewrite app_nil_r]. Qed.
Lemma later_trans l1 l2 w1 w2 w3 : later l1 w1 w2 -> later l2 w2 w3 -> later (l1 ++ l2) w1 w3.
Proof.
  intros [[t1 H1] Hs1] [[t2 H2] Hs2]. split.
  - exists (t1 +:+ t2). by rewrite H2, H1, str_app_assoc.
  - by rewrite Hs2, Hs1, app_assoc.
Qed.
#[export] Instance idle_preorder : PreOrder idle.
Proof.
  split; [intros w; split; [apply later_refl|done]|].
  intros w1 w2 w3 [H1 P1] [H2 P2]. split; [exact (later_trans [] [] _ _ _ H1 H2)|].
  intros fd. by rewrite P2, P1.
Qed.
End views.

(** What is documented of the system calls while other processes only
    append to the file. *)
Class GrowingFile (W : Type) {OS : TailOS W} {FV : FileView W} := {
  law_Read fd n w : (0 < n)%nat ->
    wp (file_Read fd n) (fun r w' =>
      match r with
      | Ok d =>
          later [] w w' /\ (1 <= String.length d <= n)%nat /\
          position w' fd = (position w fd + String.length d)%nat /\
          exists pre post, content w' = pre +:+ d +:+ post /\ String.length pre = position w fd
      | Err e => idle w w' /\ (e = EOF -> (String.length (content w) <= position w fd)%nat)
      | Panic _ => False
      end) w;
  law_Seek fd off whence w :
    wp (file_Seek fd off whence) (fun r w' =>
      match r with
      | Ok p =>
          later [] w w' /\
          (whence = SEEK_CUR -> off = 0 -> p = Z.of_nat (position w fd) /\ position w' fd = position w fd) /\
          (whence = SEEK_SET -> 0 <= off -> position w' fd = Z.to_nat off)
      | Err _ => idle w w'
      | Panic _ => False
      end) w;
  law_Open name w :
    wp (file_Open name) (fun r w' =>
      match r with Ok fd => later [] w w' /\ position w' fd = 0%nat | Err _ => idle w w' | Panic _ => False end) w;
  law_send l w :
    wp (Lines_send l) (fun r w' => r = Ok tt /\ later [l] w w' /\ forall fd, position w' fd = position w fd) w;
  law_Now : total time_Now;
  law_Dying : total tomb_Dying;
  law_Err : total tomb_Err;
  law_Kill e : total (tomb_Kill e);
  law_Done : total tomb_Done;
  law_Lines_close : total Lines_close;
  law_Close fd : quiet (file_Close fd);
  law_Block : quiet BlockUntilExists;
  law_ChangeEvents pos : quiet (ChangeEvents pos);
  (** The file is neither truncated nor replaced. *)
  law_select w :
    wp select_changes (fun r w' => idle w w' /\ (r = Ok Modified \/ r = Ok Dying)) w;
}.

(** ** Reading a line *)

Definition lines_text (ls : list Line) : string := cat ((fun l => l_Text l +:+ LF) <$> ls).
Definition lacks_lf (s : string) : Prop := lacks "010" s.

Lemma lines_text_app a b : lines_text (a ++ b) = lines_text a +:+ lines_text b.
Proof.
  unfold lines_text. rewrite fmap_app. induction (_ <$> a) as [|x l IH]; [done|].
  rewrite <- app_comm_cons, !cat_cons, IH. by rewrite str_app_assoc.
Qed.

(** Text without a line feed at the start of [line], a line feed and more
    is part of the line. *)
Lemma lacks_lf_within a r line more :
  lacks_lf a -> a +:+ r = line +:+ LF +:+ more -> (String.length a <= String.length line)%nat.
Proof.
  revert a. induction line as [|x line IH]; intros [|y a] Ha H; simpl; try lia.
  - apply lacks_cons in Ha as [Hy _]. rewrite str_app_cons in H. by injection H.
  - apply lacks_cons in Ha as [_ Ha]. rewrite !str_app_cons in H. injection H as _ H.
    specialize (IH a Ha H). lia.
Qed.

Lemma lacks_lf_cut a b a' b' :
  lacks_lf a -> lacks_lf a' -> a +:+ LF +:+ b = a' +:+ LF +:+ b' -> a = a' /\ b = b'.
Proof. apply (lacks_cut "010"). Qed.

Section reading.
Context {W : Type} {OS : TailOS W} {FV : FileView W} {GF : GrowingFile W}.

(** The descriptor stands behind [text], the first bytes of the file. *)
Definition stands (fd : nat) (text : string) (w : W) : Prop :=
  (exists rest, content w = text +:+ rest) /\ position w fd = String.length text.

Lemma stands_later fd text l w w' :
  stands fd text w -> later l w w' -> position w' fd = position w fd -> stands fd text w'.
Proof.
  intros [[rest Hc] Hp] [[t Ht] _] Hpos. split; [|congruence].
  exists (rest +:+ t). by rewrite Ht, Hc, str_app_assoc.
Qed.
Lemma stands_idle fd text w w' : stands fd text w -> idle w w' -> stands fd text w'.
Proof. intros H [Hl Hp]. by eapply stands_later. Qed.

Lemma Read_stands fd n text w :
  (0 < n)%nat -> stands fd text w ->
  wp (file_Read fd n) (fun r w' => later [] w w' /\
    match r with
    | Ok d => stands fd (text +:+ d) w' /\ d <> ""
    | Err e => stands fd text w' /\ (e = EOF -> content w = text)
    | Panic _ => False
    end) w.
Proof.
  intros Hn Hs. eapply wp_mono; [by apply law_Read|]. intros [d|e|p] w'; [| |done].
  - intros (Hl & Hlen & Hpos & pre & post & Hc & Hpre). split; [done|].
    destruct Hs as [[rest Hr] Hp]. split; [|by intros ->; simpl in Hlen; lia].
    split; [|by rewrite length_str_app, Hpos, Hp].
    destruct Hl as [[t Ht] _]. exists post. rewrite str_app_assoc, Hc. f_equal.
    rewrite Ht, Hr, str_app_assoc in Hc. apply str_app_inj in Hc as [-> _]; congruence.
  - intros [Hi He]. split; [apply Hi|]. split; [by eapply stands_idle|].
    intros ->. specialize (He eq_refl). destruct Hs as [[rest Hr] Hp].
    rewrite Hp, Hr, length_str_app in He. destruct rest; [by rewrite Hr, str_app_nil_r|simpl in He; lia].
Qed.

(** What [ReadString] answers: a line with its line feed, or the unfinished
    line at an error; the descriptor stands behind what is still buffered. *)
Definition read_answer (base : string) (b : Bufio) (r : res (option (Bufio * string * option error))) (w' : W) : Prop :=
  match r with
  | Ok None => True
  | Ok (Some (b', line, err)) =>
      b_fd b' = b_fd b /\ b_size b' = b_size b /\ stands (b_fd b) (base +:+ line +:+ b_buf b') w' /\
      match err with
      | None => exists l, lacks_lf l /\ line = l +:+ LF
      | Some _ => b_buf b' = "" /\ lacks_lf line
      end
  | _ => False
  end.

Lemma ReadString_spec fuel b acc base w :
  lacks_lf acc -> stands (b_fd b) (base +:+ acc +:+ b_buf b) w ->
  wp (ReadString fuel b acc) (fun r w' => later [] w w' /\ read_answer base b r w') w.
Proof.
  revert b acc w. induction fuel as [|fuel IH]; intros b acc w Ha Hs; [split; [apply later_refl|done]|].
  cbn [ReadString]. pose proof (split_once_byte "010" (b_buf b)) as Hcut. fold LF in Hcut.
  destruct (split_once LF (b_buf b)) as [[line rest]|].
  - destruct Hcut as [Hb Hl]. apply wp_ret. split; [apply later_refl|]. cbn. do 2 (split; [done|]). split.
    + rewrite Hb in Hs. by rewrite !str_app_assoc.
    + exists (acc +:+ line). split; [by apply lacks_app|]. by rewrite str_app_assoc.
  - assert (Hab : lacks_lf (acc +:+ b_buf b)) by (by apply lacks_app).
    destruct (Nat.leb_spec (b_size b) (String.length (b_buf b))).
    + apply (IH (with_buf b "")); [done|]. cbn. by rewrite str_app_nil_r.
    + apply wp_bind, wp_attempt. eapply wp_mono; [apply Read_stands; [lia|done]|].
      intros [d|e|p] w' [Hl Hr]; [| |done]; cbn [attempted after].
      * destruct Hr as [Hr _]. eapply wp_mono.
        -- apply IH; [done|]. cbn. by rewrite !str_app_assoc in *.
        -- intros r w'' [Hl' Hans]. split; [exact (later_trans [] [] _ _ _ Hl Hl')|done].
      * apply wp_ret. split; [done|]. cbn. do 2 (split; [done|]). split; [rewrite str_app_nil_r; apply Hr|done].
Qed.

(** With a whole line ahead and reads that only fail at the end of the
    file, the line is read, given as much fuel as it can take. *)
Lemma ReadString_line (Hread : forall fd n w e w', file_Read fd n w = (Err e, w') -> e = EOF)
    fuel b acc base line w :
  lacks_lf acc -> lacks_lf line -> stands (b_fd b) (base +:+ acc +:+ b_buf b) w ->
  (exists more, content w = base +:+ line +:+ LF +:+ more) ->
  (0 < b_size b)%nat ->
  (2 * (String.length line + 1 - String.length (acc +:+ b_buf b)) +
    (if b_size b <=? String.length (b_buf b) then 1 else 0) < fuel)%nat ->
  wp (ReadString fuel b acc) (fun r _ => exists b', r = Ok (Some (b', line +:+ LF, None))) w.
Proof.
  intros Ha Hline. revert b acc w Ha. induction fuel as [|fuel IH]; intros b acc w Ha Hs [more Hmore] Hsz Hf; [lia|].
  cbn [ReadString]. pose proof (split_once_byte "010" (b_buf b)) as Hcut. fold LF in Hcut.
  assert (Hrest : exists rest, (acc +:+ b_buf b) +:+ rest = line +:+ LF +:+ more).
  { destruct Hs as [[rest Hr] _]. exists rest. rewrite Hmore, str_app_assoc in Hr.
    by destruct (str_app_inj _ _ _ _ eq_refl Hr). }
  destruct Hrest as [rest Hrest].
  destruct (split_once LF (b_buf b)) as [[l r]|].
  - destruct Hcut as [Hb Hl]. rewrite Hb, !str_app_assoc, <- (str_app_assoc acc l) in Hrest.
    apply lacks_lf_cut in Hrest as [<- _]; [|by apply lacks_app|done].
    apply wp_ret. eexists. by rewrite str_app_assoc.
  - assert (Hab : lacks_lf (acc +:+ b_buf b)) by (by apply lacks_app).
    pose proof (lacks_lf_within _ _ _ _ Hab Hrest) as Hle.
    destruct (Nat.leb_spec (b_size b) (String.length (b_buf b))) as [Hfull|Hfull].
    + apply (IH (with_buf b "")); [done| |eauto|done|].
      * cbn. by rewrite str_app_nil_r.
      * cbn. rewrite str_app_nil_r. destruct (b_size b); [lia|]. rewrite length_str_app in *. cbn in *. lia.
    + apply wp_bind, wp_attempt.
      pose proof (Read_stands (b_fd b) (b_size b - String.length (b_buf b)) _ w ltac:(lia) Hs) as Hr.
      specialize (Hread (b_fd b) (b_size b - String.length (b_buf b))%nat w). unfold wp in *.
      destruct (file_Read _ _ w) as [[d|e|p] w'] eqn:Hcall; cbn [fst snd] in *; [| |tauto].
      * destruct Hr as ([[t Ht] _] & Hst & Hd). cbn [attempted after]. apply IH; [done| | |done|].
        -- cbn. by rewrite !str_app_assoc in *.
        -- exists (more +:+ t). by rewrite Ht, Hmore, !str_app_assoc.
        -- cbn. destruct d as [|c d]; [done|]. rewrite !length_str_app in *. cbn [String.length] in *.
           match goal with |- context [if ?c then _ else _] => destruct c end; lia.
      * specialize (Hread e w' eq_refl). destruct Hr as (_ & _ & He). specialize (He Hread).
        exfalso. rewrite Hmore in He. apply str_app_inj in He as [_ He]; [|done].
        apply (f_equal String.length) in He. rewrite !length_str_app in He. rewrite length_str_app in Hle.
        cbn in He. lia.
Qed.
End reading.

(** ** The turns of the follower *)

Section turns.
Context {W : Type} {OS : TailOS W} {FV : FileView W} {GF : GrowingFile W}.

(** The follower of [NewReader]. *)
Definition is_reader (t : Tail) : Prop := t_Config t = reader_config /\ t_RateLimiter t = None.

(** The lines sent are the start of the file. *)
Definition delivered (w : W) : Prop := exists rest, content w = lines_text (sent w) +:+ rest.

(** The file is open, and its descriptor stands behind the lines sent,
    [text] and what is buffered. *)
Definition holding (text : string) (s : TS) : Prop :=
  exists fd b, t_file (ts_tail s) = Some fd /\ t_reader (ts_tail s) = Some b /\ b_fd b = fd /\
    (0 < b_size b)%nat /\ stands fd (lines_text (sent (ts_w s)) +:+ text +:+ b_buf b) (ts_w s).

Definition at_line : TS -> Prop := holding "".

(** A step of the follower from [s] that sends [l]. *)
Definition went (l : list Line) (s s' : TS) : Prop :=
  is_reader (ts_tail s') /\ later l (ts_w s) (ts_w s').

Lemma went_refl s : is_reader (ts_tail s) -> went [] s s.
Proof. split; [done|apply later_refl]. Qed.
Lemma went_trans l1 l2 s1 s2 s3 : went l1 s1 s2 -> went l2 s2 s3 -> went (l1 ++ l2) s1 s3.
Proof. intros [H1 L1] [H2 L2]. split; [done|by eapply later_trans]. Qed.
Lemma went_nil s1 s2 s3 : went [] s1 s2 -> went [] s2 s3 -> went [] s1 s3.
Proof. apply (went_trans [] []). Qed.

Lemma later_sent w w' : later [] w w' -> sent w' = sent w.
Proof. intros [_ H]. by rewrite app_nil_r in H. Qed.
Lemma delivered_later w w' : delivered w -> later [] w w' -> delivered w'.
Proof.
  intros [rest Hr] Hl. pose proof (later_sent _ _ Hl) as Hs. destruct Hl as [[t Ht] _].
  exists (rest +:+ t). by rewrite Ht, Hs, Hr, str_app_assoc.
Qed.
Lemma holding_delivered text s : holding text s -> delivered (ts_w s).
Proof.
  intros (fd & b & _ & _ & _ & _ & [[rest Hc] _]). eexists. rewrite Hc, !str_app_assoc. done.
Qed.

(** Calls on the environment. *)
Lemma wp_on_w {A} (m : M W A) Q s :
  wp m (fun r w => Q r (mkTS (ts_tail s) w)) (ts_w s) -> wp (on_w m) Q s.
Proof. unfold wp, on_w. by destruct (m (ts_w s)). Qed.

Lemma holding_moved text s w' :
  holding text s -> later [] (ts_w s) w' ->
  (forall fd, t_file (ts_tail s) = Some fd -> position w' fd = position (ts_w s) fd) ->
  holding text (mkTS (ts_tail s) w').
Proof.
  intros (fd & b & Hf & Hb & Hfd & Hsz & Hst) Hl Hp. exists fd, b. split_and!; [done..|]. cbn.
  rewrite (later_sent _ _ Hl). eapply stands_later; [done..|]. by apply Hp.
Qed.

Lemma wp_total {A} (m : M W A) text s (Q : res A -> TS -> Prop) :
  total m -> is_reader (ts_tail s) ->
  (forall a s', went [] s s' -> ts_tail s' = ts_tail s -> (holding text s -> holding text s') -> Q (Ok a) s') ->
  wp (on_w m) Q s.
Proof.
  intros Hm Hr HQ. apply wp_on_w. eapply wp_mono; [apply Hm|]. intros [a|e|p] w' [Hok [Hl Hp]]; try done.
  apply HQ; [by split|done|]. intros Hh. by apply holding_moved.
Qed.

Lemma wp_quiet {A} (m : M W A) text s (Q : res A -> TS -> Prop) :
  quiet m -> is_reader (ts_tail s) ->
  (forall r s', no_panic r -> went [] s s' -> ts_tail s' = ts_tail s -> (holding text s -> holding text s') -> Q r s') ->
  wp (on_w m) Q s.
Proof.
  intros Hm Hr HQ. apply wp_on_w. eapply wp_mono; [apply Hm|]. intros r w' [Hok [Hl Hp]].
  apply HQ; [done|by split|done|]. intros Hh. by apply holding_moved.
Qed.

(** What the end of a turn answers: the follower is at the start of a line
    when it goes on. *)
Definition turn_end (s : TS) (r : res status) (s' : TS) : Prop :=
  went [] s s' /\ exists st, r = Ok st /\ forall o, st = Continue o -> at_line s'.

Lemma poll_dying_spec o s : is_reader (ts_tail s) -> at_line s -> wp (poll_dying o) (turn_end s) s.
Proof.
  intros Hr Hs. apply wp_bind. eapply (wp_total _ ""); [apply law_Dying|done|].
  intros [|] s1 Hw1 Ht1 Hh1; cbn [after].
  - apply wp_bind. eapply (wp_total _ ""); [apply law_Err|by rewrite Ht1|].
    intros e s2 Hw2 Ht2 Hh2. cbn [after].
    case_bool_decide; apply wp_ret; (split; [by eapply went_nil|]); (eexists; split; [done|]); [|done].
    intros o' _. by apply Hh2, Hh1.
  - apply wp_ret. split; [done|]. eexists. split; [done|]. intros _ _. by apply Hh1.
Qed.

Lemma kill_spec e s : is_reader (ts_tail s) -> wp (kill e) (turn_end s) s.
Proof.
  intros Hr. apply wp_bind. eapply (wp_total _ ""); [apply law_Kill|done|]. intros u s1 Hw _ _.
  apply wp_ret. split; [done|]. by eexists.
Qed.

Lemma Tell_spec s :
  is_reader (ts_tail s) -> at_line s ->
  wp Tell (fun r s' => went [] s s' /\ ts_tail s' = ts_tail s /\ at_line s' /\
    match r with Ok o => o = str_len (lines_text (sent (ts_w s'))) | Err _ => True | Panic _ => False end) s.
Proof.
  intros Hr Hs. pose proof Hs as (fd & b & Hf & Hb & Hfd & Hsz & Hst).
  unfold Tell. apply wp_bind. change (tail_get s) with (Ok (ts_tail s), s). unfold wp at 1. cbn [tail_get fst snd after].
  rewrite Hf. apply wp_bind. unfold seek. apply wp_bind. unfold wp at 1. cbn [tail_get fst snd after]. rewrite Hf.
  apply wp_on_w. eapply wp_mono; [apply law_Seek|]. intros [p|e|p] w' Hres; [| |done]; cbn [after].
  - destruct Hres as (Hl & Hcur & _). destruct (Hcur eq_refl eq_refl) as [-> Hpos]. rewrite Hb.
    assert (Hs' : at_line (mkTS (ts_tail s) w')).
    { apply holding_moved; [done..|]. intros fd' Hfd'. congruence. }
    apply wp_ret. split_and!; [by split|done|done|]. cbn. unfold Buffered, str_len. destruct Hst as [_ ->].
    rewrite (later_sent _ _ Hl), !length_str_app. cbn. lia.
  - destruct Hres as [Hl Hpos]. split_and!; [by split|done| |done]. apply holding_moved; [done..|]. intros; apply Hpos.
Qed.

Lemma readLine_spec fuel s :
  is_reader (ts_tail s) -> at_line s ->
  wp (readLine fuel) (fun r s' => went [] s s' /\
    match r with
    | Ok None => True
    | Ok (Some (line, None)) => lacks_lf line /\ holding (line +:+ LF) s'
    | Ok (Some (line, Some _)) => lacks_lf line /\ holding line s'
    | _ => False
    end) s.
Proof.
  intros Hr (fd & b & Hf & Hb & Hfd & Hsz & Hst). unfold readLine. apply wp_bind.
  unfold wp at 1. cbn [tail_get fst snd after]. rewrite Hb. apply wp_bind, wp_on_w.
  rewrite <- Hfd in Hst. eapply wp_mono; [by apply (ReadString_spec fuel b "" (lines_text (sent (ts_w s))))|].
  intros r w' [Hl Hans]. pose proof (later_sent _ _ Hl) as Hsent.
  destruct r as [[[[b' line] err]|]|e|p]; cbn [after read_answer] in *; try done.
  destruct Hans as (Hfd' & Hsz' & Hst' & Herr). rewrite <- Hsz' in Hsz.
  apply wp_bind. unfold wp at 1. cbn [tail_set fst snd after]. destruct err as [e|].
  - destruct Herr as [Hnil Hlack]. apply wp_ret. split; [done|]. split; [done|].
    exists fd, b'. cbn. rewrite Hsent, <- Hfd. by split_and!; [rewrite Hfd|..].
  - destruct Herr as (l & Hlack & ->). rewrite (TrimRightByte_line "010" l Hlack : TrimRightByte (l +:+ LF) "010" = l).
    apply wp_ret. split; [done|]. split; [done|].
    exists fd, b'. cbn. rewrite Hsent, <- Hfd. by split_and!; [rewrite Hfd|..].
Qed.

Lemma sendLine_spec line s :
  is_reader (ts_tail s) -> holding (line +:+ LF) s ->
  wp (sendLine line) (fun r s' => r = Ok true /\ at_line s' /\ exists t, went [mkLine line t None] s s') s.
Proof.
  intros Hr Hh. unfold sendLine. apply wp_bind. eapply (wp_total _ (line +:+ LF)); [apply law_Now|done|].
  intros now s1 Hw1 Ht1 Hh1. specialize (Hh1 Hh). cbn [after]. apply wp_bind. unfold wp at 1. cbn [tail_get fst snd after].
  rewrite Ht1. destruct Hr as [-> Hlim]. rewrite (bool_decide_eq_false_2 (0 < MaxLineSize reader_config)) by done.
  apply wp_bind, wp_ret. cbn [after forM].
  apply wp_bind, wp_bind, wp_on_w. eapply wp_mono; [apply law_send|].
  intros r w' (-> & Hl & Hp). cbn [after]. apply wp_ret. cbn [after]. rewrite Hlim. apply wp_ret.
  split; [done|]. split.
  - destruct Hh1 as (fd & b & Hf & Hb & Hfd & Hsz & Hst). exists fd, b. split_and!; [done..|]. cbn.
    eapply (stands_later _ _ _ _ w') in Hst; [|done..]. destruct Hl as [_ ->].
    rewrite lines_text_app. unfold lines_text at 2. cbn. rewrite str_app_nil_r, !str_app_assoc in *. exact Hst.
  - exists now. eapply (went_trans []); [done|]. split; [apply Hw1|exact Hl].
Qed.

(** Going back to the start of an unfinished line. *)
Lemma seekTo_spec line s :
  is_reader (ts_tail s) -> holding line s ->
  wp (seekTo (mkSeekInfo (str_len (lines_text (sent (ts_w s)))) SEEK_SET))
    (fun r s' => went [] s s' /\ match r with Ok _ => at_line s' | Err _ => True | Panic _ => False end) s.
Proof.
  intros Hr (fd & b & Hf & Hb & Hfd & Hsz & [[rest Hc] Hp]). unfold seekTo. cbn [Offset Whence].
  apply wp_bind, wp_attempt. unfold seek. apply wp_bind. unfold wp at 1. cbn [tail_get fst snd after]. rewrite Hf.
  apply wp_on_w. eapply wp_mono; [apply law_Seek|]. intros [p|e|p] w' Hres; [| |done]; cbn [attempted after].
  - destruct Hres as (Hl & _ & Hset). specialize (Hset eq_refl). apply wp_bind. unfold wp at 1. cbn [tail_get fst snd after ts_tail].
    rewrite Hb. unfold wp. cbn. split; [by split|]. exists fd, (mkBufio fd "" (b_size b)). cbn. rewrite Hf. cbn.
    split_and!; [done..|]. rewrite str_app_nil_r, (later_sent _ _ Hl). split; [|unfold str_len in Hset; lia].
    destruct Hl as [[t Ht] _]. eexists. rewrite Ht, Hc, !str_app_assoc. done.
  - by repeat split; destruct Hr, Hres as [[? ?] ?].
Qed.

(** What waiting for a change answers. *)
Definition woke (s : TS) (r : res (option unit)) (s' : TS) : Prop :=
  went [] s s' /\ match r with Ok o => o = Some tt /\ at_line s' | Err _ => True | Panic _ => False end.

Lemma await_change_spec fuel s : is_reader (ts_tail s) -> at_line s -> wp (await_change fuel) (woke s) s.
Proof.
  intros Hr Hs. apply wp_bind. unfold wp at 1. cbn [tail_get fst snd after].
  apply wp_bind, wp_on_w. eapply wp_mono; [apply law_select|].
  intros r w' [[Hl Hp] [-> | ->]]; cbn [after]; unfold wp; cbn; (split; [by split|]); [|done].
  split; [done|]. by apply holding_moved.
Qed.

(** The fields a change of [t_changes] does not touch. *)
Lemma set_changes_spec c s : is_reader (ts_tail s) -> at_line s ->
  let s' := mkTS (set_changes c (ts_tail s)) (ts_w s) in went [] s s' /\ at_line s'.
Proof. intros Hr Hs. split; [split; [done|apply later_refl]|exact Hs]. Qed.

Lemma waitForChanges_spec fuel s : is_reader (ts_tail s) -> at_line s -> wp (waitForChanges fuel) (woke s) s.
Proof.
  intros Hr Hs. unfold waitForChanges. apply wp_bind. unfold wp at 1. cbn [tail_get fst snd after].
  assert (Hwait : forall s1, went [] s s1 -> at_line s1 -> wp (await_change fuel) (woke s) s1).
  { intros s1 Hw Hs1. eapply wp_mono; [apply await_change_spec; [apply Hw|done]|].
    intros r s2 [Hw2 H]. split; [by eapply went_nil|done]. }
  apply wp_bind. destruct (t_changes (ts_tail s)); [apply wp_ret, Hwait; [by apply went_refl|done]|].
  apply wp_bind. pose proof Hs as (fd & b & Hf & Hb & Hfd & Hsz & Hst).
  unfold seek. apply wp_bind. unfold wp at 1. cbn [tail_get fst snd after]. rewrite Hf.
  apply wp_on_w. eapply wp_mono; [apply law_Seek|].
  intros [p|e|p] w1 Hres; [| |done]; cbn [after]; [|by repeat split; destruct Hr, Hres as [[? ?] ?]].
  destruct Hres as (Hl & Hcur & _). destruct (Hcur eq_refl eq_refl) as [_ Hpos].
  assert (Hs1 : at_line (mkTS (ts_tail s) w1)).
  { apply holding_moved; [done..|]. intros fd' Hfd'. congruence. }
  apply wp_bind, wp_attempt. eapply (wp_quiet _ ""); [apply law_ChangeEvents|done|].
  intros r s2 Hnp Hw2 Ht2 Hh2. specialize (Hh2 Hs1).
  assert (Hw : went [] s s2) by (eapply went_nil; [|done]; by split).
  destruct r as [u|e|q]; [| |done]; cbn [attempted after].
  - destruct (set_changes_spec true s2) as [Hw3 Hs3]; [apply Hw|done|].
    unfold wp at 1. cbn [tail_set fst snd after]. apply Hwait; [by eapply went_nil|done].
  - destruct (set_changes_spec false s2) as [Hw3 Hs3]; [apply Hw|done|].
    apply wp_bind. unfold wp at 1. cbn. split; [by eapply went_nil|done].
Qed.

(** The end of the file behind an unfinished line. *)
Lemma at_eof_spec fuel line s :
  is_reader (ts_tail s) -> holding line s ->
  wp (at_eof fuel (str_len (lines_text (sent (ts_w s)))) line) (turn_end s) s.
Proof.
  intros Hr Hh. unfold at_eof. apply wp_bind. unfold wp at 1. cbn [tail_get fst snd after].
  destruct Hr as [Hcfg Hlim]. rewrite Hcfg. cbn [negb Follow reader_config]. apply wp_bind.
  assert (Hgo : forall s1, went [] s s1 -> at_line s1 ->
    wp (w ← attempt (waitForChanges fuel);
        match w with
        | inr err => if bool_decide (err = ErrStop) then mret Returned else kill err
        | inl None => mret OutOfFuel
        | inl (Some _) => poll_dying (str_len (lines_text (sent (ts_w s))))
        end) (turn_end s) s1).
  { intros s1 Hw Hs1. apply wp_bind, wp_attempt. eapply wp_mono; [apply waitForChanges_spec; [apply Hw|done]|].
    intros r s2 [Hw2 Hr2]. assert (Hw' : went [] s s2) by by eapply went_nil.
    assert (Hend : forall m, wp m (turn_end s2) s2 -> wp m (turn_end s) s2).
    { intros m Hm. eapply wp_mono; [exact Hm|]. intros r' s3 [Hw3 H3]. split; [by eapply went_nil|done]. }
    destruct r as [o|e|q]; [| |done]; cbn [attempted after].
    - destruct Hr2 as [-> Hs2]. apply Hend, poll_dying_spec; [apply Hw2|done].
    - case_bool_decide; [|apply Hend, kill_spec, Hw2]. apply wp_ret. split; [done|]. by eexists. }
  destruct (nonempty line) eqn:Hne.
  - apply wp_attempt. eapply wp_mono; [by apply (seekTo_spec line)|].
    intros [u|e|q] s1 [Hw H1]; [| |done]; cbn [attempted after]; [by apply Hgo|].
    eapply wp_mono; [apply kill_spec, Hw|]. intros r s2 [Hw2 H2]. split; [by eapply went_nil|done].
  - apply wp_ret. cbn [after]. apply Hgo; [by apply went_refl|].
    unfold nonempty in Hne. apply negb_false_iff, bool_decide_eq_true in Hne. by subst.
Qed.

(** A turn, or several, from [s]. *)
Definition turn_done (s : TS) (r : res status) (s' : TS) : Prop :=
  exists ls, went ls s s' /\ delivered (ts_w s') /\ exists st, r = Ok st /\ forall o, st = Continue o -> at_line s'.

Lemma turn_end_done ls s s1 r s2 :
  went ls s s1 -> delivered (ts_w s1) -> turn_end s1 r s2 -> turn_done s r s2.
Proof.
  intros Hw Hd [Hw2 H2]. exists ls. split; [rewrite <- (app_nil_r ls); by eapply went_trans|].
  split; [|done]. eapply delivered_later; [done|apply Hw2].
Qed.

Lemma tail_turn_spec fuel o s :
  is_reader (ts_tail s) -> at_line s -> wp (tail_turn fuel o) (turn_done s) s.
Proof.
  intros Hr Hs. unfold tail_turn. apply wp_bind. unfold wp at 1. cbn [tail_get fst snd after].
  destruct (id Hr) as [-> _]. cbn [Pipe reader_config]. apply wp_bind, wp_attempt.
  eapply wp_mono; [by apply Tell_spec|].
  intros r s1 (Hw1 & Ht1 & Hs1 & Ho). pose proof (holding_delivered _ _ Hs1) as Hd1.
  assert (Hend : forall m, wp m (turn_end s1) s1 -> wp m (turn_done s) s1).
  { intros m Hm. eapply wp_mono; [exact Hm|]. intros ? ?. by apply (turn_end_done []). }
  destruct r as [o'|e|q]; [| |done]; cbn [attempted after]; [subst o'|by apply Hend, kill_spec, Hw1].
  apply wp_bind. eapply wp_mono; [apply readLine_spec; [apply Hw1|done]|].
  intros r s2 [Hw2 H2]. assert (Hw : went [] s s2) by by eapply went_nil.
  rewrite <- (later_sent (ts_w s1) (ts_w s2)) by apply Hw2.
  assert (Hd2 : delivered (ts_w s2)) by (eapply delivered_later; [done|apply Hw2]).
  destruct r as [[[line [e|]]|]|e|q]; try done; cbn [after].
  - destruct H2 as [_ Hh]. case_bool_decide; (eapply wp_mono; [|intros ? ?; by apply (turn_end_done [])]).
    + by apply at_eof_spec; [apply Hw2|].
    + by apply kill_spec, Hw2.
  - destruct H2 as [_ Hh]. apply wp_bind. eapply wp_mono; [by apply sendLine_spec; [apply Hw2|]|].
    intros r s3 (-> & Hs3 & t & Hw3). cbn [after]. eapply wp_mono; [by apply poll_dying_spec; [apply Hw3|]|].
    intros r s4 H4. eapply turn_end_done; [by eapply went_trans|by eapply holding_delivered|done].
  - apply wp_ret. exists []. split_and!; [done..|]. by eexists.
Qed.

Lemma tail_loop_spec fuel n o s :
  is_reader (ts_tail s) -> at_line s -> wp (tail_loop fuel n o) (turn_done s) s.
Proof.
  revert o s. induction n as [|n IH]; intros o s Hr Hs.
  - apply wp_ret. exists []. split; [by apply went_refl|]. split; [by eapply holding_delivered|]. by eexists.
  - cbn [tail_loop]. apply wp_bind. eapply wp_mono; [by apply tail_turn_spec|].
    intros r s1 (ls & Hw1 & Hd1 & st & -> & Hst). cbn [after].
    destruct st as [o'| |]; [|apply wp_ret; exists ls; split_and!; [done..|]; by eexists..].
    eapply wp_mono; [apply IH; [apply Hw1|by eapply Hst]|].
    intros r s2 (ls2 & Hw2 & Hd2 & H2). exists (ls ++ ls2). split; [by eapply went_trans|done].
Qed.

(** ** The goroutine from its start *)

Definition fresh_reader (filename : string) : Tail := mkTail filename reader_config None None None false.

(** It is what [tail.NewReader] gets from [TailFile]: the file is opened by
    the goroutine. *)
Lemma TailFile_reader name w : TailFile name reader_config w = (Ok (fresh_reader name), w).
Proof. reflexivity. Qed.

Lemma reopen_spec fuel name s :
  is_reader (ts_tail s) -> t_file (ts_tail s) = None -> t_Filename (ts_tail s) = name ->
  wp (reopen fuel) (fun r s' => went [] s s' /\ no_panic r /\
    (r = Ok (Some tt) -> exists fd, t_file (ts_tail s') = Some fd /\ position (ts_w s') fd = 0%nat)) s.
Proof.
  intros Hr Hf Hn. unfold reopen. apply wp_bind. unfold closeFile. apply wp_bind.
  unfold wp at 1. cbn [tail_get fst snd after]. rewrite Hf. apply wp_ret. cbn [after].
  revert s Hr Hf Hn. induction fuel as [|fuel IH]; intros s Hr Hf Hn; [apply wp_ret; by split_and!; [apply went_refl|..]|].
  cbn [reopen_loop]. apply wp_bind. unfold wp at 1. cbn [tail_get fst snd after]. apply wp_bind, wp_attempt, wp_on_w.
  eapply wp_mono; [apply law_Open|]. intros [fd|e|q] w1 H1; [| |done]; cbn [attempted after].
  - destruct H1 as [Hl Hp]. unfold wp. cbn. split; [by split|]. split; [done|]. intros _. by exists fd.
  - destruct H1 as [Hl _]. apply wp_bind. unfold wp at 1. cbn [tail_set fst snd after ts_tail ts_w].
    set (s1 := mkTS (set_file None (ts_tail s)) w1).
    assert (Hw1 : went [] s s1) by by split.
    destruct (IsNotExist e); [|unfold wp; cbn; by split_and!].
    apply wp_bind, wp_attempt. eapply (wp_quiet _ ""); [apply law_Block|apply Hw1|].
    intros r s2 Hnp Hw2 Ht2 _. assert (Hw : went [] s s2) by by eapply went_nil.
    destruct r as [u|e'|q]; [| |done]; cbn [attempted after].
    + eapply wp_mono; [apply IH; [apply Hw2|by rewrite Ht2|by rewrite Ht2]|].
      intros r s3 (Hw3 & H3). split; [by eapply went_nil|done].
    + destruct (errors_Is _ _); unfold wp; cbn; by split_and!.
Qed.

(** The reader of a freshly opened file is at the start of its first line. *)
Lemma openReader_spec s fd :
  is_reader (ts_tail s) -> t_file (ts_tail s) = Some fd -> position (ts_w s) fd = 0%nat -> sent (ts_w s) = [] ->
  wp openReader (fun r s' => r = Ok tt /\ went [] s s' /\ at_line s') s.
Proof.
  intros [Hcfg Hlim] Hf Hp Hs. unfold openReader. apply wp_bind. unfold wp at 1. cbn [tail_get fst snd after].
  rewrite Hf, Hcfg. unfold wp. cbn. split; [done|]. split; [split; [done|apply later_refl]|].
  exists fd, (NewReaderSize fd 4096). cbn [ts_tail ts_w set_reader t_file t_reader]. split_and!; [done..| |].
  - unfold NewReaderSize. cbn [b_size]. lia.
  - rewrite Hs. split; [by eexists|done].
Qed.

Lemma delivered_start w : sent w = [] -> delivered w.
Proof. intros Hs. exists (content w). by rewrite Hs. Qed.

(** Opening the file and the reader, before the first turn. *)
Lemma tail_body_start fuel n name w (Q : res status -> TS -> Prop) :
  let s := mkTS (fresh_reader name) w in
  sent w = [] ->
  (forall s2, went [] s s2 -> at_line s2 -> wp (tail_loop fuel n 0) Q s2) ->
  (forall s1, reopen fuel s = (Ok None, s1) -> went [] s s1 -> Q (Ok OutOfFuel) s1) ->
  (forall e s1 s2, reopen fuel s = (Err e, s1) -> went [] s s2 -> Q (Ok Returned) s2) ->
  wp (tail_body fuel n) Q s.
Proof.
  intros s Hs HQ Hnone Herr. unfold tail_body. apply wp_bind. unfold wp at 1. cbn [tail_get fst snd after].
  change (t_Config (ts_tail s)) with reader_config. cbn [MustExist Location reader_config].
  apply wp_bind, wp_bind, wp_attempt.
  eapply wp_mono; [apply wp_eqn, (reopen_spec fuel name s); done|].
  intros r s1 (Heq & Hw1 & Hnp & H1). destruct r as [[[]|]|e|q]; [| | |done]; cbn [attempted after].
  - destruct (H1 eq_refl) as (fd & Hf & Hp). apply wp_ret. cbn [after]. apply wp_bind, wp_ret. cbn [after].
    apply wp_bind. eapply wp_mono; [apply (openReader_spec s1 fd); [apply Hw1|done|done|]|].
    { rewrite (later_sent (ts_w s) (ts_w s1)); [done|apply Hw1]. }
    intros r s2 (-> & Hw2 & Hs2). cbn [after]. apply HQ; [by eapply went_nil|done].
  - apply wp_ret. cbn [after]. apply wp_ret. by apply Hnone.
  - apply wp_bind. unfold when. destruct (errors_Is e ErrDying); cbn [negb].
    + apply wp_ret. cbn [after]. apply wp_ret. cbn [after]. apply wp_ret. by eapply Herr.
    + eapply (wp_total _ ""); [apply law_Kill|apply Hw1|]. intros u s2 Hw2 _ _. cbn [after].
      apply wp_ret. cbn [after]. apply wp_ret. eapply Herr; [done|by eapply went_nil].
Qed.

Lemma close_spec s : is_reader (ts_tail s) ->
  wp close (fun r s' => r = Ok tt /\ went [] s s') s.
Proof.
  intros Hr. apply wp_bind. eapply (wp_total _ ""); [apply law_Lines_close|done|].
  intros u s1 Hw1 Ht1 _. cbn [after]. unfold closeFile. apply wp_bind. unfold wp at 1. cbn [tail_get fst snd after].
  destruct (t_file (ts_tail s1)) as [fd|]; [|by apply wp_ret; destruct u].
  apply wp_bind, wp_attempt. eapply (wp_quiet _ ""); [apply law_Close|apply Hw1|].
  intros r s2 Hnp Hw2 Ht2 _. assert (Hw : went [] s s2) by by eapply went_nil.
  destruct r as [u'|e|q]; [| |done]; unfold wp; cbn; (split; [done|]); split; apply Hw.
Qed.

(** However the file grows and whatever fails, the lines sent are the first
    lines of the file. *)
Lemma tailFileSync_spec fuel n name w :
  let s := mkTS (fresh_reader name) w in
  sent w = [] -> wp (tailFileSync fuel n) (turn_done s) s.
Proof.
  intros s Hs. unfold tailFileSync. apply wp_bind. pose proof (delivered_start w Hs) as Hd.
  assert (Hr : is_reader (ts_tail s)) by done.
  eapply (wp_mono _ (turn_done s)).
  - assert (Hend : forall st s2, went [] s s2 -> (forall o, st <> Continue o) -> turn_done s (Ok st) s2).
    { intros st s2 Hw2 Hst. exists []. split; [done|]. split; [by eapply (delivered_later w); [|apply Hw2]|].
      eexists. split; [done|]. intros o ->. by destruct (Hst o). }
    apply tail_body_start; [done| | |].
    + intros s2 Hw2 Hs2. eapply wp_mono; [apply tail_loop_spec; [apply Hw2|done]|].
      intros r s3 (ls & Hw3 & H3). exists ls. split; [exact (went_trans [] _ _ _ _ Hw2 Hw3)|done].
    + intros s1 _ Hw1. by apply Hend.
    + intros e s1 s2 _ Hw2. by apply Hend.
  - intros r s1 (ls & Hw1 & Hd1 & st & -> & Hst). cbn [after].
    destruct st as [o| |]; [apply wp_ret; exists ls; split_and!; [done..|]; by eexists| |apply wp_ret; exists ls; split_and!; [done..|]; by eexists].
    apply wp_bind. eapply wp_mono; [apply close_spec, Hw1|]. intros r s2 [-> Hw2]. cbn [after].
    apply wp_bind. eapply (wp_total _ ""); [apply law_Done|apply Hw2|]. intros u s3 Hw3 _ _.
    apply wp_ret. eapply (turn_end_done ls s s1); [done..|]. split; [by eapply went_nil|]. by eexists.
Qed.

(** ** Progress *)

Section progress.
(** Nothing fails: reads only end at the end of the file, seeks and the
    opening of the file succeed, and nobody stops the follower. *)
Hypothesis Read_ends : forall fd n w e w', file_Read fd n w = (Err e, w') -> e = EOF.
Hypothesis Seek_works : forall fd off whence w, is_ok (file_Seek fd off whence w).1 = true.
Hypothesis Open_works : forall name w, is_ok (file_Open name w).1 = true.
Hypothesis alive : forall w, (tomb_Dying w).1 = Ok false.

(** The next line of the file is [line]. *)
Definition next_line (line : string) (w : W) : Prop :=
  lacks_lf line /\ exists more, content w = lines_text (sent w) +:+ line +:+ LF +:+ more.

Lemma next_line_later line w w' : next_line line w -> later [] w w' -> next_line line w'.
Proof.
  intros [Hl [more Hm]] Hlat. split; [done|]. rewrite (later_sent _ _ Hlat). destruct Hlat as [[t Ht] _].
  exists (more +:+ t). by rewrite Ht, Hm, !str_app_assoc.
Qed.

Definition line_fuel (line : string) : nat := 2 * (String.length line + 1) + 2.

Lemma readLine_line fuel line s :
  is_reader (ts_tail s) -> at_line s -> next_line line (ts_w s) -> (line_fuel line <= fuel)%nat ->
  wp (readLine fuel) (fun r s' => r = Ok (Some (line, None)) /\ went [] s s' /\ holding (line +:+ LF) s') s.
Proof.
  intros Hr Hs [Hlack Hmore] Hf.
  assert (Hline : wp (readLine fuel) (fun r _ => r = Ok (Some (line, None))) s).
  { destruct Hs as (fd & b & Hfd & Hb & Hbfd & Hsz & Hst). unfold readLine. apply wp_bind.
    unfold wp at 1. cbn [tail_get fst snd after]. rewrite Hb. apply wp_bind, wp_on_w.
    rewrite <- Hbfd in Hst. eapply wp_mono.
    - apply (ReadString_line Read_ends fuel b "" (lines_text (sent (ts_w s))) line); [done..|].
      unfold line_fuel in Hf. destruct (b_size b <=? _)%nat; lia.
    - intros r w' [b' ->]. cbn [after]. apply wp_bind. unfold wp at 1. cbn [tail_set fst snd after].
      unfold wp. cbn. do 3 f_equal. exact (TrimRightByte_line "010" line Hlack). }
  apply wp_eqn in Hline. unfold wp in Hline. destruct (readLine fuel s) as [r s1] eqn:Heq. destruct Hline as [_ Hr1].
  cbn [fst] in Hr1. pose proof (readLine_spec fuel s Hr Hs) as Hsp. unfold wp in *. rewrite Heq in *. cbn [fst snd] in *.
  rewrite Hr1 in Hsp. split; [done|]. destruct Hsp as [Hw [_ Hh]]. by split.
Qed.

(** A turn with a whole line ahead sends it. *)
Lemma tail_turn_line fuel o line s :
  is_reader (ts_tail s) -> at_line s -> next_line line (ts_w s) -> (line_fuel line <= fuel)%nat ->
  wp (tail_turn fuel o) (fun r s' => (exists o', r = Ok (Continue o')) /\ at_line s' /\
    exists t, went [mkLine line t None] s s') s.
Proof.
  intros Hr Hs Hn Hf. unfold tail_turn. apply wp_bind. unfold wp at 1. cbn [tail_get fst snd after].
  destruct (id Hr) as [-> _]. cbn [Pipe reader_config]. apply wp_bind, wp_attempt.
  assert (Htell : is_ok (Tell s).1 = true).
  { destruct Hs as (fd & b & Hfd & Hb & _). unfold Tell, mbind, M_bind, tail_get, seek, on_w. cbn. rewrite Hfd. cbn.
    unfold mbind, M_bind, tail_get. rewrite Hfd. specialize (Seek_works fd 0 SEEK_CUR (ts_w s)).
    destruct (file_Seek fd 0 SEEK_CUR (ts_w s)) as [[p|e|q] w']; try done. cbn. by rewrite Hb. }
  eapply wp_mono; [apply wp_eqn, Tell_spec; done|]. intros r s1 (Heq & Hw1 & Ht1 & Hs1 & Ho). rewrite Heq in Htell.
  destruct r as [o'|e|q]; try done. cbn [attempted after]. apply wp_bind.
  eapply wp_mono; [apply (readLine_line fuel line); [apply Hw1|done| |done]|].
  { eapply next_line_later; [done|apply Hw1]. }
  intros r s2 (-> & Hw2 & Hh). cbn [after]. apply wp_bind.
  eapply wp_mono; [by apply sendLine_spec; [apply Hw2|]|]. intros r s3 (-> & Hs3 & t & Hw3). cbn [after].
  unfold poll_dying. apply wp_bind. eapply wp_mono.
  - apply wp_eqn. eapply (wp_total tomb_Dying "" s3 (fun r s' => went [] s3 s' /\ at_line s')); [apply law_Dying|apply Hw3|].
    intros a s4 Hw4 _ Hh4. split; [done|]. by apply Hh4.
  - intros r s4 (Heq4 & Hw4 & Hs4). specialize (alive (ts_w s3)). unfold on_w in Heq4.
    destruct (tomb_Dying (ts_w s3)) as [r4 w4]. cbn in alive. subst r4. injection Heq4 as <- _.
    cbn [after]. apply wp_ret. split; [by eexists|]. split; [done|]. exists t.
    exact (went_trans [] _ _ _ _ Hw1 (went_trans [] _ _ _ _ Hw2 (went_trans _ [] _ _ _ Hw3 Hw4))).
Qed.

(** Texts of whole lines. *)
Definition whole (ts : list string) : string := cat ((fun t => t +:+ LF) <$> ts).

Lemma tail_loop_lines fuel o ts s :
  is_reader (ts_tail s) -> at_line s -> Forall lacks_lf ts -> Forall (fun t => line_fuel t <= fuel)%nat ts ->
  (exists more, content (ts_w s) = lines_text (sent (ts_w s)) +:+ whole ts +:+ more) ->
  wp (tail_loop fuel (length ts) o) (fun r s' => (exists o', r = Ok (Continue o')) /\
    exists ls, l_Text <$> ls = ts /\ Forall (fun l => l_Err l = None) ls /\ went ls s s') s.
Proof.
  revert o s. induction ts as [|line ts IH]; intros o s Hr Hs Hl Hf [more Hmore].
  - apply wp_ret. split; [by eexists|]. exists []. split; [done|]. split; [done|]. by apply went_refl.
  - apply list.Forall_cons in Hl as [Hl Hls]. apply list.Forall_cons in Hf as [Hf Hfs]. cbn [length tail_loop]. apply wp_bind.
    unfold whole in Hmore. rewrite fmap_cons, cat_cons, !str_app_assoc in Hmore.
    eapply wp_mono; [apply (tail_turn_line fuel o line s); [done..| |done]|].
    { split; [done|]. by eexists. }
    intros r s1 ([o' ->] & Hs1 & t & Hw1). cbn [after]. eapply wp_mono; [apply IH; [apply Hw1|done..|]|].
    + destruct Hw1 as (_ & [t' Ht'] & Hsent). exists (more +:+ t').
      rewrite Hsent, lines_text_app, Ht', Hmore. unfold lines_text at 3. cbn.
      by rewrite str_app_nil_r, !str_app_assoc.
    + intros r s2 (Ho & ls & Hls' & He & Hw2). split; [done|]. exists (mkLine line t None :: ls).
      split; [by rewrite fmap_cons, Hls'|]. split; [by constructor|]. exact (went_trans [_] _ _ _ _ Hw1 Hw2).
Qed.

(** C28. Following a log makes progress: when a file holds the lines [ts] and
    whatever is appended to it meanwhile, and no system call fails, the
    follower has sent exactly these lines after as many turns, and goes on. *)
Theorem follow_delivers fuel name ts w :
  sent w = [] -> Forall lacks_lf ts -> Forall (fun t => line_fuel t <= fuel)%nat ts -> (0 < fuel)%nat ->
  (exists more, content w = whole ts +:+ more) ->
  exists o s', tailFileSync fuel (length ts) (mkTS (fresh_reader name) w) = (Ok (Continue o), s') /\
    l_Text <$> sent (ts_w s') = ts /\ Forall (fun l => l_Err l = None) (sent (ts_w s')).
Proof.
  intros Hs Hl Hf Hfuel [more Hmore].
  enough (Hwp : wp (tailFileSync fuel (length ts)) (fun r s' => (exists o, r = Ok (Continue o)) /\
    exists ls, l_Text <$> ls = ts /\ Forall (fun l => l_Err l = None) ls /\ went ls (mkTS (fresh_reader name) w) s')
    (mkTS (fresh_reader name) w)).
  { apply wp_eqn in Hwp. unfold wp in Hwp.
    destruct (tailFileSync _ _ _) as [r s']. destruct Hwp as (_ & [o Ho] & ls & Hls & He & Hw). cbn in Ho. subst r.
    exists o, s'. split; [done|]. destruct Hw as (_ & _ & Hsent). cbn [ts_w snd] in Hsent.
    by rewrite Hsent, Hs, app_nil_l. }
  assert (Hreopen : exists s1, reopen fuel (mkTS (fresh_reader name) w) = (Ok (Some tt), s1)).
  { destruct fuel as [|fuel]; [lia|]. specialize (Open_works name w).
    unfold reopen, closeFile, mbind, M_bind, tail_get. cbn. unfold mbind, M_bind, attempt, on_w. cbn.
    destruct (file_Open name w) as [[fd|e|q] w']; try done. by eexists. }
  destruct Hreopen as [s1 Hreopen]. unfold tailFileSync. apply wp_bind.
  apply tail_body_start; [done| | |].
  - intros s2 Hw2 Hs2. eapply wp_mono; [apply tail_loop_lines; [apply Hw2|done..|]|].
    + destruct Hw2 as (_ & [t Ht] & Hsent). cbn [ts_w] in Hsent, Ht. rewrite Hsent, Hs. exists (more +:+ t).
      by rewrite Ht, Hmore, !str_app_assoc.
    + intros r s3 ([o ->] & ls & Hls & He & Hw3). cbn [after]. apply wp_ret. split; [by eexists|].
      exists ls. split; [done|]. split; [done|]. exact (went_trans [] _ _ _ _ Hw2 Hw3).
  - intros s2 Heq _. rewrite Hreopen in Heq. discriminate Heq.
  - intros e s2 s3 Heq _. rewrite Hreopen in Heq. discriminate Heq.
Qed.
End progress.
End turns.

Module TailExamples.
(** A log other processes append to while the follower waits: reads deliver
    at most five bytes, each change appends the next text of [lw_future], and
    the follower is stopped when there is none left. *)
Record LogWorld := mkLogWorld {
  lw_content : string;
  lw_pos : nat -> nat;
  lw_sent : list Line;
  lw_future : list string;
}.

Definition move (fd p : nat) (w : LogWorld) : LogWorld :=
  mkLogWorld (lw_content w) (fun fd' => if (fd' =? fd)%nat then p else lw_pos w fd') (lw_sent w) (lw_future w).

Definition lw_read (fd n : nat) : M LogWorld string := fun w =>
  let d := str_take (Nat.min n 5) (str_drop (lw_pos w fd) (lw_content w)) in
  if nonempty d then (Ok d, move fd (lw_pos w fd + String.length d) w) else (Err EOF, w).

Definition lw_seek (fd : nat) (off whence : Z) : M LogWorld Z := fun w =>
  let p := off + (if bool_decide (whence = SEEK_SET) then 0
                  else if bool_decide (whence = SEEK_CUR) then Z.of_nat (lw_pos w fd)
                  else str_len (lw_content w)) in
  (Ok p, move fd (Z.to_nat p) w).

Definition lw_change : M LogWorld change := fun w =>
  match lw_future w with
  | [] => (Ok Dying, w)
  | t :: future => (Ok Modified, mkLogWorld (lw_content w +:+ t) (lw_pos w) (lw_sent w) future)
  end.

#[export] Instance log_os : TailOS LogWorld := {|
  file_Open _ := fun w => (Ok 3%nat, move 3 0 w);
  file_Read := lw_read;
  file_Seek := lw_seek;
  file_Close _ := mret tt;
  time_Now := mret zero_time;
  BlockUntilExists := mret tt;
  ChangeEvents _ := mret tt;
  select_changes := lw_change;
  Lines_send l := modify (fun w => mkLogWorld (lw_content w) (lw_pos w) (lw_sent w ++ [l]) (lw_future w));
  Lines_close := mret tt;
  tomb_Kill _ := mret tt;
  tomb_Dying := mret false;
  tomb_Err := mret None;
  tomb_Done := mret tt;
  tomb_Wait := mret None;
  after_second := mret true |}.

#[export] Instance log_view : FileView LogWorld :=
  {| content := lw_content; position := lw_pos; sent := lw_sent |}.

Lemma later_moved fd p w : later [] w (move fd p w).
Proof. split; [exists ""; by rewrite str_app_nil_r|cbn; by rewrite app_nil_r]. Qed.

Lemma total_ret {A} (a : A) : total (mret a : M LogWorld A).
Proof. intros w. apply wp_ret. by split. Qed.
Lemma quiet_ret {A} (a : A) : quiet (mret a : M LogWorld A).
Proof. intros w. apply wp_ret. by split. Qed.

#[export] Instance log_grows : GrowingFile LogWorld.
Proof.
  split; try (intros; apply total_ret); try (intros; apply quiet_ret); try apply total_ret; try apply quiet_ret.
  - intros fd n w Hn. unfold wp. cbn. unfold lw_read.
    set (rest := str_drop (lw_pos w fd) (lw_content w)).
    pose proof (length_str_drop (lw_pos w fd) (lw_content w)) as Hd. fold rest in Hd.
    destruct (nonempty (str_take (Nat.min n 5) rest)) eqn:Hne; cbn.
    + split; [apply later_moved|]. rewrite Nat.eqb_refl.
      pose proof (str_take_drop (Nat.min n 5) rest) as Htd.
      assert (Hlen : String.length (str_take (Nat.min n 5) rest) = Nat.min (Nat.min n 5) (String.length rest)).
      { destruct (Nat.le_gt_cases (String.length rest) (Nat.min n 5)) as [Hle|Hgt].
        - rewrite str_take_all by done. lia.
        - rewrite length_str_take by lia. lia. }
      assert (Hpos : (0 < String.length rest)%nat).
      { destruct rest; [by destruct (Nat.min n 5)|cbn; lia]. }
      split; [lia|]. split; [done|].
      exists (str_take (lw_pos w fd) (lw_content w)), (str_drop (Nat.min n 5) rest).
      rewrite Htd. split; [by rewrite str_take_drop|]. rewrite length_str_take; lia.
    + split; [reflexivity|]. intros _. unfold nonempty in Hne. apply negb_false_iff, bool_decide_eq_true in Hne.
      destruct rest as [|c rest]; [cbn in Hd; lia|]. destruct n as [|n]; [lia|]. discriminate Hne.
  - intros fd off whence w. unfold wp, log_os, lw_seek. cbn. split; [apply later_moved|]. rewrite Nat.eqb_refl.
    split; [intros -> ->|intros -> Hoff].
    + rewrite (bool_decide_eq_false_2 (SEEK_CUR = SEEK_SET)), (bool_decide_eq_true_2 (SEEK_CUR = SEEK_CUR)) by done. lia.
    + rewrite bool_decide_eq_true_2 by done. lia.
  - intros name w. unfold wp. cbn. split; [apply later_moved|done].
  - intros l w. unfold wp. cbn. split; [done|]. split; [|done]. split; [exists ""; by rewrite str_app_nil_r|done].
  - intros w. unfold wp, select_changes, log_os, lw_change. destruct (lw_future w) as [|t future]; cbn.
    + split; [reflexivity|by right].
    + split; [|by left]. split; [split; [by exists t|cbn; by rewrite app_nil_r]|done].
Qed.

Definition log_world : LogWorld :=
  mkLogWorld ("epoch 1" +:+ LF +:+ "epoch 2" +:+ LF +:+ "epo") (fun _ => 0%nat) []
    ["ch 3"; LF +:+ "done" +:+ LF].

(** A run to the end: the unfinished third line is sent once it is whole. *)
Example log_run :
  let '(r, s) := tailFileSync 100 20 (mkTS (fresh_reader "job.out") log_world) in
  r = Ok Returned /\ l_Text <$> lw_sent (ts_w s) = ["epoch 1"; "epoch 2"; "epoch 3"; "done"].
Proof. vm_compute. done. Qed.

Lemma follow_delivers_witness :
  exists o s', tailFileSync 30 2 (mkTS (fresh_reader "job.out") log_world) = (Ok (Continue o), s') /\
    l_Text <$> sent (ts_w s') = ["epoch 1"; "epoch 2"] /\ Forall (fun l => l_Err l = None) (sent (ts_w s')).
Proof.
  apply (follow_delivers (W := LogWorld)) with (ts := ["epoch 1"; "epoch 2"]).
  - intros fd n w e w'. cbn. unfold lw_read. destruct (nonempty _); congruence.
  - done.
  - done.
  - done.
  - done.
  - by repeat constructor.
  - repeat constructor; vm_compute; lia.
  - lia.
  - exists "epo". done.
Defined.
End TailExamples.
