(* ===== verification/TailStop.v ===== *)
(** * Stopping a follower (pkg/tail, [StopAtEOF])

    When the job behind a log has ended, the agent's handler closes its
    reader, which calls [StopAtEOF]: the follower is to read on to the end of
    the file and to end there. The theorem is that it does, within as many
    turns as the file has lines left and change notices are outstanding,
    whatever system calls fail, and that, if none fails, every whole line has
    been sent by then. An unfinished last line is not sent. *)

From S2P Require Import Prelude GoStrings GoTime RateLimit Tail.
#[local] Open Scope Z_scope.

(** ** The end of the log *)

(** The file has its final content and the follower has been told to stop;
    [pending] bounds the change notices that can still arrive. *)
Class Ending (W : Type) {OS : TailOS W} {FV : FileView W} := {
  final : string;
  stopped : W -> Prop;
  pending : W -> nat;
  stopped_content w : stopped w -> content w = final;
  stop_Kill w : content w = final -> stopped (tomb_Kill (Some errStopAtEOF) w).2;
  stop_Dying w : stopped w -> (tomb_Dying w).1 = Ok true;
  stop_Err w : stopped w -> (tomb_Err w).1 = Ok (Some errStopAtEOF);
  stop_select w : stopped w -> (select_changes w).1 = Ok Modified -> (pending (select_changes w).2 < pending w)%nat;
}.

(** No call undoes that; a call leaves as many notices as there were, at
    most. *)
Definition settled {W} {OS : TailOS W} {FV : FileView W} {EN : Ending W} (k : nat) (w : W) : Prop :=
  stopped w /\ (pending w <= k)%nat.

Class EndingLaws (W : Type) {OS : TailOS W} {FV : FileView W} {EN : Ending W} := {
  end_Open k name : keeps (settled k) (file_Open name);
  end_Read k fd n : keeps (settled k) (file_Read fd n);
  end_Seek k fd off whence : keeps (settled k) (file_Seek fd off whence);
  end_Close k fd : keeps (settled k) (file_Close fd);
  end_Now k : keeps (settled k) time_Now;
  end_Block k : keeps (settled k) BlockUntilExists;
  end_ChangeEvents k pos : keeps (settled k) (ChangeEvents pos);
  end_select k : keeps (settled k) select_changes;
  end_send k l : keeps (settled k) (Lines_send l);
  end_Dying k : keeps (settled k) tomb_Dying;
  end_Err k : keeps (settled k) tomb_Err;
}.
#[export] Hint Resolve end_Open end_Read end_Seek end_Close end_Now end_Block end_ChangeEvents end_select end_send end_Dying end_Err : go.

Section ending.
Context {W : Type} {OS : TailOS W} {FV : FileView W} {GF : GrowingFile W} {EN : Ending W} {EL : EndingLaws W}.

(** ** The calls of a turn leave the log settled *)

Definition rests (k : nat) (s : TS) : Prop := settled k (ts_w s).

Lemma rests_on_w {A} k (m : M W A) : keeps (settled k) m -> keeps (rests k) (on_w m).
Proof. intros Hm [t w] H. unfold on_w. specialize (Hm w H). cbn. by destruct (m w). Qed.
Lemma rests_get k : keeps (rests k) tail_get.
Proof. by intros s H. Qed.
Lemma rests_set k f : keeps (rests k) (tail_set f).
Proof. by intros s H. Qed.
Lemma rests_panic {A} k p : keeps (rests k) (panicM p : M TS A).
Proof. by intros s H. Qed.
Lemma rests_fail {A} k e : keeps (rests k) (fail e : M TS A).
Proof. by intros s H. Qed.
Hint Resolve rests_on_w rests_get rests_set rests_panic rests_fail : go.

#[local] Ltac settle :=
  repeat first
    [ apply keeps_bind; [|intros ?] | apply keeps_attempt | apply keeps_ret | apply keeps_lift | apply rests_get | apply rests_set
    | apply rests_fail | apply rests_panic | apply rests_on_w | apply keeps_forM; intros ?
    | progress auto with go | progress case_match ].

Lemma rests_ReadString k fuel b acc : keeps (settled k) (ReadString fuel b acc).
Proof. revert b acc. induction fuel as [|fuel IH]; intros b acc; cbn [ReadString]; settle; apply IH. Qed.
Lemma rests_seek k off whence : keeps (rests k) (seek off whence).
Proof. unfold seek. settle. Qed.
Hint Resolve rests_ReadString rests_seek : go.
Lemma rests_Tell k : keeps (rests k) Tell.
Proof. unfold Tell. settle. Qed.
Lemma rests_readLine k fuel : keeps (rests k) (readLine fuel).
Proof. unfold readLine. settle. Qed.
Lemma rests_seekTo k pos : keeps (rests k) (seekTo pos).
Proof. unfold seekTo. settle. Qed.
Lemma rests_sendLine k line : keeps (rests k) (sendLine line).
Proof. unfold sendLine. settle. Qed.
Hint Resolve rests_Tell rests_readLine rests_seekTo rests_sendLine : go.

(** A call from a settled state, with what it answers. *)
Lemma wp_rests {A} k (m : M TS A) Q s :
  keeps (rests k) m -> rests k s -> wp m Q s -> wp m (fun r s' => rests k s' /\ Q r s') s.
Proof. intros Hm Hs H. split; [by apply Hm|done]. Qed.

Lemma rests_content k s : rests k s -> content (ts_w s) = final.
Proof. intros [H _]. by apply stopped_content. Qed.

(** ** A turn *)

(** Fuel for any line of the file. *)
Definition end_fuel : nat := 2 * String.length final + 2.

(** Reads fail only at the end of the file, and seeks do not fail. *)
Record NoFailure : Prop := {
  Read_ends fd n w e w' : file_Read fd n w = (Err e, w') -> e = EOF;
  Seek_works fd off whence w : is_ok (file_Seek fd off whence w).1 = true;
}.

(** [ReadString] comes to an end, and at the end of the file it has read
    everything. *)
Lemma ReadString_ends fuel b acc base w k :
  settled k w -> stands (b_fd b) (base +:+ acc +:+ b_buf b) w -> (0 < b_size b)%nat ->
  (2 * (String.length final - String.length (base +:+ acc +:+ b_buf b)) +
    (if b_size b <=? String.length (b_buf b) then 1 else 0) < fuel)%nat ->
  wp (ReadString fuel b acc) (fun r _ => exists b' line err, r = Ok (Some (b', line, err)) /\
    (err = Some EOF -> final = base +:+ line) /\ forall e, err = Some e -> NoFailure -> e = EOF) w.
Proof.
  revert b acc w. induction fuel as [|fuel IH]; intros b acc w Hset Hs Hsz Hf; [lia|]. cbn [ReadString].
  destruct (split_once LF (b_buf b)) as [[line rest]|]; [apply wp_ret; do 3 eexists; by split_and!|].
  destruct (Nat.leb_spec (b_size b) (String.length (b_buf b))) as [Hfull|Hfull].
  - apply IH; [done| |done|]; cbn; rewrite str_app_nil_r; [done|].
    destruct (b_size b); [lia|]. cbn. lia.
  - apply wp_bind, wp_attempt. eapply wp_mono; [apply wp_eqn, Read_stands; [lia|done]|].
    intros [d|e|p] w' (Hcall & _ & Hr); [| |done]; cbn [attempted after].
    + assert (Hset' : settled k w') by (pose proof (end_Read k (b_fd b) (b_size b - String.length (b_buf b)) w Hset) as H; by rewrite Hcall in H).
      destruct Hr as [Hst Hd]. apply IH; [done| |done|]; cbn; rewrite ?str_app_assoc in *; [done|].
      destruct Hst as [[rest Hc] _]. rewrite (stopped_content w') in Hc by apply Hset'.
      apply (f_equal String.length) in Hc. destruct d as [|c d]; [done|].
      rewrite !length_str_app in *. cbn [String.length] in *. case_match; lia.
    + apply wp_ret. do 3 eexists. split; [done|]. split; [|intros ? [= <-] HN; by eapply (Read_ends HN)].
      intros [= ->]. destruct Hr as [_ Hr]. by rewrite <- (Hr eq_refl), (stopped_content w) by apply Hset.
Qed.

Lemma wp_and {A} (m : M (@TS W) A) P Q s : wp m P s -> wp m Q s -> wp m (fun r s' => P r s' /\ Q r s') s.
Proof. by split. Qed.

(** What [readLine] answers when the log has ended. *)
Lemma readLine_ends fuel k s :
  is_reader (ts_tail s) -> at_line s -> rests k s -> (end_fuel <= fuel)%nat ->
  wp (readLine fuel) (fun r s' => rests k s' /\ went [] s s' /\ exists line err, r = Ok (Some (line, err)) /\
    lacks_lf line /\ match err with
      | None => holding (line +:+ LF) s'
      | Some e => holding line s' /\ (e = EOF -> final = lines_text (sent (ts_w s)) +:+ line) /\ (NoFailure -> e = EOF)
      end) s.
Proof.
  intros Hr Hs Hset Hf. apply wp_rests; [auto with go|done|].
  assert (Hline : wp (readLine fuel) (fun r _ => exists line err, r = Ok (Some (line, err)) /\
    (err = Some EOF -> final = lines_text (sent (ts_w s)) +:+ line) /\ forall e, err = Some e -> NoFailure -> e = EOF) s).
  { destruct Hs as (fd & b & Hfd & Hb & Hbfd & Hsz & Hst). unfold readLine. apply wp_bind.
    unfold wp at 1. cbn [tail_get fst snd after]. rewrite Hb. apply wp_bind, wp_on_w. rewrite <- Hbfd in Hst.
    eapply wp_mono; [apply (ReadString_ends fuel b "" (lines_text (sent (ts_w s))) _ k); [done..|]|].
    - unfold end_fuel in Hf. destruct (b_size b <=? _)%nat; lia.
    - intros r w' (b' & line & err & -> & He & Hn). cbn [after]. apply wp_bind. unfold wp at 1. cbn [tail_set fst snd after].
      destruct err as [e|]; apply wp_ret; do 2 eexists; (split; [done|]); [done|by split; intros]. }
  eapply wp_mono; [apply wp_and; [exact Hline|by apply readLine_spec]|].
  intros r s' [(line & err & -> & He & Hn) [Hw H]]. split; [done|]. exists line, err. split; [done|].
  destruct err as [e|]; destruct H as [Hl Hh]; (split; [done|]); [|done]. split; [done|]. split; [|by apply Hn]. intros ->. by apply He.
Qed.

(** The follower goes on after [Dying]: the reason is [StopAtEOF]. *)
Lemma poll_dying_ends o k s :
  is_reader (ts_tail s) -> at_line s -> rests k s ->
  wp (poll_dying o) (fun r s' => rests k s' /\ r = Ok (Continue o) /\ went [] s s' /\ at_line s') s.
Proof.
  intros Hr Hs Hset. apply wp_rests; [unfold poll_dying; settle|done|]. destruct Hset as [Hst _].
  assert (Hgo : wp (poll_dying o) (fun r _ => r = Ok (Continue o)) s).
  { apply wp_bind, wp_on_w. pose proof (stop_Dying (ts_w s) Hst) as Hd.
    destruct (end_Dying (pending (ts_w s)) (ts_w s)) as [Hst' _]; [by split|]. unfold wp. rewrite Hd. cbn [after].
    apply wp_bind, wp_on_w. pose proof (stop_Err _ Hst') as He. unfold wp. cbn [ts_w]. rewrite He. cbn [after].
    by rewrite bool_decide_eq_true_2. }
  eapply wp_mono; [apply wp_and; [exact Hgo|by apply poll_dying_spec]|].
  intros r s' [-> [Hw (st & [= <-] & Hl)]]. split; [done|]. split; [done|]. by eapply Hl.
Qed.

(** At the end of the file the follower returns, or a notice that was
    outstanding makes it look once more. *)
Definition fewer (k : nat) (s : TS) : Prop := exists k', rests k' s /\ (k' < k)%nat.

Lemma await_change_ends fuel k s :
  rests k s -> wp (await_change fuel) (fun r s' => forall u, r = Ok u -> fewer k s') s.
Proof.
  intros [Hst Hk]. apply wp_bind. unfold wp at 1. cbn [tail_get fst snd after]. apply wp_bind, wp_on_w.
  pose proof (stop_select (ts_w s) Hst) as Hsel. destruct (end_select (pending (ts_w s)) (ts_w s)) as [Hst' _]; [by split|].
  eapply wp_mono; [apply wp_eqn, law_select|]. intros r w' [Hcall [_ [-> | ->]]]; cbn [after]; [|done].
  rewrite Hcall in Hsel, Hst'. unfold wp. cbn. intros u _. exists (pending w'). split; [by split|].
  specialize (Hsel eq_refl). cbn in Hsel. lia.
Qed.

Lemma wp_bind_rests {A B} k (m : M TS A) (f : A -> M TS B) Q s :
  keeps (rests k) m -> rests k s -> (forall a s1, rests k s1 -> wp (f a) (fun r s' => forall u : B, r = Ok u -> Q s') s1) ->
  wp (m ≫= f) (fun r s' => forall u, r = Ok u -> Q s') s.
Proof.
  intros Hm Hs Hf. apply wp_bind. specialize (Hm s Hs). unfold wp. destruct (m s) as [[a|e|p] s1]; cbn; [|done..].
  by apply Hf.
Qed.

Lemma waitForChanges_ends fuel k s :
  is_reader (ts_tail s) -> at_line s -> rests k s ->
  wp (waitForChanges fuel) (fun r s' => woke s r s' /\ forall u, r = Ok u -> fewer k s') s.
Proof.
  intros Hr Hs Hset. apply wp_and; [by apply waitForChanges_spec|]. unfold waitForChanges.
  apply (wp_bind_rests k); [settle|done|]. intros t s1 H1. apply (wp_bind_rests k); [settle|done|]. intros _ s2 H2.
  by apply await_change_ends.
Qed.

Definition eof_end (k : nat) (s : TS) (r : res status) (s' : TS) : Prop :=
  went [] s s' /\ (r = Ok Returned \/ (exists o, r = Ok (Continue o)) /\ at_line s' /\ fewer k s').

Lemma kill_ends e s s0 : went [] s0 s -> wp (kill e) (fun r s' => went [] s0 s' /\ r = Ok Returned) s.
Proof.
  intros Hw. apply wp_bind. eapply (wp_total _ ""); [apply law_Kill|apply Hw|]. intros u s1 Hw1 _ _.
  apply wp_ret. split; [by eapply went_nil|done].
Qed.

Lemma at_eof_ends fuel k line s :
  is_reader (ts_tail s) -> holding line s -> rests k s ->
  wp (at_eof fuel (str_len (lines_text (sent (ts_w s)))) line) (eof_end k s) s.
Proof.
  intros Hr Hh Hset. unfold at_eof. apply wp_bind. unfold wp at 1. cbn [tail_get fst snd after].
  rewrite (proj1 Hr). cbn [negb Follow reader_config]. apply wp_bind.
  assert (Hkill : forall e s1, went [] s s1 -> wp (kill e) (eof_end k s) s1).
  { intros e s1 Hw. eapply wp_mono; [by apply kill_ends|]. intros r s2 [Hw2 ->]. split; [done|by left]. }
  assert (Hgo : forall s1, went [] s s1 -> at_line s1 -> rests k s1 ->
    wp (w ← attempt (waitForChanges fuel);
        match w with
        | inr err => if bool_decide (err = ErrStop) then mret Returned else kill err
        | inl None => mret OutOfFuel
        | inl (Some _) => poll_dying (str_len (lines_text (sent (ts_w s))))
        end) (eof_end k s) s1).
  { intros s1 Hw Hs1 Hk. apply wp_bind, wp_attempt. eapply wp_mono; [by apply waitForChanges_ends; [apply Hw|..]|].
    intros r s2 [[Hw2 Hr2] Hf]. assert (Hw' : went [] s s2) by by eapply went_nil.
    destruct r as [o|e|q]; [| |done]; cbn [attempted after].
    - destruct Hr2 as [-> Hs2]. destruct (Hf _ eq_refl) as (k' & Hk' & Hlt).
      eapply wp_mono; [by apply (poll_dying_ends _ k'); [apply Hw'|..]|].
      intros r s3 (Hk3 & -> & Hw3 & Hs3). split; [by eapply went_nil|]. right. split_and!; [by eexists|done|by exists k'].
    - case_bool_decide; [|by apply Hkill]. apply wp_ret. split; [done|by left]. }
  destruct (nonempty line) eqn:Hne.
  - apply wp_attempt. eapply wp_mono; [apply (wp_rests k); [apply rests_seekTo|done|by apply (seekTo_spec line)]|].
    intros [u|e|q] s1 (Hk1 & Hw & H1); [| |done]; cbn [attempted after]; [by apply Hgo|by apply Hkill].
  - apply wp_ret. cbn [after]. apply Hgo; [by apply went_refl| |done].
    unfold nonempty in Hne. apply negb_false_iff, bool_decide_eq_true in Hne. by subst.
Qed.

(** A turn sends a line, uses up a notice, or is the last; then everything
    but an unfinished line has been sent, unless a call failed. *)
Definition sends_line (k : nat) (s : TS) (r : res status) (s' : TS) : Prop :=
  (exists o, r = Ok (Continue o)) /\ at_line s' /\ rests k s' /\ exists line t, lacks_lf line /\ went [mkLine line t None] s s'.
Definition last_turn (s : TS) (r : res status) (s' : TS) : Prop :=
  went [] s s' /\ r = Ok Returned /\ (NoFailure -> exists line, lacks_lf line /\ final = lines_text (sent (ts_w s)) +:+ line).
Definition looks_again (k : nat) (s : TS) (r : res status) (s' : TS) : Prop :=
  went [] s s' /\ (exists o, r = Ok (Continue o)) /\ at_line s' /\ fewer k s'.
Definition turn_outcome (k : nat) (s : TS) (r : res status) (s' : TS) : Prop :=
  sends_line k s r s' \/ looks_again k s r s' \/ last_turn s r s'.

Lemma Tell_works s : NoFailure -> at_line s -> is_ok (Tell s).1 = true.
Proof.
  intros HN (fd & b & Hfd & Hb & _). unfold Tell, mbind, M_bind, tail_get, seek, on_w. cbn. rewrite Hfd. cbn.
  unfold mbind, M_bind, tail_get. rewrite Hfd. pose proof (Seek_works HN fd 0 SEEK_CUR (ts_w s)) as H.
  destruct (file_Seek fd 0 SEEK_CUR (ts_w s)) as [[p|e|q] w']; try done. cbn. by rewrite Hb.
Qed.

Lemma tail_turn_ends fuel o k s :
  is_reader (ts_tail s) -> at_line s -> rests k s -> (end_fuel <= fuel)%nat ->
  wp (tail_turn fuel o) (turn_outcome k s) s.
Proof.
  intros Hr Hs Hset Hf. unfold tail_turn. apply wp_bind. unfold wp at 1. cbn [tail_get fst snd after].
  rewrite (proj1 Hr). cbn [Pipe reader_config]. apply wp_bind, wp_attempt.
  assert (Hkill : forall e s1, went [] s s1 -> ~ NoFailure -> wp (kill e) (turn_outcome k s) s1).
  { intros e s1 Hw Hn. eapply wp_mono; [by apply kill_ends|]. intros r s2 [Hw2 ->]. right. right. by split_and!. }
  eapply wp_mono; [apply (wp_rests k); [apply rests_Tell|done|by apply wp_eqn, Tell_spec]|].
  intros r s1 (Hk1 & Heq & Hw1 & Ht1 & Hs1 & Ho). destruct r as [o'|e|q]; [| |done]; cbn [attempted after].
  2: { apply Hkill; [done|]. intros HN. pose proof (Tell_works s HN Hs) as H. by rewrite Heq in H. }
  subst o'. apply wp_bind. eapply wp_mono; [by apply (readLine_ends fuel k); [apply Hw1|..]|].
  intros r s2 (Hk2 & Hw2 & line & err & -> & Hlack & H2). assert (Hw : went [] s s2) by by eapply went_nil.
  pose proof (later_sent _ _ (proj2 Hw1)) as Hsent1. pose proof (later_sent _ _ (proj2 Hw2)) as Hsent2. cbn [after].
  destruct err as [e|].
  - destruct H2 as (Hh & He & Hn). case_bool_decide as Heof; [|by apply Hkill; [|intros HN; apply Heof, Hn]].
    rewrite <- Hsent2. eapply wp_mono; [by apply (at_eof_ends fuel k); [apply Hw2|..]|].
    intros r s3 [Hw3 [-> |(Ho & Hs3 & Hf3)]]; right; [right|left]; (split; [by eapply went_nil|]); [|done].
    split; [done|]. intros _. exists line. split; [done|]. rewrite <- Hsent1. by apply He.
  - apply wp_bind. eapply wp_mono; [apply (wp_rests k); [apply rests_sendLine|done|by apply sendLine_spec; [apply Hw2|]]|].
    intros r s3 (Hk3 & -> & Hs3 & t & Hw3). cbn [after]. eapply wp_mono; [by apply (poll_dying_ends _ k); [apply Hw3|..]|].
    intros r s4 (Hk4 & -> & Hw4 & Hs4). left. split; [by eexists|]. split_and!; [done..|]. exists line, t. split; [done|].
    exact (went_trans [] _ _ _ _ Hw (went_trans _ [] _ _ _ Hw3 Hw4)).
Qed.

(** ** The end *)

(** The lines the file still holds. *)
Definition ahead (ts : list string) (rest : string) (s : @TS W) : Prop :=
  Forall lacks_lf ts /\ lacks_lf rest /\ final = lines_text (sent (ts_w s)) +:+ whole ts +:+ rest.

Lemma whole_cons t ts : whole (t :: ts) = t +:+ LF +:+ whole ts.
Proof. unfold whole. by rewrite fmap_cons, cat_cons, str_app_assoc. Qed.

(** A line of the file that is sent is the first of them. *)
Lemma ahead_sent ts rest line t s s' k :
  ahead ts rest s -> lacks_lf line -> went [mkLine line t None] s s' -> at_line s' -> rests k s' ->
  exists ts', ts = line :: ts' /\ ahead ts' rest s'.
Proof.
  intros (Hts & Hrest & Hfin) Hl [_ [_ Hsent]] Hs' Hk'.
  destruct (holding_delivered _ _ Hs') as [more Hmore]. rewrite (rests_content k s' Hk'), Hsent, lines_text_app, str_app_assoc in Hmore.
  pose proof Hmore as Hcut. rewrite Hfin in Hcut. apply str_app_inj in Hcut as [_ Hcut]; [|done].
  unfold lines_text in Hcut. cbn in Hcut. rewrite str_app_nil_r, str_app_assoc in Hcut.
  destruct ts as [|l0 ts].
  - exfalso. cbn in Hcut. pose proof (lacks_lf_within rest "" line more Hrest) as H. rewrite str_app_nil_r in H.
    specialize (H Hcut). apply (f_equal String.length) in Hcut. rewrite !length_str_app in Hcut. cbn in Hcut. lia.
  - apply list.Forall_cons in Hts as [Hl0 Hts]. rewrite whole_cons, !str_app_assoc in Hcut.
    apply lacks_lf_cut in Hcut as [-> Hcut]; [|done..]. exists ts. split; [done|]. split; [done|]. split; [done|].
    rewrite Hfin, Hsent, whole_cons, lines_text_app. unfold lines_text at 3. cbn. by rewrite str_app_nil_r, !str_app_assoc.
Qed.

Lemma tail_loop_ends fuel m k o ts rest s :
  is_reader (ts_tail s) -> at_line s -> rests k s -> ahead ts rest s -> (end_fuel <= fuel)%nat -> (length ts + k < m)%nat ->
  wp (tail_loop fuel m o) (fun r s' => r = Ok Returned /\ exists ls more,
    went ls s s' /\ ts = (l_Text <$> ls) ++ more /\ (NoFailure -> more = [])) s.
Proof.
  revert k o ts s. induction m as [|m IH]; intros k o ts s Hr Hs Hk Hts Hf Hm; [lia|]. cbn [tail_loop].
  apply wp_bind. eapply wp_mono; [by apply (tail_turn_ends fuel o k)|].
  intros r s1 [([o' ->] & Hs1 & Hk1 & line & t & Hl & Hw1)|[(Hw1 & [o' ->] & Hs1 & k' & Hk1 & Hlt)|(Hw1 & -> & Hend)]]; cbn [after].
  - destruct (ahead_sent _ _ _ _ _ _ _ Hts Hl Hw1 Hs1 Hk1) as (ts' & -> & Hts'). cbn in Hm.
    eapply wp_mono; [apply (IH k o' ts'); [apply Hw1|done..|lia]|]. intros r s2 (-> & ls & more & Hw2 & -> & Hmore).
    split; [done|]. exists (mkLine line t None :: ls), more. split; [|done]. exact (went_trans [_] _ _ _ _ Hw1 Hw2).
  - assert (Hts1 : ahead ts rest s1) by (unfold ahead in *; by rewrite (later_sent _ _ (proj2 Hw1))).
    eapply wp_mono; [apply (IH k' o' ts); [apply Hw1|done..|lia]|]. intros r s2 (-> & ls & more & Hw2 & -> & Hmore).
    split; [done|]. exists ls, more. split; [|done]. exact (went_trans [] _ _ _ _ Hw1 Hw2).
  - apply wp_ret. split; [done|]. exists [], ts. split; [done|]. split; [done|]. intros HN.
    destruct (Hend HN) as (line & Hl & Hfin). destruct Hts as (Hts & Hrest & Hfin'). rewrite Hfin' in Hfin.
    apply str_app_inj in Hfin as [_ Hfin]; [|done]. destruct ts as [|l0 ts]; [done|]. exfalso.
    rewrite whole_cons, !str_app_assoc in Hfin. pose proof (lacks_lf_within line "" l0 (whole ts +:+ rest) Hl) as H.
    rewrite str_app_nil_r in H. specialize (H (eq_sym Hfin)). apply (f_equal String.length) in Hfin.
    rewrite !length_str_app in Hfin. cbn in Hfin. lia.
Qed.

(** C31. [StopAtEOF] ends a follower. Once the log has its final content, a
    follower that is running when it is told to stop returns, after at most
    as many turns as there are whole lines left and change notices
    outstanding and one more, whatever calls fail; it sends lines from those
    left, in order, and all of them if no read or seek fails. An unfinished
    last line is never sent. *)
Theorem stopped_follower_ends fuel n name w o s1 w1 ts rest m :
  sent w = [] -> tailFileSync fuel n (mkTS (fresh_reader name) w) = (Ok (Continue o), s1) ->
  idle (ts_w s1) w1 -> content w1 = final ->
  Forall lacks_lf ts -> lacks_lf rest -> final = lines_text (sent w1) +:+ whole ts +:+ rest ->
  let w2 := (tomb_Kill (Some errStopAtEOF) w1).2 in
  (end_fuel <= fuel)%nat -> (length ts + pending w2 < m)%nat ->
  exists s3 ls more, tail_loop fuel m o (mkTS (ts_tail s1) w2) = (Ok Returned, s3) /\
    sent (ts_w s3) = sent w1 ++ ls /\ ts = (l_Text <$> ls) ++ more /\ (NoFailure -> more = []).
Proof.
  intros H0 Hrun Hi1 Hc1 Hts Hrest Hfin w2 Hf Hm.
  pose proof (tailFileSync_spec fuel n name w H0) as Hsp. unfold wp in Hsp. rewrite Hrun in Hsp.
  destruct Hsp as (ls0 & [Hr _] & _ & st & [= <-] & Hl). specialize (Hl o eq_refl).
  assert (Hi2 : idle w1 w2) by apply (law_Kill (Some errStopAtEOF) w1).
  assert (Hi : idle (ts_w s1) w2) by by etrans. destruct Hi as [Hl2 Hp2].
  assert (Hl' : at_line (mkTS (ts_tail s1) w2)) by by apply holding_moved.
  assert (Hk : rests (pending w2) (mkTS (ts_tail s1) w2)) by (split; [by apply stop_Kill|done]).
  assert (Ha : ahead ts rest (mkTS (ts_tail s1) w2)) by (split_and!; [done..|]; cbn; by rewrite (later_sent _ _ (proj1 Hi2))).
  pose proof (tail_loop_ends fuel m _ o ts rest (mkTS (ts_tail s1) w2) Hr Hl' Hk Ha Hf Hm) as H. unfold wp in H.
  destruct (tail_loop fuel m o _) as [r s3]. destruct H as (Hr3 & ls & more & [_ [_ Hsent]] & Hsplit & Hall). cbn in Hr3, Hsent. subst r.
  exists s3, ls, more. split_and!; [done| |done..]. by rewrite Hsent, (later_sent _ _ (proj1 Hi2)).
Qed.
End ending.

Module StopExamples.
Import TailExamples.

(** The log of [TailExamples] with a tomb: once it is told to stop, waiting
    ends at once. *)
Definition TombWorld : Type := LogWorld * bool.
Definition on_log {A} (m : M LogWorld A) : M TombWorld A := fun w => let '(r, l) := m w.1 in (r, (l, w.2)).

#[local] Instance tomb_os : TailOS TombWorld := {|
  file_Open name := on_log (file_Open name);
  file_Read fd n := on_log (file_Read fd n);
  file_Seek fd off whence := on_log (file_Seek fd off whence);
  file_Close fd := on_log (file_Close fd);
  time_Now := on_log time_Now;
  BlockUntilExists := on_log BlockUntilExists;
  ChangeEvents pos := on_log (ChangeEvents pos);
  select_changes := fun w => if w.2 then (Ok Dying, w) else on_log select_changes w;
  Lines_send l := on_log (Lines_send l);
  Lines_close := on_log Lines_close;
  tomb_Kill _ := fun w => (Ok tt, (w.1, true));
  tomb_Dying := fun w => (Ok w.2, w);
  tomb_Err := fun w => (Ok (if w.2 then Some errStopAtEOF else None), w);
  tomb_Done := mret tt;
  tomb_Wait := mret None;
  after_second := mret true |}.
#[local] Instance tomb_view : FileView TombWorld :=
  {| content w := lw_content w.1; position w := lw_pos w.1; sent w := lw_sent w.1 |}.

Lemma wp_on_log {A} (m : M LogWorld A) Q w : wp m (fun r l => Q r (l, w.2)) w.1 -> wp (on_log m) Q w.
Proof. unfold wp, on_log. by destruct (m w.1). Qed.

#[local] Ltac through law := apply wp_on_log; eapply wp_mono; [apply law|intros [?|?|?] ? H; exact H].

#[local] Instance tomb_grows : GrowingFile TombWorld.
Proof.
  split.
  - intros fd n w Hn. through (law_Read fd n w.1 Hn).
  - intros fd off whence w. through (law_Seek fd off whence w.1).
  - intros name w. through (law_Open name w.1).
  - intros l w. through (law_send l w.1).
  - intros w. through (law_Now w.1).
  - intros w. by split.
  - intros w. by split.
  - intros e w. split; [done|]. split; [by split; [exists ""; cbn; rewrite str_app_nil_r|cbn; rewrite app_nil_r]|done].
  - intros w. by split.
  - intros w. through (law_Lines_close w.1).
  - intros fd w. through (law_Close fd w.1).
  - intros w. through (law_Block w.1).
  - intros pos w. through (law_ChangeEvents pos w.1).
  - intros [w []]; [unfold wp; cbn; split; [done|by right]|].
    pose proof (law_select w) as H. unfold wp in *. cbn in *. unfold on_log. cbn. destruct (lw_change w) as [r l]. exact H.
Qed.

Definition whole_log : string := "epoch 1" +:+ LF +:+ "epoch 2" +:+ LF +:+ "epo".
#[local] Instance log_ending : Ending TombWorld.
Proof.
  refine {| final := whole_log; stopped w := content w = whole_log /\ w.2 = true; pending _ := O |}.
  - by intros w [H _].
  - by intros w H.
  - by intros w [_ H]; cbn; rewrite H.
  - by intros w [_ H]; cbn; rewrite H.
  - by intros w [_ H]; cbn; rewrite H.
Defined.

Lemma log_settled {A} k (m : M LogWorld A) :
  (forall w, lw_content (m w).2 = lw_content w) -> keeps (settled k) (on_log m).
Proof.
  intros Hm w [[Hc Hd] Hk]. unfold on_log. specialize (Hm w.1). destruct (m w.1) as [r l]. cbn in *.
  split; [split; [exact (eq_trans Hm Hc)|done]|done].
Qed.

#[local] Instance log_ending_laws : EndingLaws TombWorld.
Proof.
  split; intros; try (by apply log_settled); try (by intros w H).
  - apply log_settled. intros w. cbn. unfold lw_read. by destruct (nonempty _).
  - intros w [[Hc Hd] Hk]. cbn. by rewrite Hd.
Qed.

(** The follower has sent one line when it is told to stop. *)
Lemma stopped_follower_ends_witness : exists o s1 s3 ls more,
  tailFileSync 50 1 (mkTS (fresh_reader "job.out") (mkLogWorld whole_log (fun _ => 0%nat) [] [], false)) = (Ok (Continue o), s1) /\
  let w2 := (tomb_Kill (Some errStopAtEOF) (ts_w s1)).2 in
  tail_loop 50 2 o (mkTS (ts_tail s1) w2) = (Ok Returned, s3) /\
  sent (ts_w s3) = sent (ts_w s1) ++ ls /\ ["epoch 2"] = (l_Text <$> ls) ++ more /\ (NoFailure -> more = []).
Proof.
  destruct (tailFileSync 50 1 (mkTS (fresh_reader "job.out") (mkLogWorld whole_log (fun _ => 0%nat) [] [], false))) as [r s1] eqn:E.
  assert (Hr : r = Ok (Continue 0)) by (vm_compute in E; congruence). subst r.
  destruct (stopped_follower_ends 50 1 "job.out" (mkLogWorld whole_log (fun _ => 0%nat) [] [], false) 0 s1 (ts_w s1) ["epoch 2"] "epo" 2
    ltac:(done) E) as (s3 & ls & more & H).
  - reflexivity.
  - vm_compute in E. injection E as <-. reflexivity.
  - by repeat constructor.
  - done.
  - vm_compute in E. injection E as <-. reflexivity.
  - vm_compute. lia.
  - vm_compute. lia.
  - by exists 0, s1, s3, ls, more.
Defined.
End StopExamples.
