(* ===== verification/TailReader.v ===== *)
(** * The log reader of the agent (pkg/common/tail/reader.go)

    [Reader] collects the lines of a follower in a buffer from which the
    agent's [TailFile] handler reads. Two goroutines share it: [readTail]
    appends the lines it receives, and the handler calls [Read], which takes
    the bytes under the mutex and looks at [isClosed] after releasing it.
    The theorems compose the follower, the reader and the handler: what the
    client receives is a prefix of the log, in every interleaving; and one
    interleaving ends the stream with the last lines still in the buffer. *)

From S2P Require Import Prelude GoStrings GoTime Tail Workload AgentServer.
#[local] Open Scope Z_scope.

Definition ErrUnexpectedEOF : error := ErrSentinel "unexpected EOF".

(** [buff] holds the bytes not yet read. *)
Record Reader := mkReader { rd_buff : string; rd_isClosed : bool }.

Definition NewReader : Reader := mkReader "" false.

(** [io.ReadFull] of [n] bytes from a buffer: the bytes, the error, the rest. *)
Definition ReadFull (n : nat) (buff : string) : (string * option error) * string :=
  if (n <=? String.length buff)%nat then ((str_take n buff, None), str_drop n buff)
  else ((buff, Some (if nonempty buff then ErrUnexpectedEOF else EOF)), "").

(** The end of [Read]: before the reader is closed the end of the buffer is
    not an error. *)
Definition finish_read (closed : bool) (c : string * option error) : string * option error :=
  match c.2 with
  | Some e =>
      if (bool_decide (e = EOF) || bool_decide (e = ErrUnexpectedEOF)) && negb closed then (c.1, None) else c
  | None => c
  end.

(** [Read] when nothing interleaves. *)
Definition Reader_Read (n : nat) (r : Reader) : (string * option error) * Reader :=
  let '(c, rest) := ReadFull n (rd_buff r) in
  (finish_read (rd_isClosed r) c, mkReader rest (rd_isClosed r)).

(** One turn of [readTail] for what it receives from the channel, [None]
    when the channel is closed; the answer tells whether it goes on. *)
Definition readTail_turn (m : option Line) (r : Reader) : bool * Reader :=
  match m with
  | None => (false, mkReader (rd_buff r) true)
  | Some l =>
      match l_Err l with
      | Some _ => (false, mkReader (rd_buff r) true)
      | None => (true, mkReader (rd_buff r +:+ l_Text l +:+ LF) (rd_isClosed r))
      end
  end.

(** ** The two goroutines *)

(** [rs_lines] is what the channel still delivers before it is closed,
    [rs_call] a [Read] that has released the mutex, [rs_out] the answers of
    the calls so far. *)
Record rstate := mkRState {
  rs_reader : Reader;
  rs_lines : list Line;
  rs_running : bool;
  rs_call : option (string * option error);
  rs_out : list (string * option error);
}.

Definition rstart (lines : list Line) : rstate := mkRState NewReader lines true None [].

Inductive rstep : rstate -> rstate -> Prop :=
  | step_recv r ls c out :
      let m := head ls in
      rstep (mkRState r ls true c out)
        (mkRState (readTail_turn m r).2 (tail ls) (readTail_turn m r).1 c out)
  | step_copy n r ls run out :
      rstep (mkRState r ls run None out)
        (mkRState (mkReader (ReadFull n (rd_buff r)).2 (rd_isClosed r)) ls run (Some (ReadFull n (rd_buff r)).1) out)
  | step_return r ls run c out :
      rstep (mkRState r ls run (Some c) out)
        (mkRState r ls run None (out ++ [finish_read (rd_isClosed r) c])).

(** A [Read] that is not interrupted is the two steps of the call. *)
Lemma Reader_Read_steps n r ls run out :
  rtc rstep (mkRState r ls run None out)
    (mkRState (Reader_Read n r).2 ls run None (out ++ [(Reader_Read n r).1])).
Proof.
  eapply rtc_l; [apply (step_copy n)|]. eapply rtc_l; [apply step_return|].
  unfold Reader_Read. destruct (ReadFull n (rd_buff r)). apply rtc_refl.
Qed.

(** ** Nothing is lost between the channel and the answers *)

Definition out_bytes (out : list (string * option error)) : string := cat out.*1.

(** The bytes of the lines before the first error. *)
Fixpoint good_text (ls : list Line) : string :=
  match ls with
  | [] => ""
  | l :: ls' => match l_Err l with Some _ => "" | None => l_Text l +:+ LF +:+ good_text ls' end
  end.

Lemma good_text_lines ls : Forall (fun l => l_Err l = None) ls -> good_text ls = lines_text ls.
Proof.
  induction 1 as [|l ls Hl _ IH]; [done|]. cbn [good_text]. rewrite Hl, IH. unfold lines_text.
  by rewrite fmap_cons, cat_cons, str_app_assoc.
Qed.

Lemma good_text_prefix ls : exists rest, lines_text ls = good_text ls +:+ rest.
Proof.
  induction ls as [|l ls [rest IH]]; [by exists ""|]. unfold lines_text in *. rewrite fmap_cons, cat_cons, IH.
  cbn [good_text]. destruct (l_Err l); [by eexists|]. exists rest. by rewrite !str_app_assoc.
Qed.

Lemma ReadFull_split n buff : (ReadFull n buff).1.1 +:+ (ReadFull n buff).2 = buff.
Proof. unfold ReadFull. destruct (_ <=? _)%nat; cbn; [apply str_take_drop|apply str_app_nil_r]. Qed.

Lemma finish_read_bytes closed c : (finish_read closed c).1 = c.1.
Proof. unfold finish_read. destruct (c.2); [|done]. by destruct (_ && _). Qed.

Lemma out_bytes_app out c : out_bytes (out ++ [c]) = out_bytes out +:+ c.1.
Proof.
  unfold out_bytes. rewrite fmap_app. induction (out.*1) as [|x l IH]; [cbn; by rewrite str_app_nil_r|].
  rewrite <- app_comm_cons, !cat_cons, IH. by rewrite str_app_assoc.
Qed.

(** The bytes answered, on their way, buffered and still to come. *)
Definition conserved (lines : list Line) (s : rstate) : Prop :=
  good_text lines =
  out_bytes (rs_out s) +:+ (match rs_call s with Some c => c.1 | None => "" end) +:+ rd_buff (rs_reader s) +:+
    (if rs_running s then good_text (rs_lines s) else "").

Lemma rstep_conserved lines s s' : rstep s s' -> conserved lines s -> conserved lines s'.
Proof.
  intros [r ls c out m|n r ls run out|r ls run c out] Hc; unfold conserved in *; cbn [rs_out rs_call rs_reader rs_lines rs_running rd_buff] in *.
  - rewrite Hc. subst m. destruct ls as [|l ls]; cbn; [done|]. destruct (l_Err l); cbn; [done|]. by rewrite !str_app_assoc.
  - rewrite Hc, str_app_empty. rewrite <- (ReadFull_split n (rd_buff r)) at 1. by rewrite !str_app_assoc.
  - rewrite Hc, out_bytes_app, finish_read_bytes. by rewrite !str_app_assoc.
Qed.

Lemma reader_conserves lines s : rtc rstep (rstart lines) s -> conserved lines s.
Proof.
  intros H. assert (H0 : conserved lines (rstart lines)) by done.
  induction H as [s|s1 s2 s3 Hstep _ IH]; [done|]. by eapply IH, rstep_conserved.
Qed.

(** ** The handler *)

(** The answers of [Read] among the events of a handler. *)
Fixpoint tick_reads (evs : list tail_event) : list (string * option error) :=
  match evs with
  | [] => []
  | Tick r :: evs' => (rd_data r, rd_err r) :: tick_reads evs'
  | _ :: evs' => tick_reads evs'
  end.

Section handler.
Context {H : Type} {CS : ChunkStream H} {TH : TailHost H}.
(** What the client has received; sending is the only call that adds to it. *)
Variable received : H -> list Chunk.
Hypothesis Send_receives : forall c h,
  wp (Send c) (fun r h' => match r with
    | Ok _ => received h' = received h ++ [c]
    | _ => received h' = received h
    end) h.
Hypothesis Close_sends_nothing : forall h, wp tail_Close (fun _ h' => received h' = received h) h.
Hypothesis NewReader_sends_nothing : forall path h, wp (tail_NewReader path) (fun _ h' => received h' = received h) h.

(** The client has received chunks that make up a prefix of [text]. *)
Definition received_prefix (text : string) (h h' : H) : Prop :=
  exists cs rest, received h' = received h ++ cs /\ text = cat (ch_Content <$> cs) +:+ rest.

Lemma received_none text h h' : received h' = received h -> received_prefix text h h'.
Proof. intros He. exists [], text. by rewrite He, app_nil_r. Qed.

Lemma received_trans text h1 h2 h3 :
  received h2 = received h1 -> received_prefix text h2 h3 -> received_prefix text h1 h3.
Proof. intros He (cs & rest & Hr & Ht). exists cs, rest. by rewrite Hr, He. Qed.

Lemma received_cons d text h1 h2 h3 :
  received h2 = received h1 ++ [mkChunk d] -> received_prefix text h2 h3 -> received_prefix (d +:+ text) h1 h3.
Proof.
  intros He (cs & rest & Hr & Ht). exists (mkChunk d :: cs), rest. rewrite Hr, He, <- app_assoc.
  split; [done|]. by rewrite fmap_cons, cat_cons, Ht, str_app_assoc.
Qed.

Lemma tail_loop_received evs h :
  wp (AgentServer.tail_loop evs) (fun _ h' => received_prefix (out_bytes (tick_reads evs)) h h') h.
Proof.
  revert h. induction evs as [|ev evs IH]; intros h; [by apply wp_ret, received_none|].
  destruct ev as [e|a|[d err]]; cbn [AgentServer.tail_loop tick_reads].
  - by apply wp_ret, received_none.
  - apply wp_bind. eapply wp_mono.
    + unfold when. destruct (bool_decide _); [|by apply (wp_ret tt (fun _ h' => received h' = received h))].
      apply wp_bind, wp_attempt. eapply wp_mono; [apply Close_sends_nothing|]. by intros [u|e|p] h' Hh; apply Hh || apply wp_ret.
    + intros [u|e|p] h' Hh; cbn [after]; [|by apply received_none..]. eapply wp_mono; [apply IH|].
      intros r h''. by apply received_trans.
  - cbn [rd_data rd_err]. change (out_bytes ((d, err) :: tick_reads evs)) with (d +:+ out_bytes (tick_reads evs)).
    destruct (nonempty d) eqn:Hd.
    + assert (Hsend : wp (sent ← attempt (Send (mkChunk d));
        match sent with
        | inr e => mret (Some (ErrWrap e "could not send chunk"))
        | inl _ => AgentServer.tail_loop evs
        end) (fun _ h' => received_prefix (d +:+ out_bytes (tick_reads evs)) h h') h).
      { apply wp_bind, wp_attempt. eapply wp_mono; [apply Send_receives|]. intros [u|e|p] h' Hh; cbn [attempted after].
        - eapply wp_mono; [apply IH|]. intros r h''. by apply received_cons.
        - by apply wp_ret, received_none.
        - by apply received_none. }
      by destruct err.
    + unfold nonempty in Hd. apply negb_false_iff, bool_decide_eq_true in Hd. subst d. rewrite str_app_empty.
      destruct err; [by apply wp_ret, received_none|apply IH].
Qed.

Lemma TailFile_received req evs h :
  wp (AgentServer.TailFile req evs) (fun _ h' => received_prefix (out_bytes (tick_reads evs)) h h') h.
Proof.
  unfold AgentServer.TailFile. apply wp_bind. unfold lift, wp at 1. cbn [fst snd].
  destruct req as [r|e|p]; cbn [wrap_err after]; [|by apply received_none..].
  apply wp_bind. eapply (wp_mono _ (fun _ h' => received h' = received h)).
  - pose proof (NewReader_sends_nothing (tf_Path r) h) as Hn. unfold wp, wrapM in *. by destruct (tail_NewReader _ h).
  - intros [u|e|p] h' Hh; cbn [after]; [|by apply received_none..].
    eapply wp_mono; [apply tail_loop_received|]. intros ? h''. by apply received_trans.
Qed.
End handler.

Section tailed.
Context {W : Type} {OS : TailOS W} {FV : FileView W} {GF : GrowingFile W}.
Context {H : Type} {CS : ChunkStream H} {TH : TailHost H}.
Variable received : H -> list Chunk.
Hypothesis Send_receives : forall c h,
  wp (Send c) (fun r h' => match r with
    | Ok _ => received h' = received h ++ [c]
    | _ => received h' = received h
    end) h.
Hypothesis Close_sends_nothing : forall h, wp tail_Close (fun _ h' => received h' = received h) h.
Hypothesis NewReader_sends_nothing : forall path h, wp (tail_NewReader path) (fun _ h' => received h' = received h) h.

(** C27. The client of [TailFile] receives the log as it is: however the log
    grows, however the follower, the reader and the handler interleave and
    whatever fails, the chunks sent so far make up a prefix of the file. *)
Theorem tailed_bytes fuel n path w st evs h :
  sent w = [] ->
  let '(r, s') := tailFileSync fuel n (mkTS (fresh_reader path) w) in
  rtc rstep (rstart (sent (ts_w s'))) st ->
  tick_reads evs = rs_out st ->
  let '(o, h') := AgentServer.TailFile (Ok (mkTailFileRequest TailAction_Start path)) evs h in
  (exists st, r = Ok st) /\
  exists cs rest, received h' = received h ++ cs /\ content (ts_w s') = cat (ch_Content <$> cs) +:+ rest.
Proof.
  intros Hs. pose proof (tailFileSync_spec fuel n path w Hs) as Hf. unfold wp in Hf.
  destruct (tailFileSync _ _ _) as [r s']. cbn [fst snd] in Hf. destruct Hf as (ls & _ & [rest Hrest] & fin & -> & _).
  intros Hst Hev. pose proof (TailFile_received received Send_receives Close_sends_nothing NewReader_sends_nothing
    (Ok (mkTailFileRequest TailAction_Start path)) evs h) as Hh.
  unfold wp in Hh. destruct (AgentServer.TailFile _ _ _) as [o h']. cbn [fst snd] in Hh.
  split; [by eexists|]. destruct Hh as (cs & rest' & Hr & Ht). exists cs.
  apply reader_conserves in Hst. unfold conserved in Hst. rewrite Hev in Ht. rewrite Ht, !str_app_assoc in Hst.
  destruct (good_text_prefix (sent (ts_w s'))) as [rest2 Hg].
  eexists. split; [done|]. rewrite Hrest, Hg, Hst, !str_app_assoc. done.
Qed.
End tailed.

(** The reader goroutine alone takes all lines into the buffer. *)
Lemma recv_lines lines b c out :
  Forall (fun l => l_Err l = None) lines ->
  rtc rstep (mkRState (mkReader b false) lines true c out)
    (mkRState (mkReader (b +:+ lines_text lines) true) [] false c out).
Proof.
  intros Hl. revert b. induction Hl as [|l lines Hl _ IH]; intros b.
  - apply rtc_once. change (lines_text []) with "". rewrite str_app_nil_r. apply (step_recv (mkReader b false) []).
  - eapply rtc_l; [apply step_recv|]. cbn. rewrite Hl. cbn [fst snd rd_buff rd_isClosed].
    change (lines_text (l :: lines)) with ((l_Text l +:+ LF) +:+ lines_text lines).
    rewrite <- (str_app_assoc b (l_Text l +:+ LF)). apply IH.
Qed.

(** The end of a log can be lost: when the last lines arrive between the
    copy of a [Read] that found the buffer empty and its look at [isClosed],
    the call answers end of file although the buffer is full, and the
    handler ends the stream without sending them. *)
Theorem Reader_early_EOF {H} {CS : ChunkStream H} {TH : TailHost H} lines n (h : H) :
  Forall (fun l => l_Err l = None) lines -> lines <> [] -> (0 < n)%nat ->
  let evs := [Tick (mkReadResult "" (Some EOF))] in
  exists st, rtc rstep (rstart lines) st /\
    rs_out st = tick_reads evs /\ rd_buff (rs_reader st) = lines_text lines /\ lines_text lines <> "" /\
    AgentServer.tail_loop evs h = (Ok (Some EOF), h).
Proof.
  intros Hl Hne Hn evs. exists (mkRState (mkReader (lines_text lines) true) [] false None [("", Some EOF)]).
  split; [|split_and!; [done..| |done]].
  - eapply rtc_l; [apply (step_copy n)|]. destruct n as [|n]; [lia|]. cbn.
    etrans; [by apply (recv_lines lines "")|]. rewrite str_app_empty. apply rtc_once.
    exact (step_return (mkReader (lines_text lines) true) [] false ("", Some EOF) []).
  - destruct lines as [|l lines]; [done|]. unfold lines_text. rewrite fmap_cons, cat_cons.
    by destruct (l_Text l).
Qed.

Module TailReaderExamples.
Import TailExamples.

(** A client that keeps the chunks it is sent. *)
#[export] Instance keep_chunks : ChunkStream (list Chunk) := fun c => modify (fun h => h ++ [c]).
#[export] Instance no_host : TailHost (list Chunk) :=
  {| tail_NewReader _ := mret tt; tail_Close := mret tt |}.

(** The follower has sent two lines; the reader answers 5 bytes and then 4,
    and the handler sends them as two chunks. *)
Definition two_reads : rstate :=
  mkRState (mkReader (" 1" +:+ LF) false) [mkLine "epoch 2" zero_time None] true None [("epoch", None)].

Lemma tailed_bytes_witness :
  let '(r, s') := tailFileSync 30 2 (mkTS (fresh_reader "job.out") log_world) in
  let evs := [Tick (mkReadResult "epoch" None)] in
  let '(o, h') := AgentServer.TailFile (Ok (mkTailFileRequest TailAction_Start "job.out")) evs [] in
  (exists st, r = Ok st) /\
  exists cs rest, h' = [] ++ cs /\ content (ts_w s') = cat (ch_Content <$> cs) +:+ rest.
Proof.
  assert (Hreach : rtc rstep (rstart (sent (ts_w (tailFileSync 30 2 (mkTS (fresh_reader "job.out") log_world)).2))) two_reads).
  { eapply rtc_l; [apply step_recv|]. eapply rtc_l; [apply (step_copy 5)|]. eapply rtc_l; [apply step_return|].
    vm_compute. apply rtc_refl. }
  pose proof (tailed_bytes (W := LogWorld) (H := list Chunk) (fun h => h)
    (fun c h => eq_refl) (fun h => eq_refl) (fun path h => eq_refl) 30 2 "job.out" log_world two_reads [Tick (mkReadResult "epoch" None)] [] eq_refl) as Ht.
  destruct (tailFileSync 30 2 (mkTS (fresh_reader "job.out") log_world)) as [r s'].
  exact (Ht Hreach eq_refl).
Defined.

Lemma Reader_early_EOF_witness :
  let lines := [mkLine "done" zero_time None] in
  let evs := [Tick (mkReadResult "" (Some EOF))] in
  exists st, rtc rstep (rstart lines) st /\
    rs_out st = tick_reads evs /\ rd_buff (rs_reader st) = lines_text lines /\ lines_text lines <> "" /\
    AgentServer.tail_loop evs ([] : list Chunk) = (Ok (Some EOF), []).
Proof. by apply (Reader_early_EOF _ 128); [repeat constructor| |lia]. Defined.
End TailReaderExamples.
