(* ===== verification/Watch.v ===== *)
(** * Watching a file for changes (pkg/tail/watch)

    A follower at the end of its file waits for a notification of a
    [FileWatcher]: one polls the file, the other gets the events of
    [fsnotify] from the [InotifyTracker], a goroutine all followers of the
    process share. The polling watcher is a function of what its polls see;
    the calls of all followers and the tracker together are a step relation.
    The theorems: the tracker watches a name exactly as long as somebody wants
    it, a call alone on its file hears of every event until it is told that
    the file is gone, and two calls on one file get in each other's way,
    whether two followers make them or one whose file was truncated. *)

From S2P Require Import Prelude GoStrings GoTime GoPath.
#[local] Open Scope Z_scope.

(** ** Notifications (filechanges.go) *)

(** A channel of capacity 1: the values waiting in it. *)
Definition sendOnlyIfEmpty (ch : list bool) : list bool := if (length ch <? 1)%nat then ch ++ [true] else ch.

Record FileChanges := mkFileChanges { fc_Modified : list bool; fc_Truncated : list bool; fc_Deleted : list bool }.
Definition NewFileChanges : FileChanges := mkFileChanges [] [] [].

Definition NotifyModified (fc : FileChanges) : FileChanges :=
  mkFileChanges (sendOnlyIfEmpty (fc_Modified fc)) (fc_Truncated fc) (fc_Deleted fc).
Definition NotifyTruncated (fc : FileChanges) : FileChanges :=
  mkFileChanges (fc_Modified fc) (sendOnlyIfEmpty (fc_Truncated fc)) (fc_Deleted fc).
Definition NotifyDeleted (fc : FileChanges) : FileChanges :=
  mkFileChanges (fc_Modified fc) (fc_Truncated fc) (sendOnlyIfEmpty (fc_Deleted fc)).

(** The follower receives from one of the channels. *)
Inductive notice := GotModified | GotTruncated | GotDeleted.
Definition take_change (k : notice) (fc : FileChanges) : option FileChanges :=
  match k, fc with
  | GotModified, mkFileChanges (_ :: m) t d => Some (mkFileChanges m t d)
  | GotTruncated, mkFileChanges m (_ :: t) d => Some (mkFileChanges m t d)
  | GotDeleted, mkFileChanges m t (_ :: d) => Some (mkFileChanges m t d)
  | _, _ => None
  end.

(** What [os.Stat] says: which file it is, its size and modification time. *)
Record FileStat := mkFileStat { st_file : nat; st_Size : Z; st_ModTime : Time }.
Definition SameFile (a b : FileStat) : bool := (st_file a =? st_file b)%nat.

(** The operating system and the [fsnotify] library. *)
Class WatchOS (W : Type) := {
  os_Stat : string -> M W FileStat;
  watcher_Add : string -> M W unit;
  watcher_Remove : string -> M W unit;
}.

(** ** The polling watcher (polling.go) *)

Definition POLL_DURATION : Z := 250 * 1000000.

(** [fw.Size] and the variables of the goroutine. *)
Record Poller := mkPoller { po_Size : Z; po_prevSize : Z; po_prevModTime : Time; po_changes : FileChanges }.

(** [ChangeEvents] up to the start of the goroutine. *)
Definition poll_start (pos : Z) : Poller := mkPoller pos pos zero_time NewFileChanges.

(** One turn of the loop on the answer of [Stat]: whether the goroutine goes
    on. *)
Inductive poll_next := PollOn (p : Poller) | PollEnd (p : Poller).

Definition poll_turn (origFi : FileStat) (r : FileStat + error) (p : Poller) : res poll_next :=
  match r with
  | inr err =>
      if IsNotExist err then
        Ok (PollEnd (mkPoller (po_Size p) (po_prevSize p) (po_prevModTime p) (NotifyDeleted (po_changes p))))
      else Panic (ProcessExit "Failed to stat file")
  | inl fi =>
      if negb (SameFile origFi fi) then
        Ok (PollEnd (mkPoller (po_Size p) (po_prevSize p) (po_prevModTime p) (NotifyDeleted (po_changes p))))
      else
        let size := st_Size fi in
        if bool_decide (0 < po_prevSize p) && bool_decide (size < po_prevSize p) then
          Ok (PollOn (mkPoller size size (po_prevModTime p) (NotifyTruncated (po_changes p))))
        else if bool_decide (0 < po_prevSize p) && bool_decide (po_prevSize p < size) then
          Ok (PollOn (mkPoller size size (po_prevModTime p) (NotifyModified (po_changes p))))
        else if bool_decide (st_ModTime fi = po_prevModTime p) then
          Ok (PollOn (mkPoller size size (po_prevModTime p) (po_changes p)))
        else Ok (PollOn (mkPoller size size (st_ModTime fi) (NotifyModified (po_changes p))))
  end.

Section poll.
Context {W : Type} {OS : WatchOS W}.

(** A turn that finds the follower stopped, or sleeps and looks at the file. *)
Definition poll_step (filename : string) (origFi : FileStat) (dying : bool) (p : Poller) : M W poll_next :=
  if dying then mret (PollEnd p)
  else r ← attempt (os_Stat filename); lift (poll_turn origFi r p).

(** [BlockUntilExists]: one turn per element, saying whether the follower
    is stopped while the turn sleeps; [None] when it still waits. *)
Fixpoint poll_exists (filename : string) (dying : list bool) : M W (option (option error)) :=
  r ← attempt (os_Stat filename);
  match r with
  | inl _ => mret (Some None)
  | inr err =>
      if negb (IsNotExist err) then mret (Some (Some err))
      else
        match dying with
        | [] => mret None
        | true :: _ => mret (Some (Some (ErrSentinel "tomb: dying")))
        | false :: dying' => poll_exists filename dying'
        end
  end.
End poll.

(** ** The tracker (inotify_tracker.go) *)

Record watchInfo := mkWatchInfo { isCreate : bool; wi_fname : string }.

(** Channels are numbers; [tr_closed] are the closed ones. *)
Record InotifyTracker := mkTracker {
  tr_chans : gmap string nat;
  tr_done : gmap string nat;
  tr_watchNums : gmap string Z;
  tr_closed : gset nat;
  tr_next : nat;
}.
Definition new_tracker : InotifyTracker := mkTracker ∅ ∅ ∅ ∅ 0.

(** Watching for creation watches the directory. *)
Definition watch_target (winfo : watchInfo) : string :=
  if isCreate winfo then Dir (wi_fname winfo) else wi_fname winfo.

Definition make_chan (fname : string) (tr : InotifyTracker) : InotifyTracker :=
  match tr_chans tr !! fname with
  | Some _ => tr
  | None => mkTracker (<[fname := tr_next tr]> (tr_chans tr)) (tr_done tr) (tr_watchNums tr) (tr_closed tr) (S (tr_next tr))
  end.
Definition make_done (fname : string) (tr : InotifyTracker) : InotifyTracker :=
  match tr_done tr !! fname with
  | Some _ => tr
  | None => mkTracker (tr_chans tr) (<[fname := tr_next tr]> (tr_done tr)) (tr_watchNums tr) (tr_closed tr) (S (tr_next tr))
  end.
(** [delete] and [close]. *)
Definition close_chan (fname : string) (tr : InotifyTracker) : InotifyTracker :=
  match tr_chans tr !! fname with
  | None => tr
  | Some ch => mkTracker (delete fname (tr_chans tr)) (tr_done tr) (tr_watchNums tr) ({[ch]} ∪ tr_closed tr) (tr_next tr)
  end.
(** The first half of [remove]. *)
Definition close_done (fname : string) (tr : InotifyTracker) : InotifyTracker :=
  match tr_done tr !! fname with
  | None => tr
  | Some d => mkTracker (tr_chans tr) (delete fname (tr_done tr)) (tr_watchNums tr) ({[d]} ∪ tr_closed tr) (tr_next tr)
  end.

Definition watchNum (fname : string) (tr : InotifyTracker) : Z := default 0 (tr_watchNums tr !! fname).
Definition set_watchNum (fname : string) (n : Z) (tr : InotifyTracker) : InotifyTracker :=
  mkTracker (tr_chans tr) (tr_done tr) (<[fname := n]> (tr_watchNums tr)) (tr_closed tr) (tr_next tr).
Definition del_watchNum (fname : string) (tr : InotifyTracker) : InotifyTracker :=
  mkTracker (tr_chans tr) (tr_done tr) (delete fname (tr_watchNums tr)) (tr_closed tr) (tr_next tr).

(** The event of the library and the operations a mask of bits. *)
Record Event := mkEvent { ev_Name : string; ev_Op : Z }.
Definition op_Create : Z := 1.
Definition op_Write : Z := 2.
Definition op_Remove : Z := 4.
Definition op_Rename : Z := 8.
Definition op_Chmod : Z := 16.
Definition has_op (evt : Event) (op : Z) : bool := bool_decide (Z.land (ev_Op evt) op = op).

Section tracker.
Context {W : Type} {OS : WatchOS W}.

Definition TW : Type := InotifyTracker * W.
Definition on_tr (f : InotifyTracker -> InotifyTracker) : M TW unit := fun tw => (Ok tt, (f tw.1, tw.2)).
Definition get_tr : M TW InotifyTracker := fun tw => (Ok tw.1, tw).
Definition on_lib {A} (m : M W A) : M TW A := fun tw => let '(r, w') := m tw.2 in (r, (tw.1, w')).

Definition addWatch (winfo : watchInfo) : M TW unit :=
  on_tr (make_chan (wi_fname winfo));;
  on_tr (make_done (wi_fname winfo));;
  let fname := watch_target winfo in
  tr ← get_tr;
  (if bool_decide (watchNum fname tr = 0) then on_lib (watcher_Add fname) else mret tt);;
  on_tr (fun tr => set_watchNum fname (watchNum fname tr + 1) tr).

Definition removeWatch (winfo : watchInfo) : M TW unit :=
  on_tr (close_chan (wi_fname winfo));;
  let fname := watch_target winfo in
  on_tr (fun tr => set_watchNum fname (watchNum fname tr - 1) tr);;
  tr ← get_tr;
  if bool_decide (watchNum fname tr = 0) then
    on_tr (del_watchNum fname);; on_lib (watcher_Remove fname)
  else mret tt.

(** [sendEvent]: the channels the event is offered to and on which the offer
    is called off; without them it is dropped. *)
Definition sendEvent (tr : InotifyTracker) (evt : Event) : option (nat * nat * Event) :=
  let name := Clean (ev_Name evt) in
  match tr_chans tr !! name, tr_done tr !! name with
  | Some ch, Some d => Some (ch, d, evt)
  | _, _ => None
  end.
End tracker.

(** ** The inotify watcher (inotify.go)

    A client makes the calls of a watcher one after the other:
    [BlockUntilExists] when [cl_create], else [ChangeEvents], which lasts as
    long as its goroutine. A follower is one client while it waits for a
    notice of deletion before it calls again. After a notice of truncation it
    opens the file again with that goroutine alive: its [BlockUntilExists],
    if the file is gone by then, is the call of a second client with the same
    name. *)

Inductive reason := ByDying | ByClosed | ByExists | ByStat | ByDeleted.

Inductive wpc :=
  | Idle                              (* between two calls *)
  | Watching                          (* the tracker watches *)
  | Checked                           (* BlockUntilExists did not find the file *)
  | Selecting (events : option nat)   (* waits for an event *)
  | Handling (evt : Event) (events : option nat)
  | Removing (why : reason)           (* calls RemoveWatch *)
  | RemovingWatch (why : reason)      (* has closed its channel done *)
  | Returned (why : reason)
  | Failed.                           (* the tracker could not watch *)

Record client := mkClient {
  cl_create : bool;
  cl_Filename : string;
  cl_Size : Z;
  cl_changes : FileChanges;
  cl_dying : bool;
  cl_pc : wpc;
}.
Definition set_pc (p : wpc) (c : client) : client :=
  mkClient (cl_create c) (cl_Filename c) (cl_Size c) (cl_changes c) (cl_dying c) p.

(** [NewInotifyFileWatcher], and what [Watch] and [WatchCreate] send to the
    tracker. *)
Definition NewInotifyFileWatcher (filename : string) : client :=
  mkClient false (Clean filename) 0 NewFileChanges false Idle.
Definition watch_info (c : client) : watchInfo := mkWatchInfo (cl_create c) (Clean (cl_Filename c)).

Section watcher.
Context {W : Type} {OS : WatchOS W}.
Variable cwd : string.

(** The event in [BlockUntilExists]. *)
Definition create_event (c : client) (evt : Event) (events : option nat) : client :=
  if bool_decide (Abs cwd (ev_Name evt) = Abs cwd (cl_Filename c)) then set_pc (Removing ByExists) c
  else set_pc (Selecting events) c.

(** The event in the goroutine of [ChangeEvents]. *)
Definition change_event (c : client) (evt : Event) (events : option nat) : M W client :=
  if has_op evt op_Remove || has_op evt op_Rename then mret (set_pc (Removing ByDeleted) c)
  else if has_op evt op_Chmod || has_op evt op_Write then
    r ← attempt (os_Stat (cl_Filename c));
    match r with
    | inr err =>
        if IsNotExist err then mret (set_pc (Removing ByDeleted) c)
        else panicM (ProcessExit "Failed to stat file")
    | inl fi =>
        let changes :=
          if bool_decide (0 < cl_Size c) && bool_decide (st_Size fi < cl_Size c) then NotifyTruncated (cl_changes c)
          else NotifyModified (cl_changes c) in
        mret (mkClient (cl_create c) (cl_Filename c) (st_Size fi) changes (cl_dying c) (Selecting events))
    end
  else mret (set_pc (Selecting events) c).

Definition handle_event (c : client) (evt : Event) (events : option nat) : M W client :=
  if cl_create c then mret (create_event c evt events) else change_event c evt events.

(** After [RemoveWatch] the goroutine returns, saying first that the file is
    gone if that is why. *)
Definition finish (why : reason) (c : client) : client :=
  mkClient (cl_create c) (cl_Filename c) (cl_Size c)
    (match why with ByDeleted => NotifyDeleted (cl_changes c) | _ => cl_changes c end) (cl_dying c) (Returned why).

(** ** All followers of a process

    The tracker's goroutine serves one request at a time; while it offers an
    event ([ws_sending]) it serves none. *)
Record wstate := mkWState {
  ws_tr : InotifyTracker;
  ws_clients : list client;
  ws_sending : option (nat * nat * Event);
  ws_w : W;
}.
Definition set_client (i : nat) (c : client) (s : wstate) : wstate :=
  mkWState (ws_tr s) (<[i := c]> (ws_clients s)) (ws_sending s) (ws_w s).

(** The call of [ChangeEvents] at position [pos], or of [BlockUntilExists]. *)
Definition called (create : bool) (pos : Z) (c : client) : client :=
  mkClient create (cl_Filename c) (if create then cl_Size c else pos) NewFileChanges (cl_dying c) Watching.

Inductive wstep : wstate -> wstate -> Prop :=
  | step_watch s i c create pos tr' w' :
      ws_clients s !! i = Some c -> cl_pc c = Idle -> ws_sending s = None ->
      addWatch (watch_info (called create pos c)) (ws_tr s, ws_w s) = (Ok tt, (tr', w')) ->
      wstep s (mkWState tr' (<[i := called create pos c]> (ws_clients s)) None w')
  | step_watch_err s i c create pos e tr' w' :
      ws_clients s !! i = Some c -> cl_pc c = Idle -> ws_sending s = None ->
      addWatch (watch_info (called create pos c)) (ws_tr s, ws_w s) = (Err e, (tr', w')) ->
      wstep s (mkWState tr' (<[i := set_pc Failed c]> (ws_clients s)) None w')
  | step_check s i c r w' :
      ws_clients s !! i = Some c -> cl_pc c = Watching -> cl_create c = true ->
      attempt (os_Stat (cl_Filename c)) (ws_w s) = (Ok r, w') ->
      wstep s (mkWState (ws_tr s)
        (<[i := set_pc (match r with inr e => if IsNotExist e then Checked else Removing ByStat | inl _ => Removing ByStat end) c]>
          (ws_clients s)) (ws_sending s) w')
  | step_events s i c :
      ws_clients s !! i = Some c -> cl_pc c = (if cl_create c then Checked else Watching) ->
      wstep s (set_client i (set_pc (Selecting (tr_chans (ws_tr s) !! cl_Filename c)) c) s)
  | step_event s evt :
      ws_sending s = None ->
      wstep s (mkWState (ws_tr s) (ws_clients s) (sendEvent (ws_tr s) evt) (ws_w s))
  | step_deliver s i c ch d evt :
      ws_sending s = Some (ch, d, evt) -> ws_clients s !! i = Some c -> cl_pc c = Selecting (Some ch) ->
      wstep s (mkWState (ws_tr s) (<[i := set_pc (Handling evt (Some ch)) c]> (ws_clients s)) None (ws_w s))
  | step_drop s ch d evt :
      ws_sending s = Some (ch, d, evt) -> d ∈ tr_closed (ws_tr s) ->
      wstep s (mkWState (ws_tr s) (ws_clients s) None (ws_w s))
  | step_closed s i c ch :
      ws_clients s !! i = Some c -> cl_pc c = Selecting (Some ch) -> ch ∈ tr_closed (ws_tr s) ->
      wstep s (set_client i (set_pc (Removing ByClosed) c) s)
  | step_dying s i c events :
      ws_clients s !! i = Some c -> cl_pc c = Selecting events -> cl_dying c = true ->
      wstep s (set_client i (set_pc (Removing ByDying) c) s)
  | step_handle s i c evt events c' w' :
      ws_clients s !! i = Some c -> cl_pc c = Handling evt events ->
      handle_event c evt events (ws_w s) = (Ok c', w') ->
      wstep s (mkWState (ws_tr s) (<[i := c']> (ws_clients s)) (ws_sending s) w')
  | step_done s i c why :
      ws_clients s !! i = Some c -> cl_pc c = Removing why ->
      wstep s (mkWState (close_done (Clean (cl_Filename c)) (ws_tr s))
        (<[i := set_pc (RemovingWatch why) c]> (ws_clients s)) (ws_sending s) (ws_w s))
  | step_remove s i c why r tr' w' :
      ws_clients s !! i = Some c -> cl_pc c = RemovingWatch why -> ws_sending s = None ->
      attempt (removeWatch (watch_info c)) (ws_tr s, ws_w s) = (Ok r, (tr', w')) ->
      wstep s (mkWState tr' (<[i := finish why c]> (ws_clients s)) None w')
  | step_again s i c why :
      ws_clients s !! i = Some c -> cl_pc c = Returned why ->
      wstep s (set_client i (set_pc Idle c) s)
  | step_kill s i c :
      ws_clients s !! i = Some c ->
      wstep s (set_client i (mkClient (cl_create c) (cl_Filename c) (cl_Size c) (cl_changes c) true (cl_pc c)) s)
  | step_take s i c k changes :
      ws_clients s !! i = Some c -> take_change k (cl_changes c) = Some changes ->
      wstep s (set_client i (mkClient (cl_create c) (cl_Filename c) (cl_Size c) changes (cl_dying c) (cl_pc c)) s)
  | step_env s w' :
      wstep s (mkWState (ws_tr s) (ws_clients s) (ws_sending s) w').

(** The process with followers of the files [names]. *)
Definition wstart (names : list string) (w : W) : wstate :=
  mkWState new_tracker (NewInotifyFileWatcher <$> names) None w.
End watcher.

(** ** The counts of the tracker *)

Definition holds_watch (p : wpc) : bool :=
  match p with Idle | Returned _ | Failed => false | _ => true end.
Definition wants (f : string) (c : client) : bool :=
  holds_watch (cl_pc c) && bool_decide (watch_target (watch_info c) = f).
Definition num (f : string) (cs : list client) : nat := sum_list_with (fun c => Nat.b2n (wants f c)) cs.

Lemma num_insert f cs i c c' : cs !! i = Some c ->
  (num f (<[i := c']> cs) + Nat.b2n (wants f c) = num f cs + Nat.b2n (wants f c'))%nat.
Proof.
  unfold num. revert i. induction cs as [|c0 cs IH]; intros [|i] H; [done..| |].
  - injection H as ->. change (<[0%nat := c']> (c :: cs)) with (c' :: cs). cbn [sum_list_with]. lia.
  - change (<[S i := c']> (c0 :: cs)) with (c0 :: <[i := c']> cs). cbn [sum_list_with]. apply IH in H. lia.
Qed.

Lemma num_same f cs i c c' : cs !! i = Some c -> wants f c' = wants f c -> num f (<[i := c']> cs) = num f cs.
Proof. intros H E. apply (num_insert f _ _ _ c') in H. rewrite E in H. lia. Qed.

(** The count is that of the clients, and there is none for zero. *)
Definition counted (tr : InotifyTracker) (cs : list client) : Prop := forall f,
  tr_watchNums tr !! f = (if bool_decide (num f cs = 0%nat) then None else Some (Z.of_nat (num f cs))).

Lemma counted_watchNum tr cs f : counted tr cs -> watchNum f tr = Z.of_nat (num f cs).
Proof. intros H. unfold watchNum. rewrite H. case_bool_decide as E; [by rewrite E|done]. Qed.

Lemma make_chan_watchNums n tr : tr_watchNums (make_chan n tr) = tr_watchNums tr.
Proof. unfold make_chan. by destruct (tr_chans tr !! n). Qed.
Lemma make_done_watchNums n tr : tr_watchNums (make_done n tr) = tr_watchNums tr.
Proof. unfold make_done. by destruct (tr_done tr !! n). Qed.
Lemma close_chan_watchNums n tr : tr_watchNums (close_chan n tr) = tr_watchNums tr.
Proof. unfold close_chan. by destruct (tr_chans tr !! n). Qed.
Lemma close_done_watchNums n tr : tr_watchNums (close_done n tr) = tr_watchNums tr.
Proof. unfold close_done. by destruct (tr_done tr !! n). Qed.

Lemma watchNum_set f n tr : watchNum f (set_watchNum f n tr) = n.
Proof. unfold watchNum, set_watchNum. cbn [tr_watchNums]. by rewrite lookup_insert_eq. Qed.

Section facts.
Context {W : Type} {OS : WatchOS W}.
Variable cwd : string.

(** What the two requests do to the tracker. *)
Definition opened (wi : watchInfo) (tr : InotifyTracker) : InotifyTracker :=
  make_done (wi_fname wi) (make_chan (wi_fname wi) tr).
Definition counted_up (wi : watchInfo) (tr : InotifyTracker) : InotifyTracker :=
  set_watchNum (watch_target wi) (watchNum (watch_target wi) (opened wi tr) + 1) (opened wi tr).
Definition counted_down (wi : watchInfo) (tr : InotifyTracker) : InotifyTracker :=
  let f := watch_target wi in
  let tr' := close_chan (wi_fname wi) tr in
  let tr'' := set_watchNum f (watchNum f tr' - 1) tr' in
  if bool_decide (watchNum f tr'' = 0) then del_watchNum f tr'' else tr''.

Lemma addWatch_tracker wi tr w r tr' w' : addWatch wi (tr, w) = (r, (tr', w')) ->
  match r with Ok _ => tr' = counted_up wi tr | _ => tr' = opened wi tr end.
Proof.
  unfold addWatch, mbind, M_bind, on_tr, get_tr, on_lib. cbn [fst snd]. fold (opened wi tr).
  case_bool_decide; [cbn [fst snd]; destruct (watcher_Add (watch_target wi) w) as [[u|e|p] w1]; cbn|cbn];
    intros H'; by simplify_eq.
Qed.

Lemma removeWatch_tracker wi tr w r tr' w' : removeWatch wi (tr, w) = (r, (tr', w')) -> tr' = counted_down wi tr.
Proof.
  unfold removeWatch, mbind, M_bind, on_tr, get_tr, on_lib, counted_down. cbv zeta. cbn [fst snd].
  set (b := bool_decide _).
  destruct b; [cbn [fst snd]; destruct (watcher_Remove (watch_target wi) w) as [r1 w1]|];
    unfold mret, M_ret; intros H'; by simplify_eq/=.
Qed.

Lemma attempt_removeWatch wi tr w r tr' w' : attempt (removeWatch wi) (tr, w) = (Ok r, (tr', w')) -> tr' = counted_down wi tr.
Proof.
  unfold attempt. destruct (removeWatch wi (tr, w)) as [[u|e|p] [tr1 w1]] eqn:E; [| |done];
    intros H; simplify_eq; by eapply removeWatch_tracker.
Qed.

Lemma counted_insert tr tr' cs i c c' : counted tr cs -> cs !! i = Some c ->
  tr_watchNums tr' = tr_watchNums tr -> (forall f, wants f c' = wants f c) -> counted tr' (<[i := c']> cs).
Proof. intros H Hi E Hw f. by rewrite (num_same f cs i c c'), E. Qed.

Lemma counted_add tr cs i c c' : counted tr cs -> cs !! i = Some c -> holds_watch (cl_pc c) = false ->
  holds_watch (cl_pc c') = true -> counted (counted_up (watch_info c') tr) (<[i := c']> cs).
Proof.
  intros H Hi Hc Hc' f. pose proof (num_insert f cs i c c' Hi) as Hn. unfold wants in Hn. rewrite Hc, Hc' in Hn.
  cbn [andb Nat.b2n] in Hn. set (wi := watch_info c') in *.
  assert (Hop : forall f, watchNum f (opened wi tr) = Z.of_nat (num f cs)).
  { intros f'. unfold watchNum, opened. rewrite make_done_watchNums, make_chan_watchNums. by apply counted_watchNum. }
  unfold counted_up, set_watchNum. cbn [tr_watchNums]. rewrite Hop. unfold opened. rewrite make_done_watchNums, make_chan_watchNums.
  destruct (decide (watch_target wi = f)) as [<-|Hne].
  - rewrite lookup_insert_eq. rewrite bool_decide_eq_true_2 in Hn by done. cbn in Hn.
    rewrite bool_decide_eq_false_2 by lia. f_equal. lia.
  - rewrite lookup_insert_ne by done. rewrite bool_decide_eq_false_2 in Hn by done. cbn in Hn.
    replace (num f (<[i := c']> cs)) with (num f cs) by lia. apply H.
Qed.

Lemma counted_remove tr cs i c c' : counted tr cs -> cs !! i = Some c -> holds_watch (cl_pc c) = true ->
  holds_watch (cl_pc c') = false -> counted (counted_down (watch_info c) tr) (<[i := c']> cs).
Proof.
  intros H Hi Hc Hc' f. pose proof (num_insert f cs i c c' Hi) as Hn. unfold wants in Hn. rewrite Hc, Hc' in Hn.
  cbn [andb Nat.b2n] in Hn. set (wi := watch_info c) in *.
  unfold counted_down. set (tr1 := close_chan (wi_fname wi) tr). assert (E1 : tr_watchNums tr1 = tr_watchNums tr) by apply close_chan_watchNums.
  assert (Hop : forall f, watchNum f tr1 = Z.of_nat (num f cs)).
  { intros f'. unfold watchNum. rewrite E1. by apply counted_watchNum. }
  rewrite watchNum_set, Hop.
  destruct (decide (watch_target wi = f)) as [<-|Hne].
  - rewrite bool_decide_eq_true_2 in Hn by done. cbn in Hn. unfold del_watchNum, set_watchNum. case_bool_decide; cbn [tr_watchNums].
    + rewrite lookup_delete_eq, bool_decide_eq_true_2 by lia. done.
    + rewrite lookup_insert_eq, bool_decide_eq_false_2 by lia. f_equal. lia.
  - rewrite bool_decide_eq_false_2 in Hn by done. cbn in Hn. replace (num f (<[i := c']> cs)) with (num f cs) by lia.
    unfold del_watchNum, set_watchNum. case_bool_decide; cbn [tr_watchNums];
      rewrite ?lookup_delete_ne, ?lookup_insert_ne by done; rewrite E1; apply H.
Qed.

Lemma handle_event_client c evt events w c' w' : handle_event cwd c evt events w = (Ok c', w') ->
  cl_create c' = cl_create c /\ cl_Filename c' = cl_Filename c /\ cl_dying c' = cl_dying c /\
  (cl_pc c' = Selecting events \/ cl_pc c' = Removing ByExists \/ cl_pc c' = Removing ByDeleted).
Proof.
  unfold handle_event, create_event, change_event. destruct (cl_create c) eqn:Ec.
  - unfold mret, M_ret. case_bool_decide; intros [= <- <-]; cbn; rewrite ?Ec; auto 6.
  - destruct (_ || _); [unfold mret, M_ret; intros [= <- <-]; cbn; auto 6|].
    destruct (_ || _); [|unfold mret, M_ret; intros [= <- <-]; cbn; auto 6].
    unfold mbind, M_bind, attempt. destruct (os_Stat _ w) as [[fi|e|p] w1]; cbn; [| |done].
    + unfold mret, M_ret. intros [= <- <-]. cbn. rewrite ?Ec. auto 6.
    + destruct (IsNotExist e); [|done]. unfold mret, M_ret. intros [= <- <-]. cbn. rewrite ?Ec. auto 6.
Qed.

Lemma wants_same c c' : cl_create c' = cl_create c -> cl_Filename c' = cl_Filename c ->
  holds_watch (cl_pc c') = holds_watch (cl_pc c) -> forall f, wants f c' = wants f c.
Proof. intros E1 E2 E3 f. unfold wants, watch_info. by rewrite E1, E2, E3. Qed.

(** The tracker keeps its counts and one client changes, but not in what it
    wants watched. *)
Lemma counted_move tr tr' cs i c c' p : counted tr cs -> cs !! i = Some c -> cl_pc c = p ->
  tr_watchNums tr' = tr_watchNums tr -> cl_create c' = cl_create c -> cl_Filename c' = cl_Filename c ->
  holds_watch (cl_pc c') = holds_watch p -> counted tr' (<[i := c']> cs).
Proof. intros H Hi <- E E1 E2 E3. eapply counted_insert; [done..|]. by apply wants_same. Qed.

Lemma counted_step s s' : wstep cwd s s' -> counted (ws_tr s) (ws_clients s) -> counted (ws_tr s') (ws_clients s').
Proof.
  intros Hs H. destruct Hs as [s i c create pos tr' w' Hi Hp Hs Ha|s i c create pos e tr' w' Hi Hp Hs Ha|s i c r w' Hi Hp Hc Hst
    |s i c Hi Hp|s evt Hs|s i c ch d evt Hs Hi Hp|s ch d evt Hs Hd|s i c ch Hi Hp Hch|s i c events Hi Hp Hd
    |s i c evt events c' w' Hi Hp Hh|s i c why Hi Hp|s i c why r tr' w' Hi Hp Hs Hr|s i c why Hi Hp|s i c Hi|s i c k fc Hi Hk|s w'];
    cbn [ws_tr ws_clients set_client] in *; try done; try (by eapply counted_move).
  - apply addWatch_tracker in Ha as ->. eapply counted_add; [done..|by rewrite Hp|done].
  - apply addWatch_tracker in Ha as ->. eapply counted_move; [done..| |done|done|done].
    unfold opened. by rewrite make_done_watchNums, make_chan_watchNums.
  - eapply counted_move; [done..|]. cbn. destruct r as [fi|e]; [done|]. by destruct (IsNotExist e).
  - eapply counted_move; [done..|]. by destruct (cl_create c).
  - apply handle_event_client in Hh as (E1 & E2 & _ & [E|[E|E]]);
      (eapply counted_move; [exact H|exact Hi|exact Hp|done|done|done|by rewrite E]).
  - eapply counted_move; [done..| |done|done|done]. apply close_done_watchNums.
  - apply attempt_removeWatch in Hr as ->. eapply counted_remove; [done..|by rewrite Hp|done].
Qed.

Lemma num_start f names : num f (NewInotifyFileWatcher <$> names) = 0%nat.
Proof. unfold num. induction names as [|n names IH]; [done|]. rewrite fmap_cons. exact IH. Qed.

Lemma reachable_counted names w s : rtc (wstep cwd) (wstart names w) s -> counted (ws_tr s) (ws_clients s).
Proof.
  intros H. assert (H0 : counted (ws_tr (wstart names w)) (ws_clients (wstart names w))).
  { intros f. cbn [wstart ws_tr ws_clients]. by rewrite num_start. }
  induction H as [s|s1 s2 s3 Hstep _ IH]; [done|]. by eapply IH, counted_step.
Qed.

(** C34. The tracker is right about who watches: at any time, however the
    watchers run and whatever calls fail, the count of a name is the number
    of watchers that want it watched. So a request starts watching in the
    library exactly when nobody else watches the name, and the last one to
    leave stops it. *)
Theorem watched_while_wanted names w s f :
  rtc (wstep cwd) (wstart names w) s ->
  let n := num f (ws_clients s) in
  tr_watchNums (ws_tr s) !! f = (if bool_decide (n = 0%nat) then None else Some (Z.of_nat n)) /\
  (forall wi w1, watch_target wi = f ->
     (addWatch wi (ws_tr s, w1)).2.2 = (if bool_decide (n = 0%nat) then (watcher_Add f w1).2 else w1)) /\
  (forall wi w1, watch_target wi = f ->
     (removeWatch wi (ws_tr s, w1)).2.2 = (if bool_decide (n = 1%nat) then (watcher_Remove f w1).2 else w1)).
Proof.
  intros Hr n. apply reachable_counted in Hr as Hc. split; [apply Hc|]. split.
  - intros wi w1 <-. unfold addWatch, mbind, M_bind, on_tr, get_tr, on_lib. cbn [fst snd]. fold (opened wi (ws_tr s)).
    assert (watchNum (watch_target wi) (opened wi (ws_tr s)) = Z.of_nat n) as ->.
    { unfold watchNum, opened. rewrite make_done_watchNums, make_chan_watchNums. by apply counted_watchNum. }
    rewrite (bool_decide_ext (Z.of_nat n = 0) (n = 0%nat)) by lia. case_bool_decide; [|done].
    cbn [fst snd]. destruct (watcher_Add (watch_target wi) w1) as [[u|e|p] w2]; done.
  - intros wi w1 <-. unfold removeWatch, mbind, M_bind, on_tr, get_tr, on_lib. cbn [fst snd].
    rewrite watchNum_set.
    assert (watchNum (watch_target wi) (close_chan (wi_fname wi) (ws_tr s)) = Z.of_nat n) as ->.
    { unfold watchNum. rewrite close_chan_watchNums. by apply counted_watchNum. }
    rewrite (bool_decide_ext (Z.of_nat n - 1 = 0) (n = 1%nat)) by lia. case_bool_decide; [|done].
    cbn [fst snd]. by destruct (watcher_Remove (watch_target wi) w1).
Qed.

(** ** Followers of different files *)

(** Channels in use are open, and each has one use. *)
Record channels_ok (tr : InotifyTracker) : Prop := {
  ck_chans n ch : tr_chans tr !! n = Some ch -> (ch < tr_next tr)%nat /\ ch ∉ tr_closed tr;
  ck_done n d : tr_done tr !! n = Some d -> (d < tr_next tr)%nat /\ d ∉ tr_closed tr;
  ck_closed c : c ∈ tr_closed tr -> (c < tr_next tr)%nat;
  ck_chans_inj n m ch : tr_chans tr !! n = Some ch -> tr_chans tr !! m = Some ch -> n = m;
  ck_done_inj n m d : tr_done tr !! n = Some d -> tr_done tr !! m = Some d -> n = m;
  ck_disjoint n m ch : tr_chans tr !! n = Some ch -> tr_done tr !! m <> Some ch;
}.

(** Nothing changes for the names other than [n]. *)
Definition only_at (n : string) (tr tr' : InotifyTracker) : Prop :=
  forall m, m <> n -> tr_chans tr' !! m = tr_chans tr !! m /\ tr_done tr' !! m = tr_done tr !! m.

Lemma only_at_trans n tr1 tr2 tr3 : only_at n tr1 tr2 -> only_at n tr2 tr3 -> only_at n tr1 tr3.
Proof. intros H1 H2 m Hm. destruct (H1 m Hm) as [<- <-]. by apply H2. Qed.

Ltac lookups := repeat match goal with
  | H : context [<[?n := _]> _ !! ?m] |- _ => rewrite lookup_insert in H; case_decide; simplify_eq
  | H : delete ?n _ !! ?m = Some _ |- _ => apply lookup_delete_Some in H as [? H]
  | H : _ ∈ {[_]} ∪ _ |- _ => apply elem_of_union in H as [H|H]; [apply elem_of_singleton in H|]
  end.

(** A new channel is not one in use. *)
Ltac by_range Hc Hd := repeat match goal with
  | H : tr_chans _ !! _ = Some _ |- _ => apply Hc in H as []
  | H : tr_done _ !! _ = Some _ |- _ => apply Hd in H as []
  end; lia.

Lemma make_chan_ok n tr : channels_ok tr -> channels_ok (make_chan n tr) /\ only_at n tr (make_chan n tr) /\
  (exists ch, tr_chans (make_chan n tr) !! n = Some ch) /\ tr_done (make_chan n tr) = tr_done tr.
Proof.
  intros [Hc Hd Hcl Hic Hid Hdis]. unfold make_chan. destruct (tr_chans tr !! n) as [ch|] eqn:E; 
    [split; [by split|]; split; [by intros m Hm|]; split; [by eexists|done]|].
  split; [|split; [|split; [|done]]]; [split; cbn [tr_chans tr_done tr_closed tr_next]| |].
  - intros m ch H. lookups; [split; [lia|]|apply Hc in H as []; split; [lia|done]].
    intros Hin%Hcl. lia.
  - intros m d H. apply Hd in H as []. split; [lia|done].
  - intros c H%Hcl. lia.
  - intros m1 m2 ch H1 H2. lookups; first [done|by eapply Hic|by_range Hc Hd].
  - exact Hid.
  - intros m1 m2 ch H1 H2. lookups; first [by eapply Hdis|by_range Hc Hd].
  - intros m Hm. cbn. by rewrite lookup_insert_ne.
  - cbn. exists (tr_next tr). by rewrite lookup_insert_eq.
Qed.

Lemma make_done_ok n tr : channels_ok tr -> channels_ok (make_done n tr) /\ only_at n tr (make_done n tr) /\
  (exists d, tr_done (make_done n tr) !! n = Some d) /\ tr_chans (make_done n tr) = tr_chans tr.
Proof.
  intros [Hc Hd Hcl Hic Hid Hdis]. unfold make_done. destruct (tr_done tr !! n) as [d|] eqn:E; 
    [split; [by split|]; split; [by intros m Hm|]; split; [by eexists|done]|].
  split; [|split; [|split; [|done]]]; [split; cbn [tr_chans tr_done tr_closed tr_next]| |].
  - intros m ch H. apply Hc in H as []. split; [lia|done].
  - intros m d H. lookups; [split; [lia|]|apply Hd in H as []; split; [lia|done]].
    intros Hin%Hcl. lia.
  - intros c H%Hcl. lia.
  - exact Hic.
  - intros m1 m2 d H1 H2. lookups; first [done|by eapply Hid|by_range Hc Hd].
  - intros m1 m2 ch H1 H2. lookups; first [by eapply Hdis|by_range Hc Hd].
  - intros m Hm. cbn. by rewrite lookup_insert_ne.
  - cbn. exists (tr_next tr). by rewrite lookup_insert_eq.
Qed.

Lemma close_chan_ok n tr : channels_ok tr -> channels_ok (close_chan n tr) /\ only_at n tr (close_chan n tr).
Proof.
  intros [Hc Hd Hcl Hic Hid Hdis]. unfold close_chan. destruct (tr_chans tr !! n) as [ch|] eqn:E; [|split; [by split|by intros m Hm]].
  split; [split; cbn [tr_chans tr_done tr_closed tr_next]|].
  - intros m c H. lookups. apply Hc in H as H'. destruct H' as []. split; [done|].
    intros Hin. lookups; [subst c|done]. by eapply (Hic n m) in E.
  - intros m d H. apply Hd in H as H'. destruct H' as []. split; [done|].
    intros Hin. lookups; [subst d|done]. by eapply Hdis.
  - intros c Hin. lookups; [subst c; by apply Hc in E as []|by apply Hcl].
  - intros m1 m2 c H1 H2. lookups. by eapply Hic.
  - exact Hid.
  - intros m1 m2 c H1. lookups. by eapply Hdis.
  - intros m Hm. cbn. by rewrite lookup_delete_ne.
Qed.

Lemma close_done_ok n tr : channels_ok tr -> channels_ok (close_done n tr) /\ only_at n tr (close_done n tr).
Proof.
  intros [Hc Hd Hcl Hic Hid Hdis]. unfold close_done. destruct (tr_done tr !! n) as [d|] eqn:E; [|split; [by split|by intros m Hm]].
  split; [split; cbn [tr_chans tr_done tr_closed tr_next]|].
  - intros m c H. apply Hc in H as H'. destruct H' as []. split; [done|].
    intros Hin. lookups; [subst c|done]. by eapply Hdis.
  - intros m c H. lookups. apply Hd in H as H'. destruct H' as []. split; [done|].
    intros Hin. lookups; [subst c|done]. by eapply (Hid n m) in E.
  - intros c Hin. lookups; [subst c; by apply Hd in E as []|by apply Hcl].
  - exact Hic.
  - intros m1 m2 c H1 H2. lookups. by eapply Hid.
  - intros m1 m2 c H1 H2. lookups. by eapply Hdis.
  - intros m Hm. cbn. by rewrite lookup_delete_ne.
Qed.

Lemma set_watchNum_ok f n tr : channels_ok tr -> channels_ok (set_watchNum f n tr).
Proof. intros []. by split. Qed.
Lemma del_watchNum_ok f tr : channels_ok tr -> channels_ok (del_watchNum f tr).
Proof. intros []. by split. Qed.

Definition has_channels (tr : InotifyTracker) (n : string) (events : option nat) : Prop :=
  exists ch d, tr_chans tr !! n = Some ch /\ tr_done tr !! n = Some d /\ (events = None \/ events = Some ch).

Lemma opened_ok wi tr : channels_ok tr ->
  channels_ok (opened wi tr) /\ only_at (wi_fname wi) tr (opened wi tr) /\ has_channels (opened wi tr) (wi_fname wi) None.
Proof.
  intros H. unfold opened. destruct (make_chan_ok (wi_fname wi) tr H) as (H1 & O1 & (ch & C1) & _).
  destruct (make_done_ok (wi_fname wi) _ H1) as (H2 & O2 & (d & C2) & E). split; [done|]. split; [by eapply only_at_trans|].
  exists ch, d. rewrite E. by auto.
Qed.

Lemma counted_up_ok wi tr : channels_ok tr ->
  channels_ok (counted_up wi tr) /\ only_at (wi_fname wi) tr (counted_up wi tr) /\ has_channels (counted_up wi tr) (wi_fname wi) None.
Proof.
  intros (H & O & C)%(opened_ok wi). unfold counted_up. split; [by apply set_watchNum_ok|]. split; [exact O|exact C].
Qed.

Lemma counted_down_ok wi tr : channels_ok tr -> channels_ok (counted_down wi tr) /\ only_at (wi_fname wi) tr (counted_down wi tr).
Proof.
  intros H. unfold counted_down. cbv zeta. destruct (close_chan_ok (wi_fname wi) tr H) as [H1 O].
  case_bool_decide; (split; [|exact O]); repeat first [apply del_watchNum_ok | apply set_watchNum_ok]; done.
Qed.

(** What a watcher that is alone on its name can rely on: it has channels
    while it watches, and is not turned away by a closed one. *)
Definition client_ok (tr : InotifyTracker) (c : client) : Prop :=
  match cl_pc c with
  | Idle | Failed => True
  | Returned why | RemovingWatch why => why <> ByClosed
  | Removing why => why <> ByClosed /\ has_channels tr (cl_Filename c) None
  | Watching | Checked => has_channels tr (cl_Filename c) None
  | Selecting None | Handling _ None => False
  | Selecting events | Handling _ events => has_channels tr (cl_Filename c) events
  end.

Lemma client_ok_other n tr tr' c : only_at n tr tr' -> cl_Filename c <> n -> client_ok tr c -> client_ok tr' c.
Proof.
  intros O Hn. destruct (O (cl_Filename c) Hn) as [E1 E2]. unfold client_ok, has_channels. by rewrite E1, E2.
Qed.

Definition files_of (cs : list client) : list string := cl_Filename <$> cs.

(** All watchers fine, on files of their own. *)
Record apart (names : list string) (s : wstate (W := W)) : Prop := {
  ap_tracker : channels_ok (ws_tr s);
  ap_names : files_of (ws_clients s) = names;
  ap_clients i c : ws_clients s !! i = Some c -> client_ok (ws_tr s) c;
}.

Lemma files_of_insert cs i c c' : cs !! i = Some c -> cl_Filename c' = cl_Filename c -> files_of (<[i := c']> cs) = files_of cs.
Proof. intros Hi E. unfold files_of. rewrite list_fmap_insert, E. apply list_insert_id. by rewrite list_lookup_fmap, Hi. Qed.

(** A watcher moves, and the tracker changes at most at its name. *)
Lemma apart_move names s i c c' tr' sending w' : NoDup names -> apart names s -> ws_clients s !! i = Some c ->
  cl_Filename c' = cl_Filename c -> channels_ok tr' -> only_at (cl_Filename c) (ws_tr s) tr' -> client_ok tr' c' ->
  apart names (mkWState tr' (<[i := c']> (ws_clients s)) sending w').
Proof.
  intros Hnd [Ht Hn Hc] Hi E Htr Ho Hok. split; cbn [ws_tr ws_clients]; [done|by rewrite (files_of_insert _ _ c)|].
  intros j cj Hj. apply list_lookup_insert_Some in Hj as [(<- & <- & _)|[Hne Hj]]; [done|].
  eapply client_ok_other; [exact Ho| |by eapply Hc]. intros Eq. apply Hne.
  eapply (NoDup_lookup names); [done|rewrite <- Hn; unfold files_of; by rewrite list_lookup_fmap, Hi|].
  rewrite <- Hn. unfold files_of. by rewrite list_lookup_fmap, Hj, <- Eq.
Qed.

Lemma apart_move_same names s i c c' sending w' : NoDup names -> apart names s -> ws_clients s !! i = Some c ->
  cl_Filename c' = cl_Filename c -> client_ok (ws_tr s) c' ->
  apart names (mkWState (ws_tr s) (<[i := c']> (ws_clients s)) sending w').
Proof. intros ? A ? ? ?. eapply apart_move; [done..|apply A|by intros|done]. Qed.

Lemma apart_step names s s' : NoDup names -> Forall (fun n => Clean n = n) names ->
  wstep cwd s s' -> apart names s -> apart names s'.
Proof.
  intros Hnd Hclean Hs A. assert (Hf : forall i c, ws_clients s !! i = Some c -> Clean (cl_Filename c) = cl_Filename c).
  { intros i c Hi. eapply list.Forall_forall in Hclean; [exact Hclean|]. rewrite <- (ap_names _ _ A).
    apply list_elem_of_fmap_2. by eapply list_elem_of_lookup_2. }
  destruct Hs as [s i c create pos tr' w' Hi Hp Hs Ha|s i c create pos e tr' w' Hi Hp Hs Ha|s i c r w' Hi Hp Hc Hst
    |s i c Hi Hp|s evt Hs|s i c ch d evt Hs Hi Hp|s ch d evt Hs Hd|s i c ch Hi Hp Hch|s i c events Hi Hp Hd
    |s i c evt events c' w' Hi Hp Hh|s i c why Hi Hp|s i c why r tr' w' Hi Hp Hs Hr|s i c why Hi Hp|s i c Hi|s i c k fc Hi Hk|s w'];
    try (pose proof (ap_clients _ _ A _ _ Hi) as Hok; unfold client_ok in Hok; try rewrite Hp in Hok); unfold set_client.
  - apply addWatch_tracker in Ha as ->. set (wi := watch_info (called create pos c)).
    destruct (counted_up_ok wi (ws_tr s) (ap_tracker _ _ A)) as (H1 & O & C).
    change (wi_fname wi) with (Clean (cl_Filename c)) in *. rewrite (Hf i c Hi) in *. by eapply apart_move.
  - apply addWatch_tracker in Ha as ->. set (wi := watch_info (called create pos c)).
    destruct (opened_ok wi (ws_tr s) (ap_tracker _ _ A)) as (H1 & O & C).
    change (wi_fname wi) with (Clean (cl_Filename c)) in *. rewrite (Hf i c Hi) in *. by eapply apart_move.
  - eapply apart_move_same; [done..|]. unfold client_ok. cbn [set_pc cl_pc].
    destruct r as [fi|e]; [done|]. by destruct (IsNotExist e).
  - eapply apart_move_same; [done..|]. unfold client_ok. cbn [set_pc cl_pc].
    assert (Hh : has_channels (ws_tr s) (cl_Filename c) None) by (destruct (cl_create c); exact Hok).
    destruct Hh as (ch & d & Hch & Hd & _). rewrite Hch. exists ch, d. by auto.
  - destruct A. by split.
  - by eapply apart_move_same.
  - destruct A. by split.
  - exfalso. destruct Hok as (ch' & d & Hc & _ & [E|E]); [done|]. injection E as <-.
    apply (ck_chans _ (ap_tracker _ _ A)) in Hc as [_ Hc]. done.
  - eapply apart_move_same; [done..|]. unfold client_ok. cbn [set_pc cl_pc]. split; [done|].
    destruct events; [|done]. destruct Hok as (ch & d' & ? & ? & _). exists ch, d'. by auto.
  - apply handle_event_client in Hh as (_ & E2 & _ & Hpc). eapply apart_move_same; [done..|]. unfold client_ok. rewrite E2.
    destruct events; [|done]. destruct Hpc as [->|[->| ->]]; [done|..]; (split; [done|]);
      destruct Hok as (ch & d' & ? & ? & _); exists ch, d'; by auto.
  - destruct (close_done_ok (cl_Filename c) (ws_tr s) (ap_tracker _ _ A)) as [H1 O]. rewrite (Hf i c Hi).
    eapply apart_move; [done..|]. by apply Hok.
  - apply attempt_removeWatch in Hr as ->. destruct (counted_down_ok (watch_info c) (ws_tr s) (ap_tracker _ _ A)) as [H1 O].
    change (wi_fname (watch_info c)) with (Clean (cl_Filename c)) in *. rewrite (Hf i c Hi) in *. by eapply apart_move.
  - by eapply apart_move_same.
  - eapply apart_move_same; [done..|]. exact Hok.
  - eapply apart_move_same; [done..|]. exact Hok.
  - destruct A. by split.
Qed.

Lemma files_of_start names : Forall (fun n => Clean n = n) names -> files_of (NewInotifyFileWatcher <$> names) = names.
Proof.
  unfold files_of. induction 1 as [|n names E _ IH]; [done|]. rewrite !fmap_cons. f_equal; [exact E|exact IH].
Qed.

Lemma reachable_apart names w s : NoDup names -> Forall (fun n => Clean n = n) names ->
  rtc (wstep cwd) (wstart names w) s -> apart names s.
Proof.
  intros Hnd Hclean H. assert (H0 : apart names (wstart names w)).
  { split; cbn [wstart ws_tr ws_clients].
    - split; cbn [new_tracker tr_chans tr_done tr_closed tr_next]; intros *; rewrite ?lookup_empty; try done.
    - by apply files_of_start.
    - intros i c Hi. apply list_lookup_fmap_Some in Hi as (n & -> & _). done. }
  induction H as [s|s1 s2 s3 Hstep _ IH]; [done|]. by eapply IH, apart_step.
Qed.

(** C33. A call that is alone on its file is not turned away: as long as no
    other call watches the same name, it never finds its channel closed, so
    it stops watching only because the follower is stopped, the file is gone,
    or the wait for the file is over. While it waits, every event of its file
    is offered to it, the offer is not called off, and no other call can take
    it. Two followers of one file are not alone, nor is one follower that
    opens a truncated file again while its old goroutine watches: see
    [second_follower_stalls] and [truncated_follower_stalls]. *)
Theorem own_file_heard names w s i c :
  NoDup names -> Forall (fun n => Clean n = n) names -> rtc (wstep cwd) (wstart names w) s ->
  ws_clients s !! i = Some c ->
  (forall why, (cl_pc c = Removing why \/ cl_pc c = RemovingWatch why \/ cl_pc c = Returned why) -> why <> ByClosed) /\
  (forall events, cl_pc c = Selecting events -> exists ch d,
     events = Some ch /\ (ch ∉ tr_closed (ws_tr s)) /\ (d ∉ tr_closed (ws_tr s)) /\
     (forall evt, Clean (ev_Name evt) = cl_Filename c -> sendEvent (ws_tr s) evt = Some (ch, d, evt)) /\
     (forall j c', ws_clients s !! j = Some c' -> cl_pc c' = Selecting (Some ch) -> j = i)).
Proof.
  intros Hnd Hclean Hr Hi. pose proof (reachable_apart _ _ _ Hnd Hclean Hr) as [Ht Hn Hc].
  pose proof (Hc _ _ Hi) as Hok. split.
  - intros why Hp. unfold client_ok in Hok. destruct Hp as [E|[E|E]]; rewrite E in Hok; tauto.
  - intros events E. unfold client_ok in Hok. rewrite E in Hok. destruct events as [ch|]; [|done].
    destruct Hok as (ch' & d & E1 & E2 & [E3|E3]); [done|]. injection E3 as <-. exists ch, d.
    split; [done|]. split; [by eapply ck_chans|]. split; [by eapply ck_done|]. split.
    + intros evt He. unfold sendEvent. by rewrite He, E1, E2.
    + intros j c' Hj Ej. pose proof (Hc _ _ Hj) as Hok'. unfold client_ok in Hok'. rewrite Ej in Hok'.
      destruct Hok' as (ch' & d' & E1' & _ & [E3'|E3']); [done|]. injection E3' as <-.
      pose proof (ck_chans_inj _ Ht _ _ _ E1 E1') as Eq.
      eapply (NoDup_lookup names); [done|rewrite <- Hn; unfold files_of; by rewrite list_lookup_fmap, Hj|].
      rewrite <- Hn. unfold files_of. by rewrite list_lookup_fmap, Hi, <- Eq.
Qed.

(** A goroutine that returned without a notice leaves its follower waiting:
    nothing wakes it, only a new call would. *)
Definition stalled_client (c : client) : Prop := cl_pc c = Returned ByClosed /\ cl_changes c = NewFileChanges.
Definition stalled (i : nat) (s : wstate (W := W)) : Prop := exists c, ws_clients s !! i = Some c /\ stalled_client c.

Lemma stalled_insert (cs : list client) i j c cj c' :
  cs !! i = Some c -> cs !! j = Some cj -> stalled_client c -> (stalled_client cj -> cl_pc c' = Idle \/ stalled_client c') ->
  exists c1, <[j := c']> cs !! i = Some c1 /\ (cl_pc c1 = Idle \/ stalled_client c1).
Proof.
  intros H1 H2 Hs H. destruct (decide (j = i)) as [->|Hne].
  - rewrite H1 in H2. injection H2 as <-. exists c'. rewrite list_lookup_insert_eq by (by eapply lookup_lt_Some). auto.
  - exists c. rewrite list_lookup_insert_ne by done. auto.
Qed.

Lemma stalled_stays i s s' : stalled i s -> wstep cwd s s' ->
  stalled i s' \/ exists c, ws_clients s' !! i = Some c /\ cl_pc c = Idle.
Proof.
  intros (c & Hi & Hst) Hs.
  enough (exists c1, ws_clients s' !! i = Some c1 /\ (cl_pc c1 = Idle \/ stalled_client c1))
    as (c1 & H1 & [H2|H2]); [right; by exists c1|left; by exists c1|].
  destruct Hs; cbn [ws_clients set_client] in *; try (exists c; by auto);
    (eapply stalled_insert; [exact Hi|eassumption|exact Hst|]); intros [E1 E2]; try congruence;
    try (exfalso; match goal with H : cl_pc _ = (if ?b then _ else _) |- _ => rewrite E1 in H; by destruct b end);
    try (by left); right; split; cbn [cl_pc cl_changes]; try done.
  match goal with H : take_change ?k _ = Some _ |- _ => rewrite E2 in H; by destruct k end.
Qed.

(** Runs, step by step: what a scheduler may choose, and the state after. *)
Inductive action :=
  | DoWatch (i : nat) (create : bool) (pos : Z)
  | DoCheck (i : nat)
  | DoEvents (i : nat)
  | DoEvent (evt : Event)
  | DoDeliver (i : nat)
  | DoClosed (i : nat)
  | DoKill (i : nat)
  | DoDying (i : nat)
  | DoHandle (i : nat)
  | DoDone (i : nat)
  | DoRemove (i : nat).

Definition exec (a : action) (s : wstate (W := W)) : option (wstate (W := W)) :=
  match a with
  | DoWatch i create pos =>
      c ← ws_clients s !! i;
      match cl_pc c, ws_sending s with
      | Idle, None =>
          match addWatch (watch_info (called create pos c)) (ws_tr s, ws_w s) with
          | (Ok _, (tr', w')) => Some (mkWState tr' (<[i := called create pos c]> (ws_clients s)) None w')
          | (Err _, (tr', w')) => Some (mkWState tr' (<[i := set_pc Failed c]> (ws_clients s)) None w')
          | _ => None
          end
      | _, _ => None
      end
  | DoCheck i =>
      c ← ws_clients s !! i;
      match cl_pc c, cl_create c, attempt (os_Stat (cl_Filename c)) (ws_w s) with
      | Watching, true, (Ok r, w') =>
          Some (mkWState (ws_tr s)
            (<[i := set_pc (match r with inr e => if IsNotExist e then Checked else Removing ByStat | inl _ => Removing ByStat end) c]>
              (ws_clients s)) (ws_sending s) w')
      | _, _, _ => None
      end
  | DoEvents i =>
      c ← ws_clients s !! i;
      match cl_pc c, cl_create c with
      | Checked, true | Watching, false => Some (set_client i (set_pc (Selecting (tr_chans (ws_tr s) !! cl_Filename c)) c) s)
      | _, _ => None
      end
  | DoEvent evt =>
      match ws_sending s with
      | None => Some (mkWState (ws_tr s) (ws_clients s) (sendEvent (ws_tr s) evt) (ws_w s))
      | Some _ => None
      end
  | DoDeliver i =>
      c ← ws_clients s !! i;
      match ws_sending s, cl_pc c with
      | Some (ch, d, evt), Selecting (Some ch') =>
          if bool_decide (ch' = ch)
          then Some (mkWState (ws_tr s) (<[i := set_pc (Handling evt (Some ch)) c]> (ws_clients s)) None (ws_w s))
          else None
      | _, _ => None
      end
  | DoClosed i =>
      c ← ws_clients s !! i;
      match cl_pc c with
      | Selecting (Some ch) =>
          if bool_decide (ch ∈ tr_closed (ws_tr s)) then Some (set_client i (set_pc (Removing ByClosed) c) s) else None
      | _ => None
      end
  | DoKill i =>
      c ← ws_clients s !! i;
      Some (set_client i (mkClient (cl_create c) (cl_Filename c) (cl_Size c) (cl_changes c) true (cl_pc c)) s)
  | DoDying i =>
      c ← ws_clients s !! i;
      match cl_pc c, cl_dying c with
      | Selecting _, true => Some (set_client i (set_pc (Removing ByDying) c) s)
      | _, _ => None
      end
  | DoHandle i =>
      c ← ws_clients s !! i;
      match cl_pc c with
      | Handling evt events =>
          match handle_event cwd c evt events (ws_w s) with
          | (Ok c', w') => Some (mkWState (ws_tr s) (<[i := c']> (ws_clients s)) (ws_sending s) w')
          | _ => None
          end
      | _ => None
      end
  | DoDone i =>
      c ← ws_clients s !! i;
      match cl_pc c with
      | Removing why => Some (mkWState (close_done (Clean (cl_Filename c)) (ws_tr s))
          (<[i := set_pc (RemovingWatch why) c]> (ws_clients s)) (ws_sending s) (ws_w s))
      | _ => None
      end
  | DoRemove i =>
      c ← ws_clients s !! i;
      match cl_pc c, ws_sending s with
      | RemovingWatch why, None =>
          match attempt (removeWatch (watch_info c)) (ws_tr s, ws_w s) with
          | (Ok _, (tr', w')) => Some (mkWState tr' (<[i := finish why c]> (ws_clients s)) None w')
          | _ => None
          end
      | _, _ => None
      end
  end.

Lemma exec_sound a s s' : exec a s = Some s' -> wstep cwd s s'.
Proof.
  destruct a; cbn [exec]; intros H; try (apply bind_Some in H as (c & Hi & H)).
  2: { destruct (cl_pc c) eqn:Hp; try done. destruct (cl_create c) eqn:Hc; [|done].
       destruct (attempt _ _) as [[r|e|p] w'] eqn:Hr; [|done..]. injection H as <-. by eapply step_check. }
  all: repeat case_match; simplify_eq; try (by econstructor).
  all: try match goal with H : bool_decide _ = true |- _ => apply bool_decide_eq_true in H; subst; by econstructor end.
  1: { match goal with u : unit |- _ => destruct u end. by eapply step_watch. }
  all: eapply step_events; [done|]; by match goal with H : cl_create _ = _ |- _ => rewrite H end.
Qed.

Fixpoint run (acts : list action) (s : wstate (W := W)) : option (wstate (W := W)) :=
  match acts with
  | [] => Some s
  | a :: acts' => s' ← exec a s; run acts' s'
  end.

Lemma run_sound acts s s' : run acts s = Some s' -> rtc (wstep cwd) s s'.
Proof.
  revert s. induction acts as [|a acts IH]; intros s H; cbn [run] in H; [injection H as <-; apply rtc_refl|].
  apply bind_Some in H as (s1 & H1 & H). eapply rtc_l; [by eapply exec_sound|by apply IH].
Qed.
End facts.

(** ** The polling watcher

    Between two polls of the same file, the second one leaves a notice when
    the file changed its size, unless it was empty, or its modification time
    moved on. Modification times do not go back. *)
Lemma poll_notices origFi a b p pa pb :
  Before (st_ModTime a) (po_prevModTime p) = false ->
  poll_turn origFi (inl a) p = Ok (PollOn pa) ->
  poll_turn origFi (inl b) (mkPoller (po_Size pa) (po_prevSize pa) (po_prevModTime pa) NewFileChanges) = Ok (PollOn pb) ->
  (0 < st_Size a /\ st_Size b <> st_Size a) \/ Before (st_ModTime a) (st_ModTime b) = true ->
  po_changes pb <> NewFileChanges.
Proof.
  intros Hp Ha Hb Hab.
  assert (Hpa : po_prevSize pa = st_Size a /\ (po_prevModTime pa = po_prevModTime p \/ po_prevModTime pa = st_ModTime a)).
  { unfold poll_turn in Ha. destruct (SameFile origFi a); [|done]. cbn [negb] in Ha.
    repeat (destruct (bool_decide _ && bool_decide _); [injection Ha as <-; cbn; auto|]).
    case_bool_decide; injection Ha as <-; cbn; auto. }
  destruct Hpa as [Hsize Hmod]. unfold poll_turn in Hb. destruct (SameFile origFi b); [|done].
  cbn [negb po_prevSize po_prevModTime po_changes] in Hb. rewrite Hsize in Hb.
  destruct (bool_decide (0 < st_Size a) && bool_decide (st_Size b < st_Size a)) eqn:E1; [by injection Hb as <-|].
  destruct (bool_decide (0 < st_Size a) && bool_decide (st_Size a < st_Size b)) eqn:E2; [by injection Hb as <-|].
  case_bool_decide as E3; [|by injection Hb as <-]. exfalso.
  destruct Hab as [[Hpos Hne]|Hlater].
  - rewrite (bool_decide_eq_true_2 (0 < st_Size a)) in E1, E2 by done. cbn [andb] in *.
    apply bool_decide_eq_false in E1, E2. lia.
  - rewrite E3 in Hlater. destruct Hmod as [E|E]; rewrite E in Hlater; [congruence|by rewrite Before_irrefl in Hlater].
Qed.

(** ** Examples *)

Module WatchExamples.
(** A file system on which the log of a job exists and grows. *)
#[export] Instance demo_watch : WatchOS unit := {|
  os_Stat _ := mret (mkFileStat 1 10 zero_time);
  watcher_Add _ := mret tt;
  watcher_Remove _ := mret tt |}.

Definition log : string := "/home/u/slurm-7.out".
Definition wrote : Event := mkEvent log op_Write.

(** The size was known to be 10 and the file is empty for a moment: the turn
    says truncated; a growth says modified. *)
Example poll_examples :
  let fi n := mkFileStat 1 n zero_time in
  (poll_turn (fi 10) (inl (fi 0)) (poll_start 10), poll_turn (fi 10) (inl (fi 12)) (poll_start 10),
   poll_turn (fi 10) (inl (mkFileStat 2 10 zero_time)) (poll_start 10)) =
  (Ok (PollOn (mkPoller 0 0 zero_time (mkFileChanges [] [true] []))),
   Ok (PollOn (mkPoller 12 12 zero_time (mkFileChanges [true] [] []))),
   Ok (PollEnd (mkPoller 10 10 zero_time (mkFileChanges [] [] [true])))).
Proof. reflexivity. Qed.

(** One follower: a written file is noticed. *)
Definition one_run : list action := [DoWatch 0 false 5; DoEvents 0; DoEvent wrote; DoDeliver 0; DoHandle 0].
Example one_follower_notified :
  (fun s => cl_changes <$> ws_clients s) <$> run "/" one_run (wstart [log] tt) = Some [mkFileChanges [true] [] []].
Proof. vm_compute. reflexivity. Qed.

(** Two followers of two files, the first one waiting. *)
Definition files : list string := [log; "/home/u/slurm-8.out"].
Definition apart_run : list action := [DoWatch 0 false 5; DoWatch 1 false 0; DoEvents 0].
Definition apart_end : wstate (W := unit) := default (wstart [] tt) (run "/" apart_run (wstart files tt)).
Lemma apart_reached : rtc (wstep "/") (wstart files tt) apart_end.
Proof. apply run_sound with (acts := apart_run). vm_compute. reflexivity. Qed.

Lemma watched_while_wanted_witness :
  tr_watchNums (ws_tr apart_end) !! log = Some 1 /\
  forall wi, watch_target wi = log -> (addWatch wi (ws_tr apart_end, tt)).2.2 = tt.
Proof.
  destruct (watched_while_wanted "/" files tt apart_end log apart_reached) as (H1 & H2 & _).
  split; [rewrite H1; vm_compute; reflexivity|]. intros wi Hwi. by rewrite (H2 wi tt Hwi).
Defined.

Lemma own_file_heard_witness : exists ch d,
  ws_clients apart_end !! 0%nat = Some (mkClient false log 5 NewFileChanges false (Selecting (Some ch))) /\
  (d ∉ tr_closed (ws_tr apart_end)) /\ sendEvent (ws_tr apart_end) wrote = Some (ch, d, wrote).
Proof.
  set (c := mkClient false log 5 NewFileChanges false (Selecting (Some 0%nat))).
  assert (Hc : ws_clients apart_end !! 0%nat = Some c) by (vm_compute; reflexivity).
  assert (Hnd : NoDup files) by by_compute.
  assert (Hcl : Forall (fun n => Clean n = n) files) by by_compute.
  destruct (own_file_heard "/" files tt apart_end 0 c Hnd Hcl apart_reached Hc) as [_ H].
  destruct (H (Some 0%nat) eq_refl) as (ch & d & E & _ & Hd & Hev & _). injection E as <-.
  exists 0%nat, d. split; [exact Hc|]. split; [exact Hd|]. apply Hev. by_compute.
Defined.

(** Two followers of one file; the first is stopped. *)
Definition two_run : list action :=
  [DoWatch 0 false 5; DoWatch 1 false 5; DoEvents 0; DoEvents 1; DoKill 0; DoDying 0; DoDone 0; DoRemove 0;
   DoClosed 1; DoDone 1; DoRemove 1].
Definition two_end : wstate (W := unit) := default (wstart [] tt) (run "/" two_run (wstart [log; log] tt)).

(** Two followers of one file are not independent: there is a run in
    which the first one is stopped, the second one's watcher finds the
    channel they share closed and returns, and the second follower, which
    nobody stopped, has no notice and will not get one: it stays so until it
    calls again. *)
Theorem second_follower_stalls : exists s c,
  rtc (wstep "/") (wstart [log; log] tt) s /\ ws_clients s !! 1%nat = Some c /\ cl_dying c = false /\ stalled 1 s /\
  (forall s' s'', rtc (wstep "/") s s' -> stalled 1 s' -> wstep "/" s' s'' ->
     stalled 1 s'' \/ exists c, ws_clients s'' !! 1%nat = Some c /\ cl_pc c = Idle).
Proof.
  set (c := mkClient false log 5 NewFileChanges false (Returned ByClosed)).
  assert (Hc : ws_clients two_end !! 1%nat = Some c) by (vm_compute; reflexivity).
  exists two_end, c.
  split; [|split; [exact Hc|split; [done|split]]].
  - apply run_sound with (acts := two_run). vm_compute. reflexivity.
  - exists c. split; [exact Hc|by split].
  - intros s' s'' _. apply stalled_stays.
Qed.

(** A truncated file that is removed and made again: client 0 is the
    goroutine of [ChangeEvents], client 1 the [BlockUntilExists] of [reopen],
    which finds the new file. *)
Definition truncated : Event := mkEvent log op_Write.
Definition truncated_run : list action :=
  [DoWatch 0 false 20; DoEvents 0; DoEvent truncated; DoDeliver 0; DoHandle 0;
   DoWatch 1 true 0; DoCheck 1; DoDone 1; DoRemove 1; DoClosed 0; DoDone 0; DoRemove 0].
Definition truncated_end : wstate (W := unit) := default (wstart [] tt) (run "/" truncated_run (wstart [log; log] tt)).

Lemma take_truncated_stalls (s : wstate (W := unit)) i c :
  ws_clients s !! i = Some c -> cl_pc c = Returned ByClosed -> cl_changes c = mkFileChanges [] [true] [] ->
  exists s', wstep "/" s s' /\ stalled i s'.
Proof.
  intros Hi Hp Hc. eexists. split.
  - apply (step_take "/" s i c GotTruncated NewFileChanges Hi). by rewrite Hc.
  - eexists. split; [apply list_lookup_insert_eq; by eapply lookup_lt_Some|]. by split.
Qed.

(** One follower gets in its own way when the file is gone as it opens it
    after a truncation: the end of [BlockUntilExists] closes the channel of
    its own goroutine of [ChangeEvents], which returns. All it leaves is the
    notice of the truncation, which the follower has already received; there
    will be no other until it calls again, and it does not, since it still
    has the channels of that goroutine. *)
Theorem truncated_follower_stalls : exists s c,
  rtc (wstep "/") (wstart [log; log] tt) s /\ ws_clients s !! 0%nat = Some c /\ cl_dying c = false /\
  cl_pc c = Returned ByClosed /\ cl_changes c = mkFileChanges [] [true] [] /\
  exists s', wstep "/" s s' /\ stalled 0 s' /\
    forall s1 s2, rtc (wstep "/") s' s1 -> stalled 0 s1 -> wstep "/" s1 s2 ->
      stalled 0 s2 \/ exists c, ws_clients s2 !! 0%nat = Some c /\ cl_pc c = Idle.
Proof.
  set (c := mkClient false log 10 (mkFileChanges [] [true] []) false (Returned ByClosed)).
  assert (Hc : ws_clients truncated_end !! 0%nat = Some c) by (vm_compute; reflexivity).
  destruct (take_truncated_stalls truncated_end 0 c Hc eq_refl eq_refl) as (s' & Hs & Hst).
  exists truncated_end, c.
  split; [|split; [exact Hc|split; [done|split; [done|split; [done|]]]]].
  - apply run_sound with (acts := truncated_run). vm_compute. reflexivity.
  - exists s'. split; [exact Hs|split; [exact Hst|]]. intros s1 s2 _. apply stalled_stays.
Qed.
End WatchExamples.
