(* ===== verification/Files.v ===== *)
(** * Files (pkg/filesystem, pkg/slurm-virtual-kubelet/util/files)

    The file system interface of the virtual kubelet, its implementation on
    package [os], and the helpers that create and replace files. The calls of
    the interface run in a state [W]; [FsLaws] says what they mean for the
    regular files of a file system without links, and [DefaultFs] passes the
    laws of [os] on. [ReplaceFile] is shown to be atomic: whatever call
    fails, the file has its old content or the new one. *)

From S2P Require Import Prelude GoStrings GoNum GoTime GoPath.

(** ** The interface *)

Inductive file_kind := Regular | Directory | OtherKind.
Record FileInfo := mkFileInfo { fi_kind : file_kind; fi_mode : string }.

Record DirEntry := mkDirEntry { de_Name : string; de_kind : file_kind }.

(** An open file: its name and a descriptor. *)
Record File := mkFile { file_Name : string; file_fd : nat }.

Class Filesystem (W : Type) := {
  fs_Stat : string -> M W FileInfo;
  fs_Create : string -> M W File;
  fs_Rename : string -> string -> M W unit;
  fs_MkdirAll : string -> M W unit;
  fs_Chtimes : string -> Time -> Time -> M W unit;
  fs_RemoveAll : string -> M W unit;
  fs_Remove : string -> M W unit;
  fs_ReadFile : string -> M W string;
  fs_TempDir : string -> string -> M W string;
  fs_TempFile : string -> string -> M W File;
  fs_ReadDir : string -> M W (list DirEntry);
  fs_Walk : string -> (string -> FileInfo -> option error -> M W unit) -> M W unit;
  file_Write : File -> string -> M W unit;
  file_Sync : File -> M W unit;
  file_Close : File -> M W unit;
}.

(** ** DefaultFs

    The functions of package [os] have the types of the interface; a root
    directory, if there is one, is put in front of the names. *)

Definition fs_prefix (root path : string) : string :=
  if nonempty root then filepath_Join root path else path.

Definition DefaultFs {W} (root : string) (os : Filesystem W) : Filesystem W := {|
  fs_Stat name := @fs_Stat W os (fs_prefix root name);
  fs_Create name := @fs_Create W os (fs_prefix root name);
  fs_Rename oldpath newpath :=
    let oldpath := if HasPrefix oldpath root then oldpath else fs_prefix root oldpath in
    let newpath := if HasPrefix newpath root then newpath else fs_prefix root newpath in
    @fs_Rename W os oldpath newpath;
  fs_MkdirAll path := @fs_MkdirAll W os (fs_prefix root path);
  fs_Chtimes name atime mtime := @fs_Chtimes W os (fs_prefix root name) atime mtime;
  fs_RemoveAll path := @fs_RemoveAll W os (fs_prefix root path);
  fs_Remove name := @fs_Remove W os (fs_prefix root name);
  fs_ReadFile filename := @fs_ReadFile W os (fs_prefix root filename);
  fs_TempDir dir prefix := @fs_TempDir W os (fs_prefix root dir) prefix;
  fs_TempFile dir prefix := @fs_TempFile W os (fs_prefix root dir) prefix;
  fs_ReadDir dirname := @fs_ReadDir W os (fs_prefix root dirname);
  fs_Walk dir walkFn := @fs_Walk W os (fs_prefix root dir) walkFn;
  file_Write := @file_Write W os;
  file_Sync := @file_Sync W os;
  file_Close := @file_Close W os |}.

(** A file system in a temporary directory; without one, at the root. *)
Definition NewTempFs {W} (os : Filesystem W) : M W (Filesystem W) :=
  r ← attempt (@fs_TempDir W os "" "tmpfs");
  mret (DefaultFs (match r with inl path => path | inr _ => "" end) os).

(** ** The watcher of fsnotify (watcher.go) *)

(** What the library notices: an event at a path, or an error. *)
Inductive notice := FsEvent (path op : string) | FsError (e : error).

(** [Watcher] is the watcher of the library; the handlers may be nil. *)
Record fsnotifyWatcher (W Watcher : Type) := mkfsnotifyWatcher {
  fw_watcher : option Watcher;
  fw_eventHandler : option (string -> string -> M W unit);
  fw_errorHandler : option (error -> M W unit);
}.
Arguments mkfsnotifyWatcher {W Watcher}.
Arguments fw_watcher {W Watcher}.
Arguments fw_eventHandler {W Watcher}.
Arguments fw_errorHandler {W Watcher}.

Section watcher.
Context {W Watcher : Type}.
Variable NewWatcher : M W Watcher.
Variable watcher_Add : Watcher -> string -> M W unit.

Definition NewFsnotifyWatcher : fsnotifyWatcher W Watcher := mkfsnotifyWatcher None None None.

(** The library's method on a nil watcher dereferences it. *)
Definition AddWatch (w : fsnotifyWatcher W Watcher) (path : string) : M W unit :=
  l ← lift (of_option NilDeref (fw_watcher w));
  watcher_Add l path.

Definition Init (eventHandler : option (string -> string -> M W unit)) (errorHandler : option (error -> M W unit)) : M W (fsnotifyWatcher W Watcher) :=
  l ← NewWatcher;
  mret (mkfsnotifyWatcher (Some l) eventHandler errorHandler).

(** A turn of the goroutine of [Run], and its turns for a list of notices. *)
Definition handle_notice (w : fsnotifyWatcher W Watcher) (n : notice) : M W unit :=
  match n with
  | FsEvent path op => match fw_eventHandler w with Some h => h path op | None => mret tt end
  | FsError e => match fw_errorHandler w with Some h => h e | None => mret tt end
  end.
Definition run_watcher (w : fsnotifyWatcher W Watcher) (notices : list notice) : M W unit := forM notices (handle_notice w).

(** A watcher without handlers swallows what it is told. *)
Lemma run_watcher_silent notices w : run_watcher NewFsnotifyWatcher notices w = (Ok tt, w).
Proof. induction notices as [|n l IH]; [done|]. unfold run_watcher. cbn [forM]. by destruct n; apply IH. Qed.
End watcher.

(** ** The helpers *)

Definition tmpTag : string := "tmp_".

Definition err_of {A} (r : A + error) : option error := match r with inl _ => None | inr e => Some e end.

Section files.
Context {W : Type} {FS : Filesystem W}.

Definition FileExists (path : string) : M W bool :=
  r ← attempt (fs_Stat path);
  match r with
  | inl info =>
      match fi_kind info with
      | Regular => mret true
      | _ => fail (ErrNew ("expected regular file at " +:+ quoted path +:+ ", but mode is " +:+ quoted (fi_mode info)))
      end
  | inr err => if IsNotExist err then mret false else fail err
  end.

Definition EnsureFile (path : string) : M W unit :=
  ok ← FileExists path;
  match ok with
  | true => mret tt
  | false => fs_MkdirAll (Dir path);; file ← fs_Create path; file_Close file
  end.

(** The deferred call of [WriteTmpFile]: close the file and, after any error,
    remove it. The results are the named results of the function. *)
Definition tmp_cleanup (tmpFile : File) (tmpPath : string) (retErr : option error) : M W (string * option error) :=
  c ← attempt (file_Close tmpFile);
  match (match retErr with None => err_of c | _ => retErr end) with
  | None => mret (tmpPath, None)
  | Some e =>
      r ← attempt (fs_Remove tmpPath);
      mret ("", Some (match r with
        | inl _ => e
        | inr err => ErrFmt ("attempted to remove temporary file " +:+ quoted tmpPath) (ErrFmt2 e err)
        end))
  end.

Definition WriteTmpFile (path data : string) : M W (string * option error) :=
  t ← attempt (fs_TempFile (Dir path) (tmpTag +:+ Base path));
  match t with
  | inr err => mret ("", Some err)
  | inl tmpFile =>
      w ← attempt (file_Write tmpFile data);
      retErr ← match w with
               | inr err => mret (Some err)
               | inl _ => s ← attempt (file_Sync tmpFile); mret (err_of s)
               end;
      tmp_cleanup tmpFile (file_Name tmpFile) retErr
  end.

Definition ReplaceFile (path data : string) : M W unit :=
  t ← WriteTmpFile path data;
  match t with
  | (_, Some err) => fail err
  | (tmpPath, None) => fs_Rename tmpPath path
  end.

Definition DirExists (path : string) : M W bool :=
  r ← attempt (fs_Stat path);
  match r with
  | inl info =>
      match fi_kind info with
      | Directory => mret true
      | _ => fail (ErrNew ("expected dir at " +:+ quoted path +:+ ", but mode is " +:+ quoted (fi_mode info)))
      end
  | inr err => if IsNotExist err then mret false else fail err
  end.

Definition EnsureDir (path : string) : M W unit :=
  ok ← DirExists path;
  match ok with true => mret tt | false => fs_MkdirAll path end.

(** *** Directories *)

Definition check_key (name : string) : res unit :=
  if bool_decide (name = "") then Err (ErrNew ("invalid file key: must not be empty: " +:+ quoted name))
  else if negb (bool_decide (name = Base name)) then
    Err (ErrNew ("invalid file key " +:+ quoted name +:+ ", only base names are allowed"))
  else if bool_decide (name = ".") || bool_decide (name = "..") then
    Err (ErrNew "invalid file key, may not be '.' or '..'")
  else if bool_decide (255 < str_len name)%Z then
    Err (ErrNew ("invalid file key " +:+ quoted name +:+ ", must be less than 255 characters"))
  else Ok tt.

(** The loop that writes the files; the open files are closed by deferred
    calls, the last one first. *)
Fixpoint write_files (tmpPath : string) (files : list (string * string)) (opened : list File) :
    M W (list File * option error) :=
  match files with
  | [] => mret (opened, None)
  | (name, data) :: files' =>
      c ← attempt (fs_Create (filepath_Join tmpPath name));
      match c with
      | inr err => mret (opened, Some err)
      | inl file =>
          w ← attempt (file_Write file data);
          match w with
          | inr err => mret (file :: opened, Some err)
          | inl _ =>
              s ← attempt (file_Sync file);
              match s with
              | inr err => mret (file :: opened, Some err)
              | inl _ => write_files tmpPath files' (file :: opened)
              end
          end
      end
  end.

Fixpoint close_files (opened : list File) (retErr : option error) : M W (option error) :=
  match opened with
  | [] => mret retErr
  | file :: opened' =>
      c ← attempt (file_Close file);
      close_files opened' (match retErr with None => err_of c | _ => retErr end)
  end.

(** The two loops over the map take its entries in any order: [order1] and
    [order2] are the orders they take. *)
Definition WriteTempDir (path : string) (order1 order2 : list (string * string)) : M W (string * option error) :=
  match mapR check_key order1.*1 with
  | Err err => mret ("", Some err)
  | Panic p => panicM p
  | Ok _ =>
      t ← attempt (fs_TempDir (Dir path) (tmpTag +:+ Base path));
      match t with
      | inr err => mret ("", Some err)
      | inl tmpPath =>
          r ← write_files tmpPath order2 [];
          retErr ← close_files r.1 r.2;
          match retErr with
          | None => mret (tmpPath, None)
          | Some e =>
              rm ← attempt (fs_RemoveAll tmpPath);
              mret (tmpPath, Some (match rm with
                | inl _ => e
                | inr err => ErrFmt ("attempted to remove temporary directory " +:+ quoted tmpPath) (ErrFmt2 e err)
                end))
          end
      end
  end.

Definition ReplaceDir (path : string) (order1 order2 : list (string * string)) : M W unit :=
  t ← WriteTempDir path order1 order2;
  match t with
  | (_, Some err) => fail err
  | (tmpPath, None) => fs_Rename tmpPath path
  end.
End files.

(** ** What the calls mean *)

(** The regular files of a file system without links, by clean absolute
    path, and the open files whose offset is at the end. *)
Class FsView (W : Type) := {
  fs_files : W -> gmap string string;
  at_end : W -> File -> Prop;
}.

(** A failed call changes nothing, but a failed write may leave any part of
    the data. *)
Class FsLaws (W : Type) {FS : Filesystem W} {FV : FsView W} := {
  law_TempFile dir prefix w : clean_abs dir ->
    wp (fs_TempFile dir prefix) (fun r w' =>
      match r with
      | Ok f =>
          clean_abs (file_Name f) /\ HasPrefix (Base (file_Name f)) prefix = true /\
          fs_files w !! file_Name f = None /\ fs_files w' = <[file_Name f := ""]> (fs_files w) /\ at_end w' f
      | Err _ => fs_files w' = fs_files w
      | Panic _ => False
      end) w;
  law_Write f data c w : at_end w f -> fs_files w !! file_Name f = Some c ->
    wp (file_Write f data) (fun r w' =>
      match r with
      | Ok _ => fs_files w' = <[file_Name f := c +:+ data]> (fs_files w) /\ at_end w' f
      | Err _ => exists part, fs_files w' = <[file_Name f := part]> (fs_files w)
      | Panic _ => False
      end) w;
  law_Create path w : clean_abs path ->
    wp (fs_Create path) (fun r w' =>
      match r with
      | Ok f => file_Name f = path /\ fs_files w' = <[path := ""]> (fs_files w) /\ at_end w' f
      | Err _ => fs_files w' = fs_files w
      | Panic _ => False
      end) w;
  law_MkdirAll path w : wp (fs_MkdirAll path) (fun r w' => no_panic r /\ fs_files w' = fs_files w) w;
  law_Sync f w : wp (file_Sync f) (fun r w' => no_panic r /\ fs_files w' = fs_files w) w;
  law_Close f w : wp (file_Close f) (fun r w' => no_panic r /\ fs_files w' = fs_files w) w;
  law_Remove path w : clean_abs path ->
    wp (fs_Remove path) (fun r w' =>
      match r with
      | Ok _ => fs_files w' = delete path (fs_files w)
      | Err _ => fs_files w' = fs_files w
      | Panic _ => False
      end) w;
  law_Rename oldpath newpath c w : clean_abs oldpath -> clean_abs newpath -> fs_files w !! oldpath = Some c ->
    wp (fs_Rename oldpath newpath) (fun r w' =>
      match r with
      | Ok _ => fs_files w' = <[newpath := c]> (delete oldpath (fs_files w))
      | Err _ => fs_files w' = fs_files w
      | Panic _ => False
      end) w;
}.

(** Without a root the files of [DefaultFs] are those of [os]. *)
Lemma DefaultFs_laws {W} (os : Filesystem W) {FV : FsView W} :
  FsLaws W (FS := os) -> FsLaws W (FS := DefaultFs "" os).
Proof.
  intros L. split.
  - apply (law_TempFile (FS := os)).
  - apply (law_Write (FS := os)).
  - apply (law_Create (FS := os)).
  - apply (law_MkdirAll (FS := os)).
  - apply (law_Sync (FS := os)).
  - apply (law_Close (FS := os)).
  - apply (law_Remove (FS := os)).
  - intros oldpath newpath. cbn. replace (if HasPrefix oldpath "" then _ else _) with oldpath by by destruct (HasPrefix _ _).
    replace (if HasPrefix newpath "" then _ else _) with newpath by by destruct (HasPrefix _ _).
    apply (law_Rename (FS := os)).
Qed.

(** ** Replacing a file *)

Section replace.
Context {W : Type} {FS : Filesystem W} {FV : FsView W} {FL : FsLaws W}.

(** The files are those of [w], but for a leftover temporary file. *)
Definition leftover (path : string) (w w' : W) : Prop :=
  exists tmp part, tmp <> path /\ fs_files w !! tmp = None /\ HasPrefix (Base tmp) (tmpTag +:+ Base path) = true /\
    fs_files w' = <[tmp := part]> (fs_files w).
Definition unchanged (path : string) (w w' : W) : Prop := fs_files w' = fs_files w \/ leftover path w w'.

(** A temporary file of [path] is not [path]. *)
Lemma tmp_differs tmp path : HasPrefix (Base tmp) (tmpTag +:+ Base path) = true -> tmp <> path.
Proof.
  intros H ->. apply prefix_inv in H. apply (f_equal String.length) in H.
  rewrite !length_str_app in H. cbn in H. lia.
Qed.

Lemma tmp_cleanup_spec path tmp f e part w w0 :
  clean_abs tmp -> file_Name f = tmp -> fs_files w0 !! tmp = None ->
  HasPrefix (Base tmp) (tmpTag +:+ Base path) = true -> fs_files w = <[tmp := part]> (fs_files w0) ->
  wp (tmp_cleanup f tmp e) (fun r w' =>
    (r = Ok (tmp, None) /\ e = None /\ fs_files w' = fs_files w) \/
    (exists err, r = Ok ("", Some err) /\ unchanged path w0 w')) w.
Proof.
  intros Hc <- Hnone Hp Hw. unfold tmp_cleanup. apply wp_bind, wp_attempt.
  eapply wp_mono; [apply law_Close|]. intros r w1 [Hnp Hw1].
  assert (Hrm : forall err, wp (r ← attempt (fs_Remove (file_Name f));
      mret ("", Some (match r with
        | inl _ => err
        | inr err' => ErrFmt ("attempted to remove temporary file " +:+ quoted (file_Name f)) (ErrFmt2 err err')
        end))) (fun r w' =>
    (r = Ok (file_Name f, None) /\ e = None /\ fs_files w' = fs_files w) \/
    (exists err, r = Ok ("", Some err) /\ unchanged path w0 w')) w1).
  { intros err. apply wp_bind, wp_attempt. eapply wp_mono; [by apply law_Remove|].
    intros [u|err'|p] w2 H2; [| |done]; cbn [attempted after]; apply wp_ret; right; eexists; (split; [done|]).
    - left. by rewrite H2, Hw1, Hw, delete_insert_id.
    - right. exists (file_Name f), part. split_and!; [by apply tmp_differs|done..|]. by rewrite H2, Hw1, Hw. }
  destruct r as [u|err|p]; [| |done]; cbn [attempted after err_of]; destruct e as [e|]; try apply Hrm.
  apply wp_ret. left. by rewrite Hw1.
Qed.

Lemma WriteTmpFile_spec path data w : clean_abs path ->
  wp (WriteTmpFile path data) (fun r w' =>
    (exists tmp, r = Ok (tmp, None) /\ clean_abs tmp /\ fs_files w !! tmp = None /\
      HasPrefix (Base tmp) (tmpTag +:+ Base path) = true /\ fs_files w' = <[tmp := data]> (fs_files w)) \/
    (exists err, r = Ok ("", Some err) /\ unchanged path w w')) w.
Proof.
  intros Hpath. unfold WriteTmpFile. apply wp_bind, wp_attempt.
  eapply wp_mono; [by apply law_TempFile, Dir_abs|]. intros [f|err|p] w1 H1; [| |done]; cbn [attempted after].
  2: { apply wp_ret. right. eexists. split; [done|]. by left. }
  destruct H1 as (Hc & Hp & Hnone & Hw1 & Hend).
  assert (Hclean : forall e part w2, fs_files w2 = <[file_Name f := part]> (fs_files w) -> e = None -> part = data ->
    wp (tmp_cleanup f (file_Name f) e) (fun r w' =>
      (exists tmp, r = Ok (tmp, None) /\ clean_abs tmp /\ fs_files w !! tmp = None /\
        HasPrefix (Base tmp) (tmpTag +:+ Base path) = true /\ fs_files w' = <[tmp := data]> (fs_files w)) \/
      (exists err, r = Ok ("", Some err) /\ unchanged path w w')) w2).
  { intros e part w2 Hw2 -> ->. eapply wp_mono; [by eapply tmp_cleanup_spec|].
    intros r w3 [(-> & _ & Hw3)|H3]; [left|by right]. exists (file_Name f). by rewrite Hw3. }
  assert (Hfail : forall e part w2, fs_files w2 = <[file_Name f := part]> (fs_files w) ->
    wp (tmp_cleanup f (file_Name f) (Some e)) (fun r w' =>
      (exists tmp, r = Ok (tmp, None) /\ clean_abs tmp /\ fs_files w !! tmp = None /\
        HasPrefix (Base tmp) (tmpTag +:+ Base path) = true /\ fs_files w' = <[tmp := data]> (fs_files w)) \/
      (exists err, r = Ok ("", Some err) /\ unchanged path w w')) w2).
  { intros e part w2 Hw2. eapply wp_mono; [by eapply tmp_cleanup_spec|].
    intros r w3 [(_ & He & _)|H3]; [done|by right]. }
  apply wp_bind, wp_attempt. eapply wp_mono; [apply (law_Write f data ""); [done|by rewrite Hw1, lookup_insert_eq]|].
  intros [u|err|p] w2 H2; [| |done]; cbn [attempted after]; apply wp_bind.
  - destruct H2 as [H2 _]. rewrite Hw1, insert_insert_eq in H2. cbn [String.append] in H2.
    apply wp_bind, wp_attempt. eapply wp_mono; [apply law_Sync|].
    intros r w3 [Hnp Hw3]. rewrite <- Hw3 in H2. destruct r as [u'|err|p]; [| |done]; cbn [attempted after err_of]; apply wp_ret; cbn [after].
    + by eapply Hclean.
    + by eapply Hfail.
  - destruct H2 as [part H2]. rewrite Hw1, insert_insert_eq in H2. apply wp_ret. by eapply Hfail.
Qed.

(** C38. Replacing a file is atomic, whichever call fails: on success the
    file has the new content and nothing else changed; on an error the file,
    and every other, is as it was, but for a new temporary file beside it. *)
Theorem ReplaceFile_atomic path data w : clean_abs path ->
  let '(r, w') := ReplaceFile path data w in
  match r with
  | Ok _ => fs_files w' = <[path := data]> (fs_files w)
  | Err _ => unchanged path w w' /\ fs_files w' !! path = fs_files w !! path
  | Panic _ => False
  end.
Proof.
  intros Hpath.
  assert (Hold : forall w', unchanged path w w' -> fs_files w' !! path = fs_files w !! path).
  { intros w' [->|(tmp & part & Hne & _ & _ & ->)]; [done|]. by apply lookup_insert_ne. }
  enough (Hwp : wp (ReplaceFile path data) (fun r w' => match r with
    | Ok _ => fs_files w' = <[path := data]> (fs_files w)
    | Err _ => unchanged path w w'
    | Panic _ => False end) w).
  { unfold wp in Hwp. destruct (ReplaceFile path data w) as [[u|e|p] w']; cbn in Hwp; auto. }
  unfold ReplaceFile. apply wp_bind. eapply wp_mono; [by apply WriteTmpFile_spec|].
  intros r w1 [(tmp & -> & Hc & Hnone & Hp & Hw1)|(err & -> & Hun)]; cbn [after]; [|exact Hun].
  eapply wp_mono; [apply (law_Rename tmp path data); [done..|by rewrite Hw1, lookup_insert_eq]|].
  intros [u|e|p] w2 H2; [| |done].
  - by rewrite H2, Hw1, delete_insert_id.
  - right. exists tmp, data. split_and!; [by apply tmp_differs|done..|]. by rewrite H2.
Qed.
End replace.

Module FilesExamples.
(** Files in memory; the entries of [mf_faults] say which of the next calls
    fail, and a failing write stores half of the data. *)
Record MemFs := mkMemFs { mf_files : gmap string string; mf_next : nat; mf_faults : list bool }.

Definition may_fail {A} (bad : MemFs -> MemFs) (m : M MemFs A) : M MemFs A := fun w =>
  match mf_faults w with
  | true :: faults => (Err (ErrOS OsOther), bad (mkMemFs (mf_files w) (mf_next w) faults))
  | _ :: faults => m (mkMemFs (mf_files w) (mf_next w) faults)
  | [] => m w
  end.

Definition set_file (path data : string) (w : MemFs) : MemFs :=
  mkMemFs (<[path := data]> (mf_files w)) (mf_next w) (mf_faults w).

Definition mem_temp (dir prefix : string) : M MemFs File := fun w =>
  let name := filepath_Join dir (prefix +:+ FormatInt (Z.of_nat (mf_next w))) in
  if IsAbs dir && HasPrefix (Base name) prefix && bool_decide (mf_files w !! name = None) then
    (Ok (mkFile name 3), mkMemFs (<[name := ""]> (mf_files w)) (S (mf_next w)) (mf_faults w))
  else (Err (ErrOS OsOther), w).

Definition mem_stat (path : string) : M MemFs FileInfo := fun w =>
  match mf_files w !! path with
  | Some _ => (Ok (mkFileInfo Regular "-rw-r--r--"), w)
  | None => (Err (ErrOS NotExist), w)
  end.

Definition mem_rename (oldpath newpath : string) : M MemFs unit := fun w =>
  match mf_files w !! oldpath with
  | Some c => (Ok tt, mkMemFs (<[newpath := c]> (delete oldpath (mf_files w))) (mf_next w) (mf_faults w))
  | None => (Err (ErrOS NotExist), w)
  end.

(** The calls when none fails, and with the faults. *)
Definition quiet_fs : Filesystem MemFs := {|
  fs_Stat := mem_stat;
  fs_Create path := modify (set_file path "");; mret (mkFile path 4);
  fs_Rename := mem_rename;
  fs_MkdirAll _ := mret tt;
  fs_Chtimes _ _ _ := mret tt;
  fs_RemoveAll path := modify (fun w => mkMemFs
    (filter (fun kv => HasPrefix kv.1 (path +:+ slash) = false) (mf_files w)) (mf_next w) (mf_faults w));
  fs_Remove path := modify (fun w => mkMemFs (delete path (mf_files w)) (mf_next w) (mf_faults w));
  fs_ReadFile path := fun w =>
    (match mf_files w !! path with Some c => Ok c | None => Err (ErrOS NotExist) end, w);
  fs_TempDir dir prefix := mret (filepath_Join dir (prefix +:+ "0"));
  fs_TempFile := mem_temp;
  fs_ReadDir dir := fun w =>
    (Ok ((fun kv => mkDirEntry (Base kv.1) Regular) <$> filter (fun kv => Dir kv.1 = dir) (map_to_list (mf_files w))), w);
  fs_Walk dir walkFn := fun w =>
    forM (filter (fun kv => HasPrefix kv.1 (dir +:+ slash) = true) (map_to_list (mf_files w)))
      (fun kv => walkFn kv.1 (mkFileInfo Regular "-rw-r--r--") None) w;
  file_Write f data := modify (fun w => set_file (file_Name f) (default "" (mf_files w !! file_Name f) +:+ data) w);
  file_Sync _ := mret tt;
  file_Close _ := mret tt |}.

#[export] Instance mem_fs : Filesystem MemFs := {|
  fs_Stat path := may_fail id (@fs_Stat _ quiet_fs path);
  fs_Create path := may_fail id (@fs_Create _ quiet_fs path);
  fs_Rename o n := may_fail id (@fs_Rename _ quiet_fs o n);
  fs_MkdirAll path := may_fail id (@fs_MkdirAll _ quiet_fs path);
  fs_Chtimes name a m := may_fail id (@fs_Chtimes _ quiet_fs name a m);
  fs_RemoveAll path := may_fail id (@fs_RemoveAll _ quiet_fs path);
  fs_Remove path := may_fail id (@fs_Remove _ quiet_fs path);
  fs_ReadFile path := may_fail id (@fs_ReadFile _ quiet_fs path);
  fs_TempDir dir prefix := may_fail id (@fs_TempDir _ quiet_fs dir prefix);
  fs_TempFile dir prefix := may_fail id (@fs_TempFile _ quiet_fs dir prefix);
  fs_ReadDir dir := may_fail id (@fs_ReadDir _ quiet_fs dir);
  fs_Walk dir walkFn := may_fail id (@fs_Walk _ quiet_fs dir walkFn);
  file_Write f data := may_fail (set_file (file_Name f) (str_take (String.length data / 2) data)) (@file_Write _ quiet_fs f data);
  file_Sync f := may_fail id (@file_Sync _ quiet_fs f);
  file_Close f := may_fail id (@file_Close _ quiet_fs f) |}.

#[export] Instance mem_view : FsView MemFs := {| fs_files := mf_files; at_end _ _ := True |}.

Lemma wp_may_fail {A} bad (m : M MemFs A) Q w :
  (forall faults, let w0 := mkMemFs (mf_files w) (mf_next w) faults in
    wp m Q w0 /\ Q (Err (ErrOS OsOther)) (bad w0)) -> wp (may_fail bad m) Q w.
Proof.
  intros H. unfold wp, may_fail. destruct w as [fs n [|[|] faults]]; cbn in *.
  - apply (H []).
  - apply (H faults).
  - apply (H faults).
Qed.

Lemma quiet_laws : FsLaws MemFs (FS := quiet_fs).
Proof.
  split; [intros dir pre w Hdir|intros f data c w He Hc|done..|intros o n c w Ho Hn Hc].
  - unfold wp. cbn. unfold mem_temp. set (name := filepath_Join _ _). cbn.
    destruct (IsAbs dir) eqn:Ha; cbn; [|done]. destruct (HasPrefix (Base name) pre) eqn:Hp; cbn; [|done].
    case_bool_decide; cbn; [|done]. split_and!; [by apply filepath_Join_abs|done..].
  - unfold wp. cbn in *. split; [by rewrite Hc|done].
  - unfold wp. cbn in *. unfold mem_rename. by rewrite Hc.
Qed.

#[export] Instance mem_laws : FsLaws MemFs.
Proof.
  destruct quiet_laws as [L1 L2 L3 L4 L5 L6 L7 L8].
  split; intros; apply wp_may_fail; intros faults w0; (split; [|done || by eexists]).
  - by exact (L1 _ _ w0 H).
  - by exact (L2 _ _ _ w0 H H0).
  - by exact (L3 _ w0 H).
  - exact (L4 path w0).
  - exact (L5 f w0).
  - exact (L6 f w0).
  - by exact (L7 _ w0 H).
  - by exact (L8 _ _ _ w0 H H0 H1).
Qed.

Definition conf : string := abs_path ["etc"; "vk.yaml"].
Definition files0 (faults : list bool) : MemFs := mkMemFs {[ conf := "port: 1" ]} 7 faults.

(** The write fails half way, and then the removal of the temporary file. *)
Example replace_fails :
  let '(r, w) := ReplaceFile conf "port: 22" (files0 [false; true; false; true]) in
  is_ok r = false /\ mf_files w !! "/etc/tmp_vk.yaml7" = Some "port" /\ mf_files w !! conf = Some "port: 1".
Proof. vm_compute. done. Qed.

Lemma ReplaceFile_atomic_witness :
  let '(r, w') := ReplaceFile conf "port: 22" (files0 []) in
  match r with
  | Ok _ => fs_files w' = <[conf := "port: 22"]> (fs_files (files0 []))
  | Err _ => unchanged conf (files0 []) w' /\ fs_files w' !! conf = fs_files (files0 []) !! conf
  | Panic _ => False
  end.
Proof.
  apply (ReplaceFile_atomic (W := MemFs)). exists ["etc"; "vk.yaml"]. split; [|done].
  repeat constructor; done.
Defined.
End FilesExamples.
