(* ===== verification/Fetcher.v ===== *)
(** * The result fetcher (cmd/result-fetcher)

    The program of the container that collects the output of a Slurm job: it
    opens the file through the agent and writes the chunks it is sent to a
    file on the mounted volume. Its command line is parsed by Go's [flag]
    package, and comes from the job the operator creates; the theorem follows
    a file from the agent's disk over the stream to the volume. *)

From S2P Require Import Prelude GoStrings GoPath Files Kube Crd Workload AgentServer Reconcile.

(** ** Go's [flag] package, for string flags

    One turn takes a flag and its value off the arguments. An argument that
    is no flag ends the parsing; an error ends the process, as the flag set
    of the command line is created to. *)

(** The name and, behind an equals sign, the value of a flag argument. *)
Definition flag_text (s : string) : option string :=
  match s with
  | String "-" (String "-" "") => None
  | String "-" (String "-" t) => Some t
  | String "-" (String c t) => Some (String c t)
  | _ => None
  end.

Definition usage {A} (msg : string) : res A := Panic (ProcessExit msg).

Fixpoint flag_Parse (args : list string) (flags : gmap string string) : res (gmap string string) :=
  match args with
  | [] => Ok flags
  | s :: args' =>
      match flag_text s with
      | None => Ok flags
      | Some t =>
          if bool_decide (t = "") || HasPrefix t "-" || HasPrefix t "=" then usage ("bad flag syntax: " +:+ s)
          else
            match split_once "=" t with
            | Some (name, value) =>
                if bool_decide (is_Some (flags !! name)) then flag_Parse args' (<[name := value]> flags)
                else usage ("flag provided but not defined: -" +:+ name)
            | None =>
                if bool_decide (is_Some (flags !! t)) then
                  match args' with
                  | value :: args'' => flag_Parse args'' (<[t := value]> flags)
                  | [] => usage ("flag needs an argument: -" +:+ t)
                  end
                else usage ("flag provided but not defined: -" +:+ t)
            end
      end
  end.

Definition fetcher_flags : gmap string string :=
  list_to_map [("from", ""); ("to", ""); ("endpoint", ":9999"); ("sock", "")].

(** ** The program *)

(** What the [Recv]s on a stream answer: chunks without an error, and in the
    end an error, with or without a chunk. *)
Record Stream := mkStream { sm_chunks : list Chunk; sm_last : option Chunk; sm_end : error }.

(** The calls on the agent. *)
Class GrpcHost (W : Type) := {
  grpc_Dial : string -> M W unit;
  rpc_OpenFile : OpenFileRequest -> M W Stream;
}.

Section fetcher.
Context {W : Type} {FS : Filesystem W} {GH : GrpcHost W}.

Definition Fatal {A} (msg : string) : M W A := panicM (ProcessExit msg).

(** A call whose error is fatal. *)
Definition or_fatal {A} (m : M W A) (msg : string) : M W A :=
  r ← attempt m;
  match r with inl a => mret a | inr _ => Fatal msg end.

Definition write_chunk (toFile : File) (chunk : Chunk) : M W unit :=
  or_fatal (file_Write toFile (ch_Content chunk)) "can't write to file err".

(** The loop over [Recv], one turn per chunk and one for the end. *)
Definition receive (toFile : File) (stream : Stream) : M W unit :=
  forM (sm_chunks stream) (write_chunk toFile);;
  match sm_last stream with Some chunk => write_chunk toFile chunk | None => mret tt end;;
  if bool_decide (sm_end stream = EOF) then mret tt else Fatal "err while receiving file".

Definition fetch (from to agentHttpEndpoint agentSock : string) : M W unit :=
  if bool_decide (from = "") then Fatal "from can't be empty"
  else if bool_decide (to = "") then Fatal "to can't be empty"
  else if bool_decide (agentSock = "") && bool_decide (agentHttpEndpoint = "") then
    Fatal "slurm agent endpoint can't be empty"
  else
    let addr := if nonempty agentSock then "unix://" +:+ agentSock else agentHttpEndpoint in
    or_fatal (grpc_Dial addr) "can't connect to";;
    openReq ← or_fatal (rpc_OpenFile (mkOpenFileRequest from)) "can't open file err";
    or_fatal (fs_MkdirAll to) "can't create dir on mounted volume err";;
    let filePath := filepath_Join to (Base from) in
    toFile ← or_fatal (fs_Create filePath) "can't not create file with results on mounted volume err";
    receive toFile openReq;;
    _ ← attempt (file_Close toFile);
    mret tt.

Definition fetcher_main (args : list string) : M W unit :=
  flags ← lift (flag_Parse args fetcher_flags);
  let flag name := default "" (flags !! name) in
  fetch (flag "from") (flag "to") (flag "endpoint") (flag "sock").
End fetcher.

(** ** The command line *)

(** A byte the shell takes literally, and a word of such bytes. *)
Definition harmless (c : ascii) : bool :=
  bool_decide (c ∈ ["-"; "_"; "."; "/"; ":"]%char) ||
  (let n := nat_of_ascii c in ((48 <=? n)%nat && (n <=? 57)%nat) || ((65 <=? n)%nat && (n <=? 90)%nat) || ((97 <=? n)%nat && (n <=? 122)%nat)).
Definition shell_word (s : string) : Prop := str_forall harmless s = true /\ s <> "".

Lemma harmless_plain c : harmless c = true -> plain_byte c = true.
Proof. destruct c as [[] [] [] [] [] [] [] []]; vm_compute; done. Qed.

Lemma shell_word_word s : shell_word s -> word s.
Proof. intros [Hs Hne]. split; [|done]. unfold plain. by eapply str_forall_mono; [apply harmless_plain|]. Qed.

(** The words of a text without anything the shell treats specially. *)
Definition plain_command (cmd : string) : Prop :=
  str_forall (fun c => harmless c || bool_decide (c = " "%char)) cmd = true.

Lemma fetcher_command from to endpoint :
  shell_word from -> shell_word to -> shell_word endpoint ->
  let cmd := "/result-fetcher --from " +:+ from +:+ " --to " +:+ to +:+ " --endpoint " +:+ endpoint +:+ " " in
  plain_command cmd /\ Fields cmd = ["/result-fetcher"; "--from"; from; "--to"; to; "--endpoint"; endpoint].
Proof.
  intros Hf Ht He cmd. split.
  - unfold plain_command, cmd. rewrite !str_forall_app.
    assert (Hw : forall w, shell_word w -> str_forall (fun c => harmless c || bool_decide (c = " "%char)) w = true).
    { intros w [Hw _]. eapply str_forall_mono; [|exact Hw]. by intros c ->. }
    by rewrite (Hw from), (Hw to), (Hw endpoint) by done.
  - apply shell_word_word in Hf, Ht, He.
    change cmd with ("/result-fetcher" +:+ " " +:+ "--from" +:+ " " +:+ from +:+ " " +:+ "--to" +:+ " " +:+ to +:+ " " +:+
      "--endpoint" +:+ " " +:+ endpoint +:+ " " +:+ "").
    rewrite !Fields_word_app; done.
Qed.

Lemma fetcher_parse from to endpoint :
  exists flags, flag_Parse ["--from"; from; "--to"; to; "--endpoint"; endpoint] fetcher_flags = Ok flags /\
    flags !! "from" = Some from /\ flags !! "to" = Some to /\ flags !! "endpoint" = Some endpoint /\ flags !! "sock" = Some "".
Proof. eexists. split; [reflexivity|]. split_and!; reflexivity. Qed.

(** ** Collecting a file *)

Section collect.
Context {W : Type} {FS : Filesystem W} {FV : FsView W} {FL : FsLaws W} {GH : GrpcHost W}.

(** The disk of the volume has room and works. *)
Record disk_works : Prop := {
  dw_MkdirAll path w : is_ok (fs_MkdirAll path w).1 = true;
  dw_Create path w : is_ok (fs_Create path w).1 = true;
  dw_Write f data w : is_ok (file_Write f data w).1 = true;
}.

Lemma wp_or_fatal {A} (m : M W A) msg (Q : res A -> W -> Prop) w :
  wp m (fun r w' => match r with
    | Ok a => Q (Ok a) w'
    | Err _ => Q (Panic (ProcessExit msg)) w'
    | Panic p => Q (Panic p) w' end) w ->
  wp (or_fatal m msg) Q w.
Proof.
  intros H. apply wp_bind, wp_attempt. eapply wp_mono; [exact H|].
  by intros [a|e|p] w' Hq; [apply wp_ret|..].
Qed.

(** The outcomes of the program: the work done, or the process ended. *)
Definition done_or_exit (Q : W -> Prop) (r : res unit) (w : W) : Prop :=
  match r with Ok _ => Q w | Panic (ProcessExit _) => ~ disk_works | _ => False end.

Definition holds (path content : string) (w : W) : Prop := fs_files w !! path = Some content.

Lemma write_chunk_spec f path content chunk w :
  file_Name f = path -> at_end w f -> holds path content w ->
  wp (write_chunk f chunk) (done_or_exit (fun w' => at_end w' f /\ holds path (content +:+ ch_Content chunk) w')) w.
Proof.
  intros <- He Hh. apply wp_or_fatal.
  eapply wp_mono; [by apply wp_eqn, law_Write|]. intros [u|e|p] w1 [Heq H1]; [| |done].
  - cbn. destruct H1 as [H1 Hend]. split; [done|]. unfold holds. by rewrite H1, lookup_insert_eq.
  - cbn. intros Hdw. pose proof (dw_Write Hdw f (ch_Content chunk) w) as Hok. by rewrite Heq in Hok.
Qed.

Lemma write_chunks_spec f path content chunks w :
  file_Name f = path -> at_end w f -> holds path content w ->
  wp (forM chunks (write_chunk f))
    (done_or_exit (fun w' => at_end w' f /\ holds path (content +:+ cat (ch_Content <$> chunks)) w')) w.
Proof.
  intros Hf. revert content w. induction chunks as [|c chunks IH]; intros content w He Hh.
  - apply wp_ret. cbn. by rewrite str_app_nil_r.
  - cbn [forM]. apply wp_bind. eapply wp_mono; [by apply (write_chunk_spec f path content)|].
    intros r w1 H1. destruct r as [u|e|[| | | |msg]]; try done; cbn [after].
    destruct H1 as [He1 Hh1]. rewrite fmap_cons, cat_cons, <- str_app_assoc. by apply IH.
Qed.

(** The stream of an [OpenFile] call that ended with [r] after the handler
    sent [cs]. *)
Definition stream_of (r : res unit) (cs : list Chunk) : Stream :=
  mkStream cs None (match r with Ok _ => EOF | Err e => e | Panic _ => ErrExternal "Unavailable" end).

Lemma fetch_spec from to endpoint content cs w :
  from <> "" -> to <> "" -> endpoint <> "" -> IsAbs to = true ->
  cat (ch_Content <$> cs) = content ->
  (forall addr w, grpc_Dial addr w = (Ok tt, w)) ->
  (forall w, rpc_OpenFile (mkOpenFileRequest from) w = (Ok (stream_of (Ok tt) cs), w)) ->
  wp (fetch from to endpoint "") (done_or_exit (holds (filepath_Join to (Base from)) content)) w.
Proof.
  intros Hfrom Hto Hend Habs Hcat Hdial Hopen. unfold fetch. 
  rewrite (bool_decide_eq_false_2 (from = "")), (bool_decide_eq_false_2 (to = "")), (bool_decide_eq_false_2 (endpoint = "")) by done.
  rewrite andb_false_r. cbn [nonempty]. apply wp_bind, wp_or_fatal. unfold wp at 1. rewrite Hdial. cbn [fst snd after].
  apply wp_bind, wp_or_fatal. unfold wp at 1. rewrite Hopen. cbn [fst snd after].
  apply wp_bind, wp_or_fatal. eapply wp_mono; [apply wp_eqn, law_MkdirAll|].
  intros r w1 (Heq & Hnp & Hw1). destruct r as [u|e|p]; [| |done]; cbn [after].
  2: { intros Hdw. pose proof (dw_MkdirAll Hdw to w) as Hok. by rewrite Heq in Hok. }
  apply wp_bind, wp_or_fatal. eapply wp_mono; [by apply wp_eqn, law_Create, filepath_Join_abs|].
  intros r w2 (Heq2 & H2). destruct r as [f|e|p]; [| |done]; cbn [after].
  2: { intros Hdw. pose proof (dw_Create Hdw (filepath_Join to (Base from)) w1) as Hok. by rewrite Heq2 in Hok. }
  destruct H2 as (Hname & Hw2 & Hat). unfold receive, stream_of. cbn [sm_chunks sm_last sm_end].
  apply wp_bind, wp_bind. eapply wp_mono.
  - apply (write_chunks_spec f (filepath_Join to (Base from)) ""); [done..|]. unfold holds. by rewrite Hw2, lookup_insert_eq.
  - intros r w3 H3. destruct r as [u'|e|[| | | |msg]]; try done; cbn [after].
    rewrite str_app_empty, Hcat in H3. destruct H3 as [_ H3].
    apply wp_bind, wp_ret. cbn [after]. rewrite bool_decide_eq_true_2 by done. apply wp_ret. cbn [after].
    apply wp_bind, wp_attempt. eapply wp_mono; [apply law_Close|]. intros r w4 [Hnp4 Hw4].
    assert (H4 : holds (filepath_Join to (Base from)) content w4) by (unfold holds; by rewrite Hw4).
    destruct r as [u4|e|p]; [| |done]; cbn [attempted after]; by apply wp_ret.
Qed.
End collect.

Section results.
(** The volume side, the agent side, and the shell of the container, which
    splits a plain command into its words. *)
Context {W : Type} {FS : Filesystem W} {FV : FsView W} {FL : FsLaws W} {GH : GrpcHost W}.
Context {H : Type} {FH : FileHost H} {CS : ChunkStream H}.
Variable received : H -> list Chunk.
Hypothesis Send_receives : forall c h, exists h', Send c h = (Ok tt, h') /\ received h' = received h ++ [c].
Variable sh_c : string -> list string.
Hypothesis sh_plain : forall cmd, plain_command cmd -> sh_c cmd = Fields cmd.

(** C36. The results of a job reach the volume, when the path of the output
    file, the name of the job and the address of the agent consist of
    letters, digits and [-_./:] only: the operator puts them into a command
    line for [sh -c] without quotes, and another byte may be split on or
    interpreted there ([spaced_path]). Then the command of the container the
    operator creates for a Slurm job runs the fetcher so that, when the agent
    streams the output file, the mounted directory of the job holds a file of
    the same name with exactly its bytes; without that file the process only
    ends when the disk failed. *)
Theorem results_collected j volume sub es e reads content h w :
  Forall element (es ++ [e]) -> sub_StdOut sub = abs_path (es ++ [e]) -> shell_word (sub_StdOut sub) ->
  element (sbj_name j) -> shell_word (sbj_name j) -> shell_word (sjs_ClusterEndPoint (sbj_Status j)) ->
  os_Open (sub_StdOut sub) h = Ok reads -> delivers reads content ->
  let '(sent, h') := OpenFile (mkOpenFileRequest (sub_StdOut sub)) h in
  (forall addr w, grpc_Dial addr w = (Ok tt, w)) ->
  (forall w, rpc_OpenFile (mkOpenFileRequest (sub_StdOut sub)) w =
    (Ok (stream_of sent (drop (length (received h)) (received h'))), w)) ->
  exists cmd args,
    ct_Command (fetcher_container j volume sub) = ["sh"; "-c"; cmd] /\ sh_c cmd = "/result-fetcher" :: args /\
    ct_VolumeMounts (fetcher_container j volume sub) = [mkVolumeMount (vol_Name volume) (abs_path ["result"])] /\
    wp (fetcher_main args) (done_or_exit (holds (abs_path ["result"; sbj_name j; e]) content)) w.
Proof.
  intros Hes Hout Hword Hname Hnword Hend Hopen Hdel.
  destruct (open_loop_sends received Send_receives reads content h Hdel) as (h' & cs & Hl & Hrec & Hcat & _).
  assert (Hrun : OpenFile (mkOpenFileRequest (sub_StdOut sub)) h = (Ok tt, h')).
  { unfold OpenFile, mbind, M_bind, wrapM, Open. cbn [of_Path]. by rewrite Hopen. }
  rewrite Hrun. intros Hdial Hrpc. rewrite Hrec, drop_app_length in Hrpc.
  set (to := result_to +:+ "/" +:+ sbj_name j).
  assert (Hto : shell_word to).
  { split; [|done]. unfold to. rewrite !str_forall_app. destruct Hnword as [-> _]. done. }
  destruct (fetcher_command (sub_StdOut sub) to (sjs_ClusterEndPoint (sbj_Status j))) as [Hplain Hfields]; [done..|].
  do 2 eexists. split; [|split; [|split]].
  - unfold fetcher_container. cbn [ct_Command]. reflexivity.
  - rewrite sh_plain; [|by unfold to in Hplain; rewrite !str_app_assoc in Hplain].
    unfold to in Hfields at 1. rewrite !str_app_assoc in Hfields. exact Hfields.
  - done.
  - unfold fetcher_main. apply wp_bind. destruct (fetcher_parse (sub_StdOut sub) to (sjs_ClusterEndPoint (sbj_Status j)))
      as (flags & Hparse & Hf1 & Hf2 & Hf3 & Hf4).
    unfold lift, wp at 1. rewrite Hparse. cbn [fst snd after]. rewrite Hf1, Hf2, Hf3, Hf4. cbn [default].
    assert (Hres : Forall element ["result"; sbj_name j]).
    { constructor; [by repeat split|]. by constructor. }
    replace (abs_path ["result"; sbj_name j; e]) with (filepath_Join to (Base (sub_StdOut sub))).
    + apply fetch_spec with (cs := cs); [apply Hword|apply Hto|apply Hend|done..].
    + rewrite Hout, Base_abs_path by done. apply (Join_child ["result"; sbj_name j]); [done| |done].
      apply Forall_app in Hes as [_ Hes]. by apply list.Forall_cons in Hes as [? _].
Qed.
End results.

Module FetcherExamples.
Import FilesExamples.

(** A volume in memory, and an agent whose log file is read in two parts. *)
Definition out_path : string := abs_path (["home"] ++ ["slurm-7.out"]).

#[export] Instance demo_grpc : GrpcHost MemFs := {|
  grpc_Dial _ := mret tt;
  rpc_OpenFile _ := mret (stream_of (Ok tt) [mkChunk "hello "; mkChunk "world"]) |}.
#[export] Instance demo_disk : FileHost (list Chunk) := fun _ _ =>
  Ok [mkReadResult "hello " None; mkReadResult "world" None].
#[export] Instance demo_stream : ChunkStream (list Chunk) := fun c => modify (fun h => h ++ [c]).

Definition demo_sub : SlurmSubjobStatus :=
  mkSlurmSubjobStatus "7" "" "" "train" "" "" None None "" "" "" out_path "" "" "" "" "".
Definition demo_job : SlurmBridgeJob :=
  mkSlurmBridgeJob (new_meta "train" "default" None) ReconcileExamples.demo_spec
    (mkSlurmBridgeJobStatus "" None true "" "agent:9999").
Definition volume : MemFs := mkMemFs ∅ 0 [].

(** The run on a disk that works. *)
Example fetch_run :
  let '(r, w) := fetcher_main ["--from"; out_path; "--to"; "/result/train"; "--endpoint"; "agent:9999"] volume in
  r = Ok tt /\ map_to_list (mf_files w) = [("/result/train/slurm-7.out", "hello world")].
Proof. vm_compute. done. Qed.

(** A path with a space: the words of the command line after it are no flags
    any more, and the fetcher ends because it has no directory to write to. *)
Definition spaced_sub : SlurmSubjobStatus :=
  mkSlurmSubjobStatus "7" "" "" "train" "" "" None None "" "" "" "/home/my run.out" "" "" "" "" "".
Example spaced_path :
  match ct_Command (fetcher_container demo_job (mkVolume "data" "/data" "") spaced_sub) with
  | [_; _; cmd] => plain_command cmd /\ (fetcher_main (tail (Fields cmd)) volume).1 = Panic (ProcessExit "to can't be empty")
  | _ => False
  end.
Proof. vm_compute. done. Qed.

Lemma results_collected_witness :
  exists cmd args,
    ct_Command (fetcher_container demo_job (mkVolume "data" "/data" "") demo_sub) = ["sh"; "-c"; cmd] /\
    Fields cmd = "/result-fetcher" :: args /\
    ct_VolumeMounts (fetcher_container demo_job (mkVolume "data" "/data" "") demo_sub) =
      [mkVolumeMount "data" (abs_path ["result"])] /\
    wp (fetcher_main args) (done_or_exit (holds (abs_path ["result"; "train"; "slurm-7.out"]) "hello world")) volume.
Proof.
  refine (results_collected (W := MemFs) (H := list Chunk) (fun h => h) _ Fields _ demo_job (mkVolume "data" "/data" "")
    demo_sub ["home"] "slurm-7.out" [mkReadResult "hello " None; mkReadResult "world" None] "hello world" [] volume
    _ eq_refl _ _ _ _ eq_refl _ _ _).
  - intros c h. by eexists.
  - done.
  - by repeat constructor.
  - by split.
  - by repeat split.
  - by split.
  - by split.
  - split; [by repeat constructor|done].
  - done.
  - done.
Defined.
End FetcherExamples.
