(* ===== verification/Codec.v ===== *)
(** * Reading and writing the configuration of the virtual kubelet (scheme.go, codec.go, util/codec/codec.go)

    The repository's own part is small: a strict decoder first, and the
    lenient one when only unknown or repeated fields were the matter. The
    serializers of apimachinery are a record of functions. *)

From S2P Require Import Prelude GoStrings Kube Crd.

(** What a decoder returns: the configuration, or an object of another kind. *)
Inductive runtime_Object :=
  | KubeletConfigurationObject (kc : SlurmVirtualKubeletConfiguration)
  | OtherObject (gvk : string).

(** The codec factory of a scheme: its universal decoder, which applies the
    defaults, the decoder of [NewLenientSchemeAndCodecs] (or why there is
    none), and [IsStrictDecodingError]. *)
Record KubeletCodecs := mkKubeletCodecs {
  strict_Decode : string -> res runtime_Object;
  lenient_Decode : res (string -> res runtime_Object);
  IsStrictDecodingError : error -> bool;
}.

Definition DecodeKubeletConfiguration (kubeletCodecs : KubeletCodecs) (data : string) : res SlurmVirtualKubeletConfiguration :=
  obj ← match strict_Decode kubeletCodecs data with
        | Err err =>
            if negb (IsStrictDecodingError kubeletCodecs err) then Err (ErrWrap err "failed to decode")
            else
              lenientCodecs ← lenient_Decode kubeletCodecs;
              match lenientCodecs data with
              | Err _ => Err (ErrFmt "failed lenient decoding" err)
              | r => r
              end
        | r => r
        end;
  match obj with
  | KubeletConfigurationObject internalKC => Ok internalKC
  | OtherObject gvk => Err (ErrNew ("failed to cast object to KubeletConfiguration, unexpected type: " +:+ gvk))
  end.

(** A file is refused for a strict error only if the lenient decoder refuses
    it as well. *)
Lemma DecodeKubeletConfiguration_Ok codecs data kc :
  DecodeKubeletConfiguration codecs data = Ok kc <->
  strict_Decode codecs data = Ok (KubeletConfigurationObject kc) \/
  exists err lenient, strict_Decode codecs data = Err err /\ IsStrictDecodingError codecs err = true /\
    lenient_Decode codecs = Ok lenient /\ lenient data = Ok (KubeletConfigurationObject kc).
Proof.
  unfold DecodeKubeletConfiguration. split.
  - intros H. apply bind_Ok_inv in H as (obj & H & Ho). destruct obj as [kc'|gvk]; [|done]. injection Ho as ->.
    destruct (strict_Decode codecs data) as [obj|err|p]; [injection H as ->; by left| |done]. right.
    destruct (IsStrictDecodingError codecs err) eqn:E; [|done]. cbn in H.
    destruct (lenient_Decode codecs) as [lenient|e|p] eqn:El; cbn in H; [|done..].
    exists err, lenient. split_and!; [done..|]. by destruct (lenient data) as [o|e|p]; simplify_eq.
  - intros [-> |(err & lenient & -> & Hs & Hl & Hd)]; [done|]. rewrite Hs, Hl. cbn. by rewrite Hd.
Qed.

Section scheme.
(** Schemes, codec factories and their options. *)
Context {Scheme CodecFactory Mutator Serializer Encoder : Type}.
Variable NewScheme : Scheme.
Variable AddToScheme : Scheme -> res Scheme.
Variable NewCodecFactory : Scheme -> list Mutator -> CodecFactory.
Variable SerializerInfoForMediaType : CodecFactory -> string -> option Serializer.
Variable EncoderForVersion : CodecFactory -> Serializer -> string -> Encoder.
Variable runtime_Encode : Encoder -> SlurmVirtualKubeletConfiguration -> res string.
(** [scheme.Default] on a configuration, once the types are registered. *)
Variable scheme_Default : Scheme -> SlurmVirtualKubeletConfiguration -> SlurmVirtualKubeletConfiguration.

Definition NewSchemeAndCodecs (mutators : list Mutator) : res (Scheme * CodecFactory) :=
  scheme ← AddToScheme NewScheme;
  Ok (scheme, NewCodecFactory scheme mutators).

Definition NewKubeletconfigYAMLEncoder (targetVersion : string) : res Encoder :=
  '(_, codecs) ← NewSchemeAndCodecs [];
  let mediaType := "application/yaml" in
  match SerializerInfoForMediaType codecs mediaType with
  | None => Err (ErrNew ("unsupported media type " +:+ quoted mediaType))
  | Some info => Ok (EncoderForVersion codecs info targetVersion)
  end.

Definition EncodeKubeletConfig (internal : SlurmVirtualKubeletConfiguration) (targetVersion : string) : res string :=
  encoder ← NewKubeletconfigYAMLEncoder targetVersion;
  runtime_Encode encoder internal.

Definition zero_VKConfig : SlurmVirtualKubeletConfiguration :=
  mkVKConfig "" false "" 0 0 0 "" None "" 0 0 "" "" "" "" [] "" false false.

Definition NewSlurmVirtualKubeletConfiguration : res SlurmVirtualKubeletConfiguration :=
  '(scheme, _) ← NewSchemeAndCodecs [];
  Ok (scheme_Default scheme zero_VKConfig).

(** With the defaulting function this repository registers. *)
Lemma NewSlurmVirtualKubeletConfiguration_defaults scheme :
  AddToScheme NewScheme = Ok scheme -> scheme_Default scheme = SetDefaults_SlurmVirtualKubeletConfiguration ->
  exists c, NewSlurmVirtualKubeletConfiguration = Ok c /\ vc_Port c = DefaultListenPort /\ vc_Address c = "0.0.0.0" /\
    vc_TLSCertFile c = DefaultTLSCertFile /\ vc_TLSPrivateKeyFile c = DefaultTLSPrivateKeyFile.
Proof.
  intros Ha Hd. unfold NewSlurmVirtualKubeletConfiguration, NewSchemeAndCodecs. rewrite Ha. cbn. rewrite Hd.
  eexists. split; [reflexivity|]. done.
Qed.
End scheme.
