(* ===== verification/ApiJson.v ===== *)
(** * The API types as JSON (struct tags, the CRD, openapi_generated.go, register.go)

    The API server keeps a SlurmBridgeJob as JSON: what the operator writes
    is encoded by the tags of the structs in slurmbridgejob_types.go and
    checked against the schema of the custom resource definition, and what it
    reads is decoded the same way. The file has the tags of every struct as a
    table, encoding and decoding by such a table as [encoding/json] does it,
    the schema of the CRD, and the generated OpenAPI definitions. *)

From S2P Require Import Prelude GoStrings GoNum GoTime Workload Kube Crd Cluster Reconcile Codec.

(** ** JSON values

    A number is an integer or the text of one that is not. Texts are taken
    to be valid UTF-8, which all texts of the API are. *)

Inductive json :=
  | JNull
  | JBool (b : bool)
  | JNum (n : Z)
  | JFrac (literal : string)
  | JStr (s : string)
  | JArr (l : list json)
  | JObj (members : list (string * json)).

Definition is_null (v : json) : bool := match v with JNull => true | _ => false end.

(** ** Types as [encoding/json] sees them

    The zero value, what [omitempty] leaves out, and writing and reading. A
    value is read on top of the one that is there, and [null] leaves it alone
    unless it is a pointer, a map or a slice. The last two fields are for
    the specification: the values that can be written so that they are read
    back, and what is left of them then. *)

Record JsonType (A : Type) := mkJsonType {
  jt_zero : A;
  jt_empty : A -> bool;
  jt_enc : A -> json;
  jt_dec : json -> A -> res A;
  jt_ok : A -> Prop;
  jt_norm : A -> A;
}.
Arguments mkJsonType {A}.
Arguments jt_zero {A}.
Arguments jt_empty {A}.
Arguments jt_enc {A}.
Arguments jt_dec {A}.
Arguments jt_ok {A}.
Arguments jt_norm {A}.

Definition UnmarshalTypeError {A} (what : string) : res A := Err (ErrNew ("json: cannot unmarshal into Go value of type " +:+ what)).

Definition reads_back {A} (t : JsonType A) : Prop := forall a, jt_ok t a -> jt_dec t (jt_enc t a) (jt_zero t) = Ok (jt_norm t a).

Definition jt_string : JsonType string :=
  mkJsonType "" (fun s => bool_decide (s = "")) JStr
    (fun v cur => match v with JStr s => Ok s | JNull => Ok cur | _ => UnmarshalTypeError "string" end)
    (fun _ => True) id.

Definition jt_bool : JsonType bool :=
  mkJsonType false negb JBool
    (fun v cur => match v with JBool b => Ok b | JNull => Ok cur | _ => UnmarshalTypeError "bool" end)
    (fun _ => True) id.

(** A signed integer of the given width. *)
Definition fits_width (w n : Z) : Prop := (- 2 ^ (w - 1) <= n < 2 ^ (w - 1))%Z.
#[export] Instance fits_width_dec w n : Decision (fits_width w n).
Proof. unfold fits_width. apply _. Defined.

Definition jt_int (w : Z) : JsonType Z :=
  mkJsonType 0%Z (fun n => bool_decide (n = 0%Z)) JNum
    (fun v cur => match v with
                  | JNum n => if bool_decide (fits_width w n) then Ok n else UnmarshalTypeError "int"
                  | JNull => Ok cur
                  | _ => UnmarshalTypeError "int"
                  end)
    (fits_width w) id.

(** A pointer. A value that writes itself as [null] is read back as nil. *)
Definition jt_ptr {A} (t : JsonType A) : JsonType (option A) :=
  mkJsonType None (fun o => match o with None => true | Some _ => false end)
    (fun o => match o with None => JNull | Some a => jt_enc t a end)
    (fun v cur => if is_null v then Ok None else a ← jt_dec t v (default (jt_zero t) cur); Ok (Some a))
    (fun o => match o with None => True | Some a => jt_ok t a end)
    (fun o => match o with None => None | Some a => if is_null (jt_enc t a) then None else Some (jt_norm t a) end).

(** A slice of Crd is a list whose empty value stands for nil. *)
Definition jt_slice {A} (t : JsonType A) : JsonType (list A) :=
  mkJsonType [] (fun l => (length l =? 0)%nat)
    (fun l => if (length l =? 0)%nat then JNull else JArr (jt_enc t <$> l))
    (fun v cur => match v with
                  | JNull => Ok []
                  | JArr l => mapR (fun v => jt_dec t v (jt_zero t)) l
                  | _ => UnmarshalTypeError "slice"
                  end)
    (Forall (jt_ok t)) (fmap (jt_norm t)).

(** A map with string keys, whose entries are written in any order. With
    [pointers] the entries are pointers; a [null] entry, which Go keeps as a
    nil pointer, is outside the maps of Crd and refused. *)
Fixpoint dec_entries {A : Type} (pointers : bool) (t : JsonType A) (members : list (string * json)) (m : gmap string A) : res (gmap string A) :=
  match members with
  | [] => Ok m
  | (k, v) :: members' =>
      a ← (if pointers && is_null v then UnmarshalTypeError "pointer" else jt_dec t v (jt_zero t));
      dec_entries pointers t members' (<[k := a]> m)
  end.

Definition jt_map {A : Type} (pointers : bool) (t : JsonType A) : JsonType (option (gmap string A)) :=
  mkJsonType None (fun o => match o with None => true | Some m => (size m =? 0)%nat end)
    (fun o => match o with None => JNull | Some m => JObj (List.map (prod_map id (jt_enc t)) (map_to_list m : list (string * A))) end)
    (fun v cur => match v with
                  | JNull => Ok None
                  | JObj members => Some <$> dec_entries pointers t members (default ∅ cur)
                  | _ => UnmarshalTypeError "map"
                  end)
    (fun o => match o with
              | None => True
              | Some m => map_Forall (fun _ a => jt_ok t a /\ (pointers = true -> is_null (jt_enc t a) = false)) m
              end)
    (fun o => match o with None => None | Some m => Some (fmap (M := gmap string) (jt_norm t) m) end).

(** ** Structs

    The tagged fields of a struct, in order, over the tuple of their values.
    [tag name t] is a field [json:"name"], [omit name t] one with
    [omitempty]. *)

Inductive Fields : Type -> Type :=
  | fnil : Fields unit
  | fcons {A B} (name : string) (omitempty : bool) (t : JsonType A) (fs : Fields B) : Fields (A * B).

Definition tag {A B} (name : string) (t : JsonType A) (fs : Fields B) : Fields (A * B) := fcons name false t fs.
Definition omit {A B} (name : string) (t : JsonType A) (fs : Fields B) : Fields (A * B) := fcons name true t fs.
Notation "f @@ x" := (f x) (at level 60, right associativity, only parsing).

Fixpoint field_names {T} (fs : Fields T) : list string :=
  match fs with fnil => [] | fcons name _ _ fs' => name :: field_names fs' end.

Fixpoint zero_fields {T} (fs : Fields T) : T :=
  match fs with fnil => tt | fcons _ _ t fs' => (jt_zero t, zero_fields fs') end.

Fixpoint enc_fields {T} (fs : Fields T) : T -> list (string * json) :=
  match fs with
  | fnil => fun _ => []
  | fcons name omitempty t fs' => fun ab => let (a, b) := ab in
      (if omitempty && jt_empty t a then [] else [(name, jt_enc t a)]) ++ enc_fields fs' b
  end.

(** One member: the field of that name is read, an unknown one is ignored. *)
Fixpoint dec_member {T} (fs : Fields T) (k : string) (v : json) : T -> res T :=
  match fs with
  | fnil => Ok
  | fcons name _ t fs' => fun ab => let (a, b) := ab in
      if bool_decide (k = name) then a' ← jt_dec t v a; Ok (a', b) else b' ← dec_member fs' k v b; Ok (a, b')
  end.

Fixpoint dec_members {T} (fs : Fields T) (members : list (string * json)) (x : T) : res T :=
  match members with
  | [] => Ok x
  | (k, v) :: members' => x' ← dec_member fs k v x; dec_members fs members' x'
  end.

Fixpoint ok_fields {T} (fs : Fields T) : T -> Prop :=
  match fs with fnil => fun _ => True | fcons _ _ t fs' => fun ab => let (a, b) := ab in jt_ok t a /\ ok_fields fs' b end.

Fixpoint norm_fields {T} (fs : Fields T) : T -> T :=
  match fs with
  | fnil => fun x => x
  | fcons _ omitempty t fs' => fun ab => let (a, b) := ab in (if omitempty && jt_empty t a then jt_zero t else jt_norm t a, norm_fields fs' b)
  end.

(** The struct [R], whose values are the tuples of its fields. *)
Definition jt_struct {R T} (fs : Fields T) (to : R -> T) (from : T -> R) : JsonType R :=
  mkJsonType (from (zero_fields fs)) (fun _ => false) (fun r => JObj (enc_fields fs (to r)))
    (fun v cur => match v with
                  | JNull => Ok cur
                  | JObj members => x ← dec_members fs members (to cur); Ok (from x)
                  | _ => UnmarshalTypeError "struct"
                  end)
    (fun r => ok_fields fs (to r)) (fun r => from (norm_fields fs (to r))).

(** ** What is written is read back *)

Lemma string_reads_back : reads_back jt_string.
Proof. by intros s _. Qed.
Lemma bool_reads_back : reads_back jt_bool.
Proof. by intros b _. Qed.
Lemma int_reads_back w : reads_back (jt_int w).
Proof. intros n Hn. cbn. by rewrite bool_decide_eq_true_2. Qed.

Lemma ptr_reads_back {A} (t : JsonType A) : reads_back t -> reads_back (jt_ptr t).
Proof.
  intros H [a|] Ha; [|done]. cbn in Ha |- *. destruct (is_null (jt_enc t a)); [done|]. by rewrite (H a Ha).
Qed.

Lemma slice_reads_back {A} (t : JsonType A) : reads_back t -> reads_back (jt_slice t).
Proof.
  intros H [|a l] Ha; [done|]. cbn [jt_ok jt_enc jt_dec jt_norm jt_slice length Nat.eqb] in Ha |- *.
  induction Ha as [|x l' Hx Hl IH]; [done|]. cbn [fmap list_fmap mapR]. rewrite (H x Hx). cbn. cbn in IH. by rewrite IH.
Qed.

Lemma dec_entries_enc {A : Type} pointers (t : JsonType A) (l : list (string * A)) (m0 : gmap string A) :
  reads_back t -> NoDup l.*1 -> Forall (fun '(_, a) => jt_ok t a /\ (pointers = true -> is_null (jt_enc t a) = false)) l ->
  dec_entries pointers t (prod_map id (jt_enc t) <$> l) m0 = Ok ((jt_norm t <$> (list_to_map l : gmap string A)) ∪ m0).
Proof.
  intros Hr. revert m0. induction l as [|[k a] l IH]; intros m0 Hn Hl.
  - cbn. rewrite fmap_empty. by rewrite (left_id_L ∅ (∪)).
  - rewrite fmap_cons in Hn. apply list.NoDup_cons in Hn as [Hk Hn]. apply list.Forall_cons in Hl as [[Ha Hp] Hl].
    rewrite fmap_cons. cbn [prod_map fst snd dec_entries list_to_map].
    assert (Hdec : (if pointers && is_null (jt_enc t a) then UnmarshalTypeError "pointer" else jt_dec t (jt_enc t a) (jt_zero t)) = Ok (jt_norm t a)).
    { destruct pointers; cbn [andb]; [rewrite Hp by done|]; by apply Hr. }
    unfold id. rewrite Hdec. cbn [mbind res_bind]. rewrite IH by done. f_equal.
    rewrite list_to_map_cons, fmap_insert, <- insert_union_l. symmetry. apply insert_union_r.
    rewrite lookup_fmap, not_elem_of_list_to_map_1; done.
Qed.

Lemma map_reads_back {A : Type} pointers (t : JsonType A) : reads_back t -> reads_back (jt_map pointers t).
Proof.
  intros H [m|] Hm; [|done]. cbn in Hm |- *.
  rewrite dec_entries_enc; [|done|apply NoDup_fst_map_to_list|by apply map_Forall_to_list].
  cbn. by rewrite list_to_map_to_list, (right_id_L ∅ (∪)).
Qed.

Fixpoint fields_read_back {T} (fs : Fields T) : Prop :=
  match fs with fnil => True | fcons _ _ t fs' => reads_back t /\ fields_read_back fs' end.

Lemma enc_fields_names {T} (fs : Fields T) x k v : (k, v) ∈ enc_fields fs x -> k ∈ field_names fs.
Proof.
  induction fs as [|A B name o t fs IH]; [by intros ?%not_elem_of_nil|]. destruct x as [a b]. cbn [enc_fields field_names].
  intros [H|H]%elem_of_app; [|right; by eapply IH].
  destruct (o && jt_empty t a); [by apply not_elem_of_nil in H|]. apply list_elem_of_singleton in H as [= -> _]. by left.
Qed.

(** Members of other names leave the first field alone. *)
Lemma dec_members_skip {A B} name o (t : JsonType A) (fs : Fields B) members a b :
  Forall (fun kv => kv.1 <> name) members ->
  dec_members (fcons name o t fs) members (a, b) = pair a <$> dec_members fs members b.
Proof.
  revert b. induction members as [|[k v] members IH]; intros b H; [done|]. apply list.Forall_cons in H as [Hk H].
  cbn [dec_members dec_member]. rewrite bool_decide_eq_false_2 by exact Hk.
  destruct (dec_member fs k v b) as [b'|e|p]; cbn; [by apply IH|done..].
Qed.

Lemma enc_fields_dec {T} (fs : Fields T) x :
  fields_read_back fs -> NoDup (field_names fs) -> ok_fields fs x ->
  dec_members fs (enc_fields fs x) (zero_fields fs) = Ok (norm_fields fs x).
Proof.
  induction fs as [|A B name o t fs IH]; [by destruct x|]. destruct x as [a b]. intros [Ht Hfs] Hn [Ha Hb].
  cbn [field_names] in Hn. apply list.NoDup_cons in Hn as [Hname Hn]. cbn [enc_fields zero_fields norm_fields].
  assert (Hother : Forall (fun kv => kv.1 <> name) (enc_fields fs b)).
  { apply list.Forall_forall. intros [k v] Hkv E. cbn in E. subst k. by apply Hname, (enc_fields_names fs b name v). }
  destruct (o && jt_empty t a); cbn [app dec_members dec_member].
  - by rewrite dec_members_skip, IH.
  - rewrite bool_decide_eq_true_2 by done. rewrite (Ht a Ha). cbn [mbind res_bind]. by rewrite dec_members_skip, IH.
Qed.

Lemma struct_reads_back {R T} (fs : Fields T) (to : R -> T) from :
  (forall x, to (from x) = x) -> fields_read_back fs -> NoDup (field_names fs) -> reads_back (jt_struct fs to from).
Proof. intros Hto Hfs Hn r Hr. cbn. rewrite Hto, enc_fields_dec by done. done. Qed.

Create HintDb json.
#[export] Hint Resolve string_reads_back bool_reads_back int_reads_back ptr_reads_back slice_reads_back map_reads_back : json.

(** A struct whose fields are of known types. *)
Ltac solve_struct :=
  apply struct_reads_back; [by intros; repeat match goal with x : _ * _ |- _ => destruct x | u : unit |- _ => destruct u end
                           |cbn [fields_read_back tag omit]; repeat split; auto with json
                           |by apply (bool_decide_unpack _); vm_compute].

(** ** The tags of slurmbridgejob_types.go and types.go *)

(** What apimachinery writes: object metadata, the text of a time to the
    second, and a volume of a pod. *)
Class ApiMachinery := {
  ObjectMeta_json : JsonType ObjectMeta;
  Volume_json : JsonType Volume;
  Format_RFC3339 : Time -> string;
  Parse_RFC3339 : string -> res Time;
}.

(** Times of which the text is four digits of year. *)
Definition printable (t : Time) : Prop := (-62167219200 <= t_sec t < 253402300800)%Z.
Definition whole_second (t : Time) : Time := mkTime (t_sec t) 0.

Class ApiMachineryLaws `{ApiMachinery} := {
  ObjectMeta_reads_back : reads_back ObjectMeta_json;
  ObjectMeta_norm : forall m, jt_norm ObjectMeta_json m = m;
  ObjectMeta_object : forall m, exists members, jt_enc ObjectMeta_json m = JObj members;
  ObjectMeta_struct : forall m, jt_empty ObjectMeta_json m = false;
  Volume_object : forall v, exists members, jt_enc Volume_json v = JObj members;
  Volume_struct : forall v, jt_empty Volume_json v = false;
  Volume_reads_back : reads_back Volume_json;
  Volume_norm : forall v, jt_norm Volume_json v = v;
  Parse_Format : forall t, printable t -> Parse_RFC3339 (Format_RFC3339 t) = Ok (whole_second t);
}.

Section tags.
Context `{AM : ApiMachinery}.

(** [metav1.Time]: the zero time is written as [null]. *)
Definition Time_json : JsonType Time :=
  mkJsonType zero_time (fun _ => false)
    (fun t => if IsZero t then JNull else JStr (Format_RFC3339 t))
    (fun v cur => match v with JNull => Ok zero_time | JStr s => Parse_RFC3339 s | _ => UnmarshalTypeError "string" end)
    printable (fun t => if IsZero t then zero_time else whole_second t).

Definition JobResult_json : JsonType JobResult :=
  jt_struct (omit "volume" Volume_json @@ fnil) (fun r => (jr_Volume r, tt)) (fun '(v, _) => mkJobResult v).

Definition SlurmBridgeJobSpec_fields :=
  tag "partition" jt_string @@
  tag "sbatchScript" jt_string @@
  omit "runAsUser" (jt_ptr (jt_int 64)) @@
  omit "runAsGroup" (jt_ptr (jt_int 64)) @@
  omit "array" jt_string @@
  omit "cpusPerTask" (jt_int 64) @@
  omit "ntasks" (jt_int 64) @@
  omit "ntasksPerNode" (jt_int 64) @@
  omit "nodes" (jt_int 64) @@
  omit "workingDir" jt_string @@
  omit "memPerCpu" (jt_int 64) @@
  omit "gres" jt_string @@
  omit "licenses" jt_string @@
  omit "result" (jt_ptr JobResult_json) @@ fnil.
Definition SlurmBridgeJobSpec_json : JsonType SlurmBridgeJobSpec :=
  jt_struct SlurmBridgeJobSpec_fields
    (fun s => (sp_Partition s, (sp_SbatchScript s, (sp_RunAsUser s, (sp_RunAsGroup s, (sp_Array s, (sp_CpusPerTask s,
      (sp_Ntasks s, (sp_NtasksPerNode s, (sp_Nodes s, (sp_WorkingDir s, (sp_MemPerCpu s, (sp_Gres s, (sp_Licenses s,
      (sp_Result s, tt)))))))))))))))
    (fun '(partition, (script, (user, (group, (array, (cpus, (ntasks, (pernode, (nodes, (dir, (mem, (gres, (licenses,
      (result, _)))))))))))))) =>
      mkSlurmBridgeJobSpec partition script user group array cpus ntasks pernode nodes dir mem gres licenses result).

Definition SlurmSubjobStatus_fields :=
  tag "id" jt_string @@
  tag "userId" jt_string @@
  tag "arrayJobID" jt_string @@
  tag "name" jt_string @@
  tag "exitCode" jt_string @@
  tag "state" jt_string @@
  tag "submitTime" (jt_ptr Time_json) @@
  tag "startTime" (jt_ptr Time_json) @@
  tag "runTime" jt_string @@
  tag "timeLimit" jt_string @@
  tag "WorkDir" jt_string @@
  tag "stdOut" jt_string @@
  tag "stdErr" jt_string @@
  tag "partition" jt_string @@
  tag "nodeList" jt_string @@
  tag "batchHost" jt_string @@
  tag "numNodes" jt_string @@ fnil.
Definition SlurmSubjobStatus_json : JsonType SlurmSubjobStatus :=
  jt_struct SlurmSubjobStatus_fields
    (fun s => (sub_ID s, (sub_UserID s, (sub_ArrayJobID s, (sub_Name s, (sub_ExitCode s, (sub_State s, (sub_SubmitTime s,
      (sub_StartTime s, (sub_RunTime s, (sub_TimeLimit s, (sub_WorkDir s, (sub_StdOut s, (sub_StdErr s, (sub_Partition s,
      (sub_NodeList s, (sub_BatchHost s, (sub_NumNodes s, tt))))))))))))))))))
    (fun '(id, (user, (array, (name, (code, (state, (submit, (start, (run, (limit, (dir, (out, (err, (partition, (nodes,
      (host, (num, _))))))))))))))))) =>
      mkSlurmSubjobStatus id user array name code state submit start run limit dir out err partition nodes host num).

Definition SlurmBridgeJobStatus_fields :=
  tag "state" jt_string @@
  omit "subjobStatus" (jt_map true SlurmSubjobStatus_json) @@
  omit "fetchResult" jt_bool @@
  omit "fetchResultStatus" jt_string @@
  omit "clusterEndPoint" jt_string @@ fnil.
Definition SlurmBridgeJobStatus_json : JsonType SlurmBridgeJobStatus :=
  jt_struct SlurmBridgeJobStatus_fields
    (fun s => (sjs_State s, (sjs_SubjobStatus s, (sjs_FetchResult s, (sjs_FetchResultStatus s, (sjs_ClusterEndPoint s, tt))))))
    (fun '(state, (subjobs, (fetch, (fetch_status, (endpoint, _))))) =>
      mkSlurmBridgeJobStatus state subjobs fetch fetch_status endpoint).

(** The struct with its type: [TypeMeta] is embedded inline. *)
Definition SlurmBridgeJob_fields :=
  omit "kind" jt_string @@
  omit "apiVersion" jt_string @@
  omit "metadata" ObjectMeta_json @@
  omit "spec" SlurmBridgeJobSpec_json @@
  omit "status" SlurmBridgeJobStatus_json @@ fnil.
Definition SlurmBridgeJob_json : JsonType (TypeMeta * SlurmBridgeJob) :=
  jt_struct SlurmBridgeJob_fields
    (fun '(tm, j) => (tm_Kind tm, (tm_APIVersion tm, (sbj_meta j, (sbj_Spec j, (sbj_Status j, tt))))))
    (fun '(kind, (version, (meta, (spec, (status, _))))) => (mkTypeMeta kind version, mkSlurmBridgeJob meta spec status)).
End tags.

Section config.
(** [metav1.ListMeta] and [metav1.Duration]. *)
Context {ListMeta : Type}.
Variable ListMeta_json : JsonType ListMeta.
Variable Duration_json : JsonType Z.

(** Fields without a tag go by their Go names. *)
Definition SlurmVirtualKubeletConfiguration_fields :=
  omit "kind" jt_string @@
  omit "apiVersion" jt_string @@
  omit "metadata" ListMeta_json @@
  tag "Pods" jt_string @@
  tag "EnableServer" jt_bool @@
  tag "StaticPodPath" jt_string @@
  tag "SyncFrequency" Duration_json @@
  tag "FileCheckFrequency" Duration_json @@
  tag "HTTPCheckFrequency" Duration_json @@
  tag "StaticPodURL" jt_string @@
  tag "StaticPodURLHeader" (jt_map false (jt_slice jt_string)) @@
  tag "Address" jt_string @@
  tag "Port" (jt_int 32) @@
  tag "ReadOnlyPort" (jt_int 32) @@
  tag "VolumePluginDir" jt_string @@
  tag "ProviderID" jt_string @@
  tag "TLSCertFile" jt_string @@
  tag "TLSPrivateKeyFile" jt_string @@
  tag "TLSCipherSuites" (jt_slice jt_string) @@
  tag "TLSMinVersion" jt_string @@
  tag "RotateCertificates" jt_bool @@
  tag "ServerTLSBootstrap" jt_bool @@ fnil.
Definition SlurmVirtualKubeletConfiguration_json : JsonType (TypeMeta * ListMeta * SlurmVirtualKubeletConfiguration) :=
  jt_struct SlurmVirtualKubeletConfiguration_fields
    (fun '(tm, lm, c) => (tm_Kind tm, (tm_APIVersion tm, (lm, (vc_Pods c, (vc_EnableServer c, (vc_StaticPodPath c,
      (vc_SyncFrequency c, (vc_FileCheckFrequency c, (vc_HTTPCheckFrequency c, (vc_StaticPodURL c, (vc_StaticPodURLHeader c,
      (vc_Address c, (vc_Port c, (vc_ReadOnlyPort c, (vc_VolumePluginDir c, (vc_ProviderID c, (vc_TLSCertFile c,
      (vc_TLSPrivateKeyFile c, (vc_TLSCipherSuites c, (vc_TLSMinVersion c, (vc_RotateCertificates c,
      (vc_ServerTLSBootstrap c, tt)))))))))))))))))))))))
    (fun '(kind, (version, (lm, (pods, (server, (path, (sync, (file, (http, (url, (header, (address, (port, (ro_port, (dir,
      (provider, (cert, (key, (suites, (min, (rotate, (bootstrap, _)))))))))))))))))))))) =>
      (mkTypeMeta kind version, lm,
       mkVKConfig pods server path sync file http url header address port ro_port dir provider cert key suites min rotate bootstrap)).

Lemma SlurmVirtualKubeletConfiguration_reads_back :
  reads_back ListMeta_json -> reads_back Duration_json -> reads_back SlurmVirtualKubeletConfiguration_json.
Proof. intros Hl Hd. solve_struct. Qed.
End config.

Section reads_back.
Context `{AML : ApiMachineryLaws}.

Lemma Time_reads_back : reads_back Time_json.
Proof. intros t Ht. cbn. destruct (IsZero t); [done|]. by apply Parse_Format. Qed.
#[local] Hint Resolve Time_reads_back Volume_reads_back ObjectMeta_reads_back : json.

Lemma JobResult_reads_back : reads_back JobResult_json.
Proof. solve_struct. Qed.
#[local] Hint Resolve JobResult_reads_back : json.

Lemma SlurmBridgeJobSpec_reads_back : reads_back SlurmBridgeJobSpec_json.
Proof. solve_struct. Qed.
Lemma SlurmSubjobStatus_reads_back : reads_back SlurmSubjobStatus_json.
Proof. solve_struct. Qed.
#[local] Hint Resolve SlurmBridgeJobSpec_reads_back SlurmSubjobStatus_reads_back : json.

Lemma SlurmBridgeJobStatus_reads_back : reads_back SlurmBridgeJobStatus_json.
Proof. solve_struct. Qed.
#[local] Hint Resolve SlurmBridgeJobStatus_reads_back : json.

Lemma SlurmBridgeJob_reads_back : reads_back SlurmBridgeJob_json.
Proof. solve_struct. Qed.

(** What reading back leaves of a job: the times of its Slurm jobs to the
    second, and a map of no Slurm jobs becomes nil. *)
Definition stored_subjob (s : SlurmSubjobStatus) : SlurmSubjobStatus := {|
  sub_ID := sub_ID s; sub_UserID := sub_UserID s; sub_ArrayJobID := sub_ArrayJobID s; sub_Name := sub_Name s;
  sub_ExitCode := sub_ExitCode s; sub_State := sub_State s;
  sub_SubmitTime := jt_norm (jt_ptr Time_json) (sub_SubmitTime s);
  sub_StartTime := jt_norm (jt_ptr Time_json) (sub_StartTime s);
  sub_RunTime := sub_RunTime s; sub_TimeLimit := sub_TimeLimit s; sub_WorkDir := sub_WorkDir s;
  sub_StdOut := sub_StdOut s; sub_StdErr := sub_StdErr s; sub_Partition := sub_Partition s;
  sub_NodeList := sub_NodeList s; sub_BatchHost := sub_BatchHost s; sub_NumNodes := sub_NumNodes s |}.
Definition stored_status (s : SlurmBridgeJobStatus) : SlurmBridgeJobStatus :=
  mkSlurmBridgeJobStatus (sjs_State s)
    (match sjs_SubjobStatus s with
     | None => None
     | Some m => if (size m =? 0)%nat then None else Some (stored_subjob <$> m)
     end)
    (sjs_FetchResult s) (sjs_FetchResultStatus s) (sjs_ClusterEndPoint s).
Definition stored_job (j : SlurmBridgeJob) : SlurmBridgeJob := mkSlurmBridgeJob (sbj_meta j) (sbj_Spec j) (stored_status (sbj_Status j)).

(** A type of which [omitempty] loses nothing. *)
Definition plain_type {A} (t : JsonType A) : Prop := (forall a, jt_norm t a = a) /\ (forall a, jt_empty t a = true -> a = jt_zero t).

Lemma string_plain : plain_type jt_string.
Proof. split; [done|]. by intros s E%bool_decide_eq_true. Qed.
Lemma bool_plain : plain_type jt_bool.
Proof. split; [done|]. by intros []. Qed.
Lemma int_plain w : plain_type (jt_int w).
Proof. split; [done|]. by intros n E%bool_decide_eq_true. Qed.

Lemma plain_omit {A} (t : JsonType A) o a : plain_type t -> (if o && jt_empty t a then jt_zero t else jt_norm t a) = a.
Proof. intros [Hn He]. rewrite Hn. destruct o, (jt_empty t a) eqn:E; cbn; try done. symmetry. by apply He. Qed.

Lemma spec_norm sp : jt_norm SlurmBridgeJobSpec_json sp = sp.
Proof.
  assert (Hptr : plain_type (jt_ptr (jt_int 64))) by (split; [by intros []|by intros []]).
  assert (Hres : plain_type (jt_ptr JobResult_json)).
  { split; [|by intros []]. intros [[v]|]; [|done]. cbn. by rewrite Volume_norm, Volume_struct. }
  destruct sp. cbn [jt_norm SlurmBridgeJobSpec_json jt_struct SlurmBridgeJobSpec_fields norm_fields tag omit].
  rewrite !plain_omit by first [apply string_plain|apply int_plain|assumption]. done.
Qed.

Lemma subjob_norm s : jt_norm SlurmSubjobStatus_json s = stored_subjob s.
Proof. by destruct s. Qed.

Lemma status_norm s : jt_norm SlurmBridgeJobStatus_json s = stored_status s.
Proof.
  destruct s as [state subs fetch fs ep]. unfold stored_status.
  cbn [jt_norm SlurmBridgeJobStatus_json jt_struct SlurmBridgeJobStatus_fields norm_fields tag omit
       sjs_State sjs_SubjobStatus sjs_FetchResult sjs_FetchResultStatus sjs_ClusterEndPoint].
  rewrite !(plain_omit jt_string), (plain_omit jt_bool) by auto using string_plain, bool_plain.
  change (jt_norm jt_string state) with state. destruct subs as [m|]; [|done].
  cbn [jt_empty jt_norm jt_zero jt_map andb]. by destruct (size m =? 0)%nat.
Qed.

Lemma job_norm tm j : jt_norm SlurmBridgeJob_json (tm, j) = (tm, stored_job j).
Proof.
  destruct tm, j. cbn [jt_norm SlurmBridgeJob_json jt_struct SlurmBridgeJob_fields norm_fields tag omit].
  rewrite !(plain_omit jt_string), ObjectMeta_struct, ObjectMeta_norm by auto using string_plain.
  cbn [jt_empty SlurmBridgeJobSpec_json SlurmBridgeJobStatus_json jt_struct andb].
  fold SlurmBridgeJobSpec_json SlurmBridgeJobStatus_json. by rewrite spec_norm, status_norm.
Qed.
End reads_back.
#[export] Hint Resolve JobResult_reads_back SlurmBridgeJobSpec_reads_back SlurmSubjobStatus_reads_back
  SlurmBridgeJobStatus_reads_back SlurmBridgeJob_reads_back : json.

(** ** Schemas

    The part of an OpenAPI schema that the CRD and the generated
    definitions use. [Ref] is the type of references to other schemas. *)

Inductive Schema (Ref : Type) := mkSchema {
  sc_Description : string;
  sc_Type : list string;
  sc_Format : string;
  sc_Default : option json;
  sc_Ref : option Ref;
  sc_Properties : list (string * Schema Ref);
  sc_Required : list string;
  sc_Items : option (Schema Ref);
  sc_AdditionalProperties : option (Schema Ref);
}.
Arguments mkSchema {Ref}.
Arguments sc_Description {Ref}.
Arguments sc_Type {Ref}.
Arguments sc_Format {Ref}.
Arguments sc_Default {Ref}.
Arguments sc_Ref {Ref}.
Arguments sc_Properties {Ref}.
Arguments sc_Required {Ref}.
Arguments sc_Items {Ref}.
Arguments sc_AdditionalProperties {Ref}.

Section schemas.
Context {Ref : Type}.

Definition scalar (type format : string) : Schema Ref := mkSchema "" [type] format None None [] [] None None.
Definition object (properties : list (string * Schema Ref)) (required : list string) : Schema Ref :=
  mkSchema "" ["object"] "" None None properties required None None.
Definition map_of (s : Schema Ref) : Schema Ref := mkSchema "" ["object"] "" None None [] [] None (Some s).
Definition array_of (s : Schema Ref) : Schema Ref := mkSchema "" ["array"] "" None None [] [] (Some s) None.
Definition reference (default : option json) (r : Ref) : Schema Ref := mkSchema "" [] "" default (Some r) [] [] None None.
Definition described (text : string) (s : Schema Ref) : Schema Ref :=
  mkSchema text (sc_Type s) (sc_Format s) (sc_Default s) (sc_Ref s) (sc_Properties s) (sc_Required s) (sc_Items s) (sc_AdditionalProperties s).
Definition defaults_to (v : json) (s : Schema Ref) : Schema Ref :=
  mkSchema (sc_Description s) (sc_Type s) (sc_Format s) (Some v) (sc_Ref s) (sc_Properties s) (sc_Required s) (sc_Items s) (sc_AdditionalProperties s).

(** What a schema means, by the rules of OpenAPI: the type (nothing here is
    nullable), the required members, the schemas of the members, and the
    format of texts, of which [format_ok] knows. A reference is left to the
    schema it names and not followed. *)
Definition has_type (v : json) (type : string) : bool :=
  match v with
  | JNull => false
  | JBool _ => (type =? "boolean")%string
  | JNum _ => (type =? "integer")%string || (type =? "number")%string
  | JFrac _ => (type =? "number")%string
  | JStr _ => (type =? "string")%string
  | JArr _ => (type =? "array")%string
  | JObj _ => (type =? "object")%string
  end.

Variable format_ok : string -> string -> bool.

Fixpoint accepts (s : Schema Ref) (v : json) {struct s} : bool :=
  match s with
  | mkSchema _ types format _ _ properties required items additional =>
      (if (length types =? 0)%nat then true else existsb (has_type v) types) &&
      match v with
      | JStr text => (format =? "")%string || format_ok format text
      | JArr l => match items with None => true | Some item => forallb (accepts item) l end
      | JObj members =>
          forallb (fun k => existsb (fun '(k', _) => (k' =? k)%string) members) required &&
          forallb (fun '(k, sk) => forallb (fun '(k', v') => if (k' =? k)%string then accepts sk v' else true) members) properties &&
          match additional with
          | None => true
          | Some sa =>
              forallb (fun '(k', v') => if existsb (fun '(k, _) => (k =? k')%string) properties then true else accepts sa v') members
          end
      | _ => true
      end
  end.

(** A struct against the schema of an object: the names a schema requires
    are those of fields without [omitempty], so that all depends on the
    members that are written. *)
Fixpoint always_written {T} (fs : Fields T) : list string :=
  match fs with fnil => [] | fcons name omitempty _ fs' => (if omitempty then [] else [name]) ++ always_written fs' end.

Fixpoint schemas_of (properties : list (string * Schema Ref)) (name : string) : list (Schema Ref) :=
  match properties with
  | [] => []
  | (k, sk) :: properties' => if (name =? k)%string then sk :: schemas_of properties' name else schemas_of properties' name
  end.

Definition member_accepted (properties : list (string * Schema Ref)) (name : string) (v : json) : bool :=
  forallb (fun sk => accepts sk v) (schemas_of properties name).

Lemma member_accepted_spec properties name v :
  forallb (fun p => if (name =? p.1)%string then accepts p.2 v else true) properties = member_accepted properties name v.
Proof.
  unfold member_accepted. induction properties as [|[k sk] properties IH]; [done|]. cbn [forallb schemas_of fst snd].
  rewrite IH. by destruct (name =? k)%string.
Qed.

Fixpoint fields_accepted {T} (properties : list (string * Schema Ref)) (fs : Fields T) : T -> bool :=
  match fs with
  | fnil => fun _ => true
  | fcons name omitempty t fs' => fun ab => let (a, b) := ab in
      ((omitempty && jt_empty t a) || member_accepted properties name (jt_enc t a)) && fields_accepted properties fs' b
  end.

Lemma always_written_spec {T} (fs : Fields T) x k :
  existsb (fun k' => (k' =? k)%string) (always_written fs) = true ->
  existsb (fun '(k', _) => (k' =? k)%string) (enc_fields fs x) = true.
Proof.
  induction fs as [|A B name o t fs IH]; [done|]. destruct x as [a b]. cbn [always_written enc_fields].
  rewrite !existsb_app. intros [H|H]%orb_true_iff; [|by rewrite (IH b H), orb_true_r].
  destruct o; [done|]. cbn in H |- *. apply orb_true_iff in H as [H|H]; [by rewrite H|done].
Qed.

Lemma forallb_same {A} (f g : A -> bool) l : (forall a, f a = g a) -> forallb f l = forallb g l.
Proof. intros H. induction l as [|a l IH]; cbn; [done|]. by rewrite H, IH. Qed.

Lemma forallb_swap {A B} (f : A -> B -> bool) l k :
  forallb (fun a => forallb (f a) k) l = forallb (fun b => forallb (fun a => f a b) l) k.
Proof.
  induction l as [|a l IH]; cbn.
  - induction k as [|b k IHk]; cbn; [done|]. exact IHk.
  - rewrite IH. clear IH. induction k as [|b k IHk]; cbn; [done|]. rewrite <- IHk.
    by destruct (f a b), (forallb (f a) k), (forallb (fun a => f a b) l).
Qed.

Lemma fields_accepted_spec {T} properties (fs : Fields T) x :
  forallb (fun '(name, v) => member_accepted properties name v) (enc_fields fs x) = fields_accepted properties fs x.
Proof.
  induction fs as [|A B name o t fs IH]; [done|]. destruct x as [a b]. cbn [enc_fields fields_accepted].
  rewrite forallb_app, IH. by destruct (o && jt_empty t a); cbn; rewrite ?andb_true_r.
Qed.

Lemma accepts_described text s v : accepts (described text s) v = accepts s v.
Proof. by destruct s. Qed.

Lemma accepts_struct {T} properties required (fs : Fields T) x :
  forallb (fun k => existsb (fun k' => (k' =? k)%string) (always_written fs)) required = true ->
  accepts (object properties required) (JObj (enc_fields fs x)) = fields_accepted properties fs x.
Proof.
  intros Hr. unfold object. cbn [accepts length Nat.eqb existsb has_type orb andb String.eqb Ascii.eqb Bool.eqb].
  assert (E : forallb (fun k => existsb (fun '(k', _) => (k' =? k)%string) (enc_fields fs x)) required = true).
  { apply forallb_forall. intros k Hk. apply always_written_spec. by apply (proj1 (forallb_forall _ _) Hr). }
  rewrite E, andb_true_r. cbn [andb]. rewrite <- fields_accepted_spec.
  transitivity (forallb (fun p : string * Schema Ref => forallb (fun m : string * json =>
    if (m.1 =? p.1)%string then accepts p.2 m.2 else true) (enc_fields fs x)) properties).
  { apply forallb_same. intros [k sk]. apply forallb_same. by intros [k' v']. }
  rewrite forallb_swap. apply forallb_same. intros [name v]. apply member_accepted_spec.
Qed.
End schemas.

(** ** The custom resource definition (manifests/crd/bases/kubecluster.org_slurmbridgejobs.yaml)

    [volume_schema] is the schema of a pod volume, which the generator
    copies from the Kubernetes API. Quotes in the descriptions are left out. *)

Section crd.
Variable volume_schema : Schema Empty_set.

(** The members around the volume. *)
Definition crd_spec_schema : Schema Empty_set :=
  described "SlurmBridgeJobSpec defines the desired state of SlurmBridgeJob" $
  object
    [("array", scalar "string" "");
     ("cpusPerTask", scalar "integer" "int64");
     ("gres", scalar "string" "");
     ("licenses", scalar "string" "");
     ("memPerCpu", scalar "integer" "int64");
     ("nodes", scalar "integer" "int64");
     ("ntasks", scalar "integer" "int64");
     ("ntasksPerNode", scalar "integer" "int64");
     ("partition", scalar "string" "");
     ("result",
        described "Result may be specified for an optional result-fetcher collection step. When specified, after job is completed all result-fetcher will be downloaded from Slurm cluster with respect to this configuration." $
        object [("volume", volume_schema)] []);
     ("runAsGroup", scalar "integer" "int64");
     ("runAsUser", scalar "integer" "int64");
     ("sbatchScript", scalar "string" "");
     ("workingDir", scalar "string" "")]
    ["partition"; "sbatchScript"].

Definition crd_subjob_schema : Schema Empty_set :=
  object
    [("WorkDir", scalar "string" "");
     ("arrayJobID", scalar "string" "");
     ("batchHost", scalar "string" "");
     ("exitCode", scalar "string" "");
     ("id", described "INSERT ADDITIONAL STATUS FIELD - define observed state of cluster Important: Run make to regenerate code after modifying this file" $ scalar "string" "");
     ("name", scalar "string" "");
     ("nodeList", scalar "string" "");
     ("numNodes", scalar "string" "");
     ("partition", scalar "string" "");
     ("runTime", scalar "string" "");
     ("startTime", scalar "string" "date-time");
     ("state", scalar "string" "");
     ("stdErr", scalar "string" "");
     ("stdOut", scalar "string" "");
     ("submitTime", scalar "string" "date-time");
     ("timeLimit", scalar "string" "");
     ("userId", scalar "string" "")]
    ["WorkDir"; "arrayJobID"; "batchHost"; "exitCode"; "id"; "name"; "nodeList"; "numNodes"; "partition"; "runTime"; "startTime";
     "state"; "stdErr"; "stdOut"; "submitTime"; "timeLimit"; "userId"].

Definition crd_status_schema : Schema Empty_set :=
  described "SlurmBridgeJobStatus defines the observed state of SlurmBridgeJob" $
  object
    [("clusterEndPoint", scalar "string" "");
     ("fetchResult", scalar "boolean" "");
     ("fetchResultStatus", scalar "string" "");
     ("state", scalar "string" "");
     ("subjobStatus", map_of crd_subjob_schema)]
    ["state"].

Definition crd_schema : Schema Empty_set :=
  described "SlurmBridgeJob is the Schema for the slurmbridgejobs API" $
  object
    [("apiVersion", described "APIVersion defines the versioned schema of this representation of an object. Servers should convert recognized schemas to the latest internal value, and may reject unrecognized values. More info: https://git.k8s.io/community/contributors/devel/sig-architecture/api-conventions.md#resources" $ scalar "string" "");
     ("kind", described "Kind is a string value representing the REST resource this object represents. Servers may infer this from the endpoint the client submits requests to. Cannot be updated. In CamelCase. More info: https://git.k8s.io/community/contributors/devel/sig-architecture/api-conventions.md#types-kinds" $ scalar "string" "");
     ("metadata", scalar "object" "");
     ("spec", crd_spec_schema);
     ("status", crd_status_schema)]
    [].
End crd.

Section stored.
Context `{AML : ApiMachineryLaws}.
Variable volume_schema : Schema Empty_set.
Variable format_ok : string -> string -> bool.
(** The CRD has the schema of what the API machinery writes. *)
Hypothesis volume_accepted : forall v, accepts format_ok volume_schema (jt_enc Volume_json v) = true.
Hypothesis time_accepted : forall t, printable t -> format_ok "date-time" (Format_RFC3339 t) = true.

#[local] Abbreviation accepts := (accepts format_ok).
#[local] Abbreviation crd := (crd_schema volume_schema).

Ltac by_fields :=
  cbn [jt_enc jt_struct]; 
  first [progress unfold crd_schema|progress unfold crd_spec_schema|progress unfold crd_status_schema|progress unfold crd_subjob_schema|idtac];
  rewrite ?accepts_described;
  rewrite accepts_struct by reflexivity; cbn [fields_accepted tag omit].
(** The schema of a member, by its name. *)
Ltac by_name := unfold member_accepted; cbn [schemas_of forallb String.eqb Ascii.eqb Bool.eqb andb orb]; rewrite ?andb_true_r, ?accepts_described.
(** The conjuncts of scalar members evaluate. *)
Ltac scalars := repeat match goal with |- (_ || _) && _ = true => apply andb_true_iff; split end; try reflexivity; try (apply orb_true_iff; right; reflexivity).

Lemma result_accepted r :
  accepts (object [("volume", volume_schema)] []) (jt_enc JobResult_json r) = true.
Proof.
  unfold JobResult_json. by_fields. by_name. rewrite volume_accepted. by destruct (jt_empty _ _).
Qed.

Lemma spec_accepted sp : accepts (crd_spec_schema volume_schema) (jt_enc SlurmBridgeJobSpec_json sp) = true.
Proof.
  unfold SlurmBridgeJobSpec_json. by_fields. unfold SlurmBridgeJobSpec_fields. cbn [fields_accepted tag omit].
  destruct sp as [p sc [u|] [g|] ar c n np no w me gr li [res|]]; scalars.
  all: apply orb_true_iff; right; by_name; exact (result_accepted res).
Qed.

Definition time_written (o : option Time) : bool := match o with Some t => negb (IsZero t) | None => false end.
Definition subjob_timed (s : SlurmSubjobStatus) : bool := time_written (sub_SubmitTime s) && time_written (sub_StartTime s).

Lemma time_member o : jt_ok (jt_ptr Time_json) o ->
  accepts (scalar "string" "date-time" : Schema Empty_set) (jt_enc (jt_ptr Time_json) o) = time_written o.
Proof.
  destruct o as [t|]; [|done]. cbn. intros Ht. destruct (IsZero t); [done|]. cbn. by rewrite time_accepted.
Qed.

Lemma subjob_accepted s : jt_ok SlurmSubjobStatus_json s ->
  accepts crd_subjob_schema (jt_enc SlurmSubjobStatus_json s) = subjob_timed s.
Proof.
  intros Hok. unfold SlurmSubjobStatus_json. by_fields. unfold SlurmSubjobStatus_fields. cbn [fields_accepted tag omit].
  destruct s as [id us aj na ec st su sta rt tl wd so se pa nl bh nn].
  assert (Hs : jt_ok (jt_ptr Time_json) su /\ jt_ok (jt_ptr Time_json) sta) by (cbn in Hok; tauto). destruct Hs as [Hs Hst].
  unfold subjob_timed. cbn [sub_SubmitTime sub_StartTime]. rewrite <- (time_member su Hs), <- (time_member sta Hst).
  by_name. done.
Qed.

Lemma string_accepted text : accepts (scalar "string" "" : Schema Empty_set) (jt_enc jt_string text) = true.
Proof. done. Qed.
Lemma bool_accepted b : accepts (scalar "boolean" "" : Schema Empty_set) (jt_enc jt_bool b) = true.
Proof. done. Qed.

Lemma map_accepted {A : Type} (t : JsonType A) (s : Schema Empty_set) pointers (m : gmap string A) :
  accepts (map_of s) (jt_enc (jt_map pointers t) (Some m)) = true <-> map_Forall (fun _ a => accepts s (jt_enc t a) = true) m.
Proof.
  cbn. rewrite forallb_forall, map_Forall_to_list, list.Forall_forall. split.
  - intros Ha [k a] Hk. apply (Ha (k, jt_enc t a)). apply in_map_iff. exists (k, a). split; [done|]. by apply list_elem_of_In.
  - intros Ha [k v] ([k' a] & [= <- <-] & Hk)%in_map_iff. apply (Ha (k', a)). by apply list_elem_of_In.
Qed.

Lemma status_accepted st : jt_ok SlurmBridgeJobStatus_json st ->
  accepts crd_status_schema (jt_enc SlurmBridgeJobStatus_json st) = true <->
  map_Forall (fun _ s => subjob_timed s = true) (default ∅ (sjs_SubjobStatus st)).
Proof.
  intros Hok. unfold SlurmBridgeJobStatus_json. by_fields. unfold SlurmBridgeJobStatus_fields. cbn [fields_accepted tag omit].
  destruct st as [state [m|] fetch fs ep]; cbn [sjs_State sjs_SubjobStatus sjs_FetchResult sjs_FetchResultStatus sjs_ClusterEndPoint default].
  - assert (Hm : map_Forall (fun _ s => jt_ok SlurmSubjobStatus_json s) m).
    { destruct Hok as (_ & Hm & _). intros k s Hk. by apply (Hm k s Hk). }
    assert (Hsubs : map_Forall (fun _ s => accepts crd_subjob_schema (jt_enc SlurmSubjobStatus_json s) = true) m <->
                    map_Forall (fun _ s => subjob_timed s = true) m).
    { split; intros Ha k s Hk; [rewrite <- subjob_accepted by by apply (Hm k)|rewrite subjob_accepted by by apply (Hm k)]; by apply (Ha k). }
    by_name. rewrite !string_accepted, bool_accepted, !orb_true_r, !andb_true_r. cbn [andb id].
    rewrite orb_true_iff, (map_accepted SlurmSubjobStatus_json crd_subjob_schema), Hsubs. cbn [jt_empty jt_map]. split; [|by right].
    intros [Hz|Ha]; [|done]. apply Nat.eqb_eq, map_size_empty_inv in Hz as ->. apply map_Forall_empty.
  - by_name. rewrite !string_accepted, bool_accepted, !orb_true_r. cbn. split; [|done]. intros _. apply map_Forall_empty.
Qed.

(** A job is accepted unless a time of one of its Slurm jobs is missing. *)
Lemma job_accepted tm j : jt_ok SlurmBridgeJob_json (tm, j) ->
  accepts crd (jt_enc SlurmBridgeJob_json (tm, j)) = true <-> map_Forall (fun _ s => subjob_timed s = true) (subjobs j).
Proof.
  intros Hok. unfold SlurmBridgeJob_json. by_fields. unfold SlurmBridgeJob_fields. cbn [fields_accepted tag omit].
  destruct (ObjectMeta_object (sbj_meta j)) as [members Hmeta].
  by_name. rewrite Hmeta, !string_accepted, !orb_true_r, (spec_accepted (sbj_Spec j)). cbn [andb orb jt_empty jt_struct SlurmBridgeJobStatus_json].
  fold SlurmBridgeJobStatus_json. rewrite orb_true_r. unfold subjobs. rewrite <- status_accepted; [|by destruct Hok as (_ & _ & _ & _ & Hst & _)].
  done.
Qed.

(** Two jobs that say the same; no map of Slurm jobs is an empty one. *)
Definition same_contents (j j' : SlurmBridgeJob) : Prop :=
  sbj_meta j = sbj_meta j' /\ sbj_Spec j = sbj_Spec j' /\ sjs_State (sbj_Status j) = sjs_State (sbj_Status j') /\
  subjobs j = subjobs j' /\ sjs_FetchResult (sbj_Status j) = sjs_FetchResult (sbj_Status j') /\
  sjs_FetchResultStatus (sbj_Status j) = sjs_FetchResultStatus (sbj_Status j') /\
  sjs_ClusterEndPoint (sbj_Status j) = sjs_ClusterEndPoint (sbj_Status j').

(** The API server takes the job and gives it back. *)
Definition storable (tm : TypeMeta) (j : SlurmBridgeJob) : Prop :=
  accepts crd (jt_enc SlurmBridgeJob_json (tm, j)) = true /\
  exists j', jt_dec SlurmBridgeJob_json (jt_enc SlurmBridgeJob_json (tm, j)) (jt_zero SlurmBridgeJob_json) = Ok (tm, j') /\
    same_contents j' j.

(** A time that is written and read back as it is. *)
Definition exact_time (o : option Time) : Prop :=
  match o with Some t => printable t /\ IsZero t = false /\ t_nsec t = 0%Z | None => False end.
Definition exact_subjob (s : SlurmSubjobStatus) : Prop := exact_time (sub_SubmitTime s) /\ exact_time (sub_StartTime s).

Lemma exact_written o : exact_time o -> time_written o = true /\ jt_norm (jt_ptr Time_json) o = o /\ jt_ok (jt_ptr Time_json) o.
Proof.
  destruct o as [[sec ns]|]; [|done]. intros (Hp & Hz & Hn). cbn in Hn. subst ns. cbn in Hz |- *. rewrite Hz. done.
Qed.

Lemma written_exact o : time_written o = true -> jt_norm (jt_ptr Time_json) o = o -> jt_ok (jt_ptr Time_json) o -> exact_time o.
Proof.
  destruct o as [t|]; [|done]. cbn. intros Hz. apply negb_true_iff in Hz. rewrite Hz. cbn. intros Hn Hp.
  split_and!; [done..|]. injection Hn as <-. done.
Qed.

Lemma exact_stored s : exact_subjob s -> stored_subjob s = s.
Proof.
  intros [(_ & H1 & _)%exact_written (_ & H2 & _)%exact_written]. unfold stored_subjob. rewrite H1, H2. by destruct s.
Qed.

Lemma stored_subjobs j : subjobs (stored_job j) = stored_subjob <$> subjobs j.
Proof.
  unfold subjobs, stored_job, stored_status. cbn. destruct (sjs_SubjobStatus (sbj_Status j)) as [m|]; cbn; [|by rewrite fmap_empty].
  destruct (size m =? 0)%nat eqn:E; [|done]. apply Nat.eqb_eq, map_size_empty_inv in E as ->. by rewrite fmap_empty.
Qed.

(** The fields of a job but its Slurm jobs can be written. *)
Definition writable (j : SlurmBridgeJob) : Prop := jt_ok ObjectMeta_json (sbj_meta j) /\ jt_ok SlurmBridgeJobSpec_json (sbj_Spec j).

Lemma job_ok tm j : writable j -> map_Forall (fun _ => exact_subjob) (subjobs j) -> jt_ok SlurmBridgeJob_json (tm, j).
Proof.
  intros [Hm Hs] Hx. cbn [jt_ok SlurmBridgeJob_json jt_struct SlurmBridgeJob_fields ok_fields omit tag].
  split_and!; [done..| |done]. cbn. split_and!; [done| |done..]. unfold subjobs in Hx.
  destruct (sjs_SubjobStatus (sbj_Status j)) as [m|]; [|done]. intros k s Hk. split; [|done].
  destruct (Hx k s Hk) as [(_ & _ & H1)%exact_written (_ & _ & H2)%exact_written]. cbn in H1, H2 |- *. tauto.
Qed.

(** The times are all that matters. *)
Lemma storable_iff tm j : jt_ok SlurmBridgeJob_json (tm, j) ->
  storable tm j <-> map_Forall (fun _ => exact_subjob) (subjobs j).
Proof.
  intros Hok. unfold storable. rewrite (job_accepted tm j Hok), (SlurmBridgeJob_reads_back _ Hok), job_norm. split.
  - intros (Ht & j' & [= <-] & (_ & _ & _ & Hs & _)). rewrite stored_subjobs in Hs. intros k s Hk.
    assert (E : stored_subjob s = s).
    { apply (f_equal (fun m : gmap string SlurmSubjobStatus => m !! k)) in Hs. rewrite lookup_fmap, Hk in Hs. by injection Hs. }
    specialize (Ht k s Hk). apply andb_true_iff in Ht as [Ht1 Ht2].
    assert (Hs2 : jt_ok (jt_ptr Time_json) (sub_SubmitTime s) /\ jt_ok (jt_ptr Time_json) (sub_StartTime s)).
    { destruct Hok as (_ & _ & _ & _ & Hst & _). destruct Hst as (_ & Hst & _). unfold subjobs in Hk.
      destruct (sjs_SubjobStatus (sbj_Status j)) as [m|]; [|by cbn in Hk; rewrite lookup_empty in Hk].
      destruct (Hst k s Hk) as [Hst' _]. cbn in Hst' |- *. tauto. }
    split; apply written_exact; try tauto.
    + by apply (f_equal sub_SubmitTime) in E.
    + by apply (f_equal sub_StartTime) in E.
  - intros Hx. split.
    + intros k s Hk. destruct (Hx k s Hk) as [(H1 & _)%exact_written (H2 & _)%exact_written]. unfold subjob_timed. by rewrite H1, H2.
    + exists (stored_job j). split; [done|]. split_and!; try done. rewrite stored_subjobs.
      apply map_eq. intros k. rewrite lookup_fmap. destruct (subjobs j !! k) as [s|] eqn:Hk; [|done]. cbn. by rewrite exact_stored by eauto.
Qed.

(** ** The status the operator writes *)

(** A Slurm job with times Kubernetes can hold: to the second, in the years
    0 to 9999, and not the zero time, which is written as [null]. *)
Definition holdable_info `{PT : ProtoTime} (info : JobInfo) : Prop :=
  exact_time (Some (AsTime (ji_SubmitTime info))) /\ exact_time (Some (AsTime (ji_StartTime info))).

Lemma add_subjobs_exact `{PT : ProtoTime} infos m :
  Forall holdable_info infos -> map_Forall (fun _ => exact_subjob) m -> map_Forall (fun _ => exact_subjob) (add_subjobs infos m).
Proof.
  unfold add_subjobs. revert m. induction infos as [|info infos IH]; intros m Hi Hm; [done|]. apply list.Forall_cons in Hi as [Hi His].
  cbn [foldl]. apply IH; [done|]. by apply map_Forall_insert_2.
Qed.

Lemma new_job_storable tm j : writable j -> sbj_Status j = zero_Status -> storable tm j.
Proof.
  intros Hw Hz. assert (Hs : map_Forall (fun _ => exact_subjob) (subjobs j)) by (unfold subjobs; rewrite Hz; apply map_Forall_empty).
  apply storable_iff; [|done]. by apply job_ok.
Qed.

(** C32. The API server accepts every status the operator makes of what the
    virtual kubelet reports, and gives it back as it was: from a job that is
    stored, [UpdateSBJStatus] makes one that passes the schema of the custom
    resource and is read back with the same contents, as long as the times
    reported are ones Kubernetes can hold, which is what it takes
    ([storable_iff]). *)
Theorem written_status_survives `{PT : ProtoTime, JR : Json JobInfoResponse} tm pod info (s : RS Server) :
  (st_Message (pod_status pod) <> "" -> Unmarshal (st_Message (pod_status pod)) = Ok info) ->
  jt_ok SlurmBridgeJob_json (tm, rs_job s) -> storable tm (rs_job s) -> Forall holdable_info (jresp_Info info) ->
  exists w' j', UpdateSBJStatus (Some pod) s = (Ok tt, mkRS w' j') /\
    jt_ok SlurmBridgeJob_json (tm, j') /\ storable tm j'.
Proof.
  intros Hu Hok Hs Hi. destruct (UpdateSBJStatus_run pod info s Hu) as (w' & Hrun & _).
  assert (Hw : writable (rs_job s)) by (destruct Hok as (_ & _ & Hm & Hsp & _); done).
  apply storable_iff in Hs; [|done]. eexists w', _. split; [exact Hrun|].
  set (j' := with_status (rs_job s) (observed pod info (sbj_Status (rs_job s)))).
  assert (Hx : map_Forall (fun _ => exact_subjob) (subjobs j')).
  { unfold j', observed. revert Hs. generalize (rs_job s). intros [m sp [st subs fe fs ep]] Hs.
    unfold subjobs, with_status in *. cbn in Hs |- *.
    destruct (map_get (pod_annotations pod) LabelAgentEndPoint); case_bool_decide; cbn; try done; by apply add_subjobs_exact. }
  assert (Hok' : jt_ok SlurmBridgeJob_json (tm, j')) by by apply job_ok. split; [done|]. by apply storable_iff.
Qed.
End stored.

(** ** Objects a user writes

    Whatever the schema lets in can be read by the operator, if its integers
    fit 64 bits: a created object, whose status the server drops. *)

Fixpoint small (v : json) : bool :=
  match v with
  | JNum n => bool_decide (fits_width 64 n)
  | JArr l => forallb small l
  | JObj members => forallb (fun '(_, v') => small v') members
  | _ => true
  end.

Definition decodes {A} (t : JsonType A) (v : json) : Prop := forall cur, exists a, jt_dec t v cur = Ok a.

(** Every member that is a field can be read. *)
Fixpoint fields_read {T} (members : list (string * json)) (fs : Fields T) : Prop :=
  match fs with
  | fnil => True
  | fcons name _ t fs' => (forall v, (name, v) ∈ members -> decodes t v) /\ fields_read members fs'
  end.

Lemma dec_member_read {T} members (fs : Fields T) k v x :
  fields_read members fs -> (k, v) ∈ members -> exists x', dec_member fs k v x = Ok x'.
Proof.
  intros Hfs Hk. induction fs as [|A B name o t fs IH]; [by eexists|]. destruct x as [a b]. destruct Hfs as [Hd Hfs]. cbn [dec_member].
  case_bool_decide as E.
  - subst k. destruct (Hd v Hk a) as [a' ->]. by eexists.
  - destruct (IH b Hfs) as [b' ->]. by eexists.
Qed.

Lemma dec_members_read {T} members (fs : Fields T) sub x :
  fields_read members fs -> sub ⊆ members -> exists x', dec_members fs sub x = Ok x'.
Proof.
  intros Hfs. revert x. induction sub as [|[k v] sub IH]; intros x Hsub; [by eexists|].
  destruct (dec_member_read members fs k v x Hfs) as [x' E]; [set_solver|]. cbn [dec_members]. rewrite E. apply IH. set_solver.
Qed.

Section decoding.
Variable format_ok : string -> string -> bool.
#[local] Abbreviation accepts := (accepts format_ok).

Definition schema_decodes {A} (sk : Schema Empty_set) (t : JsonType A) : Prop :=
  forall v, accepts sk v = true -> small v = true -> decodes t v.

Fixpoint fields_decode {T} (properties : list (string * Schema Empty_set)) (fs : Fields T) : Prop :=
  match fs with
  | fnil => True
  | fcons name _ t fs' => (exists sk, schemas_of properties name = [sk] /\ schema_decodes sk t) /\ fields_decode properties fs'
  end.

(** The member [name] of an accepted object, if it is there. *)
Lemma member_decodes {A} (properties : list (string * Schema Empty_set)) members name sk (t : JsonType A) v :
  Forall (fun kv => member_accepted format_ok properties kv.1 kv.2 = true /\ small kv.2 = true) members ->
  schemas_of properties name = [sk] -> schema_decodes sk t -> (name, v) ∈ members -> decodes t v.
Proof.
  intros Hm Hsk Hd Hv. rewrite list.Forall_forall in Hm. destruct (Hm _ Hv) as [Ha Hs]. cbn [fst snd] in Ha, Hs.
  unfold member_accepted in Ha. rewrite Hsk in Ha. cbn [forallb] in Ha. rewrite andb_true_r in Ha. by apply Hd.
Qed.

Lemma fields_decode_read {T} properties (fs : Fields T) members :
  fields_decode properties fs -> Forall (fun kv => member_accepted format_ok properties kv.1 kv.2 = true /\ small kv.2 = true) members ->
  fields_read members fs.
Proof.
  intros Hfs Hm. induction fs as [|A B name o t fs IH]; [done|]. destruct Hfs as [(sk & Hsk & Hd) Hfs]. split; [|by apply IH].
  intros v. by eapply member_decodes.
Qed.

Lemma object_members (properties : list (string * Schema Empty_set)) required members : accepts (object properties required) (JObj members) = true ->
  small (JObj members) = true ->
  Forall (fun kv => member_accepted format_ok properties kv.1 kv.2 = true /\ small kv.2 = true) members.
Proof.
  intros Ha Hs. cbn [accepts object length Nat.eqb existsb has_type orb andb String.eqb Ascii.eqb Bool.eqb] in Ha.
  rewrite andb_true_r in Ha. apply andb_true_iff in Ha as [_ Ha]. apply list.Forall_forall. intros [k v] Hkv. cbn [fst snd].
  apply list_elem_of_In in Hkv. cbn [small] in Hs. rewrite forallb_forall in Hs. split; [|by apply (Hs (k, v))].
  rewrite <- member_accepted_spec. apply forallb_forall. intros [k' sk] Hsk. cbn [fst snd].
  rewrite forallb_forall in Ha. specialize (Ha _ Hsk). cbn in Ha. rewrite forallb_forall in Ha. exact (Ha _ Hkv).
Qed.

Lemma struct_decodes {R T} properties required (fs : Fields T) (to : R -> T) from :
  fields_decode properties fs -> schema_decodes (object properties required) (jt_struct fs to from).
Proof.
  intros Hfs v Ha Hs cur. destruct v as [|b|n|l|s|l|members]; try done.
  destruct (dec_members_read members fs members (to cur) (fields_decode_read _ _ _ Hfs (object_members _ _ _ Ha Hs)) (reflexivity _)) as [x' E].
  cbn [jt_dec jt_struct]. rewrite E. by eexists.
Qed.

Lemma string_decodes : schema_decodes (scalar "string" "") jt_string.
Proof. intros [| | | | | |] Ha Hs cur; try done. by eexists. Qed.
Lemma int_decodes : schema_decodes (scalar "integer" "int64") (jt_int 64).
Proof. intros [| |n| | | |] Ha Hs cur; try done. cbn in Hs |- *. rewrite Hs. by eexists. Qed.
Lemma ptr_decodes {A} sk (t : JsonType A) : schema_decodes sk t -> schema_decodes sk (jt_ptr t).
Proof.
  intros H v Ha Hs cur. cbn. destruct (is_null v); [by eexists|]. destruct (H v Ha Hs (default (jt_zero t) cur)) as [a ->]. by eexists.
Qed.
Lemma described_decodes {A} text sk (t : JsonType A) : schema_decodes sk t -> schema_decodes (described text sk) t.
Proof. intros H v Ha. apply H. by rewrite accepts_described in Ha. Qed.
End decoding.

Section user_objects.
Context `{AML : ApiMachineryLaws}.
Variable volume_schema : Schema Empty_set.
Variable format_ok : string -> string -> bool.
(** A volume the schema lets in can be read. *)
Hypothesis volume_decodes : schema_decodes format_ok volume_schema Volume_json.

Lemma spec_decodes : schema_decodes format_ok (crd_spec_schema volume_schema) SlurmBridgeJobSpec_json.
Proof.
  apply described_decodes, struct_decodes. cbn [fields_decode SlurmBridgeJobSpec_fields tag omit].
  assert (Hres : schema_decodes format_ok (object [("volume", volume_schema)] []) JobResult_json).
  { apply struct_decodes. cbn [fields_decode omit]. split; [|done]. by exists volume_schema. }
  repeat split; eexists; (split; [reflexivity|]); try apply described_decodes; eauto using string_decodes, int_decodes, ptr_decodes.
Qed.

Lemma status_untouched members x x' :
  Forall (fun kv => kv.1 <> "status") members -> dec_members SlurmBridgeJob_fields members x = Ok x' ->
  x'.2.2.2.2.1 = x.2.2.2.2.1.
Proof.
  revert x. induction members as [|[k v] members IH]; intros x Hm Hd; [by injection Hd as <-|].
  apply list.Forall_cons in Hm as [Hk Hm]. cbn [fst] in Hk.
  cbn [dec_members] in Hd.
  apply bind_Ok_inv in Hd as (x1 & Hd1 & Hd2). rewrite (IH x1 Hm Hd2). clear Hd2 IH.
  destruct x as (kind & version & meta & spec & status & []). revert Hd1. unfold SlurmBridgeJob_fields, omit. cbn [dec_member].
  rewrite (bool_decide_eq_false_2 (k = "status")) by done.
  repeat case_bool_decide; intros Hx.
  all: repeat match goal with E : _ ≫= _ = Ok _ |- _ => apply bind_Ok_inv in E as (? & ? & E) end.
  all: by simplify_eq.
Qed.

(** What a user may create, the operator reads: with an empty status. *)
Lemma created_object_decodes members :
  accepts format_ok (crd_schema volume_schema) (JObj members) = true -> small (JObj members) = true ->
  (forall v, ("metadata", v) ∈ members -> decodes ObjectMeta_json v) ->
  Forall (fun kv => kv.1 <> "status") members ->
  exists tm j, jt_dec SlurmBridgeJob_json (JObj members) (jt_zero SlurmBridgeJob_json) = Ok (tm, j) /\ sbj_Status j = zero_Status.
Proof.
  intros Ha Hs Hmeta Hst. unfold crd_schema in Ha. rewrite accepts_described in Ha. pose proof (object_members _ _ _ _ Ha Hs) as Hm.
  assert (Hread : fields_read members SlurmBridgeJob_fields).
  { cbn [fields_read SlurmBridgeJob_fields omit]. repeat split; intros v Hv.
    - eapply (member_decodes format_ok); [exact Hm| | |exact Hv]; [reflexivity|apply described_decodes, string_decodes].
    - eapply (member_decodes format_ok); [exact Hm| | |exact Hv]; [reflexivity|apply described_decodes, string_decodes].
    - by apply Hmeta.
    - eapply (member_decodes format_ok); [exact Hm| | |exact Hv]; [reflexivity|apply spec_decodes].
    - rewrite list.Forall_forall in Hst. by destruct (Hst _ Hv). }
  destruct (dec_members_read members SlurmBridgeJob_fields members (zero_fields SlurmBridgeJob_fields) Hread (reflexivity _)) as [x Hx].
  pose proof (status_untouched _ _ _ Hst Hx) as Hz. destruct x as (kind & version & meta & spec & status & []). cbn [snd fst] in Hz.
  exists (mkTypeMeta kind version), (mkSlurmBridgeJob meta spec status). split; [|exact Hz].
  cbn [jt_dec SlurmBridgeJob_json jt_struct].
  match goal with |- dec_members _ _ ?z ≫= _ = _ => change z with (zero_fields SlurmBridgeJob_fields) end. by rewrite Hx.
Qed.
End user_objects.

(** ** The generated OpenAPI definitions (openapi_generated.go) *)

Record OpenAPIDefinition (Ref : Type) := mkOpenAPIDefinition { oad_Schema : Schema Ref; oad_Dependencies : list string }.
Arguments mkOpenAPIDefinition {Ref}.
Arguments oad_Schema {Ref}.
Arguments oad_Dependencies {Ref}.

Section openapi.
(** [ref] makes the reference to a type. *)
Context {Ref : Type}.
Variable ref : string -> Ref.

Definition schema_slurm_bridge_operator_apis_kubeclusterorg_v1alpha1_SlurmBridgeJob : OpenAPIDefinition Ref :=
  mkOpenAPIDefinition
    (described "SlurmBridgeJob is the Schema for the slurmbridgejobs API" $
     object
  [("kind", described "Kind is a string value representing the REST resource this object represents. Servers may infer this from the endpoint the client submits requests to. Cannot be updated. In CamelCase. More info: https://git.k8s.io/community/contributors/devel/sig-architecture/api-conventions.md#types-kinds" $ scalar "string" "");
   ("apiVersion", described "APIVersion defines the versioned schema of this representation of an object. Servers should convert recognized schemas to the latest internal value, and may reject unrecognized values. More info: https://git.k8s.io/community/contributors/devel/sig-architecture/api-conventions.md#resources" $ scalar "string" "");
   ("metadata", reference (Some (JObj [])) (ref "k8s.io/apimachinery/pkg/apis/meta/v1.ObjectMeta"));
   ("spec", reference (Some (JObj [])) (ref "github.com/chriskery/slurm-bridge-operator/apis/kubecluster.org/v1alpha1.SlurmBridgeJobSpec"));
   ("status", reference (Some (JObj [])) (ref "github.com/chriskery/slurm-bridge-operator/apis/kubecluster.org/v1alpha1.SlurmBridgeJobStatus"))] [])
    ["github.com/chriskery/slurm-bridge-operator/apis/kubecluster.org/v1alpha1.SlurmBridgeJobSpec";
     "github.com/chriskery/slurm-bridge-operator/apis/kubecluster.org/v1alpha1.SlurmBridgeJobStatus";
     "k8s.io/apimachinery/pkg/apis/meta/v1.ObjectMeta"].

(** The properties of the configuration, the paths and sources first. *)
Definition configuration_sources : list (string * Schema Ref) :=
  [("kind", described "Kind is a string value representing the REST resource this object represents. Servers may infer this from the endpoint the client submits requests to. Cannot be updated. In CamelCase. More info: https://git.k8s.io/community/contributors/devel/sig-architecture/api-conventions.md#types-kinds" $ scalar "string" "");
   ("apiVersion", described "APIVersion defines the versioned schema of this representation of an object. Servers should convert recognized schemas to the latest internal value, and may reject unrecognized values. More info: https://git.k8s.io/community/contributors/devel/sig-architecture/api-conventions.md#resources" $ scalar "string" "");
   ("metadata", reference (Some (JObj [])) (ref "k8s.io/apimachinery/pkg/apis/meta/v1.ListMeta"));
   ("Pods", defaults_to (JStr "") (scalar "string" ""));
   ("EnableServer", described "enableServer enables Kubelet's secured server. Note: Kubelet's insecure port is controlled by the readOnlyPort option." $ defaults_to (JBool false) (scalar "boolean" ""));
   ("StaticPodPath", described "staticPodPath is the path to the directory containing local (static) pods to run, or the path to a single static pod file." $ defaults_to (JStr "") (scalar "string" ""));
   ("SyncFrequency", described "syncFrequency is the max period between synchronizing running containers and config" $ reference (Some (JNum 0)) (ref "k8s.io/apimachinery/pkg/apis/meta/v1.Duration"));
   ("FileCheckFrequency", described "fileCheckFrequency is the duration between checking config files for new data" $ reference (Some (JNum 0)) (ref "k8s.io/apimachinery/pkg/apis/meta/v1.Duration"));
   ("HTTPCheckFrequency", described "httpCheckFrequency is the duration between checking http for new data" $ reference (Some (JNum 0)) (ref "k8s.io/apimachinery/pkg/apis/meta/v1.Duration"));
   ("StaticPodURL", described "staticPodURL is the URL for accessing static pods to run" $ defaults_to (JStr "") (scalar "string" ""));
   ("StaticPodURLHeader", described "staticPodURLHeader is a map of slices with HTTP headers to use when accessing the podURL" $ map_of (array_of (defaults_to (JStr "") (scalar "string" ""))))].
Definition configuration_serving : list (string * Schema Ref) :=
  [("Address", described "address is the IP address for the Kubelet to serve on (set to 0.0.0.0 for all interfaces)" $ defaults_to (JStr "") (scalar "string" ""));
   ("Port", described "port is the port for the Kubelet to serve on." $ defaults_to (JNum 0) (scalar "integer" "int32"));
   ("ReadOnlyPort", described "readOnlyPort is the read-only port for the Kubelet to serve on with no authentication/authorization (set to 0 to disable)" $ defaults_to (JNum 0) (scalar "integer" "int32"));
   ("VolumePluginDir", described "volumePluginDir is the full path of the directory in which to search for additional third party volume plugins." $ defaults_to (JStr "") (scalar "string" ""));
   ("ProviderID", described "providerID, if set, sets the unique id of the instance that an external provider (i.e. cloudprovider) can use to identify a specific node" $ defaults_to (JStr "") (scalar "string" ""));
   ("TLSCertFile", described "tlsCertFile is the file containing x509 Certificate for HTTPS.  (CA cert, if any, concatenated after server cert). If tlsCertFile and tlsPrivateKeyFile are not provided, a self-signed certificate and key are generated for the public address and saved to the directory passed to the Kubelet's --cert-dir flag." $ defaults_to (JStr "") (scalar "string" ""));
   ("TLSPrivateKeyFile", described "tlsPrivateKeyFile is the file containing x509 private key matching tlsCertFile" $ defaults_to (JStr "") (scalar "string" ""));
   ("TLSCipherSuites", described "TLSCipherSuites is the list of allowed cipher suites for the server. Note that TLS 1.3 ciphersuites are not configurable. Values are from tls package constants (https://golang.org/pkg/crypto/tls/#pkg-constants)." $ array_of (defaults_to (JStr "") (scalar "string" "")));
   ("TLSMinVersion", described "TLSMinVersion is the minimum TLS version supported. Values are from tls package constants (https://golang.org/pkg/crypto/tls/#pkg-constants)." $ defaults_to (JStr "") (scalar "string" ""));
   ("RotateCertificates", described "rotateCertificates enables client certificate rotation. The Kubelet will request a new certificate from the certificates.k8s.io API. This requires an approver to approve the certificate signing requests." $ defaults_to (JBool false) (scalar "boolean" ""));
   ("ServerTLSBootstrap", described "serverTLSBootstrap enables server certificate bootstrap. Instead of self signing a serving certificate, the Kubelet will request a certificate from the certificates.k8s.io API. This requires an approver to approve the certificate signing requests. The RotateKubeletServerCertificate feature must be enabled." $ defaults_to (JBool false) (scalar "boolean" ""))].
Definition schema_slurm_bridge_operator_apis_kubeclusterorg_v1alpha1_SlurmVirtualKubeletConfiguration : OpenAPIDefinition Ref :=
  mkOpenAPIDefinition
    (described "SlurmVirtualKubeletConfiguration contains the configuration for the Kubelet" $
     object (configuration_sources ++ configuration_serving)
       ["Pods"; "EnableServer"; "StaticPodPath"; "SyncFrequency"; "FileCheckFrequency"; "HTTPCheckFrequency"; "StaticPodURL"; "StaticPodURLHeader"; "Address"; "Port"; "ReadOnlyPort"; "VolumePluginDir"; "ProviderID"; "TLSCertFile"; "TLSPrivateKeyFile"; "TLSCipherSuites"; "TLSMinVersion"; "RotateCertificates"; "ServerTLSBootstrap"])
    ["k8s.io/apimachinery/pkg/apis/meta/v1.Duration"; "k8s.io/apimachinery/pkg/apis/meta/v1.ListMeta"].

Definition GetOpenAPIDefinitions : list (string * OpenAPIDefinition Ref) :=
  [("github.com/chriskery/slurm-bridge-operator/apis/kubecluster.org/v1alpha1.SlurmBridgeJob", schema_slurm_bridge_operator_apis_kubeclusterorg_v1alpha1_SlurmBridgeJob);
   ("github.com/chriskery/slurm-bridge-operator/apis/kubecluster.org/v1alpha1.SlurmVirtualKubeletConfiguration", schema_slurm_bridge_operator_apis_kubeclusterorg_v1alpha1_SlurmVirtualKubeletConfiguration)].

(** The properties are the members [encoding/json] writes and reads, and the
    required ones those that are always written. *)
Lemma openapi_job_members `{AM : ApiMachinery} :
  (sc_Properties (oad_Schema schema_slurm_bridge_operator_apis_kubeclusterorg_v1alpha1_SlurmBridgeJob)).*1 = field_names SlurmBridgeJob_fields /\
  sc_Required (oad_Schema schema_slurm_bridge_operator_apis_kubeclusterorg_v1alpha1_SlurmBridgeJob) = always_written SlurmBridgeJob_fields.
Proof. done. Qed.

Lemma openapi_configuration_members {ListMeta} (lm : JsonType ListMeta) d :
  let schema := oad_Schema schema_slurm_bridge_operator_apis_kubeclusterorg_v1alpha1_SlurmVirtualKubeletConfiguration in
  (sc_Properties schema).*1 = field_names (SlurmVirtualKubeletConfiguration_fields lm d) /\
  sc_Required schema = always_written (SlurmVirtualKubeletConfiguration_fields lm d).
Proof. done. Qed.

(** The specification and the status of a job are referred to, but only the
    types marked for the generator are defined. *)
Lemma openapi_not_closed name :
  name ∈ ["github.com/chriskery/slurm-bridge-operator/apis/kubecluster.org/v1alpha1.SlurmBridgeJobSpec";
          "github.com/chriskery/slurm-bridge-operator/apis/kubecluster.org/v1alpha1.SlurmBridgeJobStatus"] ->
  name ∈ oad_Dependencies schema_slurm_bridge_operator_apis_kubeclusterorg_v1alpha1_SlurmBridgeJob /\ name ∉ GetOpenAPIDefinitions.*1.
Proof.
  intros Hn. rewrite !elem_of_cons in Hn. destruct Hn as [->|[->|[]%not_elem_of_nil]].
  all: split; [by apply (bool_decide_unpack _); vm_compute|].
  all: change (GetOpenAPIDefinitions.*1) with
         ["github.com/chriskery/slurm-bridge-operator/apis/kubecluster.org/v1alpha1.SlurmBridgeJob";
          "github.com/chriskery/slurm-bridge-operator/apis/kubecluster.org/v1alpha1.SlurmVirtualKubeletConfiguration"].
  all: by apply (bool_decide_unpack _); vm_compute.
Qed.

(** The headers for static pods are required to be an object, but a
    configuration that has none, like the one the kubelet starts from,
    writes [null]. *)
Lemma openapi_refuses_no_headers {ListMeta} (lm : JsonType ListMeta) d format_ok x c : vc_StaticPodURLHeader c = None ->
  accepts format_ok (oad_Schema schema_slurm_bridge_operator_apis_kubeclusterorg_v1alpha1_SlurmVirtualKubeletConfiguration)
    (jt_enc (SlurmVirtualKubeletConfiguration_json lm d) (x, c)) = false.
Proof.
  intros Hc. destruct x as [tm m].
  unfold schema_slurm_bridge_operator_apis_kubeclusterorg_v1alpha1_SlurmVirtualKubeletConfiguration, SlurmVirtualKubeletConfiguration_json.
  cbn [oad_Schema jt_enc jt_struct]. rewrite accepts_described, accepts_struct by reflexivity.
  unfold SlurmVirtualKubeletConfiguration_fields. cbn [fields_accepted tag omit]. rewrite Hc.
  assert (E : member_accepted format_ok (configuration_sources ++ configuration_serving) "StaticPodURLHeader"
                (jt_enc (jt_map false (jt_slice jt_string)) None) = false) by reflexivity.
  rewrite E. cbn [andb orb]. rewrite !andb_false_r. reflexivity.
Qed.
End openapi.

(** ** The schemes of the generated clients (scheme/register.go, fake/register.go)

    Both files are the same, for the clientset and for the fake one. *)

Section register.
Context {Scheme : Type}.
(** [runtime.NewScheme], [metav1.AddToGroupVersion] and the types of this
    repository. *)
Variable NewScheme : Scheme.
Variable AddToGroupVersion : string -> string -> Scheme -> Scheme.
Variable v1alpha1_AddToScheme : Scheme -> res Scheme.

Definition localSchemeBuilder : list (Scheme -> res Scheme) := [v1alpha1_AddToScheme].

(** [SchemeBuilder.AddToScheme] calls the functions in order and stops at an
    error. *)
Fixpoint SchemeBuilder_AddToScheme (builder : list (Scheme -> res Scheme)) (s : Scheme) : res Scheme :=
  match builder with
  | [] => Ok s
  | f :: builder' => s' ← f s; SchemeBuilder_AddToScheme builder' s'
  end.
Definition AddToScheme : Scheme -> res Scheme := SchemeBuilder_AddToScheme localSchemeBuilder.

(** [init]: [utilruntime.Must] panics with an error. *)
Definition register_init : res Scheme :=
  match AddToScheme (AddToGroupVersion "" "v1" NewScheme) with
  | Err _ => Panic (PanicWith "utilruntime.Must")
  | r => r
  end.

Lemma register_init_spec :
  register_init = match v1alpha1_AddToScheme (AddToGroupVersion "" "v1" NewScheme) with
                  | Err _ => Panic (PanicWith "utilruntime.Must")
                  | r => r
                  end.
Proof. unfold register_init, AddToScheme. cbn. by destruct (v1alpha1_AddToScheme _). Qed.
End register.

Module JsonExamples.
Import ReconcileExamples.

Definition meta_fields := tag "name" jt_string @@ tag "namespace" jt_string @@ fnil.
Definition demo_meta : JsonType ObjectMeta :=
  let t := jt_struct meta_fields (fun m => (m_Name m, (m_Namespace m, tt))) (fun '(n, (ns, _)) => new_meta n ns None) in
  mkJsonType (jt_zero t) (jt_empty t) (jt_enc t) (jt_dec t) (fun m => m = new_meta (m_Name m) (m_Namespace m) None) id.
Definition demo_volume : JsonType Volume :=
  jt_struct (tag "name" jt_string @@ omit "hostPath" jt_string @@ omit "source" jt_string @@ fnil)
    (fun v => (vol_Name v, (vol_HostPath v, (vol_Source v, tt)))) (fun '(n, (p, (s, _))) => mkVolume n p s).
Definition demo_volume_schema : Schema Empty_set :=
  object [("name", scalar "string" ""); ("hostPath", scalar "string" ""); ("source", scalar "string" "")] ["name"].
Definition any_format (format text : string) : bool := true.

(** A time as its seconds. *)
#[local] Instance demo_machinery : ApiMachinery := {|
  ObjectMeta_json := demo_meta;
  Volume_json := demo_volume;
  Format_RFC3339 t := FormatInt (t_sec t);
  Parse_RFC3339 s := (fun n => mkTime n 0) <$> ParseIntR s |}.

#[local] Instance demo_machinery_laws : ApiMachineryLaws.
Proof.
  split.
  - intros m Hm. cbn in Hm. rewrite Hm. done.
  - done.
  - intros m. by eexists.
  - done.
  - intros v. by eexists.
  - done.
  - solve_struct.
  - intros [n p s]. cbn -[andb jt_empty]. by rewrite !(plain_omit jt_string) by apply string_plain.
  - intros t Ht. cbn. rewrite ParseIntR_FormatInt; [done|]. unfold printable, in_int64, int64_min, int64_max in *. lia.
Defined.

Lemma demo_volume_accepted v : accepts any_format demo_volume_schema (jt_enc Volume_json v) = true.
Proof. destruct v as [n [|] [|]]; reflexivity. Defined.

Definition stored_tm : TypeMeta := mkTypeMeta "SlurmBridgeJob" "kubecluster.org/v1alpha1".

(** The JSON of a new job. *)
Example demo_job_json :
  jt_enc SlurmBridgeJob_json (stored_tm, demo_sbj) =
  JObj [("kind", JStr "SlurmBridgeJob"); ("apiVersion", JStr "kubecluster.org/v1alpha1");
        ("metadata", JObj [("name", JStr "train"); ("namespace", JStr "default")]);
        ("spec", JObj [("partition", JStr "debug"); ("sbatchScript", JStr (sp_SbatchScript demo_spec)); ("runAsUser", JNum 1000);
                       ("cpusPerTask", JNum 2); ("workingDir", JStr "/work")]);
        ("status", JObj [("state", JStr "")])].
Proof. reflexivity. Qed.

Lemma demo_new_storable : storable demo_volume_schema any_format stored_tm demo_sbj.
Proof.
  apply (new_job_storable demo_volume_schema any_format demo_volume_accepted (fun _ _ => eq_refl)); [|done].
  split; [done|]. cbn. unfold fits_width. split_and!; try done; lia.
Defined.

Lemma written_status_survives_witness : exists w' j',
  UpdateSBJStatus (PT := proto_time_impl) (JR := demo_json) (Some submitted_pod) (mkRS new_world demo_sbj) = (Ok tt, mkRS w' j') /\
  jt_ok SlurmBridgeJob_json (stored_tm, j') /\ storable demo_volume_schema any_format stored_tm j'.
Proof.
  apply (written_status_survives demo_volume_schema any_format demo_volume_accepted (fun _ _ => eq_refl)
    (PT := proto_time_impl) (JR := demo_json) stored_tm submitted_pod demo_infos (mkRS new_world demo_sbj)).
  - reflexivity.
  - apply job_ok; [|apply map_Forall_empty]. split; [done|]. cbn. unfold fits_width. split_and!; try done; lia.
  - apply demo_new_storable.
  - repeat constructor; done.
Defined.

(** A job whose start Slurm does not know, a pending one, is shown as
    started in 1970: a message without a time is the epoch. *)
Example pending_job_started_1970 id :
  sub_StartTime (subjob_of (PT := proto_time_impl) (demo_info id)) = Some (mkTime 0 0).
Proof. reflexivity. Qed.

(** The status of a Slurm job with the zero time is refused. *)
Example zero_time_refused :
  accepts any_format (crd_schema demo_volume_schema) (jt_enc SlurmBridgeJob_json (stored_tm,
    with_status demo_sbj (set_subjobs {["7" := mkSlurmSubjobStatus "7" "" "" "" "" "" (Some zero_time) (Some zero_time) "" "" "" "" "" "" "" "" ""]} zero_Status)))
  = false.
Proof. reflexivity. Qed.
End JsonExamples.
