(* ===== verification/VKCommand.v ===== *)
(** * The command of the virtual kubelet (cmd/slurm-virtual-kubelet/app, pkg/common/flag, configfiles)

    The command line is parsed twice when there is a configuration file: into
    the default configuration, and again into the one loaded from the file,
    so that flags take precedence over the file. The theorem says that this
    is the effect: every flag given on the command line wins, everything else
    is as the file says, and paths in the file are relative to it. The [pflag]
    library is a function that lists the flags given, in order, by their
    normalised names, and calls [Set] on each. *)

From S2P Require Import Prelude GoStrings GoNum GoPath Kube Crd VKOptions Files Codec.

(** ** Flag values (pkg/common/flag) *)

Section values.
(** Whether a text is an IP address, a port, a range of ports; the host and
    port of an address. *)
Variables ParseIPSloppy ParsePort : string -> bool.
Variable ParsePortRange : string -> option error.
Variable SplitHostPort : string -> res (string * string).

(** A value is a pointer: [None] when it is nil, or what it points to. *)
Definition IPVar_Set (s : string) (val : option string) : res (option string) :=
  if bool_decide (s = "") then Ok None
  else if negb (ParseIPSloppy s) then Err (ErrNew (quoted s +:+ " is not a valid IP address"))
  else match val with
       | None => Panic (PanicWith "the string pointer passed into IPVar should not be nil")
       | Some _ => Ok (Some s)
       end.

Definition IPPortVar_Set (s : string) (val : option string) : res (option string) :=
  if bool_decide (s = "") then Ok None
  else match val with
       | None => Panic (PanicWith "the string pointer passed into IPPortVar should not be nil")
       | Some _ =>
           if ParseIPSloppy s then Ok (Some s)
           else
             match SplitHostPort s with
             | Err err => Err (ErrFmt (quoted s +:+ " is not in a valid format (ip or ip:port)") err)
             | Panic p => Panic p
             | Ok (host, port) =>
                 if negb (ParseIPSloppy host) then Err (ErrNew (quoted host +:+ " is not a valid IP address"))
                 else if negb (ParsePort port) then Err (ErrNew (quoted port +:+ " is not a valid number"))
                 else Ok (Some s)
             end
       end.

Definition PortRangeVar_Set (s : string) (val : option string) : res (option string) :=
  match ParsePortRange s with
  | Some err => Err (ErrFmt (quoted s +:+ " is not a valid port range") err)
  | None =>
      match val with
      | None => Panic (PanicWith "the string pointer passed into PortRangeVar should not be nil")
      | Some _ => Ok (Some s)
      end
  end.

Definition Var_String (val : option string) : string := default "" val.
End values.

(** ** Loading the configuration file *)

Definition resolve_path (root path : string) : string :=
  if nonempty path && negb (IsAbs path) then filepath_Join root path else path.

(** [resolveRelativePaths] through the pointers of [PathRefs]. *)
Definition resolveRelativePaths (root : string) (c : SlurmVirtualKubeletConfiguration) : SlurmVirtualKubeletConfiguration := {|
  vc_Pods := vc_Pods c;
  vc_EnableServer := vc_EnableServer c;
  vc_StaticPodPath := resolve_path root (vc_StaticPodPath c);
  vc_SyncFrequency := vc_SyncFrequency c;
  vc_FileCheckFrequency := vc_FileCheckFrequency c;
  vc_HTTPCheckFrequency := vc_HTTPCheckFrequency c;
  vc_StaticPodURL := vc_StaticPodURL c;
  vc_StaticPodURLHeader := vc_StaticPodURLHeader c;
  vc_Address := vc_Address c;
  vc_Port := vc_Port c;
  vc_ReadOnlyPort := vc_ReadOnlyPort c;
  vc_VolumePluginDir := resolve_path root (vc_VolumePluginDir c);
  vc_ProviderID := vc_ProviderID c;
  vc_TLSCertFile := resolve_path root (vc_TLSCertFile c);
  vc_TLSPrivateKeyFile := resolve_path root (vc_TLSPrivateKeyFile c);
  vc_TLSCipherSuites := vc_TLSCipherSuites c;
  vc_TLSMinVersion := vc_TLSMinVersion c;
  vc_RotateCertificates := vc_RotateCertificates c;
  vc_ServerTLSBootstrap := vc_ServerTLSBootstrap c |}.

Section load.
Context {W : Type} {FS : Filesystem W}.
(** What [NewSchemeAndCodecs] answers, with [EnableStrict]. *)
Variable kubeletCodecs : res KubeletCodecs.
(** The current working directory. *)
Variable cwd : string.

Record fsLoader := mkFsLoader { ld_codecs : KubeletCodecs; ld_kubeletFile : string }.

Definition NewFsLoader (kubeletFile : string) : res fsLoader :=
  codecs ← kubeletCodecs;
  Ok (mkFsLoader codecs kubeletFile).

Definition Load (loader : fsLoader) : M W SlurmVirtualKubeletConfiguration :=
  let kubeletFile := ld_kubeletFile loader in
  data ← attempt (fs_ReadFile kubeletFile);
  match data with
  | inr err => fail (ErrFmt ("failed to read kubelet config file " +:+ quoted kubeletFile) err)
  | inl data =>
      if bool_decide (data = "") then fail (ErrNew ("kubelet config file " +:+ quoted kubeletFile +:+ " was empty"))
      else
        kc ← lift (DecodeKubeletConfiguration (ld_codecs loader) data);
        mret (resolveRelativePaths (Dir kubeletFile) kc)
  end.

Definition loadConfigFile (name : string) : M W SlurmVirtualKubeletConfiguration :=
  kc ← attempt (loader ← lift (NewFsLoader (Abs cwd name)); Load loader);
  match kc with
  | inr err => fail (ErrFmt ("failed to load Kubelet config file " +:+ name) err)
  | inl kc => mret kc
  end.
End load.

(** ** The flags *)

(** Assignments to single fields. *)
Definition set_EnableServer (v : bool) (c : SlurmVirtualKubeletConfiguration) : SlurmVirtualKubeletConfiguration :=
  mkVKConfig (vc_Pods c) v (vc_StaticPodPath c) (vc_SyncFrequency c) (vc_FileCheckFrequency c)
    (vc_HTTPCheckFrequency c) (vc_StaticPodURL c) (vc_StaticPodURLHeader c) (vc_Address c) (vc_Port c)
    (vc_ReadOnlyPort c) (vc_VolumePluginDir c) (vc_ProviderID c) (vc_TLSCertFile c) (vc_TLSPrivateKeyFile c)
    (vc_TLSCipherSuites c) (vc_TLSMinVersion c) (vc_RotateCertificates c) (vc_ServerTLSBootstrap c).
Definition set_StaticPodPath (v : string) (c : SlurmVirtualKubeletConfiguration) : SlurmVirtualKubeletConfiguration :=
  mkVKConfig (vc_Pods c) (vc_EnableServer c) v (vc_SyncFrequency c) (vc_FileCheckFrequency c)
    (vc_HTTPCheckFrequency c) (vc_StaticPodURL c) (vc_StaticPodURLHeader c) (vc_Address c) (vc_Port c)
    (vc_ReadOnlyPort c) (vc_VolumePluginDir c) (vc_ProviderID c) (vc_TLSCertFile c) (vc_TLSPrivateKeyFile c)
    (vc_TLSCipherSuites c) (vc_TLSMinVersion c) (vc_RotateCertificates c) (vc_ServerTLSBootstrap c).
Definition set_SyncFrequency (v : Z) (c : SlurmVirtualKubeletConfiguration) : SlurmVirtualKubeletConfiguration :=
  mkVKConfig (vc_Pods c) (vc_EnableServer c) (vc_StaticPodPath c) v (vc_FileCheckFrequency c)
    (vc_HTTPCheckFrequency c) (vc_StaticPodURL c) (vc_StaticPodURLHeader c) (vc_Address c) (vc_Port c)
    (vc_ReadOnlyPort c) (vc_VolumePluginDir c) (vc_ProviderID c) (vc_TLSCertFile c) (vc_TLSPrivateKeyFile c)
    (vc_TLSCipherSuites c) (vc_TLSMinVersion c) (vc_RotateCertificates c) (vc_ServerTLSBootstrap c).
Definition set_FileCheckFrequency (v : Z) (c : SlurmVirtualKubeletConfiguration) : SlurmVirtualKubeletConfiguration :=
  mkVKConfig (vc_Pods c) (vc_EnableServer c) (vc_StaticPodPath c) (vc_SyncFrequency c) v
    (vc_HTTPCheckFrequency c) (vc_StaticPodURL c) (vc_StaticPodURLHeader c) (vc_Address c) (vc_Port c)
    (vc_ReadOnlyPort c) (vc_VolumePluginDir c) (vc_ProviderID c) (vc_TLSCertFile c) (vc_TLSPrivateKeyFile c)
    (vc_TLSCipherSuites c) (vc_TLSMinVersion c) (vc_RotateCertificates c) (vc_ServerTLSBootstrap c).
Definition set_HTTPCheckFrequency (v : Z) (c : SlurmVirtualKubeletConfiguration) : SlurmVirtualKubeletConfiguration :=
  mkVKConfig (vc_Pods c) (vc_EnableServer c) (vc_StaticPodPath c) (vc_SyncFrequency c) (vc_FileCheckFrequency c)
    v (vc_StaticPodURL c) (vc_StaticPodURLHeader c) (vc_Address c) (vc_Port c) (vc_ReadOnlyPort c)
    (vc_VolumePluginDir c) (vc_ProviderID c) (vc_TLSCertFile c) (vc_TLSPrivateKeyFile c) (vc_TLSCipherSuites c)
    (vc_TLSMinVersion c) (vc_RotateCertificates c) (vc_ServerTLSBootstrap c).
Definition set_StaticPodURL (v : string) (c : SlurmVirtualKubeletConfiguration) : SlurmVirtualKubeletConfiguration :=
  mkVKConfig (vc_Pods c) (vc_EnableServer c) (vc_StaticPodPath c) (vc_SyncFrequency c) (vc_FileCheckFrequency c)
    (vc_HTTPCheckFrequency c) v (vc_StaticPodURLHeader c) (vc_Address c) (vc_Port c) (vc_ReadOnlyPort c)
    (vc_VolumePluginDir c) (vc_ProviderID c) (vc_TLSCertFile c) (vc_TLSPrivateKeyFile c) (vc_TLSCipherSuites c)
    (vc_TLSMinVersion c) (vc_RotateCertificates c) (vc_ServerTLSBootstrap c).
Definition set_StaticPodURLHeader (v : option (gmap string (list string))) (c : SlurmVirtualKubeletConfiguration) : SlurmVirtualKubeletConfiguration :=
  mkVKConfig (vc_Pods c) (vc_EnableServer c) (vc_StaticPodPath c) (vc_SyncFrequency c) (vc_FileCheckFrequency c)
    (vc_HTTPCheckFrequency c) (vc_StaticPodURL c) v (vc_Address c) (vc_Port c) (vc_ReadOnlyPort c)
    (vc_VolumePluginDir c) (vc_ProviderID c) (vc_TLSCertFile c) (vc_TLSPrivateKeyFile c) (vc_TLSCipherSuites c)
    (vc_TLSMinVersion c) (vc_RotateCertificates c) (vc_ServerTLSBootstrap c).
Definition set_Address (v : string) (c : SlurmVirtualKubeletConfiguration) : SlurmVirtualKubeletConfiguration :=
  mkVKConfig (vc_Pods c) (vc_EnableServer c) (vc_StaticPodPath c) (vc_SyncFrequency c) (vc_FileCheckFrequency c)
    (vc_HTTPCheckFrequency c) (vc_StaticPodURL c) (vc_StaticPodURLHeader c) v (vc_Port c) (vc_ReadOnlyPort c)
    (vc_VolumePluginDir c) (vc_ProviderID c) (vc_TLSCertFile c) (vc_TLSPrivateKeyFile c) (vc_TLSCipherSuites c)
    (vc_TLSMinVersion c) (vc_RotateCertificates c) (vc_ServerTLSBootstrap c).
Definition set_Port (v : Z) (c : SlurmVirtualKubeletConfiguration) : SlurmVirtualKubeletConfiguration :=
  mkVKConfig (vc_Pods c) (vc_EnableServer c) (vc_StaticPodPath c) (vc_SyncFrequency c) (vc_FileCheckFrequency c)
    (vc_HTTPCheckFrequency c) (vc_StaticPodURL c) (vc_StaticPodURLHeader c) (vc_Address c) v (vc_ReadOnlyPort c)
    (vc_VolumePluginDir c) (vc_ProviderID c) (vc_TLSCertFile c) (vc_TLSPrivateKeyFile c) (vc_TLSCipherSuites c)
    (vc_TLSMinVersion c) (vc_RotateCertificates c) (vc_ServerTLSBootstrap c).
Definition set_ReadOnlyPort (v : Z) (c : SlurmVirtualKubeletConfiguration) : SlurmVirtualKubeletConfiguration :=
  mkVKConfig (vc_Pods c) (vc_EnableServer c) (vc_StaticPodPath c) (vc_SyncFrequency c) (vc_FileCheckFrequency c)
    (vc_HTTPCheckFrequency c) (vc_StaticPodURL c) (vc_StaticPodURLHeader c) (vc_Address c) (vc_Port c) v
    (vc_VolumePluginDir c) (vc_ProviderID c) (vc_TLSCertFile c) (vc_TLSPrivateKeyFile c) (vc_TLSCipherSuites c)
    (vc_TLSMinVersion c) (vc_RotateCertificates c) (vc_ServerTLSBootstrap c).
Definition set_VirtualKubeletConfigFile (v : string) (c : SlurmVirtualKubeletFlags) : SlurmVirtualKubeletFlags :=
  mkFlags (fl_KubeConfig c) (fl_NodeName c) (fl_NodeIP c) (fl_NodeLabels c) v (fl_KubeNamespace c)
    (fl_OperatingSystem c) (fl_Provider c) (fl_ProviderConfigPath c) (fl_AgentEndpoint c) (fl_SlurmPartition c)
    (fl_MetricsAddr c) (fl_PodSyncWorkers c) (fl_InformerResyncPeriod c) (fl_EnableNodeLease c)
    (fl_TraceExporters c) (fl_TraceSampleRate c) (fl_TraceConfig c) (fl_StartupTimeout c) (fl_Version c).
Definition set_KubeConfig (v : string) (c : SlurmVirtualKubeletFlags) : SlurmVirtualKubeletFlags :=
  mkFlags v (fl_NodeName c) (fl_NodeIP c) (fl_NodeLabels c) (fl_VirtualKubeletConfigFile c) (fl_KubeNamespace c)
    (fl_OperatingSystem c) (fl_Provider c) (fl_ProviderConfigPath c) (fl_AgentEndpoint c) (fl_SlurmPartition c)
    (fl_MetricsAddr c) (fl_PodSyncWorkers c) (fl_InformerResyncPeriod c) (fl_EnableNodeLease c)
    (fl_TraceExporters c) (fl_TraceSampleRate c) (fl_TraceConfig c) (fl_StartupTimeout c) (fl_Version c).
Definition set_NodeName (v : string) (c : SlurmVirtualKubeletFlags) : SlurmVirtualKubeletFlags :=
  mkFlags (fl_KubeConfig c) v (fl_NodeIP c) (fl_NodeLabels c) (fl_VirtualKubeletConfigFile c)
    (fl_KubeNamespace c) (fl_OperatingSystem c) (fl_Provider c) (fl_ProviderConfigPath c) (fl_AgentEndpoint c)
    (fl_SlurmPartition c) (fl_MetricsAddr c) (fl_PodSyncWorkers c) (fl_InformerResyncPeriod c)
    (fl_EnableNodeLease c) (fl_TraceExporters c) (fl_TraceSampleRate c) (fl_TraceConfig c) (fl_StartupTimeout c)
    (fl_Version c).
Definition set_NodeIP (v : string) (c : SlurmVirtualKubeletFlags) : SlurmVirtualKubeletFlags :=
  mkFlags (fl_KubeConfig c) (fl_NodeName c) v (fl_NodeLabels c) (fl_VirtualKubeletConfigFile c)
    (fl_KubeNamespace c) (fl_OperatingSystem c) (fl_Provider c) (fl_ProviderConfigPath c) (fl_AgentEndpoint c)
    (fl_SlurmPartition c) (fl_MetricsAddr c) (fl_PodSyncWorkers c) (fl_InformerResyncPeriod c)
    (fl_EnableNodeLease c) (fl_TraceExporters c) (fl_TraceSampleRate c) (fl_TraceConfig c) (fl_StartupTimeout c)
    (fl_Version c).
Definition set_AgentEndpoint (v : string) (c : SlurmVirtualKubeletFlags) : SlurmVirtualKubeletFlags :=
  mkFlags (fl_KubeConfig c) (fl_NodeName c) (fl_NodeIP c) (fl_NodeLabels c) (fl_VirtualKubeletConfigFile c)
    (fl_KubeNamespace c) (fl_OperatingSystem c) (fl_Provider c) (fl_ProviderConfigPath c) v
    (fl_SlurmPartition c) (fl_MetricsAddr c) (fl_PodSyncWorkers c) (fl_InformerResyncPeriod c)
    (fl_EnableNodeLease c) (fl_TraceExporters c) (fl_TraceSampleRate c) (fl_TraceConfig c) (fl_StartupTimeout c)
    (fl_Version c).
Definition set_SlurmPartition (v : string) (c : SlurmVirtualKubeletFlags) : SlurmVirtualKubeletFlags :=
  mkFlags (fl_KubeConfig c) (fl_NodeName c) (fl_NodeIP c) (fl_NodeLabels c) (fl_VirtualKubeletConfigFile c)
    (fl_KubeNamespace c) (fl_OperatingSystem c) (fl_Provider c) (fl_ProviderConfigPath c) (fl_AgentEndpoint c) v
    (fl_MetricsAddr c) (fl_PodSyncWorkers c) (fl_InformerResyncPeriod c) (fl_EnableNodeLease c)
    (fl_TraceExporters c) (fl_TraceSampleRate c) (fl_TraceConfig c) (fl_StartupTimeout c) (fl_Version c).

(** What the values of a command line are bound to: the flags, the
    configuration, whether the [IPVar] of the address still points to it,
    whether the header value was set before, and the flags that ask for help
    and for the version. *)
Record FlagState := mkFlagState {
  fst_flags : SlurmVirtualKubeletFlags;
  fst_config : SlurmVirtualKubeletConfiguration;
  fst_address : bool;
  fst_header : bool;
  fst_help : bool;
  fst_version : bool;
}.
Definition on_flags (f : SlurmVirtualKubeletFlags -> SlurmVirtualKubeletFlags) (st : FlagState) : FlagState :=
  mkFlagState (f (fst_flags st)) (fst_config st) (fst_address st) (fst_header st) (fst_help st) (fst_version st).
Definition on_config (f : SlurmVirtualKubeletConfiguration -> SlurmVirtualKubeletConfiguration) (st : FlagState) : FlagState :=
  mkFlagState (fst_flags st) (f (fst_config st)) (fst_address st) (fst_header st) (fst_help st) (fst_version st).
Definition set_help (b : bool) (st : FlagState) : FlagState :=
  mkFlagState (fst_flags st) (fst_config st) (fst_address st) (fst_header st) b (fst_version st).
Definition set_version (b : bool) (st : FlagState) : FlagState :=
  mkFlagState (fst_flags st) (fst_config st) (fst_address st) (fst_header st) (fst_help st) b.

Definition Setter : Type := string -> FlagState -> res FlagState.

(** A flag: its name, whether it may be given without a value (its
    [NoOptDefVal] is set), and [Set] of its value. *)
Record Flag := mkFlag { flag_name : string; flag_bool : bool; flag_set : Setter }.

(** Flag sets, looked up by name. *)
Fixpoint lookup_flag (table : list Flag) (name : string) : option Flag :=
  match table with
  | [] => None
  | f :: table' => if bool_decide (flag_name f = name) then Some f else lookup_flag table' name
  end.

(** [AddFlag] panics on a flag that exists, [AddFlagSet] skips it. *)
Definition AddFlag (fs : list Flag) (f : Flag) : res (list Flag) :=
  match lookup_flag fs (flag_name f) with
  | Some _ => Panic (PanicWith ("flag redefined: " +:+ flag_name f))
  | None => Ok (fs ++ [f])
  end.
Definition AddFlagSet (fs new : list Flag) : list Flag :=
  foldl (fun fs f => match lookup_flag fs (flag_name f) with Some _ => fs | None => fs ++ [f] end) fs new.

(** What a parser has to know of a flag set: the flags, and which of them are
    complete without a value. *)
Definition kinds (fs : list Flag) (name : string) : option bool := flag_bool <$> lookup_flag fs name.

Section command.
Context {W : Type} {FS : Filesystem W}.
(** The values of the flag libraries: texts as booleans, durations and 32-bit
    integers, whether a text is an IP address, and [Set] of a header value,
    which replaces the map the first time and extends it later. *)
Variable ParseBool : string -> res bool.
Variables ParseDuration ParseInt32 : string -> res Z.
Variable ParseIPSloppy : string -> bool.
Variable header_Set : bool -> string -> option (gmap string (list string)) -> res (option (gmap string (list string))).
(** The parser: the flags given by normalised name with their values, and
    the arguments that are not flags. *)
Variable pflag_args : (string -> option bool) -> list string -> res (list (string * string) * list string).
(** The flags libraries register with package [flag], by name; those of the
    logs library; [Set] of the version flag, whether the version is wanted. *)
Variable global_Lookup : string -> option (bool * (string -> option error)).
Variable logs_flags : list (string * (bool * (string -> option error))).
Variable version_Set : string -> res bool.

Definition StringVar (name : string) (f : string -> FlagState -> FlagState) : Flag :=
  mkFlag name false (fun v st => Ok (f v st)).
Definition ValueVar {A} (parse : string -> res A) (name : string) (f : A -> FlagState -> FlagState) : Flag :=
  mkFlag name false (fun v st => a ← parse v; Ok (f a st)).
Definition BoolVar (name : string) (f : bool -> FlagState -> FlagState) : Flag :=
  mkFlag name true (fun v st => b ← ParseBool v; Ok (f b st)).

(** *** Global flags (globalflags.go, globalflags_linux.go) *)

(** The flag of a library: its value is a variable of the library. *)
Definition lib_flag (name : string) (g : bool * (string -> option error)) : Flag :=
  mkFlag name g.1 (fun v st => match g.2 v with Some e => Err e | None => Ok st end).

Fixpoint normalize (s : string) : string :=
  match s with
  | "" => ""
  | String c s' => String (if bool_decide (c = "_"%char) then "-"%char else c) (normalize s')
  end.

Definition register (localfs : list Flag) (globalName : string) : res (list Flag) :=
  match global_Lookup globalName with
  | Some f => AddFlag localfs (lib_flag (normalize globalName) f)
  | None => Panic (PanicWith ("failed to find flag in global flagset (flag): " +:+ globalName))
  end.

(** The mark is a text printed when the flag is used. *)
Definition registerDeprecated (localfs : list Flag) (globalName : string) : res (list Flag) :=
  localfs ← register localfs globalName;
  match lookup_flag localfs (normalize globalName) with Some _ => Ok localfs | None => Panic NilDeref end.

Fixpoint registerAll (localfs : list Flag) (names : list string) : res (list Flag) :=
  match names with
  | [] => Ok localfs
  | n :: names' => localfs ← registerDeprecated localfs n; registerAll localfs names'
  end.

Definition cadvisor_deprecated : list string :=
  ["application_metrics_count_limit"; "boot_id_file"; "container_hints"; "containerd"; "enable_load_reader";
   "event_storage_age_limit"; "event_storage_event_limit"; "global_housekeeping_interval"; "log_cadvisor_usage";
   "machine_id_file"; "storage_driver_user"; "storage_driver_password"; "storage_driver_host"; "storage_driver_db";
   "storage_driver_table"; "storage_driver_secure"; "storage_driver_buffer_duration"; "containerd-namespace"].

Definition addCadvisorFlags (fs : list Flag) : res (list Flag) :=
  localfs ← register [] "housekeeping_interval";
  localfs ← registerAll localfs cadvisor_deprecated;
  Ok (AddFlagSet fs localfs).

Definition addCredentialProviderFlags (fs : list Flag) : list Flag := AddFlagSet fs [].

Definition version_flag : Flag := mkFlag "version" true (fun v st => b ← version_Set v; Ok (set_version b st)).

Definition AddGlobalFlags (fs : list Flag) : res (list Flag) :=
  fs ← addCadvisorFlags fs;
  Ok (AddFlagSet (AddFlagSet (addCredentialProviderFlags fs) [version_flag])
        ((fun nf => lib_flag nf.1 nf.2) <$> logs_flags)).

(** *** The flags of the kubelet *)

Definition vk_flags : list Flag := [
  StringVar "config" (fun v => on_flags (set_VirtualKubeletConfigFile v));
  StringVar "kubeconfig" (fun v => on_flags (set_KubeConfig v));
  StringVar "nodename" (fun v => on_flags (set_NodeName v));
  StringVar "node-ip" (fun v => on_flags (set_NodeIP v));
  StringVar "endpoint" (fun v => on_flags (set_AgentEndpoint v));
  StringVar "partition" (fun v => on_flags (set_SlurmPartition v))].

(** [SlurmVirtualKubeletFlags.AddFlags]. *)
Definition AddFlags (mainfs : list Flag) : list Flag := AddFlagSet mainfs vk_flags.

Definition address_Set : Setter := fun v st =>
  val ← IPVar_Set ParseIPSloppy v (if fst_address st then Some (vc_Address (fst_config st)) else None);
  Ok (match val with
      | Some a => on_config (set_Address a) st
      | None => mkFlagState (fst_flags st) (fst_config st) false (fst_header st) (fst_help st) (fst_version st)
      end).

Definition header_Var : Setter := fun v st =>
  m ← header_Set (fst_header st) v (vc_StaticPodURLHeader (fst_config st));
  Ok (mkFlagState (fst_flags st) (set_StaticPodURLHeader m (fst_config st)) (fst_address st) true
        (fst_help st) (fst_version st)).

Definition config_flags : list Flag := [
  BoolVar "enable-server" (fun v => on_config (set_EnableServer v));
  StringVar "pod-manifest-path" (fun v => on_config (set_StaticPodPath v));
  ValueVar ParseDuration "sync-frequency" (fun v => on_config (set_SyncFrequency v));
  ValueVar ParseDuration "file-check-frequency" (fun v => on_config (set_FileCheckFrequency v));
  ValueVar ParseDuration "http-check-frequency" (fun v => on_config (set_HTTPCheckFrequency v));
  StringVar "manifest-url" (fun v => on_config (set_StaticPodURL v));
  mkFlag "manifest-url-header" false header_Var;
  ValueVar ParseInt32 "port" (fun v => on_config (set_Port v));
  ValueVar ParseInt32 "read-only-port" (fun v => on_config (set_ReadOnlyPort v));
  mkFlag "address" false address_Set].

Definition AddKubeletConfigFlags (mainfs : list Flag) : list Flag := AddFlagSet mainfs config_flags.

(** *** Parsing *)

(** The calls of [Set], in the order of the flags. *)
Fixpoint set_flags (fs : list Flag) (occs : list (string * string)) (st : FlagState) : res FlagState :=
  match occs with
  | [] => Ok st
  | (name, v) :: occs' =>
      match lookup_flag fs name with
      | None => Err (ErrNew ("unknown flag: --" +:+ name))
      | Some f => st' ← flag_set f v st; set_flags fs occs' st'
      end
  end.

Definition pflag_Parse (fs : list Flag) (args : list string) (st : FlagState) : res (FlagState * list string) :=
  '(occs, rest) ← pflag_args (kinds fs) args;
  st ← set_flags fs occs st;
  Ok (st, rest).

Definition cleanFlagSet : res (list Flag) :=
  fs ← AddGlobalFlags (AddKubeletConfigFlags (AddFlags []));
  AddFlag fs (BoolVar "help" set_help).

Definition newFlagSetWithGlobals : res (list Flag) := AddGlobalFlags [].

(** [VarP] of a [NoOp] value: the flag needs a value, whatever the original. *)
Definition newFakeFlagSet (fs : list Flag) : list Flag :=
  (fun f => mkFlag (flag_name f) false (fun _ st => Ok st)) <$> fs.

(** A flag set that exits on errors. *)
Definition exit_on_error {A} (r : res A) : res A :=
  match r with Err _ => Panic (ProcessExit "parsing the flags again") | _ => r end.

Definition kubeletConfigFlagPrecedence (throwaway : SlurmVirtualKubeletFlags) (kc : SlurmVirtualKubeletConfiguration)
    (args : list string) : res SlurmVirtualKubeletConfiguration :=
  globals ← newFlagSetWithGlobals;
  let fs := AddKubeletConfigFlags (AddFlags (newFakeFlagSet globals)) in
  '(st, _) ← exit_on_error (pflag_Parse fs args (mkFlagState throwaway kc true false false false));
  Ok (fst_config st).

(** *** The command *)

Variable kubeletCodecs : res KubeletCodecs.
Variable cwd : string.
Variable GetHostname : string -> res string.
Variables IsQualifiedName IsValidLabelValue : string -> list string.

(** The command up to the start of the kubelet: the flags and the
    configuration it is started with, or nothing when help was asked for.
    [flags0] and [config0] are the new flags and configuration of the command. *)
Definition RunE (flags0 : SlurmVirtualKubeletFlags) (config0 : SlurmVirtualKubeletConfiguration) (args : list string) :
    M W (option (SlurmVirtualKubeletFlags * SlurmVirtualKubeletConfiguration)) :=
  fs ← lift cleanFlagSet;
  '(st, cmds) ← wrapM (lift (pflag_Parse fs args (mkFlagState flags0 config0 true false false false)))
    "failed to parse kubelet flag";
  match cmds with
  | cmd :: _ => fail (ErrNew ("unknown command " +:+ cmd))
  | [] =>
      if fst_help st then mret None
      else if fst_version st then panicM (ProcessExit "version")
      else
        flags ← lift (setDefaultSlurmVKFlags GetHostname (fst_flags st));
        match ValidateKubeletFlags IsQualifiedName IsValidLabelValue flags with
        | Some err => fail (ErrWrap err "failed to validate kubelet flags")
        | None =>
            config ← (if nonempty (fl_VirtualKubeletConfigFile flags) then
                        kc ← wrapM (loadConfigFile kubeletCodecs cwd (fl_VirtualKubeletConfigFile flags))
                          ("failed to load kubelet config file, path: " +:+ fl_VirtualKubeletConfigFile flags +:+ ", error");
                        wrapM (lift (kubeletConfigFlagPrecedence flags0 kc args)) "failed to precedence kubeletConfigFlag"
                      else mret (fst_config st));
            match ValidateKubeletServer IsQualifiedName IsValidLabelValue flags config with
            | Some err => fail (ErrWrap err "failed to run Kubelet")
            | None => mret (Some (flags, config))
            end
        end
  end.

(** *** What a second parse does *)

(** Whether a flag was given, and the configuration in which the flags given
    have their value of the command line and everything else is as in the
    file. The empty address leaves the address alone. *)
Definition given (occs : list (string * string)) (name : string) : bool := existsb (fun o => String.eqb o.1 name) occs.
Definition address_given (occs : list (string * string)) : bool :=
  existsb (fun o => String.eqb o.1 "address" && nonempty o.2) occs.

Definition override (occs : list (string * string)) (file cli : SlurmVirtualKubeletConfiguration) : SlurmVirtualKubeletConfiguration :=
  let pick {A} (b : bool) (field : SlurmVirtualKubeletConfiguration -> A) := if b then field cli else field file in {|
  vc_Pods := vc_Pods file;
  vc_EnableServer := pick (given occs "enable-server") vc_EnableServer;
  vc_StaticPodPath := pick (given occs "pod-manifest-path") vc_StaticPodPath;
  vc_SyncFrequency := pick (given occs "sync-frequency") vc_SyncFrequency;
  vc_FileCheckFrequency := pick (given occs "file-check-frequency") vc_FileCheckFrequency;
  vc_HTTPCheckFrequency := pick (given occs "http-check-frequency") vc_HTTPCheckFrequency;
  vc_StaticPodURL := pick (given occs "manifest-url") vc_StaticPodURL;
  vc_StaticPodURLHeader := pick (given occs "manifest-url-header") vc_StaticPodURLHeader;
  vc_Address := pick (address_given occs) vc_Address;
  vc_Port := pick (given occs "port") vc_Port;
  vc_ReadOnlyPort := pick (given occs "read-only-port") vc_ReadOnlyPort;
  vc_VolumePluginDir := vc_VolumePluginDir file;
  vc_ProviderID := vc_ProviderID file;
  vc_TLSCertFile := vc_TLSCertFile file;
  vc_TLSPrivateKeyFile := vc_TLSPrivateKeyFile file;
  vc_TLSCipherSuites := vc_TLSCipherSuites file;
  vc_TLSMinVersion := vc_TLSMinVersion file;
  vc_RotateCertificates := vc_RotateCertificates file;
  vc_ServerTLSBootstrap := vc_ServerTLSBootstrap file |}.

Lemma given_snoc occs n v m : given (occs ++ [(n, v)]) m = given occs m || String.eqb n m.
Proof. unfold given. rewrite existsb_app. cbn. by rewrite orb_false_r. Qed.
Lemma address_given_snoc occs n v : address_given (occs ++ [(n, v)]) = address_given occs || (String.eqb n "address" && nonempty v).
Proof. unfold address_given. rewrite existsb_app. cbn. by rewrite orb_false_r. Qed.

(** The two configurations after the same flags were set in both. *)
Record follows (kc : SlurmVirtualKubeletConfiguration) (occs : list (string * string)) (st1 st2 : FlagState) : Prop := {
  fo_config : fst_config st2 = override occs kc (fst_config st1);
  fo_address : fst_address st2 = fst_address st1;
  fo_header : fst_header st2 = fst_header st1;
  fo_given : fst_header st1 = given occs "manifest-url-header";
}.

(** The same value in both keeps them together. *)
Definition in_step (n : string) (f1 f2 : Flag) : Prop := forall kc occs v st1 st2 st1',
  follows kc occs st1 st2 -> flag_set f1 v st1 = Ok st1' ->
  exists st2', flag_set f2 v st2 = Ok st2' /\ follows kc (occs ++ [(n, v)]) st1' st2'.

Lemma set_flags_follows fs1 fs2 kc occs :
  (forall o, o ∈ occs -> forall f1, lookup_flag fs1 o.1 = Some f1 ->
     exists f2, lookup_flag fs2 o.1 = Some f2 /\ in_step o.1 f1 f2) ->
  forall done st1 st2 st1', follows kc done st1 st2 -> set_flags fs1 occs st1 = Ok st1' ->
  exists st2', set_flags fs2 occs st2 = Ok st2' /\ follows kc (done ++ occs) st1' st2'.
Proof.
  induction occs as [|[n v] occs IH]; intros Hstep done st1 st2 st1' F H; cbn [set_flags] in *.
  - injection H as <-. exists st2. by rewrite app_nil_r.
  - destruct (lookup_flag fs1 n) as [f1|] eqn:E; [|done].
    destruct (Hstep (n, v) ltac:(left) f1 E) as (f2 & E2 & S). cbn [fst] in E2. rewrite E2.
    apply bind_Ok_inv in H as (st1a & H1 & H).
    destruct (S kc done v st1 st2 st1a F H1) as (st2a & H2 & F2). rewrite H2.
    destruct (IH ltac:(intros o Ho; apply Hstep; by right) _ _ _ _ F2 H) as (st2' & H3 & F3).
    exists st2'. split; [done|]. by rewrite cons_middle, app_assoc.
Qed.

Ltac picks :=
  unfold override; f_equal; cbn; rewrite ?given_snoc, ?address_given_snoc; cbn;
  rewrite ?orb_false_r, ?orb_true_r; try done.

Lemma vk_flags_in_step n f : lookup_flag vk_flags n = Some f -> in_step n f f.
Proof.
  intros E kc occs v st1 st2 st1' F H. destruct F as [Fc Fa Fh Fg].
  unfold vk_flags, StringVar in E. cbn [lookup_flag flag_name] in E.
  repeat case_bool_decide; try discriminate E; injection E as <-; cbn [flag_set] in *; injection H as <-; subst n;
    eexists; (split; [reflexivity|]); constructor; cbn [on_flags fst_config fst_address fst_header];
    try done; try (rewrite Fc; picks); by rewrite Fg, given_snoc, orb_false_r.
Qed.

(** The first [Set] of a header value replaces the map. *)
Hypothesis header_first : forall v m m', header_Set false v m = header_Set false v m'.

Lemma value_in_step {A} (parse : string -> res A) n b (set : A -> SlurmVirtualKubeletConfiguration -> SlurmVirtualKubeletConfiguration) :
  n <> "manifest-url-header" ->
  (forall occs v a kc c, set a (override occs kc c) = override (occs ++ [(n, v)]) kc (set a c)) ->
  let f := mkFlag n b (fun v st => a ← parse v; Ok (on_config (set a) st)) in in_step n f f.
Proof.
  intros Hn Hset f kc occs v st1 st2 st1' [Fc Fa Fh Fg] H. cbn [f flag_set] in *.
  apply bind_Ok_inv in H as (a & Ha & [= <-]). rewrite Ha.
  eexists. split; [reflexivity|]. constructor; cbn [on_config fst_config fst_address fst_header]; try done.
  - by rewrite Fc, Hset with (v := v).
  - rewrite Fg, given_snoc. apply String.eqb_neq in Hn. by rewrite Hn, orb_false_r.
Qed.

Lemma header_in_step : let f := mkFlag "manifest-url-header" false header_Var in in_step "manifest-url-header" f f.
Proof.
  intros f kc occs v st1 st2 st1' [Fc Fa Fh Fg] H. cbn [f flag_set] in *. unfold header_Var in *.
  apply bind_Ok_inv in H as (m & Hm & [= <-]).
  assert (header_Set (fst_header st2) v (vc_StaticPodURLHeader (fst_config st2)) = Ok m) as ->.
  { rewrite Fh, Fc, <- Hm. cbn. rewrite <- Fg. destruct (fst_header st1); [done|apply header_first]. }
  eexists. split; [reflexivity|]. constructor; cbn [fst_config fst_address fst_header]; try done.
  - rewrite Fc. picks.
  - by rewrite given_snoc, orb_true_r.
Qed.

Lemma address_in_step : let f := mkFlag "address" false address_Set in in_step "address" f f.
Proof.
  intros f kc occs v st1 st2 st1' [Fc Fa Fh Fg] H. cbn [f flag_set] in *. unfold address_Set, IPVar_Set in *.
  rewrite Fa. destruct (decide (v = "")) as [->|Hv].
  - injection H as <-. eexists. split; [reflexivity|].
    constructor; cbn [fst_config fst_address fst_header]; try done; [rewrite Fc; picks|].
    by rewrite Fg, given_snoc, orb_false_r.
  - rewrite bool_decide_eq_false_2 in * by done. destruct (ParseIPSloppy v); [|done]. cbn in *.
    destruct (fst_address st1) eqn:Ea; [|done]. injection H as <-. eexists. split; [reflexivity|].
    constructor; cbn [on_config fst_config fst_address fst_header]; try congruence.
    + rewrite Fc. unfold set_Address. picks. unfold nonempty. destruct v; [done|]. by rewrite orb_true_r.
    + by rewrite Fg, given_snoc, orb_false_r.
Qed.

Lemma config_flags_in_step n f : lookup_flag config_flags n = Some f -> in_step n f f.
Proof.
  intros E. unfold config_flags in E. cbn [lookup_flag flag_name StringVar ValueVar BoolVar] in E.
  repeat case_bool_decide; try discriminate E; injection E as <-; subst n;
    first [apply header_in_step | apply address_in_step
          | apply value_in_step; [done|intros; picks]
          | unfold StringVar; refine (value_in_step (fun v => Ok v) _ _ _ _ _); [done|intros; picks]].
Qed.

(** A global flag touches nothing but the libraries. *)
Lemma noop_in_step n f1 f2 : (forall v st, flag_set f2 v st = Ok st) -> n ∉ flag_name <$> config_flags ->
  (forall v st st', flag_set f1 v st = Ok st' ->
     fst_config st' = fst_config st /\ fst_address st' = fst_address st /\ fst_header st' = fst_header st) ->
  in_step n f1 f2.
Proof.
  intros H2 Hn H1 kc occs v st1 st2 st1' [Fc Fa Fh Fg] H. apply H1 in H as (C & A & B).
  exists st2. split; [apply H2|]. rewrite ?C, ?A, ?B.
  assert (forall m, m ∈ flag_name <$> config_flags -> String.eqb n m = false) as Hne.
  { intros m Hm. apply String.eqb_neq. by intros ->. }
  constructor; try congruence.
  - rewrite Fc, C. unfold override. rewrite !given_snoc, address_given_snoc.
    rewrite !Hne by (apply (bool_decide_unpack _); reflexivity). by rewrite ?orb_false_r.
  - by rewrite B, Fg, given_snoc, Hne, orb_false_r by (apply (bool_decide_unpack _); reflexivity).
Qed.

(** *** The two flag sets *)

Definition or_else {A} (o1 o2 : option A) : option A := match o1 with Some a => Some a | None => o2 end.

Lemma lookup_flag_app fs fs' n : lookup_flag (fs ++ fs') n = or_else (lookup_flag fs n) (lookup_flag fs' n).
Proof. induction fs as [|f fs IH]; cbn [app lookup_flag]; [done|]. by case_bool_decide. Qed.

Lemma lookup_AddFlagSet new fs n : lookup_flag (AddFlagSet fs new) n = or_else (lookup_flag fs n) (lookup_flag new n).
Proof.
  unfold AddFlagSet. revert fs. induction new as [|f new IH]; intros fs; cbn [foldl lookup_flag].
  - by destruct (lookup_flag fs n).
  - rewrite IH. destruct (lookup_flag fs (flag_name f)) eqn:E.
    + case_bool_decide as Hn; [subst n; by rewrite E|done].
    + rewrite lookup_flag_app. cbn [lookup_flag]. case_bool_decide; by destruct (lookup_flag fs n).
Qed.

Lemma lookup_fake fs n : lookup_flag (newFakeFlagSet fs) n =
  (fun f => mkFlag (flag_name f) false (fun _ st => Ok st)) <$> lookup_flag fs n.
Proof.
  unfold newFakeFlagSet. induction fs as [|f fs IH]; [done|]. rewrite fmap_cons. cbn [lookup_flag flag_name].
  by case_bool_decide.
Qed.

Lemma AddFlag_Ok fs f fs' : AddFlag fs f = Ok fs' -> fs' = fs ++ [f].
Proof. unfold AddFlag. by destruct (lookup_flag fs (flag_name f)); intros [= <-]. Qed.

#[local] Arguments AddFlagSet : simpl never.

Lemma AddGlobalFlags_lookup fs fs' : AddGlobalFlags fs = Ok fs' ->
  exists gs, newFlagSetWithGlobals = Ok gs /\ forall n, lookup_flag fs' n = or_else (lookup_flag fs n) (lookup_flag gs n).
Proof.
  unfold newFlagSetWithGlobals, AddGlobalFlags, addCadvisorFlags, addCredentialProviderFlags.
  destruct (register [] "housekeeping_interval") as [l|e|p]; [|done..]. cbn [mbind res_bind]. destruct (registerAll l cadvisor_deprecated) as [l'|e|p]; [|done..].
  intros [= <-]. eexists. split; [reflexivity|]. intros n. rewrite !lookup_AddFlagSet. change (lookup_flag [] n) with (@None Flag).
  by destruct (lookup_flag fs n).
Qed.

(** Flags of the libraries change nothing of the kubelet's. *)
Definition library_flag (f : Flag) : Prop := forall v st st', flag_set f v st = Ok st' ->
  fst_config st' = fst_config st /\ fst_address st' = fst_address st /\ fst_header st' = fst_header st.

Lemma lib_flag_library name g : library_flag (lib_flag name g).
Proof. intros v st st'. cbn. destruct (g.2 v); [done|]. by intros [= <-]. Qed.

(** The sets of global flags: each from a library, under one of these names. *)
Definition cadvisor_names : list string := normalize <$> "housekeeping_interval" :: cadvisor_deprecated.
Definition library_set (names : list string) (fs : list Flag) : Prop :=
  Forall (fun f => library_flag f /\ flag_name f ∈ names) fs.

Lemma AddFlagSet_library names new fs : library_set names fs -> library_set names new -> library_set names (AddFlagSet fs new).
Proof.
  unfold AddFlagSet. intros Hfs Hnew. revert fs Hfs. induction Hnew as [|f new Hf Hnew IH]; intros fs Hfs; cbn [foldl]; [done|].
  apply IH. destruct (lookup_flag fs (flag_name f)); [done|]. apply list.Forall_app. by split; [|constructor].
Qed.

Lemma register_library names fs n fs' : library_set names fs -> normalize n ∈ names -> register fs n = Ok fs' -> library_set names fs'.
Proof.
  unfold register. intros Hfs Hn H. destruct (global_Lookup n) as [g|]; [|done].
  apply AddFlag_Ok in H as ->. apply list.Forall_app. split; [done|]. constructor; [|done].
  split; [apply lib_flag_library|done].
Qed.

Lemma registerAll_library names ns : (forall n, n ∈ ns -> normalize n ∈ names) ->
  forall fs fs', library_set names fs -> registerAll fs ns = Ok fs' -> library_set names fs'.
Proof.
  induction ns as [|n ns IH]; intros Hns fs fs' Hfs H; cbn [registerAll] in H; [by injection H as <-|].
  inv_bind. unfold registerDeprecated in *. inv_bind.
  destruct (lookup_flag _ _); [|done]. inv_bind. eapply IH; [intros m Hm; apply Hns; by right| |eassumption].
  eapply register_library; [exact Hfs|apply Hns; left|eassumption].
Qed.

Definition global_names : list string := cadvisor_names ++ "version" :: logs_flags.*1.

Lemma newFlagSetWithGlobals_library gs : newFlagSetWithGlobals = Ok gs -> library_set global_names gs.
Proof.
  unfold newFlagSetWithGlobals, AddGlobalFlags, addCadvisorFlags, addCredentialProviderFlags. intros H. inv_bind.
  repeat apply AddFlagSet_library; try by constructor.
  - assert (forall n, n ∈ "housekeeping_interval" :: cadvisor_deprecated -> normalize n ∈ global_names) as Hn.
    { intros n Hn. apply elem_of_app. left. by apply list_elem_of_fmap_2. }
    eapply registerAll_library; [|eapply register_library; [constructor| |eassumption]|eassumption].
    + intros n Hc. apply Hn. by right.
    + apply Hn. left.
  - constructor; [|done]. split.
    + intros v st st' Hv. cbn in Hv. inv_bind. done.
    + cbn [flag_name version_flag]. unfold global_names. set_solver.
  - apply list.Forall_fmap, list.Forall_forall. intros [n g] Hin. split; [apply lib_flag_library|].
    cbn [flag_name lib_flag compose fst]. unfold global_names. apply elem_of_app. right. right.
    apply list_elem_of_fmap. by exists (n, g).
Qed.

Lemma lookup_flag_Some fs n f : lookup_flag fs n = Some f -> f ∈ fs /\ flag_name f = n.
Proof.
  induction fs as [|g fs IH]; cbn [lookup_flag]; [done|]. case_bool_decide.
  - intros [= <-]. split; [left|done].
  - intros H'. apply IH in H' as [? ?]. split; [by right|done].
Qed.

Lemma lookup_global gs n f : newFlagSetWithGlobals = Ok gs -> lookup_flag gs n = Some f -> library_flag f /\ n ∈ global_names.
Proof.
  intros Hgs E. apply newFlagSetWithGlobals_library in Hgs. apply lookup_flag_Some in E as [E <-].
  exact (proj1 (list.Forall_forall _ _) Hgs f E).
Qed.

(** The names of the kubelet's own flags. *)
Definition own_names : list string := (flag_name <$> vk_flags) ++ (flag_name <$> config_flags).

(** A command line that both parsers read the same way: without [help], and
    without the boolean flags of the libraries, whose replacements in the
    second set need a value. *)
Definition plain (occs : list (string * string)) : Prop := forall o, o ∈ occs ->
  o.1 <> "help" /\ forall gs, newFlagSetWithGlobals = Ok gs -> kinds gs o.1 <> Some true.

Hypothesis global_names_own : forall n, n ∈ global_names -> n ∉ own_names.

Lemma two_sets cl occs : cleanFlagSet = Ok cl -> plain occs ->
  exists gs, newFlagSetWithGlobals = Ok gs /\
  let pr := AddKubeletConfigFlags (AddFlags (newFakeFlagSet gs)) in
  forall o, o ∈ occs -> forall f1, lookup_flag cl o.1 = Some f1 ->
    exists f2, lookup_flag pr o.1 = Some f2 /\ flag_bool f2 = flag_bool f1 /\ in_step o.1 f1 f2.
Proof.
  intros Hcl Hp. unfold cleanFlagSet in Hcl. apply bind_Ok_inv in Hcl as (fs & Hfs & Hcl).
  apply AddFlag_Ok in Hcl as ->. destruct (AddGlobalFlags_lookup _ _ Hfs) as (gs & Hgs & Hl).
  exists gs. split; [done|]. intros pr [n v] Ho f1. destruct (Hp _ Ho) as [Hh Hb]. cbn [fst] in *.
  specialize (Hb gs Hgs). unfold kinds in Hb.
  rewrite lookup_flag_app, Hl. unfold pr, AddKubeletConfigFlags, AddFlags. rewrite !lookup_AddFlagSet, lookup_fake.
  change (lookup_flag [] n) with (@None Flag). cbn [or_else]. destruct (lookup_flag gs n) as [g|] eqn:Eg.
  - destruct (lookup_global _ _ _ Hgs Eg) as [Lg Ng]. pose proof (global_names_own n Ng) as No.
    assert (lookup_flag vk_flags n = None) as ->.
    { destruct (lookup_flag vk_flags n) as [f|] eqn:E; [|done]. apply lookup_flag_Some in E as [E <-].
      destruct No. apply elem_of_app. left. by apply list_elem_of_fmap_2. }
    assert (lookup_flag config_flags n = None) as ->.
    { destruct (lookup_flag config_flags n) as [f|] eqn:E; [|done]. apply lookup_flag_Some in E as [E <-].
      destruct No. apply elem_of_app. right. by apply list_elem_of_fmap_2. }
    cbn [or_else fmap option_fmap option_map] in *. intros [= <-]. eexists. split; [reflexivity|].
    split; [by destruct (flag_bool g)|]. apply noop_in_step; [done| |exact Lg].
    intros Hc. apply No, elem_of_app. by right.
  - cbn [fmap option_fmap option_map or_else]. destruct (lookup_flag vk_flags n) as [f|] eqn:E1; cbn [or_else].
    + intros [= <-]. exists f. repeat split; [done..|]. by apply vk_flags_in_step.
    + destruct (lookup_flag config_flags n) as [f|] eqn:E2; cbn [or_else].
      * intros [= <-]. exists f. repeat split; [done..|]. by apply config_flags_in_step.
      * cbn [lookup_flag flag_name BoolVar]. by rewrite bool_decide_eq_false_2 by congruence.
Qed.

Lemma clean_lookup cl n f : cleanFlagSet = Ok cl -> lookup_flag vk_flags n = Some f -> lookup_flag cl n = Some f.
Proof.
  intros Hcl E. unfold cleanFlagSet in Hcl. apply bind_Ok_inv in Hcl as (fs & Hfs & Hcl).
  apply AddFlag_Ok in Hcl as ->. destruct (AddGlobalFlags_lookup _ _ Hfs) as (gs & _ & Hl).
  rewrite lookup_flag_app, Hl. unfold AddKubeletConfigFlags, AddFlags. rewrite !lookup_AddFlagSet, E. done.
Qed.

(** The parser looks up the flags that are given, nothing else. *)
Hypothesis pflag_args_kinds : forall t t' args occs rest, pflag_args t args = Ok (occs, rest) ->
  (forall o, o ∈ occs -> t' o.1 = t o.1) -> pflag_args t' args = Ok (occs, rest).

Lemma set_flags_known fs occs st st' : set_flags fs occs st = Ok st' -> forall o, o ∈ occs -> is_Some (lookup_flag fs o.1).
Proof.
  revert st. induction occs as [|[n v] occs IH]; intros st H o Ho; [by apply elem_of_nil in Ho|]. cbn [set_flags] in H.
  destruct (lookup_flag fs n) eqn:E; [|done]. apply bind_Ok_inv in H as (st1 & _ & H).
  apply elem_of_cons in Ho as [->|Ho]; [by eexists|by apply (IH st1)].
Qed.

Lemma second_parse cl occs rest flags0 config0 throwaway args st1 kc :
  cleanFlagSet = Ok cl -> pflag_args (kinds cl) args = Ok (occs, rest) -> plain occs ->
  set_flags cl occs (mkFlagState flags0 config0 true false false false) = Ok st1 ->
  kubeletConfigFlagPrecedence throwaway kc args = Ok (override occs kc (fst_config st1)).
Proof.
  intros Hcl Ha Hp Hs. destruct (two_sets cl occs Hcl Hp) as (gs & Hgs & H2). cbn zeta in H2.
  unfold kubeletConfigFlagPrecedence. rewrite Hgs. cbn [mbind res_bind]. unfold pflag_Parse.
  set (pr := AddKubeletConfigFlags _) in *.
  assert (pflag_args (kinds pr) args = Ok (occs, rest)) as ->.
  { apply (pflag_args_kinds _ _ _ _ _ Ha). intros o Ho. unfold kinds.
    destruct (set_flags_known _ _ _ _ Hs o Ho) as [f1 E1]. destruct (H2 o Ho f1 E1) as (f2 & E2 & B & _).
    rewrite E1, E2. cbn. by rewrite B. }
  cbn [mbind res_bind].
  destruct (set_flags_follows cl pr kc occs) with (done := @nil (string * string)) (st1 := mkFlagState flags0 config0 true false false false)
    (st2 := mkFlagState throwaway kc true false false false) (st1' := st1) as (st2' & -> & F).
  - intros o Ho f1 E1. destruct (H2 o Ho f1 E1) as (f2 & E2 & _ & S). by exists f2.
  - constructor; [by destruct kc|done..].
  - done.
  - cbn [mbind res_bind exit_on_error]. by rewrite (fo_config _ _ _ _ F).
Qed.

(** *** The configuration started with *)

Definition resolved (path : string) : Prop := path = "" \/ IsAbs path = true.

Lemma resolve_path_resolved root path : clean_abs root -> resolved (resolve_path root path).
Proof.
  intros Hr. unfold resolve_path, resolved. destruct (nonempty path) eqn:E; cbn [andb].
  - destruct (IsAbs path) eqn:Ea; cbn [negb]; right; [done|].
    apply clean_abs_IsAbs, filepath_Join_abs. by apply clean_abs_IsAbs.
  - left. by destruct path.
Qed.

Lemma loadConfigFile_Ok name kc w w' : IsAbs cwd = true ->
  loadConfigFile kubeletCodecs cwd name w = (Ok kc, w') ->
  exists codecs data kc0, kubeletCodecs = Ok codecs /\ fs_ReadFile (Abs cwd name) w = (Ok data, w') /\
    DecodeKubeletConfiguration codecs data = Ok kc0 /\
    kc = resolveRelativePaths (Dir (Abs cwd name)) kc0 /\ Forall resolved (PathRefs kc).
Proof.
  intros Hcwd H. unfold loadConfigFile in H. destruct kubeletCodecs as [codecs|e|p]; [|done..].
  assert (clean_abs (Dir (Abs cwd name))) as Hd.
  { apply Dir_abs. unfold Abs. destruct (IsAbs name) eqn:E; [by apply Clean_rooted|by apply filepath_Join_abs]. }
  apply M_bind_Ok_inv in H as ([kc1|err] & w1 & H & Hr); [|done]. injection Hr as -> ->. apply attempt_inl in H.
  apply M_bind_Ok_inv in H as (ld & w2 & [= <- <-] & H). unfold Load in H. cbn [ld_codecs ld_kubeletFile] in H.
  apply M_bind_Ok_inv in H as ([data|err] & w2 & R & H); [|done]. apply attempt_inl in R. case_bool_decide; [done|].
  apply M_bind_Ok_inv in H as (kc0 & w3 & [= D <-] & [= <- <-]).
  exists codecs, data, kc0. do 4 (split; [done|]).
  unfold PathRefs, resolveRelativePaths. cbn. rewrite !list.Forall_cons.
  repeat (split; [by apply resolve_path_resolved|]). done.
Qed.

(** A command that starts the kubelet has parsed its flags, and taken the
    configuration of the command line or loaded one. *)
Lemma RunE_Some cl flags0 config0 args occs rest w flags config w' :
  cleanFlagSet = Ok cl -> pflag_args (kinds cl) args = Ok (occs, rest) ->
  RunE flags0 config0 args w = (Ok (Some (flags, config)), w') ->
  exists st, rest = [] /\ set_flags cl occs (mkFlagState flags0 config0 true false false false) = Ok st /\
    setDefaultSlurmVKFlags GetHostname (fst_flags st) = Ok flags /\
    (if nonempty (fl_VirtualKubeletConfigFile flags) then
       kc ← wrapM (loadConfigFile kubeletCodecs cwd (fl_VirtualKubeletConfigFile flags))
         ("failed to load kubelet config file, path: " +:+ fl_VirtualKubeletConfigFile flags +:+ ", error");
       wrapM (lift (kubeletConfigFlagPrecedence flags0 kc args)) "failed to precedence kubeletConfigFlag"
     else mret (fst_config st)) w = (Ok config, w').
Proof.
  intros Hcl Ha H. unfold RunE in H. rewrite Hcl in H.
  apply M_bind_Ok_inv in H as (cl' & w1 & [= <- <-] & H). apply M_bind_Ok_inv in H as ([st cmds] & w1 & Hs & H).
  unfold pflag_Parse, wrapM at 1, lift in Hs. rewrite Ha in Hs. cbn [mbind res_bind] in Hs.
  destruct (set_flags cl occs _) as [st'|e|p] eqn:Hst; [|done..]. injection Hs as -> <- <-.
  destruct rest; [|done]. destruct (fst_help st); [done|]. destruct (fst_version st); [done|].
  apply M_bind_Ok_inv in H as (flags1 & w1 & H1 & H). injection H1 as Hd <-.
  destruct (ValidateKubeletFlags IsQualifiedName IsValidLabelValue flags1); [done|].
  apply M_bind_Ok_inv in H as (config1 & w1 & Hc & H).
  destruct (ValidateKubeletServer IsQualifiedName IsValidLabelValue flags1 config1); [done|].
  injection H as <- <- <-. by exists st.
Qed.

(** C35. Flags take precedence over the configuration file, for command
    lines without [--help] and without a boolean flag of the libraries
    ([plain]; a flag of these would take the next argument as its value when
    the flags are parsed again, and that argument may be a flag that is lost).
    When the command starts the kubelet on such a command line, the
    configuration is the one of the command line if no file is named;
    otherwise it is the one decoded from the file (its relative paths resolved
    against the directory of the file, whatever the working directory) with
    exactly the fields replaced whose flags were given, however often and in
    whatever order. *)
Theorem flags_override_file cl flags0 config0 args occs rest w flags config w' :
  IsAbs cwd = true ->
  cleanFlagSet = Ok cl -> pflag_args (kinds cl) args = Ok (occs, rest) -> plain occs ->
  RunE flags0 config0 args w = (Ok (Some (flags, config)), w') ->
  exists st, set_flags cl occs (mkFlagState flags0 config0 true false false false) = Ok st /\
    if bool_decide (fl_VirtualKubeletConfigFile flags = "") then config = fst_config st /\ w' = w
    else exists codecs data kc,
      let name := Abs cwd (fl_VirtualKubeletConfigFile flags) in
      kubeletCodecs = Ok codecs /\ fs_ReadFile name w = (Ok data, w') /\ DecodeKubeletConfiguration codecs data = Ok kc /\
      Forall resolved (PathRefs (resolveRelativePaths (Dir name) kc)) /\
      config = override occs (resolveRelativePaths (Dir name) kc) (fst_config st).
Proof.
  intros Hcwd Hcl Ha Hp H. destruct (RunE_Some _ _ _ _ _ _ _ _ _ _ Hcl Ha H) as (st & -> & Hst & _ & Hc).
  exists st. split; [done|].
  unfold nonempty in Hc. case_bool_decide; cbn [negb] in Hc.
  - by injection Hc as <- <-.
  - apply M_bind_Ok_inv in Hc as (kc & w2 & Hl & Hc).
    rewrite (second_parse cl occs [] flags0 config0 flags0 args st kc Hcl Ha Hp Hst) in Hc. injection Hc as <- <-.
    unfold wrapM in Hl. destruct (loadConfigFile kubeletCodecs cwd _ w) as [[kc'|e|p] w3] eqn:El; [|done..].
    injection Hl as -> ->.
    destruct (loadConfigFile_Ok _ _ _ _ Hcwd El) as (codecs & data & kc0 & C & R & D & -> & P).
    by exists codecs, data, kc0.
Qed.
End command.

Module CommandExamples.
Import FilesExamples.

(** A parser of [--name=value], [--name value] and, for boolean flags,
    [--name]. *)
Definition with_occ (o : string * string) (r : res (list (string * string) * list string)) :
    res (list (string * string) * list string) := '(occs, rest) ← r; Ok (o :: occs, rest).

Fixpoint long_args (t : string -> option bool) (args : list string) : res (list (string * string) * list string) :=
  match args with
  | [] => Ok ([], [])
  | a :: args' =>
      if bool_decide (a = "--") then Ok ([], args')
      else if negb (HasPrefix a "--") then '(occs, rest) ← long_args t args'; Ok (occs, a :: rest)
      else
        let body := TrimPrefix a "--" in
        match split_once "=" body with
        | Some (n, v) =>
            match t n with
            | None => Err (ErrNew ("unknown flag: --" +:+ n))
            | Some _ => with_occ (n, v) (long_args t args')
            end
        | None =>
            match t body with
            | None => Err (ErrNew ("unknown flag: --" +:+ body))
            | Some true => with_occ (body, "true") (long_args t args')
            | Some false =>
                match args' with
                | [] => Err (ErrNew ("flag needs an argument: --" +:+ body))
                | v :: args'' => with_occ (body, v) (long_args t args'')
                end
            end
        end
  end.

Lemma with_occ_Ok o r occs rest : with_occ o r = Ok (occs, rest) -> exists occs', r = Ok (occs', rest) /\ occs = o :: occs'.
Proof. unfold with_occ. destruct r as [[occs' rest']|e|p]; [|done..]. intros [= <- <-]. by eexists. Qed.

Lemma long_args_kinds t t' args occs rest : long_args t args = Ok (occs, rest) ->
  (forall o, o ∈ occs -> t' o.1 = t o.1) -> long_args t' args = Ok (occs, rest).
Proof.
  remember (length args) as n eqn:Hn. revert args Hn occs rest.
  induction (lt_wf n) as [n _ IH]. intros [|a args] Hn occs rest H Ht; cbn [long_args length] in *; [done|].
  destruct (bool_decide (a = "--")); [done|]. destruct (HasPrefix a "--"); cbn [negb] in *.
  - set (body := TrimPrefix a "--") in *. destruct (split_once "=" body) as [[m v]|].
    + destruct (t m) as [b|] eqn:E; [|done]. apply with_occ_Ok in H as (occs' & H & ->).
      assert (t' m = t m) as -> by (apply (Ht (m, v)); left). rewrite E. rewrite (IH (length args)) with (occs := occs') (rest := rest);
        [done|lia|done|done|]. intros o Ho. apply Ht. by right.
    + destruct (t body) as [[|]|] eqn:E; [| |done].
      * apply with_occ_Ok in H as (occs' & H & ->). assert (t' body = t body) as -> by (apply (Ht (body, "true")); left). rewrite E.
        rewrite (IH (length args)) with (occs := occs') (rest := rest); [done|lia|done|done|].
        intros o Ho. apply Ht. by right.
      * destruct args as [|v args]; [done|]. apply with_occ_Ok in H as (occs' & H & ->).
        assert (t' body = t body) as -> by (apply (Ht (body, v)); left). rewrite E. rewrite (IH (length args)) with (occs := occs') (rest := rest); [done| |done|done|].
        { cbn [length] in *. lia. }
        intros o Ho. apply Ht. by right.
  - destruct (long_args t args) as [[occs' rest']|e|p] eqn:E; [|done..]. injection H as <- <-.
    by rewrite (IH (length args) ltac:(lia) args eq_refl occs' rest' E Ht).
Qed.

Definition bool_text (s : string) : res bool := Ok (bool_decide (s = "true")).
Definition header_add (b : bool) (s : string) (m : option (gmap string (list string))) : res (option (gmap string (list string))) :=
  Ok (Some (<[s := [s]]> (if b then default ∅ m else ∅))).
Definition libraries (name : string) : option (bool * (string -> option error)) :=
  Some (bool_decide (name = "enable_load_reader"), fun _ => None).
Definition log_flags : list (string * (bool * (string -> option error))) := [("v", (false, fun _ => None))].
Definition config0 : SlurmVirtualKubeletConfiguration :=
  mkVKConfig "10000" true "" 60 20 20 "" None "0.0.0.0" 10250 0 "" "" "/crt" "/key" [] "" false false.
(** What the file decodes to. *)
Definition decoded_config (data : string) : SlurmVirtualKubeletConfiguration :=
  mkVKConfig "5" false "pods" 10 20 20 data None "10.0.0.1" 443 80 "/vol" "" "certs/vk.crt" "/key" [] "" false false.
Definition decoded : res KubeletCodecs := Ok (mkKubeletCodecs
  (fun data => if HasPrefix data "unknown" then Err (ErrNew "unknown field") else Ok (KubeletConfigurationObject (decoded_config data)))
  (Ok (fun data => Ok (KubeletConfigurationObject (decoded_config data)))) (fun _ => true)).
Definition flags0 : SlurmVirtualKubeletFlags :=
  mkFlags "" "vk-1" "" (Some ∅) "" "" "Linux" "" "" "" "" "" 10 0 false [] "" (mkTracing None "") 0 "".

Definition files : MemFs := mkMemFs {[ "/srv/etc/vk.yaml" := "http://pods" ]} 0 [].
Definition run (args : list string) : res (option (SlurmVirtualKubeletFlags * SlurmVirtualKubeletConfiguration)) :=
  (RunE bool_text AtoiR AtoiR (fun _ => true) header_add long_args libraries log_flags bool_text decoded "/srv" Ok
     (fun _ => []) (fun _ => []) flags0 config0 args files).1.
Definition shown (r : res (option (SlurmVirtualKubeletFlags * SlurmVirtualKubeletConfiguration))) : option (string * string * Z * Z * list string) :=
  match r with
  | Ok (Some (_, c)) => Some (vc_Address c, vc_StaticPodURL c, vc_Port c, vc_ReadOnlyPort c, PathRefs c)
  | _ => None
  end.

Definition file_args : list string :=
  ["--config"; "etc/vk.yaml"; "--partition=debug"; "--port"; "1"; "--v=2"; "--enable-server"; "--address="; "--port=7"].

Example file_and_flags : shown (run file_args) =
  Some ("10.0.0.1", "http://pods", 7%Z, 80%Z, ["/srv/etc/pods"; "/srv/etc/certs/vk.crt"; "/key"; "/vol"]).
Proof. vm_compute. reflexivity. Qed.

(** A boolean flag of a library takes the next flag for its value when the
    flags are parsed again: the port given on the command line is lost. *)
Lemma library_flag_hides_port :
  shown (run (["--config=etc/vk.yaml"; "--partition=debug"; "--enable-load-reader"; "--port=7"])) =
  Some ("10.0.0.1", "http://pods", 443%Z, 80%Z, ["/srv/etc/pods"; "/srv/etc/certs/vk.crt"; "/key"; "/vol"]) /\
  shown (run (["--partition=debug"; "--enable-load-reader"; "--port=7"])) =
  Some ("0.0.0.0", "", 7%Z, 0%Z, [""; "/crt"; "/key"; ""]).
Proof. vm_compute. done. Qed.

(** Clearing the address twice is a panic; clearing it has no effect. *)
Lemma address_cleared :
  run ["--partition=debug"; "--address="; "--address=1.2.3.4"] =
  Panic (PanicWith "the string pointer passed into IPVar should not be nil") /\
  shown (run ["--partition=debug"; "--address="]) = Some ("0.0.0.0", "", 10250%Z, 0%Z, [""; "/crt"; "/key"; ""]).
Proof. vm_compute. done. Qed.

Definition demo_cl : list Flag :=
  match cleanFlagSet bool_text AtoiR AtoiR (fun _ => true) header_add libraries log_flags bool_text with
  | Ok fs => fs | _ => [] end.
Definition demo_occs : list (string * string) :=
  match long_args (kinds demo_cl) file_args with Ok (occs, _) => occs | _ => [] end.

Definition demo_gs : list Flag :=
  match newFlagSetWithGlobals libraries log_flags bool_text with Ok fs => fs | _ => [] end.

Lemma Ok_inj {A} (a b : A) : Ok a = Ok b -> a = b.
Proof. by intros [= ->]. Qed.

Lemma file_args_plain : plain libraries log_flags bool_text demo_occs.
Proof.
  intros o Ho. assert (o.1 ∈ demo_occs.*1) as Hn by (by apply list_elem_of_fmap_2). split.
  - intros E. rewrite E in Hn. revert Hn. apply (bool_decide_unpack _). vm_compute. exact I.
  - assert (newFlagSetWithGlobals libraries log_flags bool_text = Ok demo_gs) as Hgs by (vm_compute; reflexivity).
    intros gs. rewrite Hgs. intros <-%Ok_inj. revert Hn. generalize (o.1). apply list.Forall_forall.
    apply (bool_decide_unpack _). vm_compute. exact I.
Qed.

Lemma log_flags_own n : n ∈ global_names log_flags ->
  n ∉ own_names bool_text AtoiR AtoiR (fun _ => true) header_add.
Proof.
  revert n. apply list.Forall_forall. apply (bool_decide_unpack _). vm_compute. exact I.
Qed.

Definition demo_run : res (option (SlurmVirtualKubeletFlags * SlurmVirtualKubeletConfiguration)) := run file_args.
Definition demo_flags : SlurmVirtualKubeletFlags := match demo_run with Ok (Some (f, _)) => f | _ => flags0 end.
Definition demo_config : SlurmVirtualKubeletConfiguration := match demo_run with Ok (Some (_, c)) => c | _ => config0 end.

Lemma demo_clean :
  cleanFlagSet bool_text AtoiR AtoiR (fun _ => true) header_add libraries log_flags bool_text = Ok demo_cl.
Proof.
  assert (is_ok (cleanFlagSet bool_text AtoiR AtoiR (fun _ => true) header_add libraries log_flags bool_text) = true) as H
    by (vm_compute; reflexivity).
  unfold demo_cl. revert H. by destruct (cleanFlagSet _ _ _ _ _ _ _ _).
Qed.
Lemma demo_parse : long_args (kinds demo_cl) file_args = Ok (demo_occs, []).
Proof. vm_compute. reflexivity. Qed.
Lemma demo_ran : RunE bool_text AtoiR AtoiR (fun _ => true) header_add long_args libraries log_flags bool_text decoded "/srv" Ok
  (fun _ => []) (fun _ => []) flags0 config0 file_args files = (Ok (Some (demo_flags, demo_config)), files).
Proof. vm_compute. reflexivity. Qed.

Lemma flags_override_file_witness :
  exists st, set_flags demo_cl demo_occs (mkFlagState flags0 config0 true false false false) = Ok st /\
    if bool_decide (fl_VirtualKubeletConfigFile demo_flags = "") then demo_config = fst_config st /\ files = files
    else exists codecs data kc,
      let name := Abs "/srv" (fl_VirtualKubeletConfigFile demo_flags) in
      decoded = Ok codecs /\ fs_ReadFile name files = (Ok data, files) /\ DecodeKubeletConfiguration codecs data = Ok kc /\
      Forall resolved (PathRefs (resolveRelativePaths (Dir name) kc)) /\
      demo_config = override demo_occs (resolveRelativePaths (Dir name) kc) (fst_config st).
Proof.
  apply (flags_override_file bool_text AtoiR AtoiR (fun _ => true) header_add long_args libraries log_flags bool_text
    decoded "/srv" Ok (fun _ => []) (fun _ => []) (fun _ _ _ => eq_refl) log_flags_own long_args_kinds demo_cl
    flags0 config0 file_args demo_occs [] files demo_flags demo_config files eq_refl demo_clean demo_parse file_args_plain demo_ran).
Defined.
End CommandExamples.
