(* ===== verification/VKRun.v ===== *)
(** * Starting the virtual kubelet (pkg/slurm-virtual-kubelet/virtual-kubelet.go, the rest of app/server.go)

    The command has its flags and configuration ([RunE] of VKCommand). It
    then connects to the API server and the agent, starts the goroutine that
    registers the node and hands pods to the provider, makes certificates if
    there are none, and starts the HTTP server for logs. The functions come
    first, each in the state of what it calls; the process as a whole, with
    its goroutines, is a step relation. *)

From S2P Require Import Prelude GoStrings GoNum GoTime GoPath Workload Kube Crd Cluster OperatorPod VKStatus VKReader VKProvider VKOptions VKNode Files.

(** ** Connecting *)

(** client-go and grpc: configurations of the API server's client, the
    client, and connections. *)
Class ClientLib (W : Type) := {
  RestConfig : Type;
  Clientset : Type;
  BuildConfigFromFlags : string -> M W RestConfig;
  InClusterConfig : M W RestConfig;
  set_Host : string -> RestConfig -> RestConfig;
  NewForConfig : RestConfig -> M W Clientset;
  grpc_Dial : string -> M W unit;
}.

(** A Unix socket is told by the end of its name. *)
Definition dial_address (endpoint : string) : string :=
  if HasSuffix endpoint "sock" then "unix://" +:+ endpoint else endpoint.

Record SlurmVirtualKubelet (C : Type) := mkVK {
  vk_KubeletFlags : SlurmVirtualKubeletFlags;
  vk_KubeletConfig : SlurmVirtualKubeletConfiguration;
  vk_nodeRef : string;
  vk_Client : C;
  vk_SlurmClient : string;
}.
Arguments mkVK {C}.
Arguments vk_KubeletFlags {C}.
Arguments vk_KubeletConfig {C}.
Arguments vk_nodeRef {C}.
Arguments vk_Client {C}.
Arguments vk_SlurmClient {C}.

Definition StartingKubelet : string := "Starting".

Section connect.
Context {W : Type} {FS : Filesystem W} {CL : ClientLib W} {API : KubeAPI W}.
(** [os.Getenv]. *)
Variable env : string -> string.

Definition newClient (configPath : string) : M W Clientset :=
  r ← attempt (fs_Stat configPath);
  config ← (if match r with inr err => negb (IsNotExist err) | inl _ => true end
            then wrapM (BuildConfigFromFlags configPath) "error building client config"
            else wrapM InClusterConfig "error building in cluster config");
  let masterURI := env "MASTER_URI" in
  NewForConfig (if nonempty masterURI then set_Host masterURI config else config).

(** The kubelet remembers the agent by the address it dialled. *)
Definition NewSlurmVirtualKubelet (kubeletServer : option (SlurmVirtualKubeletFlags * SlurmVirtualKubeletConfiguration))
    (client : Clientset) : M W (SlurmVirtualKubelet Clientset) :=
  match kubeletServer with
  | None => fail (ErrNew "kubelet server can not be empty")
  | Some (flags, config) =>
      if bool_decide (fl_AgentEndpoint flags = "") then fail (ErrNew "slurm-agent agent endpoint can not be empty")
      else
        let addr := dial_address (fl_AgentEndpoint flags) in
        conn ← attempt (grpc_Dial addr);
        match conn with
        | inr _ => panicM (ProcessExit ("can't connect to " +:+ addr))
        | inl _ => mret (mkVK flags config (fl_NodeName flags) client addr)
        end
  end.

Definition NewMainSlurmVirtualKubelet (flags : SlurmVirtualKubeletFlags) (config : SlurmVirtualKubeletConfiguration) :
    M W (SlurmVirtualKubelet Clientset) :=
  client ← newClient (fl_KubeConfig flags);
  NewSlurmVirtualKubelet (Some (flags, config)) client.

Definition BirthCry : M W unit := api_Event (mkEvent "Normal" StartingKubelet "Starting kubelet.").

Definition createAndInitVirtualKubelet (flags : SlurmVirtualKubeletFlags) (config : SlurmVirtualKubeletConfiguration) :
    M W (SlurmVirtualKubelet Clientset) :=
  vk ← NewMainSlurmVirtualKubelet flags config;
  BirthCry;;
  mret vk.
End connect.

(** ** Certificates *)

Definition VersionTLS12 : Z := 0x0303.

(** The ids of [crypto/tls], in the order of the source. *)
Definition AcceptedCiphers : list Z :=
  [0xc00a; 0xc009; 0xc014; 0xc013; 0xc02c; 0xc030; 0xc02b; 0xc02f]%Z.

(** What the certificate says; times are in nanoseconds, usages the numbers
    of [crypto/x509]. *)
Record Subject := mkSubject {
  subj_Country : list string;
  subj_Province : list string;
  subj_Organization : list string;
  subj_OrganizationalUnit : list string;
  subj_CommonName : string;
}.
Record CertTemplate := mkCertTemplate {
  crt_SerialNumber : option Z;
  crt_Subject : Subject;
  crt_NotBefore : Z;
  crt_NotAfter : Z;
  crt_KeyUsage : Z;
  crt_ExtKeyUsage : list Z;
  crt_IPAddresses : list string;
}.

Definition KeyUsageDigitalSignature : Z := 1.
Definition KeyUsageKeyEncipherment : Z := 4.
Definition ExtKeyUsageServerAuth : Z := 1.

(** [Exist] of etcd's fileutil. *)
Class FileUtil (W : Type) := Exist : string -> M W bool.

(** [crypto/rand], [rsa], [x509], [pem] and [tls]. [X509KeyPair] is the part
    of [LoadX509KeyPair] that does not read files. *)
Class CertLib (W : Type) := {
  PrivateKey : Type;
  KeyPair : Type;
  rand_Int : Z -> M W Z;
  time_Now : M W Z;
  GenerateKey : Z -> M W PrivateKey;
  CreateCertificate : CertTemplate -> PrivateKey -> M W string;
  MarshalPKCS1PrivateKey : PrivateKey -> string;
  pem_text : string -> string -> string;
  X509KeyPair : string -> string -> res KeyPair;
}.

Record TlsConfig (K : Type) := mkTlsConfig { tls_Certificates : list K; tls_MinVersion : Z; tls_CipherSuites : list Z }.
Arguments mkTlsConfig {K}.
Arguments tls_Certificates {K}.
Arguments tls_MinVersion {K}.
Arguments tls_CipherSuites {K}.

(** The server the kubelet listens with: its address, its limits (times in
    nanoseconds) and, for HTTPS, the configuration. *)
Record HttpServer (K : Type) := mkHttpServer {
  sv_Addr : string;
  sv_IdleTimeout : Z;
  sv_ReadTimeout : Z;
  sv_WriteTimeout : Z;
  sv_MaxHeaderBytes : Z;
  sv_TLSConfig : option (TlsConfig K);
}.
Arguments mkHttpServer {K}.
Arguments sv_Addr {K}.
Arguments sv_IdleTimeout {K}.
Arguments sv_ReadTimeout {K}.
Arguments sv_WriteTimeout {K}.
Arguments sv_MaxHeaderBytes {K}.
Arguments sv_TLSConfig {K}.

(** [net.JoinHostPort]: an IPv6 host is put in brackets. *)
Definition JoinHostPort (host port : string) : string :=
  if Contains host ":" then "[" +:+ host +:+ "]:" +:+ port else host +:+ ":" +:+ port.

Section certificates.
Context {W : Type} {FS : Filesystem W} {FU : FileUtil W} {CE : CertLib W}.
(** [netutils.ParseIPSloppy] followed by [String]. *)
Variable ParseIPSloppy : string -> option string.

(** The file of a failed [Create] is nil; encoding to it and closing it fail
    without an effect, as all errors are ignored. *)
Definition write_pem (path type bytes : string) : M W unit :=
  out ← attempt (fs_Create path);
  match out with
  | inr _ => mret tt
  | inl out => _ ← attempt (file_Write out (pem_text type bytes)); _ ← attempt (file_Close out); mret tt
  end.

Definition nil_on_error {A} (m : M W A) : M W (option A) :=
  r ← attempt m; mret (match r with inl a => Some a | inr _ => None end).

Definition tryPrepareTlsCerts (config : SlurmVirtualKubeletConfiguration) : M W unit :=
  serialNumber ← nil_on_error (rand_Int (Z.shiftl 1 128));
  notBefore ← time_Now;
  notAfter ← time_Now;
  let subject := mkSubject ["CN"] ["BeiJing"] ["kubecluster"] ["sbj"] "slurm virtual kubelet fake certs" in
  let template := mkCertTemplate serialNumber subject notBefore (notAfter + 365 * 24 * 3600 * Second)
    (Z.lor KeyUsageKeyEncipherment KeyUsageDigitalSignature) [ExtKeyUsageServerAuth] ["127.0.0.1"] in
  pk ← nil_on_error (GenerateKey 2048);
  match pk with
  | None => panicM NilDeref
  | Some pk =>
      derBytes ← nil_on_error (CreateCertificate template pk);
      write_pem (vc_TLSCertFile config) "CERTIFICATE" (default "" derBytes);;
      write_pem (vc_TLSPrivateKeyFile config) "RSA PRIVATE KEY" (MarshalPKCS1PrivateKey pk)
  end.

(** The certificates in [startVirtualKubelet]: the second file is looked for
    only when the first is missing. *)
Definition prepare_certs (config : SlurmVirtualKubeletConfiguration) : M W unit :=
  certExists ← Exist (vc_TLSCertFile config);
  keyExists ← (if certExists : bool then mret true else Exist (vc_TLSPrivateKeyFile config));
  if negb certExists && negb keyExists then tryPrepareTlsCerts config else mret tt.

Definition LoadX509KeyPair (certFile keyFile : string) : M W KeyPair :=
  certPEMBlock ← fs_ReadFile certFile;
  keyPEMBlock ← fs_ReadFile keyFile;
  lift (X509KeyPair certPEMBlock keyPEMBlock).

Definition loadTLSConfig (certPath keyPath : string) : M W (TlsConfig KeyPair) :=
  cert ← wrapM (LoadX509KeyPair certPath keyPath) "error loading tls certs";
  mret (mkTlsConfig [cert] VersionTLS12 AcceptedCiphers).

(** [uint] of the port, an [int32]; an address that is none is printed as
    [<nil>]. *)
Definition server_addr (config : SlurmVirtualKubeletConfiguration) : string :=
  JoinHostPort (default "<nil>" (ParseIPSloppy (vc_Address config))) (FormatInt (vc_Port config `mod` 2 ^ 64)%Z).

Definition new_server {K} (addr : string) (tls : option (TlsConfig K)) : HttpServer K :=
  mkHttpServer addr (90 * Second) (4 * 60 * 60 * Second) (4 * 60 * 60 * Second) (Z.shiftl 1 20) tls.

(** [ListenAndServeSlurmVirtualKubeletServer] up to the call that serves. *)
Definition ListenAndServeSlurmVirtualKubeletServer (config : SlurmVirtualKubeletConfiguration) : M W (HttpServer KeyPair) :=
  if nonempty (vc_TLSCertFile config) && nonempty (vc_TLSPrivateKeyFile config) then
    r ← attempt (loadTLSConfig (vc_TLSCertFile config) (vc_TLSPrivateKeyFile config));
    match r with
    | inr _ => panicM (ProcessExit "Failed to load tls config")
    | inl tlsCfg => mret (new_server (server_addr config) (Some tlsCfg))
    end
  else mret (new_server (server_addr config) None).
End certificates.

(** *** What the certificates are *)

(** A call that does not touch the files. *)
Definition mute {W A} {FV : FsView W} (m : M W A) : Prop :=
  forall w, wp m (fun r w' => no_panic r /\ fs_files w' = fs_files w) w.

Class CertLaws (W : Type) {FS : Filesystem W} {FV : FsView W} {FU : FileUtil W} {CE : CertLib W} := {
  law_Exist path w : wp (Exist path) (fun r w' =>
    fs_files w' = fs_files w /\ exists b, r = Ok b /\ (is_Some (fs_files w !! path) -> b = true)) w;
  law_ReadFile path w : wp (fs_ReadFile path) (fun r w' =>
    fs_files w' = fs_files w /\ match r with Ok c => fs_files w !! path = Some c | Err _ => True | Panic _ => False end) w;
  law_rand n : mute (rand_Int n);
  law_now w : wp time_Now (fun r w' => is_ok r = true /\ fs_files w' = fs_files w) w;
  law_GenerateKey n : mute (GenerateKey n);
  law_CreateCertificate t pk : mute (CreateCertificate t pk);
  law_X509KeyPair c k : no_panic (X509KeyPair c k);
  law_pair t pk der w w' : CreateCertificate t pk w = (Ok der, w') ->
    is_ok (X509KeyPair (pem_text "CERTIFICATE" der) (pem_text "RSA PRIVATE KEY" (MarshalPKCS1PrivateKey pk))) = true;
}.

Section tls.
Context {W : Type} {FS : Filesystem W} {FV : FsView W} {FL : FsLaws W} {FU : FileUtil W} {CE : CertLib W} {CW : CertLaws W}.
Variable ParseIPSloppy : string -> option string.
Abbreviation listen := (ListenAndServeSlurmVirtualKubeletServer ParseIPSloppy).

(** A file system and a library in which no call fails. *)
Definition works {A} (m : M W A) : Prop := forall w, is_ok (m w).1 = true.
Record AllWork : Prop := {
  work_Create path : works (fs_Create path);
  work_Write f data : works (file_Write f data);
  work_ReadFile path w : is_Some (fs_files w !! path) -> is_ok (fs_ReadFile path w).1 = true;
  work_GenerateKey n : works (GenerateKey n);
  work_CreateCertificate t pk : works (CreateCertificate t pk);
}.

Lemma wp_works {A} (m : M W A) Q w :
  is_ok (m w).1 = true -> wp m Q w -> wp m (fun r w' => Q r w' /\ is_ok r = true) w.
Proof. unfold wp. auto. Qed.

Lemma wp_nil_on_error {A} (m : M W A) Q w :
  wp m (fun r w' => match r with Ok a => Q (Ok (Some a)) w' | Err _ => Q (Ok None) w' | Panic p => Q (Panic p) w' end) w ->
  wp (nil_on_error m) Q w.
Proof.
  intros H. apply wp_bind, wp_attempt. eapply wp_mono; [exact H|]. by intros [a|e|p] w' Hr.
Qed.

(** Written or not, only the file named is touched. *)
Lemma write_pem_spec path type bytes w : clean_abs path ->
  wp (write_pem path type bytes) (fun r w' => r = Ok tt /\
    (fs_files w' = fs_files w \/ exists part, fs_files w' = <[path := part]> (fs_files w)) /\
    (AllWork -> fs_files w' = <[path := pem_text type bytes]> (fs_files w))) w.
Proof.
  intros Hp. apply wp_bind, wp_attempt.
  eapply wp_mono; [apply wp_eqn; by apply law_Create|]. intros [f|e|p] w1 [He H1]; [| |done]; cbn [attempted after].
  2: { apply wp_ret. split_and!; [done|by left|]. intros HA. pose proof (work_Create HA path w) as Hw. by rewrite He in Hw. }
  destruct H1 as (<- & Hw1 & Hend). apply wp_bind, wp_attempt.
  eapply wp_mono; [apply wp_eqn; apply (law_Write f (pem_text type bytes) ""); [done|by rewrite Hw1, lookup_insert_eq]|].
  intros [u|e|p] w2 [He2 H2]; [| |done]; cbn [attempted after]; apply wp_bind, wp_attempt;
    (eapply wp_mono; [apply law_Close|]); intros [u3|e3|p3] w3 [Hn3 Hw3]; try done; cbn [attempted after]; apply wp_ret.
  1,2: destruct H2 as [H2 _]; rewrite Hw1, insert_insert_eq in H2; cbn [String.append] in H2; rewrite Hw3, H2;
    split_and!; [done|right; by eexists|done].
  1,2: destruct H2 as [part H2]; rewrite Hw1, insert_insert_eq in H2; rewrite Hw3, H2; split_and!; [done|right; by eexists|];
    intros HA; pose proof (work_Write HA f (pem_text type bytes) w1) as Hw; by rewrite He2 in Hw.
Qed.

(** The pair of files a server can be started with. *)
Definition loads (files : gmap string string) (config : SlurmVirtualKubeletConfiguration) (pair : KeyPair) : Prop :=
  exists c k, files !! vc_TLSCertFile config = Some c /\ files !! vc_TLSPrivateKeyFile config = Some k /\ X509KeyPair c k = Ok pair.

Lemma nonempty_abs path : clean_abs path -> nonempty path = true.
Proof. intros H. apply clean_abs_IsAbs in H. by destruct path. Qed.

Lemma LoadX509KeyPair_spec config w :
  wp (LoadX509KeyPair (vc_TLSCertFile config) (vc_TLSPrivateKeyFile config)) (fun r w' =>
    fs_files w' = fs_files w /\
    (forall pair, r = Ok pair -> loads (fs_files w) config pair) /\ no_panic r /\
    (AllWork -> forall pair, loads (fs_files w) config pair -> r = Ok pair)) w.
Proof.
  apply wp_bind. eapply wp_mono; [apply wp_eqn, law_ReadFile|]. intros [c|e|p] w1 (He1 & Hw1 & H1); [| |done]; cbn [after].
  2: { split_and!; [done..|]. intros HA pair (c & k & Hc & _). pose proof (work_ReadFile HA (vc_TLSCertFile config) w) as Hr.
       rewrite He1 in Hr. by specialize (Hr ltac:(by eexists)). }
  apply wp_bind. eapply wp_mono; [apply wp_eqn, law_ReadFile|]. intros [k|e|p] w2 (He2 & Hw2 & H2); [| |done]; cbn [after]; rewrite Hw1 in Hw2.
  2: { split_and!; [done..|]. intros HA pair (c' & k & _ & Hk & _).
       pose proof (work_ReadFile HA (vc_TLSPrivateKeyFile config) w1) as Hr. rewrite He2, Hw1 in Hr. by specialize (Hr ltac:(by eexists)). }
  rewrite Hw1 in H2. unfold wp, lift. cbn [fst snd]. split_and!; [done| |apply law_X509KeyPair|].
  - intros pair Hp. by exists c, k.
  - intros _ pair (c' & k' & Hc & Hk & Hp). congruence.
Qed.

(** Serving with the certificates in the files, or not at all. *)
Lemma listen_spec config w :
  clean_abs (vc_TLSCertFile config) -> clean_abs (vc_TLSPrivateKeyFile config) ->
  wp (listen config) (fun r w' => fs_files w' = fs_files w /\
    match r with
    | Ok srv => exists pair, loads (fs_files w) config pair /\
        srv = new_server (server_addr ParseIPSloppy config) (Some (mkTlsConfig [pair] VersionTLS12 AcceptedCiphers))
    | Err _ => False
    | Panic p => p = ProcessExit "Failed to load tls config" /\ (AllWork -> forall pair, ~ loads (fs_files w) config pair)
    end) w.
Proof.
  intros Hc Hk. unfold ListenAndServeSlurmVirtualKubeletServer. rewrite !nonempty_abs by done. cbn [andb].
  apply wp_bind, wp_attempt. unfold loadTLSConfig. apply wp_bind. unfold wrapM.
  pose proof (LoadX509KeyPair_spec config w) as H. unfold wp in *.
  destruct (LoadX509KeyPair _ _ w) as [[pair|e|p] w1]; cbn in *; destruct H as (Hw & Hl & Hn & HA); [| |done].
  - split; [done|]. exists pair. split; [by apply Hl|done].
  - split; [done|]. split; [done|]. intros A pair Hp. by specialize (HA A pair Hp).
Qed.

(** The files after certificates may have been made: nothing else changed. *)
Definition made (config : SlurmVirtualKubeletConfiguration) (files files' : gmap string string) : Prop :=
  forall p, p <> vc_TLSCertFile config -> p <> vc_TLSPrivateKeyFile config -> files' !! p = files !! p.

Lemma wp_mute {A B} (m : M W A) (f : option A -> M W B) Q w :
  mute m ->
  (forall r w', fs_files w' = fs_files w -> (forall a, r = Some a -> m w = (Ok a, w')) -> (works m -> is_Some r) -> wp (f r) Q w') ->
  wp (nil_on_error m ≫= f) Q w.
Proof.
  intros Hm H. apply wp_bind, wp_nil_on_error. eapply wp_mono; [apply wp_eqn, Hm|].
  intros [a|e|p] w' (E & Hn & Hw); [| |done]; cbn [after]; apply H; try done.
  - by intros ? [= <-].
  - intros A0. specialize (A0 w). by rewrite E in A0.
Qed.

Lemma wp_now {B} (f : Z -> M W B) Q w :
  (forall t w', fs_files w' = fs_files w -> wp (f t) Q w') -> wp (time_Now ≫= f) Q w.
Proof.
  intros H. apply wp_bind. eapply wp_mono; [apply law_now|]. intros [t|e|p] w' [Hr Hw]; [|done..]. by apply H.
Qed.

Lemma tryPrepareTlsCerts_spec config w :
  clean_abs (vc_TLSCertFile config) -> clean_abs (vc_TLSPrivateKeyFile config) -> vc_TLSCertFile config <> vc_TLSPrivateKeyFile config ->
  wp (tryPrepareTlsCerts config) (fun r w' => made config (fs_files w) (fs_files w') /\
    (r = Ok tt \/ r = Panic NilDeref) /\
    (AllWork -> r = Ok tt /\ exists pair, loads (fs_files w') config pair)) w.
Proof.
  intros Hc Hk Hne. unfold tryPrepareTlsCerts.
  apply wp_mute; [apply law_rand|]. intros serial w1 Hw1 _ _.
  apply wp_now. intros t1 w2 Hw2. apply wp_now. intros t2 w3 Hw3.
  apply wp_mute; [apply law_GenerateKey|]. intros [pk|] w4 Hw4 _ Hpk.
  2: { unfold wp, panicM, lift. cbn [fst snd]. split_and!; [intros p _ _; by rewrite Hw4, Hw3, Hw2, Hw1|by right|]. intros HA. by destruct (Hpk (work_GenerateKey HA 2048)). }
  apply wp_mute; [apply law_CreateCertificate|]. intros der w5 Hw5 Hder Hsome.
  assert (Hw : fs_files w5 = fs_files w) by congruence. clear Hpk Hw1 Hw2 Hw3 Hw4 Hw5.
  apply wp_bind. eapply wp_mono; [by apply write_pem_spec|]. intros r w6 (-> & H6 & A6). cbn [after].
  eapply wp_mono; [by apply write_pem_spec|]. intros r w7 (-> & H7 & A7). rewrite Hw in H6, A6. split_and!.
  - intros p Hp1 Hp2. destruct H7 as [->|[part ->]]; [|rewrite lookup_insert_ne by done];
      (destruct H6 as [->|[part' ->]]; [done|by rewrite lookup_insert_ne]).
  - by left.
  - intros HA. split; [done|]. destruct (Hsome (work_CreateCertificate HA _ _)) as [d Hd].
    pose proof (law_pair _ _ _ _ _ (Hder d Hd)) as Hp. destruct (X509KeyPair _ _) as [pair| |] eqn:Ep; [|done..].
    exists pair. do 2 eexists. rewrite (A7 HA), (A6 HA), Hd. cbn [default].
    rewrite lookup_insert_ne, !lookup_insert_eq by done. split_and!; [done..|exact Ep].
Qed.

Lemma prepare_certs_spec config w :
  clean_abs (vc_TLSCertFile config) -> clean_abs (vc_TLSPrivateKeyFile config) -> vc_TLSCertFile config <> vc_TLSPrivateKeyFile config ->
  wp (prepare_certs config) (fun r w' => made config (fs_files w) (fs_files w') /\
    (r = Ok tt \/ r = Panic NilDeref) /\
    (is_Some (fs_files w !! vc_TLSCertFile config) \/ is_Some (fs_files w !! vc_TLSPrivateKeyFile config) -> fs_files w' = fs_files w) /\
    (AllWork -> (exists w1 w2, Exist (vc_TLSCertFile config) w = (Ok false, w1) /\ Exist (vc_TLSPrivateKeyFile config) w1 = (Ok false, w2)) ->
     r = Ok tt /\ exists pair, loads (fs_files w') config pair)) w.
Proof.
  intros Hc Hk Hne. unfold prepare_certs.
  apply wp_bind. eapply wp_mono; [apply wp_eqn, law_Exist|]. intros r w1 (E1 & Hw1 & b1 & -> & Hb1). cbn [after].
  destruct b1; [apply wp_bind, wp_ret, wp_ret; split_and!; [intros p _ _; by rewrite Hw1|by left|done|]|].
  { intros _ (w1' & _ & E & _). congruence. }
  apply wp_bind. eapply wp_mono; [apply wp_eqn, law_Exist|]. intros r w2 (E2 & Hw2 & b2 & -> & Hb2). cbn [after].
  rewrite Hw1 in Hw2, Hb2. destruct b2; [apply wp_ret; split_and!; [intros p _ _; by rewrite Hw2|by left|done|]|].
  { intros _ (w1' & w2' & E & E'). congruence. }
  cbn [negb andb]. eapply wp_mono; [by apply tryPrepareTlsCerts_spec|]. intros r w3 (Hm & Hr & HA).
  unfold made in *. rewrite Hw2 in Hm. split_and!; [done..| |].
  - intros [H|H]; [by specialize (Hb1 H)|by specialize (Hb2 H)].
  - intros A _. by apply HA.
Qed.

(** C30. The certificates of the log server. When both files are named, the
    kubelet serves HTTPS with the pair that is then in the files, TLS 1.2 and
    the accepted ciphers, or it exits; it never serves plain HTTP. A file
    that is there is never overwritten, no other file is touched, and with
    exactly one of the two missing the kubelet exits. When both are missing
    and no call fails, it makes a pair and serves with it. *)
Theorem served_certificates config w :
  clean_abs (vc_TLSCertFile config) -> clean_abs (vc_TLSPrivateKeyFile config) -> vc_TLSCertFile config <> vc_TLSPrivateKeyFile config ->
  let there p := is_Some (fs_files w !! p) in
  wp (prepare_certs config;; listen config) (fun r w' =>
  match r with
  | Ok srv => exists pair, loads (fs_files w') config pair /\
      srv = new_server (server_addr ParseIPSloppy config) (Some (mkTlsConfig [pair] VersionTLS12 AcceptedCiphers))
  | Err _ => False
  | Panic p => p = NilDeref \/ p = ProcessExit "Failed to load tls config"
  end /\
  made config (fs_files w) (fs_files w') /\
  (there (vc_TLSCertFile config) \/ there (vc_TLSPrivateKeyFile config) -> fs_files w' = fs_files w) /\
  (there (vc_TLSCertFile config) /\ ~ there (vc_TLSPrivateKeyFile config) \/
   ~ there (vc_TLSCertFile config) /\ there (vc_TLSPrivateKeyFile config) -> is_ok r = false) /\
  (AllWork -> (exists w1 w2, Exist (vc_TLSCertFile config) w = (Ok false, w1) /\ Exist (vc_TLSPrivateKeyFile config) w1 = (Ok false, w2)) ->
   is_ok r = true)) w.
Proof.
  intros Hc Hk Hne there.
  apply wp_bind. eapply wp_mono; [by apply prepare_certs_spec|].
  intros r w1 (Hm & Hr & Hsame & HA). unfold there in *. destruct Hr as [-> | ->]; cbn [after].
  2: { split_and!; [by left|done..|]. intros A H. by destruct (HA A H). }
  eapply wp_mono; [by apply listen_spec|]. intros r w2 [Hw2 H2]. rewrite <- Hw2 in *. split_and!.
  - destruct r as [srv|e|p]; [done..|]. destruct H2 as [-> _]. by right.
  - done.
  - done.
  - intros Hone. destruct r as [srv|e|p]; [|done..]. exfalso. destruct H2 as (pair & (c & k & H1 & H2 & _) & _).
    rewrite Hsame in H1, H2 by tauto. destruct Hone as [[_ Hn]|[Hn _]]; apply Hn; by eexists.
  - intros A H. destruct (HA A H) as (_ & pair & Hp). destruct r as [srv|e|p]; [done|done|].
    by destruct (proj2 H2 A pair).
Qed.
End tls.

(** ** The resource manager (manager/resource.go) *)

(** The listers of the informers, for the kinds of which only the names are
    passed through. *)
Class Listers (W : Type) := {
  ConfigMap : Type;
  Secret : Type;
  Service : Type;
  list_Pods : M W (list Pod);
  get_ConfigMap : string -> string -> M W ConfigMap;
  get_Secret : string -> string -> M W Secret;
  list_Services : M W (list Service);
}.

Section resource_manager.
Context {W : Type} {LI : Listers W}.

(** A failing lister is logged and gives no pods. *)
Definition rm_GetPods : M W (list Pod) :=
  l ← attempt list_Pods;
  match l with inl l => mret l | inr _ => mret [] end.
Definition rm_GetConfigMap (name namespace : string) : M W ConfigMap := get_ConfigMap namespace name.
Definition rm_GetSecret (name namespace : string) : M W Secret := get_Secret namespace name.
Definition rm_ListServices : M W (list Service) := list_Services.
End resource_manager.

(** ** The process *)

(** The controllers of the virtual-kubelet library: their state, what they
    answer, the calls the pod controller wants to make, and their own steps,
    which may change the API server. *)
Class NodeLib (L W : Type) := {
  NewPodController : M L unit;
  NewNodeController : KNode -> M L unit;
  node_Run : L -> L;
  pc_Run : Z -> L -> L;
  node_Ready : L -> bool;
  pc_Ready : L -> bool;
  node_Failed : L -> option error;
  pc_Failed : L -> option error;
  pc_calls : L -> call -> Prop;
  status_error : L -> error -> Prop;
  lib_step : L * W -> L * W -> Prop;
  api_CreateNode : KNode -> M W unit;
}.

Definition Canceled : error := ErrSentinel "context canceled".

(** [errors.Cause]. *)
Fixpoint errors_Cause (e : error) : error := match e with ErrWrap cause _ => errors_Cause cause | _ => e end.

(** Where the goroutines are. [MainCerts] is [startVirtualKubelet] after
    [go vk.Run()]. *)
Inductive main_pc := MainInit | MainCerts | MainWait | MainReturned (err : option error).
Inductive run_pc := RunStart | RunTracing | RunNode | RunPodController | RunWait | RunNodeController
  | RunNodeRunner | RunNodeReady | RunPods | RunPodsReady | RunDone.
Inductive http_pc (K : Type) := HttpStart | HttpServing (srv : HttpServer K).
Arguments HttpStart {K}.
Arguments HttpServing {K}.

(** The lines of [Run] in order. *)
Definition stage (pc : run_pc) : nat :=
  match pc with
  | RunStart => 0 | RunTracing => 1 | RunNode => 2 | RunPodController => 3 | RunWait => 4 | RunNodeController => 5
  | RunNodeRunner => 6 | RunNodeReady => 7 | RunPods => 8 | RunPodsReady => 9 | RunDone => 10
  end.

(** The process: its goroutines, the provider (what it knows of pods, once
    it is assigned), the node it made, the answers to HTTP requests, how the
    process ended, and the states of tracing, the library and the rest. *)
Record Process (K E L W : Type) := mkProcess {
  p_main : main_pc;
  p_run : option run_pc;
  p_http : option (http_pc K);
  p_known : option (gmap string string);
  p_node : option KNode;
  p_answers : list (call * res unit);
  p_exit : option panic;
  p_tracer : TracerState E;
  p_l : L;
  p_w : W;
}.
Arguments mkProcess {K E L W}.
Arguments p_main {K E L W}.
Arguments p_run {K E L W}.
Arguments p_http {K E L W}.
Arguments p_known {K E L W}.
Arguments p_node {K E L W}.
Arguments p_answers {K E L W}.
Arguments p_exit {K E L W}.
Arguments p_tracer {K E L W}.
Arguments p_l {K E L W}.
Arguments p_w {K E L W}.

Section process.
Context {L W E : Type} {FS : Filesystem W} {CL : ClientLib W} {FU : FileUtil W} {CE : CertLib W} {NL : NodeLib L W}.
Context {API : KubeAPI W} {WM : WorkloadManager W} {WS : WorkloadStreams W}.
Context {PT : ProtoTime} {JR : Json JobInfoResponse} {JI : Json JobInfo}.
Variable env : string -> string.
Variable ParseIPSloppy : string -> option string.
Variables (interfaceAddrs : res (list NetAddr)) (uname : res string) (uuid : string).
Variable tracingExporters : gmap string (TracingExporterOptions -> res E).
Variables (flags : SlurmVirtualKubeletFlags) (config : SlurmVirtualKubeletConfiguration).

Abbreviation Proc := (Process KeyPair E L W).

Definition at_main (pc : main_pc) (p : Proc) : Proc :=
  mkProcess pc (p_run p) (p_http p) (p_known p) (p_node p) (p_answers p) (p_exit p) (p_tracer p) (p_l p) (p_w p).
Definition at_run (pc : run_pc) (p : Proc) : Proc :=
  mkProcess (p_main p) (Some pc) (p_http p) (p_known p) (p_node p) (p_answers p) (p_exit p) (p_tracer p) (p_l p) (p_w p).
Definition at_http (pc : http_pc KeyPair) (p : Proc) : Proc :=
  mkProcess (p_main p) (p_run p) (Some pc) (p_known p) (p_node p) (p_answers p) (p_exit p) (p_tracer p) (p_l p) (p_w p).
Definition with_known (known : gmap string string) (p : Proc) : Proc :=
  mkProcess (p_main p) (p_run p) (p_http p) (Some known) (p_node p) (p_answers p) (p_exit p) (p_tracer p) (p_l p) (p_w p).
Definition with_node (n : KNode) (p : Proc) : Proc :=
  mkProcess (p_main p) (p_run p) (p_http p) (p_known p) (Some n) (p_answers p) (p_exit p) (p_tracer p) (p_l p) (p_w p).
Definition with_answer (c : call) (r : res unit) (p : Proc) : Proc :=
  mkProcess (p_main p) (p_run p) (p_http p) (p_known p) (p_node p) (p_answers p ++ [(c, r)]) (p_exit p) (p_tracer p) (p_l p) (p_w p).
Definition ended (x : panic) (p : Proc) : Proc :=
  mkProcess (p_main p) (p_run p) (p_http p) (p_known p) (p_node p) (p_answers p) (Some x) (p_tracer p) (p_l p) (p_w p).
Definition in_states (t : TracerState E) (l : L) (w : W) (p : Proc) : Proc :=
  mkProcess (p_main p) (p_run p) (p_http p) (p_known p) (p_node p) (p_answers p) (p_exit p) t l w.

(** A call that answered [r]: on a value or an error the goroutine goes on as
    told, a panic ends the process. *)
Definition resume {A} (r : res A) (ok : A -> Proc -> Proc) (err : error -> Proc -> Proc) (p : Proc) : Proc :=
  match r with Ok a => ok a p | Err e => err e p | Panic x => ended x p end.
Definition on_w {A} (m : M W A) (ok : A -> Proc -> Proc) (err : error -> Proc -> Proc) (p : Proc) : Proc :=
  let '(r, w) := m (p_w p) in resume r ok err (in_states (p_tracer p) (p_l p) w p).
Definition on_l {A} (m : M L A) (ok : A -> Proc -> Proc) (err : error -> Proc -> Proc) (p : Proc) : Proc :=
  let '(r, l) := m (p_l p) in resume r ok err (in_states (p_tracer p) l (p_w p) p).
Definition on_tracer {A} (m : M (TracerState E) A) (ok : A -> Proc -> Proc) (err : error -> Proc -> Proc) (p : Proc) : Proc :=
  let '(r, t) := m (p_tracer p) in resume r ok err (in_states t (p_l p) (p_w p) p).
Definition fatal (msg : string) (_ : error) : Proc -> Proc := ended (ProcessExit msg).

(** [RunVirtualKubelet], the body of [run]. *)
Definition main_step (p : Proc) : option Proc :=
  match p_main p with
  | MainInit => Some (on_w (createAndInitVirtualKubelet env flags config) (fun _ q => at_run RunStart (at_main MainCerts q))
      (fun e => at_main (MainReturned (Some (ErrWrap e "failed to run Kubelet")))) p)
  | MainCerts => Some (on_w (prepare_certs config) (fun _ q => at_http HttpStart (at_main MainWait q)) (fun _ => id) p)
  | MainWait | MainReturned _ => None
  end.

(** [Run]: the next step of its goroutine, or nothing while it waits. *)
Definition run_step (p : Proc) : option Proc :=
  match p_run p, p_node p with
  | Some RunStart, _ => Some (at_run RunTracing (with_known ∅ p))
  | Some RunTracing, _ => Some (on_tracer (SetupTracing tracingExporters flags) (fun _ => at_run RunNode) (fatal "could not setup tracing") p)
  | Some RunNode, _ => Some (on_w (NewNodeOrDie interfaceAddrs uname uuid flags config)
      (fun pNode q => at_run RunPodController (with_node pNode q)) (fatal "NewNodeOrDie") p)
  | Some RunPodController, _ => Some (on_l NewPodController
      (fun _ => at_run (if bool_decide (0 < fl_StartupTimeout flags)%Z then RunWait else RunNodeController))
      (fatal "error setting up pod slurm-bridge-operator") p)
  | Some RunWait, _ => if pc_Ready (p_l p) then Some (at_run RunNodeController p) else None
  | Some RunNodeController, Some pNode => Some (on_l (NewNodeController pNode) (fun _ => at_run RunNodeRunner) (fatal "NewNodeController") p)
  | Some RunNodeRunner, _ => Some (at_run RunNodeReady (in_states (p_tracer p) (node_Run (p_l p)) (p_w p) p))
  | Some RunNodeReady, _ => if node_Ready (p_l p) then Some (at_run RunPods p) else None
  | Some RunPods, _ => Some (at_run RunPodsReady (in_states (p_tracer p) (pc_Run (fl_PodSyncWorkers flags) (p_l p)) (p_w p) p))
  | Some RunPodsReady, _ => if pc_Ready (p_l p) then Some (at_run RunDone p) else None
  | Some RunDone, _ | None, _ | Some RunNodeController, None => None
  end.

Definition http_step (p : Proc) : option Proc :=
  match p_http p with
  | Some HttpStart => Some (on_w (ListenAndServeSlurmVirtualKubeletServer ParseIPSloppy config) (fun srv => at_http (HttpServing srv)) (fun _ => id) p)
  | _ => None
  end.

(** A call of the provider. *)
Definition provider_vk : KubeletServer := mkKubeletServer (fl_SlurmPartition flags) (fl_AgentEndpoint flags).
Definition handle (c : call) : M (Prov W) unit :=
  match c with
  | CCreate pod => _ ← CreatePod provider_vk pod; mret tt
  | CUpdate pod => UpdatePod pod
  | CDelete pod => DeletePod pod
  | CGet namespace name => _ ← GetPod namespace name; mret tt
  | CStatus namespace name => _ ← GetPodStatus namespace name; mret tt
  | CPods => _ ← GetPods; mret tt
  | CLogs namespace name container follow => _ ← GetContainerLogs namespace name container follow; mret tt
  end.
Definition on_provider (known : gmap string string) (c : call) (p : Proc) : res unit * Proc :=
  let '(r, s) := handle c (mkProv known (p_w p)) in
  (r, with_known (knownPods s) (in_states (p_tracer p) (p_l p) (pv_w s) p)).

(** The routes of the HTTP server. *)
Definition is_request (c : call) : bool := match c with CPods | CLogs _ _ _ _ => true | _ => false end.

(** The handlers are methods of the field [Provider]; before it is assigned
    its pointer to the kubelet is nil. The HTTP library recovers a panic of a
    handler. *)
Definition serve_request (c : call) (p : Proc) : Proc :=
  match p_known p with
  | None => with_answer c (Panic NilDeref) p
  | Some known => let '(r, q) := on_provider known c p in with_answer c r q
  end.

(** The handler for errors of node status updates. *)
Definition node_status_error (pNode : KNode) (err : error) : M W unit :=
  if negb (IsNotFound err) then fail err else api_CreateNode pNode.

Definition alive (p : Proc) : Prop := p_exit p = None /\ match p_main p with MainReturned _ => False | _ => True end.

Inductive vmove : Proc -> Proc -> Prop :=
  | move_main p q : main_step p = Some q -> vmove p q
  | move_run p q : run_step p = Some q -> vmove p q
  | move_timeout p : p_run p = Some RunWait -> vmove p (ended (ProcessExit "Error while starting up VK") p)
  | move_http p q : http_step p = Some q -> vmove p q
  | move_http_failed p srv : p_http p = Some (HttpServing srv) -> vmove p (ended (ProcessExit "Failed to listen and serve") p)
  | move_request p srv c : p_http p = Some (HttpServing srv) -> is_request c = true -> vmove p (serve_request c p)
  | move_call p c known : pc_calls (p_l p) c -> p_known p = Some known ->
      vmove p (resume (on_provider known c p).1 (fun _ => id) (fun _ => id) (on_provider known c p).2)
  | move_lib p l w : lib_step (p_l p, p_w p) (l, w) -> vmove p (in_states (p_tracer p) l w p)
  | move_status_error p pNode err : status_error (p_l p) err -> p_node p = Some pNode ->
      vmove p (on_w (node_status_error pNode err) (fun _ => id) (fun _ => id) p)
  | move_node_failed p e : node_Failed (p_l p) = Some e -> vmove p (ended (ProcessExit "nodeRunner.Run") p)
  | move_pc_failed p e : pc_Failed (p_l p) = Some e -> errors_Is (errors_Cause e) Canceled = false ->
      vmove p (ended (ProcessExit "pc.Run") p)
  | move_done p : p_main p = MainWait -> vmove p (at_main (MainReturned None) p).

Definition vstep (p q : Proc) : Prop := alive p /\ vmove p q.

Definition start (l : L) (w : W) : Proc := mkProcess MainInit None None None None [] None (mkTracer [] None 0) l w.
End process.

(** *** The order of the start *)

(** What the library documents: the pod controller makes no call and is not
    ready before its [Run] is called, and a node controller that is ready
    stays so. *)
Class NodeLibLaws (L W : Type) {NL : NodeLib L W} := {
  pods_started : L -> Prop;
  law_calls l c : pc_calls l c -> pods_started l;
  law_pc_Ready l : pc_Ready l = true -> pods_started l;
  law_lib_started l w l' w' : lib_step (l, w) (l', w') -> pods_started l' -> pods_started l;
  law_NewPod_started l : pods_started (NewPodController l).2 -> pods_started l;
  law_NewNode_started n l : pods_started (NewNodeController n l).2 -> pods_started l;
  law_node_Run_started l : pods_started (node_Run l) -> pods_started l;
  law_lib_ready l w l' w' : lib_step (l, w) (l', w') -> node_Ready l = true -> node_Ready l' = true;
  law_pc_Run_ready k l : node_Ready l = true -> node_Ready (pc_Run k l) = true;
}.

Section order.
Context {L W E : Type} {FS : Filesystem W} {CL : ClientLib W} {FU : FileUtil W} {CE : CertLib W} {NL : NodeLib L W} {LL : NodeLibLaws L W}.
Context {API : KubeAPI W} {WM : WorkloadManager W} {WS : WorkloadStreams W}.
Context {PT : ProtoTime} {JR : Json JobInfoResponse} {JI : Json JobInfo}.
Variable env : string -> string.
Variable ParseIPSloppy : string -> option string.
Variables (interfaceAddrs : res (list NetAddr)) (uname : res string) (uuid : string).
Variable tracingExporters : gmap string (TracingExporterOptions -> res E).
Variables (flags : SlurmVirtualKubeletFlags) (config : SlurmVirtualKubeletConfiguration).

Abbreviation Proc := (Process KeyPair E L W).
Abbreviation move := (vmove env ParseIPSloppy interfaceAddrs uname uuid tracingExporters flags config).
Abbreviation step := (vstep env ParseIPSloppy interfaceAddrs uname uuid tracingExporters flags config).

(** How far the goroutine of [Run] is; before it starts, nowhere. *)
Definition reached (p : Proc) (n : nat) : Prop := exists pc, p_run p = Some pc /\ n <= stage pc.

Record ordered (p : Proc) : Prop := {
  ord_known : reached p 1 -> is_Some (p_known p);
  ord_node : reached p 3 -> is_Some (p_node p);
  ord_ready : reached p 8 -> node_Ready (p_l p) = true;
  ord_started : pods_started (p_l p) -> reached p 9;
  ord_timeout : (0 < fl_StartupTimeout flags)%Z -> ~ reached p 5;
}.

(** A step that keeps the goroutine of [Run] and the library where they are. *)
Lemma ordered_same p q : p_run q = p_run p -> p_l q = p_l p ->
  (is_Some (p_known p) -> is_Some (p_known q)) -> (is_Some (p_node p) -> is_Some (p_node q)) -> ordered p -> ordered q.
Proof.
  intros Hr Hl Hk Hn [H1 H2 H3 H4 H5]. unfold reached in *.
  split; unfold reached; rewrite ?Hr, ?Hl; auto.
Qed.

Lemma resume_same {A} (r : res A) ok err (p : Proc) : (forall a, ordered (ok a p)) -> (forall e, ordered (err e p)) ->
  ordered p -> ordered (resume r ok err p).
Proof. intros Hok Herr Hp. destruct r; cbn; [auto..|]. by apply (ordered_same p). Qed.

Lemma on_w_same {A} (m : M W A) ok err (p : Proc) :
  (forall w a, let q := in_states (p_tracer p) (p_l p) w p in m (p_w p) = (Ok a, w) -> ordered q -> ordered (ok a q)) ->
  (forall w e, let q := in_states (p_tracer p) (p_l p) w p in ordered q -> ordered (err e q)) ->
  ordered p -> ordered (on_w m ok err p).
Proof.
  intros Hok Herr Hp. unfold on_w. destruct (m (p_w p)) as [r w] eqn:Em.
  assert (Hq : ordered (in_states (p_tracer p) (p_l p) w p)) by by apply (ordered_same p).
  destruct r; cbn [resume]; [by eapply Hok|by eapply Herr|by apply (ordered_same p)].
Qed.

Lemma reached_pc p pc n : p_run p = Some pc -> reached p n <-> n <= stage pc.
Proof. unfold reached. intros ->. split; [intros (? & [= <-] & H); done|intros H; by exists pc]. Qed.

(** A step of [Run] from [pc] to [pc']. *)
Lemma ordered_advance p q pc pc' :
  p_run p = Some pc -> p_run q = Some pc' -> stage pc' <= 1 + stage pc \/ (pc = RunPodController /\ pc' = RunNodeController /\ (fl_StartupTimeout flags <= 0)%Z) ->
  (1 <= stage pc' -> is_Some (p_known p) \/ pc = RunStart -> is_Some (p_known q)) ->
  (3 <= stage pc' -> is_Some (p_node p) \/ pc = RunNode -> is_Some (p_node q)) ->
  (8 <= stage pc' -> node_Ready (p_l p) = true \/ pc = RunNodeReady -> node_Ready (p_l q) = true) ->
  (pods_started (p_l q) -> pods_started (p_l p) \/ 9 <= stage pc') ->
  (pc = RunWait -> pods_started (p_l p)) ->
  stage pc <= stage pc' -> ordered p -> ordered q.
Proof.
  intros Hp Hq Hs Hk Hn Hr Hst Hw Hle [H1 H2 H3 H4 H5]. 
  rewrite (reached_pc p pc _ Hp) in H1. rewrite (reached_pc p pc _ Hp) in H2. rewrite (reached_pc p pc _ Hp) in H3.
  rewrite (reached_pc p pc _ Hp) in H4. rewrite (reached_pc p pc _ Hp) in H5.
  split; rewrite (reached_pc q pc' _ Hq).
  - intros H. apply Hk; [done|]. destruct pc; try (by right); left; apply H1; cbn; lia.
  - intros H. apply Hn; [done|]. destruct Hs as [Hs|(-> & -> & _)]; [|left; apply H2; cbn; lia].
    destruct pc; cbn in *; try lia; try (by right); left; apply H2; lia.
  - intros H. apply Hr; [done|]. destruct Hs as [Hs|(-> & -> & _)]; [|cbn in H; lia].
    destruct pc; cbn in *; try lia; try (by right); left; apply H3; lia.
  - intros H. destruct (Hst H) as [H0|H0]; [|done]. specialize (H4 H0). lia.
  - intros Ht Hf. specialize (H5 Ht). destruct Hs as [Hs|(-> & -> & H0)]; [|lia].
    assert (stage pc = 4) as E4 by lia. assert (pc = RunWait) as -> by (by destruct pc).
    specialize (H4 (Hw eq_refl)). lia.
Qed.

#[local] Ltac advance :=
  cbn; try done; try lia; try (intros _ [?|?]; by eauto); try (intros; by eauto); try (by left).

Lemma run_step_ordered p q :
  run_step interfaceAddrs uname uuid tracingExporters flags config p = Some q -> ordered p -> ordered q.
Proof.
  intros H Ho. unfold run_step in H. destruct (p_run p) as [pc|] eqn:Hpc; [|done].
  destruct pc.
  - injection H as <-. eapply (ordered_advance p _ RunStart RunTracing); advance.
  - injection H as <-. unfold on_tracer. destruct (SetupTracing _ _ _) as [[u|e|x] t]; cbn [resume].
    1: eapply (ordered_advance p _ RunTracing RunNode); advance.
    1,2: by apply (ordered_same p).
  - injection H as <-. unfold on_w. destruct (NewNodeOrDie _ _ _ _ _ _) as [[n|e|x] w]; cbn [resume].
    1: eapply (ordered_advance p _ RunNode RunPodController); advance.
    1,2: by apply (ordered_same p).
  - injection H as <-. unfold on_l. pose proof (law_NewPod_started (p_l p)) as HL.
    destruct (NewPodController (p_l p)) as [[u|e|x] l] eqn:E0; cbn [resume snd] in *.
    + case_bool_decide as Ht.
      * eapply (ordered_advance p _ RunPodController RunWait); advance.
      * eapply (ordered_advance p _ RunPodController RunNodeController); advance.
        right. split_and!; [done..|lia].
    + eapply (ordered_advance p _ RunPodController RunPodController); advance.
    + eapply (ordered_advance p _ RunPodController RunPodController); advance.
  - destruct (pc_Ready (p_l p)) eqn:Hr; [|done]. injection H as <-.
    eapply (ordered_advance p _ RunWait RunNodeController); advance. intros _. by apply law_pc_Ready.
  - destruct (p_node p) as [n|] eqn:Hn; [|done]. injection H as <-. unfold on_l.
    pose proof (law_NewNode_started n (p_l p)) as HL.
    destruct (NewNodeController n (p_l p)) as [[u|e|x] l] eqn:E0; cbn [resume snd] in *.
    + eapply (ordered_advance p _ RunNodeController RunNodeRunner); advance.
    + eapply (ordered_advance p _ RunNodeController RunNodeController); advance.
    + eapply (ordered_advance p _ RunNodeController RunNodeController); advance.
  - injection H as <-. eapply (ordered_advance p _ RunNodeRunner RunNodeReady); advance.
    intros Hl. left. by apply law_node_Run_started.
  - destruct (node_Ready (p_l p)) eqn:Hr; [|done]. injection H as <-.
    eapply (ordered_advance p _ RunNodeReady RunPods); advance.
  - injection H as <-. eapply (ordered_advance p _ RunPods RunPodsReady); advance.
    intros _ [Hr|?]; [|done]. by apply law_pc_Run_ready.
  - destruct (pc_Ready (p_l p)) eqn:Hr; [|done]. injection H as <-.
    eapply (ordered_advance p _ RunPodsReady RunDone); advance.
  - done.
Qed.

Lemma on_provider_same known c p : ordered p -> ordered (on_provider flags known c p).2.
Proof.
  intros Ho. unfold on_provider. destruct (handle flags c _) as [r s].
  apply (ordered_same p); [done|done|by intros _; eexists|done|done].
Qed.

(** The goroutine of [Run] starts once. *)
Definition unstarted (p : Proc) : Prop := p_main p = MainInit -> p_run p = None.

Lemma resume_fields {A} (r : res A) ok err (p : Proc) (P : Proc -> Prop) :
  (forall a, P (ok a p)) -> (forall e, P (err e p)) -> (forall x, P (ended x p)) -> P (resume r ok err p).
Proof. intros. destruct r; cbn; auto. Qed.

Lemma on_w_fields {A} (m : M W A) ok err (p : Proc) (P : Proc -> Prop) :
  (forall a w, P (ok a (in_states (p_tracer p) (p_l p) w p))) -> (forall e w, P (err e (in_states (p_tracer p) (p_l p) w p))) ->
  (forall x w, P (ended x (in_states (p_tracer p) (p_l p) w p))) -> P (on_w m ok err p).
Proof. intros. unfold on_w. destruct (m (p_w p)). by apply resume_fields. Qed.

Lemma move_unstarted p q : move p q -> unstarted p -> unstarted q.
Proof.
  intros Hm Ho. unfold unstarted in *.
  destruct Hm as [p q H|p q H|p H|p q H|p srv H|p srv c H Hc|p c known Hc H|p l w H|p n err H Hn|p e H|p e H Hc|p H]; try exact Ho; try done.
  - unfold main_step in H. destruct (p_main p) eqn:Em; [| |done..]; injection H as <-;
      apply on_w_fields; cbn; intros; first [congruence|by apply Ho].
  - intros Hi. unfold run_step in H. destruct (p_run p) as [pc|] eqn:Er; [|done]. exfalso.
    assert (Hk : p_main q = p_main p); [|rewrite Hk in Hi; by specialize (Ho Hi)]. clear Hi Ho.
    destruct pc; try (injection H as <-); try done; try (by apply on_w_fields); unfold on_tracer, on_l in *; repeat case_match; simplify_eq; try done;
      apply resume_fields; done.
  - unfold http_step in H. destruct (p_http p) as [[|srv]|]; [|done..]. injection H as <-. by apply on_w_fields.
  - unfold serve_request, on_provider. destruct (p_known p); [|done]. by destruct (handle _ _ _).
  - unfold on_provider. destruct (handle _ _ _). by apply resume_fields.
  - by apply on_w_fields.
Qed.

Lemma move_ordered p q : move p q -> unstarted p -> ordered p -> ordered q.
Proof.
  intros Hm Hu Ho. destruct Hm as [p q H|p q H|p H|p q H|p srv H|p srv c H Hc|p c known Hc H|p l w H|p n err H Hn|p e H|p e H Hc|p H].
  - unfold main_step in H. destruct (p_main p) eqn:Em; [| |done..]; injection H as <-;
      (apply on_w_same; [intros w a q _ Hq|intros w e q Hq|done]); try (by apply (ordered_same q)).
    destruct Hq as [_ _ _ H4 _]. unfold reached in H4.
    split; unfold reached; cbn; try (intros (pc & [= <-] & Hle); cbn in Hle; lia).
    + intros Hst. destruct (H4 Hst) as (pc & Hpc & _). cbn in Hpc. by rewrite (Hu Em) in Hpc.
    + intros _ (pc & [= <-] & Hle). cbn in Hle. lia.
  - by eapply run_step_ordered.
  - by apply (ordered_same p).
  - unfold http_step in H. destruct (p_http p) as [[|srv]|]; [|done..]. injection H as <-.
    apply on_w_same; [|done|done]. intros w a q' _ Hq. by apply (ordered_same q').
  - by apply (ordered_same p).
  - unfold serve_request. destruct (p_known p) as [known|]; [|by apply (ordered_same p)].
    pose proof (on_provider_same known c p Ho) as H1. destruct (on_provider _ known c p) as [r q]. by apply (ordered_same q).
  - apply resume_same; [intros _|intros _|]; by apply on_provider_same.
  - destruct Ho as [H1 H2 H3 H4 H5]. split; auto; cbn.
    + intros Hr. eapply law_lib_ready; [exact H|]. by apply H3.
    + intros Hst. apply H4. by eapply law_lib_started.
  - by apply on_w_same.
  - by apply (ordered_same p).
  - by apply (ordered_same p).
  - by apply (ordered_same p).
Qed.

Lemma reachable_ordered l0 w0 p :
  ~ pods_started l0 -> rtc step (start l0 w0) p -> ordered p.
Proof.
  intros H0 Hrun. enough (H : unstarted p /\ ordered p) by apply H.
  assert (Hs : unstarted (start (E := E) l0 w0) /\ ordered (start (E := E) l0 w0)).
  { split; [done|]. split; unfold reached; cbn; try (by intros (? & ? & _)); [done|]. by intros _ (? & ? & _). }
  revert Hs. induction Hrun as [x|x y z [_ Hm] _ IH]; [done|].
  intros [Hu Ho]. apply IH. split; [by eapply move_unstarted|by eapply move_ordered].
Qed.

(** C29. The start of a virtual kubelet. However its goroutines, the
    controllers of the library and HTTP requests interleave and whatever calls
    fail, the pod controller of the library makes a call about a pod only
    when the provider is assigned and the node the kubelet made is ready.
    With a start-up timeout it never makes one: [Run] waits for a pod
    controller it has not started, and gets no further. This is about the
    calls of the library ([pc_calls]): the HTTP server does not wait, and a
    request for pods or logs that comes earlier finds no provider and panics
    ([early_request]). *)
Theorem pods_wait_for_node l0 w0 p c :
  ~ pods_started l0 -> rtc step (start l0 w0) p -> pc_calls (p_l p) c ->
  is_Some (p_known p) /\ is_Some (p_node p) /\ node_Ready (p_l p) = true /\ (fl_StartupTimeout flags <= 0)%Z.
Proof.
  intros H0 Hrun Hc.
  destruct (reachable_ordered l0 w0 p H0 Hrun) as [H1 H2 H3 H4 H5].
  assert (H9 : reached p 9) by (apply H4; by eapply law_calls).
  assert (Hr : forall n, n <= 9 -> reached p n) by (intros n Hn; destruct H9 as (pc & Hpc & Hle); exists pc; split; [done|lia]).
  split_and!; [apply H1, Hr; lia|apply H2, Hr; lia|apply H3, Hr; lia|].
  destruct (decide (0 < fl_StartupTimeout flags)%Z) as [Ht|Ht]; [|lia]. destruct (H5 Ht). apply Hr. lia.
Qed.
End order.

Module RunExamples.
Import FilesExamples.

(** A library in which the certificate carries the key. *)
#[local] Instance demo_exist : FileUtil MemFs := fun path w => (Ok (bool_decide (is_Some (mf_files w !! path))), w).
#[local] Instance demo_certs : CertLib MemFs := {|
  PrivateKey := string;
  KeyPair := string;
  rand_Int _ := mret 7%Z;
  time_Now := mret 0%Z;
  GenerateKey _ := mret "k";
  CreateCertificate _ pk := mret pk;
  MarshalPKCS1PrivateKey pk := pk;
  pem_text type bytes := type +:+ "|" +:+ bytes;
  X509KeyPair c k :=
    if HasPrefix c "CERTIFICATE|" && HasPrefix k "RSA PRIVATE KEY|" &&
       bool_decide (TrimPrefix c "CERTIFICATE|" = TrimPrefix k "RSA PRIVATE KEY|")
    then Ok (TrimPrefix c "CERTIFICATE|") else Err (ErrNew "tls: private key does not match public key") |}.

Lemma demo_cert_laws : CertLaws MemFs (FS := quiet_fs).
Proof.
  split; try done.
  - intros path w. unfold wp. cbn. split; [done|]. eexists. split; [done|]. intros H. by apply bool_decide_eq_true_2.
  - intros path w. unfold wp. cbn. split; [done|]. by destruct (mf_files w !! path).
  - intros c k. cbn. by case_match.
  - intros t pk der w w' [= <- <-]. cbn [X509KeyPair demo_certs pem_text MarshalPKCS1PrivateKey].
    change ("CERTIFICATE" +:+ "|" +:+ pk) with ("CERTIFICATE|" +:+ pk).
    change ("RSA PRIVATE KEY" +:+ "|" +:+ pk) with ("RSA PRIVATE KEY|" +:+ pk). unfold HasPrefix.
    by rewrite !prefix_app, !TrimPrefix_app, bool_decide_eq_true_2.
Qed.

Lemma demo_work : AllWork (FS := quiet_fs) (W := MemFs).
Proof.
  split; try done. intros path w H. cbn in *. destruct (mf_files w !! path); [done|by destruct H].
Qed.

Definition tls_config : SlurmVirtualKubeletConfiguration :=
  mkVKConfig "10000" true "" 60 20 20 "" None "10.0.0.1" 10250 0 "" "" "/pki/kubelet.crt" "/pki/kubelet.key" [] "" false false.
Definition some_text (s : string) : option string := Some s.

Lemma tls_paths : clean_abs "/pki/kubelet.crt" /\ clean_abs "/pki/kubelet.key".
Proof. split; [exists ["pki"; "kubelet.crt"]|exists ["pki"; "kubelet.key"]]; (split; [repeat constructor; done|done]). Qed.

(** No file, only one of them, and both of a pair. *)
Definition serve_with (files : gmap string string) : res (HttpServer string) :=
  ((prepare_certs (FS := quiet_fs) tls_config;; ListenAndServeSlurmVirtualKubeletServer (FS := quiet_fs) some_text tls_config)
     (mkMemFs files 0 [])).1.
Example certificates_cases :
  is_ok (serve_with ∅) = true /\
  serve_with {[ "/pki/kubelet.crt" := "CERTIFICATE|k" ]} = Panic (ProcessExit "Failed to load tls config") /\
  serve_with {[ "/pki/kubelet.crt" := "CERTIFICATE|x"; "/pki/kubelet.key" := "RSA PRIVATE KEY|x" ]} =
    Ok (new_server "10.0.0.1:10250" (Some (mkTlsConfig ["x"] VersionTLS12 AcceptedCiphers))).
Proof. vm_compute. done. Qed.

Lemma served_certificates_witness : is_ok (serve_with ∅) = true.
Proof.
  destruct tls_paths as [Hc Hk].
  destruct (served_certificates (FS := quiet_fs) (FL := quiet_laws) (CW := demo_cert_laws) some_text tls_config (mkMemFs ∅ 0 [])
    Hc Hk ltac:(done)) as (_ & _ & _ & _ & H).
  apply H; [exact demo_work|]. do 2 eexists. by split.
Defined.

(** An API server that takes events, an agent, and controllers that go
    through four states: new, the node controller running, the node ready,
    and the pod controller running as well. *)
#[local] Instance demo_api : KubeAPI MemFs := {|
  api_GetPod _ := fail (ErrAPI NotFound);
  api_CreatePod pod := mret pod;
  api_DeletePod _ := fail (ErrAPI NotFound);
  api_ListPods := mret [];
  api_UpdatePodStatus pod := mret pod;
  api_ListNodes _ := mret [];
  api_GetJob _ := fail (ErrAPI NotFound);
  api_CreateJob job := mret job;
  api_GetSBJ _ := fail (ErrAPI NotFound);
  api_UpdateSBJStatus _ := mret tt;
  api_Event _ := mret tt |}.
#[local] Instance demo_agent : WorkloadManager MemFs := {|
  rpc_SubmitJob r := mret (mkSubmitJobResponse 42);
  rpc_CancelJob r := mret mkCancelJobResponse;
  rpc_JobInfo r := mret (mkJobInfoResponse []);
  rpc_Partition r := mret (mkPartitionResponse ["n1"]);
  rpc_Partitions := mret (mkPartitionsResponse []);
  rpc_Nodes r := mret (mkNodesResponse []) |}.
#[local] Instance demo_streams : WorkloadStreams MemFs := {|
  rpc_OpenFile _ := fail (ErrNew "no file"); rpc_TailFile := mret 0; tail_Send _ _ := mret tt; tail_stream _ _ := mkStream [] EOF |}.
#[local] Instance demo_clients : ClientLib MemFs := {|
  RestConfig := string; Clientset := string;
  BuildConfigFromFlags path := mret path; InClusterConfig := mret "in-cluster"; set_Host uri _ := uri;
  NewForConfig config := mret config; grpc_Dial _ := mret tt |}.
#[local] Instance demo_lib : NodeLib nat MemFs := {|
  NewPodController := mret tt; NewNodeController _ := mret tt;
  node_Run _ := 1; pc_Run _ l := if 2 <=? l then 3 else l;
  node_Ready l := 2 <=? l; pc_Ready l := l =? 3; node_Failed _ := None; pc_Failed _ := None;
  pc_calls l c := l = 3 /\ c = CPods; status_error _ _ := False;
  lib_step s s' := s.1 = 1 /\ s'.1 = 2 /\ s.2 = s'.2; api_CreateNode _ := mret tt |}%nat.
#[local] Instance demo_lib_laws : NodeLibLaws nat MemFs.
Proof.
  refine {| pods_started l := l = 3 |}; cbn; try done.
  - by intros l c [-> _].
  - intros l. by destruct (Nat.eqb_spec l 3).
  - intros l w l' w' (_ & -> & _). done.
  - intros l w l' w' (_ & -> & _). done.
  - intros k l ->. done.
Defined.
#[local] Instance no_json {A} : Json A := {| Marshal _ := Err EOF; Unmarshal _ := Err EOF |}.
#[local] Existing Instance proto_time_impl.

Definition vk_flags1 (startup : Z) : SlurmVirtualKubeletFlags :=
  mkFlags "" "vk-1" "" (Some ∅) "" "" "Linux" "" "" "agent:9999" "gpu" "" 10 0 false [] "" (mkTracing None "") startup "".
Abbreviation demo_step startup := (vstep (FS := quiet_fs) (E := unit) (L := nat) (fun _ => "") some_text (Ok []) (Ok "Linux") "u" ∅ (vk_flags1 startup) tls_config).
Definition world : MemFs := mkMemFs ∅ 0 [].

#[local] Ltac go_main := eapply rtc_l; [split; [by split|eapply move_main; reflexivity]|].
#[local] Ltac go_run := eapply rtc_l; [split; [by split|eapply move_run; reflexivity]|].

(** A kubelet without a start-up timeout gets to the pods. *)
Lemma pods_reached : exists p, rtc (demo_step 0) (start 0 world) p /\ p_l p = 3.
Proof.
  eexists. split.
  - go_main. do 6 go_run.
    eapply rtc_l; [split; [by split|by apply (move_lib _ _ _ _ _ _ _ _ _ 2 world)]|].
    do 2 go_run. apply rtc_refl.
  - reflexivity.
Qed.

Lemma pods_wait_for_node_witness : exists p, rtc (demo_step 0) (start 0 world) p /\
  is_Some (p_known p) /\ is_Some (p_node p) /\ node_Ready (p_l p) = true /\ (0 <= 0)%Z.
Proof.
  destruct pods_reached as (p & Hrun & Hl). exists p. split; [exact Hrun|].
  apply (pods_wait_for_node (FS := quiet_fs) (E := unit) (LL := demo_lib_laws) (fun _ => "") some_text (Ok []) (Ok "Linux") "u" ∅ (vk_flags1 0) tls_config 0 world p CPods
    ltac:(done) Hrun). by split.
Defined.

(** The HTTP server may be asked before the provider is assigned: the
    handler of the logs finds a nil kubelet and panics. *)
Example early_request : exists p, rtc (demo_step 0) (start 0 world) p /\ p_answers p = [(CPods, Panic NilDeref)].
Proof.
  eexists. split.
  - do 2 go_main. eapply rtc_l; [split; [by split|eapply move_http; reflexivity]|].
    eapply rtc_l; [split; [split; [vm_compute; reflexivity|exact I]|eapply (move_request _ _ _ _ _ _ _ _ _ _ CPods); reflexivity]|]. apply rtc_refl.
  - reflexivity.
Qed.
End RunExamples.
