(* ===== verification/Programs.v ===== *)
(** * The main programs (cmd/slurm-agent, cmd/configurator, cmd/bridge-operator)

    What the programs do between their flags and the loops that serve: the
    agent reads its configuration, takes its socket and looks for the Slurm
    binaries; the configurator connects to the agent and watches partitions;
    the operator makes its manager and says what it watches. The arguments
    are the values of the flags. *)

From S2P Require Import Prelude GoStrings GoNum GoTime GoPath Workload AgentClient AgentServer Kube Crd Cluster Reconcile Configurator Files VKRun.

(** ** The Slurm agent *)

(** Opening files, the YAML decoder, [net.Listen], and the effective user. *)
Class AgentOS (W : Type) := {
  os_Open : string -> M W File;
  yaml_Decode : File -> M W Config;
  net_Listen : string -> string -> M W unit;
  os_Geteuid : W -> Z;
}.

(** The serving agent: the service and the addresses it listens at. *)
Record AgentProcess := mkAgentProcess { ag_service : Slurm; ag_listens : list (string * string) }.

(** [logrus.Fatal]. *)
Definition fatal_on_error {W A} (m : M W A) (msg : string) : M W A :=
  r ← attempt m; match r with inl a => mret a | inr _ => panicM (ProcessExit msg) end.

Section agent.
Context {W : Type} {FS : Filesystem W} {FU : FileUtil W} {AO : AgentOS W} {SH : SlurmHost W}.

(** Without a path the configuration is the nil map, which reads as empty.
    The deferred close comes after the decoder. *)
Definition config (path : string) : M W Config :=
  if bool_decide (path = "") then mret ∅
  else
    file ← wrapM (os_Open path) "could not open config file";
    deferred (wrapM (yaml_Decode file) "could not decode config") (_ ← attempt (file_Close file); mret tt).

(** A socket left behind by an earlier agent is removed. *)
Definition prepareSocketDir (sock : string) : M W unit :=
  dirExists ← Exist (Dir sock);
  (if dirExists : bool then mret tt else fs_MkdirAll (Dir sock));;
  sockExists ← Exist sock;
  if sockExists : bool then fs_RemoveAll sock else mret tt.

Definition newSlurmClient (cfg : Config) : M W Slurm :=
  w ← get;
  fatal_on_error (lift (NewClient w)) "Could not create slurm-agent client";;
  mret (NewSlurm (os_Geteuid w) cfg).

Definition newHttpServer : M W (string * string) :=
  fatal_on_error (net_Listen "tcp" ":9999") "Could not listen http";;
  mret ("tcp", ":9999").

(** [main] of the agent up to the calls that serve; the HTTP server, a
    goroutine, listens last. *)
Definition agent_main (configPath sock : string) (enableHttp : bool) : M W AgentProcess :=
  cfg ← fatal_on_error (config configPath) "config";
  fatal_on_error (prepareSocketDir sock) "prepareSocketDir";;
  fatal_on_error (net_Listen "unix" sock) "Could not listen unix";;
  a ← newSlurmClient cfg;
  http ← (if enableHttp then s ← newHttpServer; mret [s] else mret []);
  mret (mkAgentProcess a (("unix", sock) :: http)).
End agent.

(** ** Controller managers *)

(** controller-runtime: what is watched, with the filter of creations or the
    owner whose key is queued, and the manager. *)
Inductive Watched :=
  | WatchObjects (kind : string) (create : SlurmBridgeJob -> SlurmBridgeJob * bool)
  | WatchOwned (kind owner : string) (onlyController : bool).

Class ManagerLib (W : Type) := {
  NewManager : string -> string -> option string -> M W unit;
  kube_NewForConfigOrDie : M W unit;
  controller_New : string -> Z -> M W unit;
  controller_Watch : Watched -> M W unit;
  AddHealthzCheck : string -> M W unit;
  AddReadyzCheck : string -> M W unit;
  mgr_Start : M W unit;
}.

(** ** The configurator *)

Section configurator_main.
Context {W : Type} {FS : Filesystem W} {CL : ClientLib W} {ML : ManagerLib W} {API : KubeAPI W} {WM : WorkloadManager W}.
Variable env : string -> string.

Definition newCtrlManagerOrDie (metricsAddr probeAddr : string) : M W unit :=
  fatal_on_error (NewManager metricsAddr probeAddr None) "problem creating manager";;
  fatal_on_error (AddHealthzCheck "healthz") "unable to set up health check";;
  fatal_on_error (AddReadyzCheck "readyz") "unable to set up ready check".

(** The address of the agent: a socket takes precedence. *)
Definition agent_addr (agentHttpEndpoint agentSock : string) : string :=
  if bool_decide (agentSock = "") then agentHttpEndpoint else "unix://" +:+ agentSock.

(** Up to the goroutine of [WatchPartitions]. *)
Definition configurator_start (metricsAddr probeAddr agentHttpEndpoint agentSock : string) : M W SlurmBridgeConfigurator :=
  newCtrlManagerOrDie metricsAddr probeAddr;;
  let addr := agent_addr agentHttpEndpoint agentSock in
  fatal_on_error (grpc_Dial addr) ("can't connect to " +:+ agentSock);;
  lift (NewConfiguratorOrDie env addr).

(** [main] with the ticks of the timer until a signal arrives. *)
Definition configurator_main (metricsAddr probeAddr agentHttpEndpoint agentSock : string) (ticks : nat) : M W unit :=
  cf ← configurator_start metricsAddr probeAddr agentHttpEndpoint agentSock;
  WatchPartitions cf ticks.
End configurator_main.

(** ** The operator *)

(** The work queue of the reconciler, which stands for the one of the
    controller library and does nothing (pkg/common/util). *)
Record WorkQueue (W : Type) := mkWorkQueue {
  wq_Add : string -> M W unit;
  wq_Len : M W Z;
  wq_Get : M W (option string * bool);
  wq_Done : string -> M W unit;
  wq_ShutDown : M W unit;
  wq_ShutDownWithDrain : M W unit;
  wq_ShuttingDown : M W bool;
  wq_AddAfter : string -> Z -> M W unit;
  wq_AddRateLimited : string -> M W unit;
  wq_Forget : string -> M W unit;
  wq_NumRequeues : string -> M W Z;
}.

Definition FakeWorkQueue {W} : WorkQueue W := {|
  wq_Add _ := mret tt;
  wq_Len := mret 0%Z;
  wq_Get := mret (None, false);
  wq_Done _ := mret tt;
  wq_ShutDown := mret tt;
  wq_ShutDownWithDrain := mret tt;
  wq_ShuttingDown := mret true;
  wq_AddAfter _ _ := mret tt;
  wq_AddRateLimited _ := mret tt;
  wq_Forget _ := mret tt;
  wq_NumRequeues _ := mret 0%Z |}.

Definition ControllerName : string := "slurm-bridge-operator".

(** What the reconciler is made with beside what it gets from the manager:
    the name its events are recorded under, and its work queue. *)
Record SlurmBridgeJobReconciler (W : Type) := mkReconciler { r_recorder : string; r_WorkQueue : WorkQueue W }.
Arguments mkReconciler {W}.

Section operator_main.
Context {W : Type} {ML : ManagerLib W}.

(** A failing client of the API server is a panic of [NewForConfigOrDie]. *)
Definition NewReconciler : M W (SlurmBridgeJobReconciler W) :=
  kube_NewForConfigOrDie;;
  mret (mkReconciler ControllerName FakeWorkQueue).

(** The jobs that fetch results are created by the operator, but only
    SlurmBridgeJobs and pods are watched. *)
Definition SetupWithManager (controllerThreads : Z) : M W unit :=
  controller_New ControllerName controllerThreads;;
  controller_Watch (WatchObjects SlurmBridgeJobKind onOwnerCreateFunc);;
  controller_Watch (WatchOwned "Pod" SlurmBridgeJobKind true).

Definition operator_main (metricsAddr probeAddr : string) (enableLeaderElection : bool) (controllerThreads : Z) : M W unit :=
  fatal_on_error (NewManager metricsAddr probeAddr (if enableLeaderElection then Some "904cea19.kubecluster.org" else None))
    "unable to start manager";;
  _ ← NewReconciler;
  fatal_on_error (SetupWithManager controllerThreads) "unable to create slurm-bridge-operator";;
  fatal_on_error (AddHealthzCheck "healthz") "unable to set up health check";;
  fatal_on_error (AddReadyzCheck "readyz") "unable to set up ready check";;
  fatal_on_error mgr_Start "problem running manager".
End operator_main.

(** ** Facts *)

Lemma fatal_Ok_inv {W A} (m : M W A) msg w a w' : fatal_on_error m msg w = (Ok a, w') -> m w = (Ok a, w').
Proof. unfold fatal_on_error, mbind, M_bind, attempt. by destruct (m w) as [[x|e|p] w1]; intros [= -> ->]. Qed.

(** The configurator that starts watches with the address it dialled. *)
Lemma configurator_start_Ok {W} {CL : ClientLib W} {ML : ManagerLib W} env m p e s w c w' :
  configurator_start env m p e s w = (Ok c, w') ->
  SlurmAgentEndpoint c = agent_addr e s /\ exists w1 w2, grpc_Dial (agent_addr e s) w1 = (Ok tt, w2).
Proof.
  intros H. unfold configurator_start in H.
  apply M_bind_Ok_inv in H as (u & w1 & _ & H). apply M_bind_Ok_inv in H as ([] & w2 & Hd & H).
  apply fatal_Ok_inv in Hd. unfold lift in H. injection H as H _. unfold NewConfiguratorOrDie in H.
  case_bool_decide; [done|]. injection H as <-. split; [done|]. by exists w1, w2.
Qed.

(** What is at a path of the file system, and what lies below it. *)
Definition below (dir path : string) : bool := bool_decide (path = dir) || HasPrefix path (dir +:+ "/").

Class SocketLaws (W : Type) {FS : Filesystem W} {FV : FsView W} {FU : FileUtil W} := {
  law_Exist_path path w : wp (Exist path) (fun r w' =>
    fs_files w' = fs_files w /\ exists b, r = Ok b /\ (b = false -> fs_files w !! path = None)) w;
  law_Mkdir path w : wp (fs_MkdirAll path) (fun r w' => fs_files w' = fs_files w) w;
  law_RemoveAll path w : wp (fs_RemoveAll path) (fun r w' =>
    match r with
    | Ok _ => fs_files w' = filter (fun kv => below path kv.1 = false) (fs_files w)
    | _ => forall p, below path p = false -> fs_files w' !! p = fs_files w !! p
    end) w;
}.

Section socket.
Context {W : Type} {FS : Filesystem W} {FV : FsView W} {FU : FileUtil W} {SL : SocketLaws W}.

(** An agent that gets to listen finds its socket free: whatever an earlier
    one left there is removed, and nothing outside of that path. *)
Lemma prepareSocketDir_frees sock w :
  wp (prepareSocketDir sock) (fun r w' =>
    (forall p, below sock p = false -> fs_files w' !! p = fs_files w !! p) /\
    (is_ok r = true -> fs_files w' !! sock = None)) w.
Proof.
  unfold prepareSocketDir. apply wp_bind. eapply wp_mono; [apply law_Exist_path|].
  intros r w1 (Hw1 & b1 & -> & _). cbn [after]. apply wp_bind.
  apply (wp_mono _ (fun r w' => fs_files w' = fs_files w)).
  { destruct b1; [by apply wp_ret|]. eapply wp_mono; [apply law_Mkdir|]. intros r w2 H. by rewrite H. }
  intros [u|e|p] w2 Hw2; cbn [after]; [|by split; [intros; rewrite Hw2|]..].
  apply wp_bind. eapply wp_mono; [apply law_Exist_path|]. intros r w3 (Hw3 & b3 & -> & Hb). cbn [after].
  rewrite Hw2 in Hw3, Hb. destruct b3.
  - eapply wp_mono; [apply law_RemoveAll|]. intros r w4 H. rewrite Hw3 in H. split.
    + intros p Hp. destruct r; [|by apply H..]. rewrite H. destruct (fs_files w !! p) as [c|] eqn:E.
      * by apply map_lookup_filter_Some.
      * apply map_lookup_filter_None. by left.
    + destruct r; [|done..]. intros _. rewrite H. apply map_lookup_filter_None. right. intros c _. cbn.
      unfold below. by rewrite bool_decide_eq_true_2.
  - apply wp_ret. rewrite Hw3. split; [done|]. intros _. by apply Hb.
Qed.
End socket.
