(* ===== verification/Deployment.v ===== *)
(** * The deployment of a virtual kubelet

    The configurator creates a pod per Slurm partition; its container runs
    the virtual kubelet with a command line, from which the kubelet takes the
    partition it serves, the agent it talks to and the node it registers. The
    theorem follows the name of the partition and the address of the agent
    through these programs, up to the node and back to the list of nodes in
    which the configurator looks for it, and does not find it. *)

From S2P Require Import Prelude GoStrings GoNum GoTime GoPath Workload Kube Crd Cluster VKOptions VKNode Configurator Files Codec VKCommand VKRun Programs.

Section deployment.
Context {W : Type} {FS : Filesystem W} {N : Type} {WM : WorkloadManager N}.
Variable ParseBool : string -> res bool.
Variables ParseDuration ParseInt32 : string -> res Z.
Variable ParseIPSloppy : string -> bool.
Variable header_Set : bool -> string -> option (gmap string (list string)) -> res (option (gmap string (list string))).
Variable pflag_args : (string -> option bool) -> list string -> res (list (string * string) * list string).
Variable global_Lookup : string -> option (bool * (string -> option error)).
Variable logs_flags : list (string * (bool * (string -> option error))).
Variable version_Set : string -> res bool.
Variable kubeletCodecs : res KubeletCodecs.
Variable cwd : string.
Variable GetHostname : string -> res string.
Variables IsQualifiedName IsValidLabelValue : string -> list string.

(** Arguments that give flags their values as words of their own. *)
Definition flag_words (occs : list (string * string)) : list string :=
  concat ((fun o => ["--" +:+ o.1; o.2]) <$> occs).

(** The parser takes the word after a flag that needs a value as the value. *)
Hypothesis pflag_words : forall t occs,
  Forall (fun o => o.1 ∈ flag_name <$> vk_flags /\ t o.1 = Some false) occs ->
  pflag_args t (flag_words occs) = Ok (occs, []).

Abbreviation clean := (cleanFlagSet ParseBool ParseDuration ParseInt32 ParseIPSloppy header_Set global_Lookup logs_flags version_Set).
Abbreviation run_command := (RunE (W := W) ParseBool ParseDuration ParseInt32 ParseIPSloppy header_Set pflag_args global_Lookup logs_flags
  version_Set kubeletCodecs cwd GetHostname IsQualifiedName IsValidLabelValue).

(** What the container of a partition is told. *)
Definition kubelet_occs (c : SlurmBridgeConfigurator) (p : string) : list (string * string) :=
  [("nodename", partitionNodeName p); ("partition", p); ("endpoint", SlurmAgentEndpoint c)].
Definition kubelet_args (c : SlurmBridgeConfigurator) (p : string) : list string :=
  concat (ct_Args <$> spec_Containers (pod_spec (virtualKubeletPodTemplate c p))).

Lemma kubelet_args_words c p : kubelet_args c p = flag_words (kubelet_occs c p).
Proof. reflexivity. Qed.

(** The flags after the command line of the container. *)
Definition kubelet_flags (c : SlurmBridgeConfigurator) (p : string) (flags0 : SlurmVirtualKubeletFlags) : SlurmVirtualKubeletFlags :=
  set_AgentEndpoint (SlurmAgentEndpoint c) (set_SlurmPartition p (set_NodeName (partitionNodeName p) flags0)).

Lemma kubelet_flags_set cl c p flags0 config0 : clean = Ok cl ->
  pflag_args (kinds cl) (kubelet_args c p) = Ok (kubelet_occs c p, []) /\
  set_flags cl (kubelet_occs c p) (mkFlagState flags0 config0 true false false false) =
    Ok (mkFlagState (kubelet_flags c p flags0) config0 true false false false).
Proof.
  intros Hcl. pose proof (clean_lookup _ _ _ _ _ _ _ _ cl "nodename" _ Hcl eq_refl) as H1.
  pose proof (clean_lookup _ _ _ _ _ _ _ _ cl "partition" _ Hcl eq_refl) as H2.
  pose proof (clean_lookup _ _ _ _ _ _ _ _ cl "endpoint" _ Hcl eq_refl) as H3. split.
  - rewrite kubelet_args_words. apply pflag_words. unfold kubelet_occs, kinds. cbn [fst].
    rewrite !list.Forall_cons. cbn [fst]. rewrite H1, H2, H3.
    split_and!; try done; apply (bool_decide_unpack _); vm_compute; exact I.
  - unfold kubelet_occs. cbn [set_flags]. rewrite H1. cbn [flag_set StringVar mbind res_bind].
    rewrite H2. cbn [flag_set StringVar mbind res_bind]. rewrite H3. reflexivity.
Qed.

(** The command keeps what the configurator told it. *)
Lemma kubelet_told cl c p flags0 config0 w flags config w' :
  clean = Ok cl -> run_command flags0 config0 (kubelet_args c p) w = (Ok (Some (flags, config)), w') ->
  setDefaultSlurmVKFlags GetHostname (kubelet_flags c p flags0) = Ok flags /\
  fl_AgentEndpoint flags = SlurmAgentEndpoint c /\
  (fl_VirtualKubeletConfigFile flags0 = "" -> config = config0 /\ w' = w).
Proof.
  intros Hcl Hrun. destruct (kubelet_flags_set cl c p flags0 config0 Hcl) as [Ha Hset].
  eapply RunE_Some in Hrun as (st & _ & Hst & Hd & Hc); [|exact Hcl|exact Ha].
  rewrite Hset in Hst. injection Hst as <-. cbn [fst_flags fst_config] in *. split; [done|].
  unfold setDefaultSlurmVKFlags in Hd. apply bind_Ok_inv in Hd as (h & Hh & Hd). apply bind_Ok_inv in Hd as (labels & _ & [= <-]).
  split; [done|]. intros Hfile. cbn [fl_VirtualKubeletConfigFile set_NodeLabels] in Hc.
  change (fl_VirtualKubeletConfigFile (kubelet_flags c p flags0)) with (fl_VirtualKubeletConfigFile flags0) in Hc.
  rewrite Hfile in Hc. by injection Hc as <- <-.
Qed.

(** C23. Where the name of a partition goes. When the virtual kubelet that the
    configurator deploys for a partition starts with the command line of its
    container, it keeps the default configuration, and the node it registers
    is named after the partition, is labelled with it and has the capacity of
    it; the address it dials is the configurator's, with [unix://] in front
    if it ends in [sock]. The configurator, however, lists nodes by another
    label: the node is not in its list, so it does not read the partition
    back and takes it for one without a node. *)
Theorem partition_reaches_node {CL : ClientLib W} cl c p flags0 config0 w flags config w' addrs uname uuid w1 n w2
    (client : Clientset (W := W)) w3 vk w4 :
  clean = Ok cl -> fl_VirtualKubeletConfigFile flags0 = "" ->
  run_command flags0 config0 (kubelet_args c p) w = (Ok (Some (flags, config)), w') ->
  NewNodeOrDie (W := N) addrs uname uuid flags config w1 = (Ok n, w2) ->
  NewSlurmVirtualKubelet (Some (flags, config)) client w3 = (Ok vk, w4) ->
  (GetHostname (partitionNodeName p) = Ok (kn_Name n) /\ map_get (kn_Labels n) PartitionLabel = Some p /\
   GetPartitionCapacity p w1 = (Ok (kn_Capacity n), w2) /\ config = config0 /\ w' = w) /\
  vk_SlurmClient vk = dial_address (SlurmAgentEndpoint c) /\
  partitionNames [n] = [p] /\ List.filter (selects VKNodeLabel) [n] = [].
Proof.
  intros Hcl Hfile Hrun Hnode Hvk. destruct (kubelet_told cl c p flags0 config0 w flags config w' Hcl Hrun) as (Hd & He & Hc).
  destruct (node_labels_set GetHostname _ _ Hd) as [Hty Hp].
  unfold setDefaultSlurmVKFlags in Hd. apply bind_Ok_inv in Hd as (h & Hh & Hd). apply bind_Ok_inv in Hd as (labels & _ & [= <-]).
  cbn [fl_NodeLabels set_NodeLabels] in Hp, Hty. change (fl_SlurmPartition (kubelet_flags c p flags0)) with p in Hp.
  apply M_bind_Ok_inv in Hnode as (cap & w5 & Hcap & Hn).
  assert (Hl : kn_Labels n = labels /\ kn_Name n = h /\ kn_Capacity n = cap /\ w5 = w2) by (by injection Hn as <- <-).
  destruct Hl as (Hl & <- & <- & ->). rewrite <- Hl in Hty, Hp. split_and!; try done; try (by apply Hc).
  - unfold NewSlurmVirtualKubelet in Hvk. case_bool_decide; [done|]. apply M_bind_Ok_inv in Hvk as (r & w6 & _ & Hvk).
    destruct r; [|done]. injection Hvk as <- _. cbn [vk_SlurmClient]. by rewrite <- He.
  - unfold partitionNames. cbn [foldl]. unfold PartitionLabel in Hp. by rewrite Hp.
  - unfold List.filter. assert (selects VKNodeLabel n = false) as ->; [|done]. unfold selects. cbn. by rewrite Hty.
Qed.

(** The virtual kubelets the configurator deploys dial the agent at the
    address the configurator itself dialled, unless it ends in [sock]: a
    kubelet takes it for the path of a socket then and puts [unix://] in
    front, so with [--sock] it dials [unix://unix://...]. *)
Theorem kubelet_dials_agent {V : Type} {CL : ClientLib V} {CF : ClientLib W} {ML : ManagerLib V}
    cenv metrics probe endpoint sock v c v' cl p flags0 config0 w flags config w' client w1 vk w2 :
  configurator_start cenv metrics probe endpoint sock v = (Ok c, v') ->
  clean = Ok cl -> run_command flags0 config0 (kubelet_args c p) w = (Ok (Some (flags, config)), w') ->
  NewSlurmVirtualKubelet (Some (flags, config)) client w1 = (Ok vk, w2) ->
  (sock = "" -> HasSuffix endpoint "sock" = false -> vk_SlurmClient vk = endpoint) /\
  (sock <> "" -> HasSuffix sock "sock" = true -> vk_SlurmClient vk = "unix://unix://" +:+ sock) /\
  (vk_SlurmClient vk = agent_addr endpoint sock <-> HasSuffix (agent_addr endpoint sock) "sock" = false).
Proof.
  intros Hs Hcl Hrun Hvk. apply configurator_start_Ok in Hs as [Hc _].
  destruct (kubelet_told cl c p flags0 config0 w flags config w' Hcl Hrun) as (_ & He & _).
  assert (Hd : vk_SlurmClient vk = dial_address (agent_addr endpoint sock)).
  { unfold NewSlurmVirtualKubelet in Hvk. case_bool_decide; [done|]. apply M_bind_Ok_inv in Hvk as (r & w3 & _ & Hvk).
    destruct r; [|done]. injection Hvk as <- _. by rewrite <- Hc, <- He. }
  rewrite Hd. unfold dial_address, agent_addr. split_and!.
  - intros -> H. rewrite bool_decide_eq_true_2 by done. by rewrite H.
  - intros Hne H. rewrite bool_decide_eq_false_2 by done. by rewrite HasSuffix_app.
  - destruct (HasSuffix _ "sock"); [|done]. split; [|done]. intros H. apply (f_equal String.length) in H.
    rewrite length_str_app in H. cbn in H. lia.
Qed.
End deployment.


Module DeploymentExamples.
Import FilesExamples CommandExamples.

(** The parser of the examples takes the words as it should. *)
Lemma long_args_words t occs :
  Forall (fun o => o.1 ∈ flag_name <$> vk_flags /\ t o.1 = Some false) occs ->
  long_args t (flag_words occs) = Ok (occs, []).
Proof.
  induction 1 as [|[n v] occs [Hn Ht] _ IH]; [done|]. cbn [fst] in *.
  assert (n <> "" /\ split_once "=" n = None) as [Hne Hs].
  { revert n Hn Ht. assert (Forall (fun n => n <> "" /\ split_once "=" n = None) (flag_name <$> vk_flags)) as Hall
      by (apply (bool_decide_unpack _); vm_compute; exact I).
    intros n Hn _. by eapply list.Forall_forall in Hall. }
  change (flag_words ((n, v) :: occs)) with (("--" +:+ n) :: v :: flag_words occs). cbn [long_args].
  rewrite bool_decide_eq_false_2 by (destruct n; done).
  assert (HasPrefix ("--" +:+ n) "--" = true) as -> by apply prefix_app. cbn [negb]. rewrite TrimPrefix_app, Hs, Ht, IH. done.
Qed.

Definition conf : SlurmBridgeConfigurator := mkConfigurator "agent:9999" "default" "sa" "kubelet:v1".
Definition gpu_run := RunE bool_text AtoiR AtoiR (fun _ => true) header_add long_args libraries log_flags bool_text decoded "/srv" Ok
  (fun _ => []) (fun _ => []) flags0 config0 (kubelet_args conf "gpu") files.
Definition gpu_flags : SlurmVirtualKubeletFlags := match gpu_run.1 with Ok (Some (f, _)) => f | _ => flags0 end.
Definition gpu_config : SlurmVirtualKubeletConfiguration := match gpu_run.1 with Ok (Some (_, c)) => c | _ => config0 end.
Lemma gpu_ran : RunE bool_text AtoiR AtoiR (fun _ => true) header_add long_args libraries log_flags bool_text decoded "/srv" Ok
  (fun _ => []) (fun _ => []) flags0 config0 (kubelet_args conf "gpu") files = (Ok (Some (gpu_flags, gpu_config)), files).
Proof. vm_compute. reflexivity. Qed.

#[local] Instance demo_clients {V} : ClientLib V := {|
  RestConfig := unit; Clientset := unit; BuildConfigFromFlags _ := mret tt; InClusterConfig := mret tt;
  set_Host _ c := c; NewForConfig _ := mret tt; grpc_Dial _ := mret tt |}.
Definition gpu_answer := NewNodeOrDie (W := unit) (WM := NodeExamples.demo_agent) (Ok []) (Ok "Linux") "u" gpu_flags gpu_config tt.
Lemma gpu_endpoint : fl_AgentEndpoint gpu_flags = "agent:9999".
Proof. vm_compute. reflexivity. Qed.
Definition gpu_vk : SlurmVirtualKubelet unit :=
  mkVK gpu_flags gpu_config (fl_NodeName gpu_flags) tt (dial_address (fl_AgentEndpoint gpu_flags)).
Lemma gpu_vk_made : NewSlurmVirtualKubelet (W := MemFs) (CL := demo_clients) (Some (gpu_flags, gpu_config)) tt files = (Ok gpu_vk, files).
Proof. unfold NewSlurmVirtualKubelet. rewrite bool_decide_eq_false_2 by (by rewrite gpu_endpoint). reflexivity. Qed.

Lemma partition_reaches_node_witness : exists n,
  gpu_answer = (Ok n, tt) /\ kn_Name n = "slurm-partition-gpu" /\ map_get (kn_Labels n) PartitionLabel = Some "gpu" /\
  vk_SlurmClient gpu_vk = "agent:9999" /\ partitionNames [n] = ["gpu"] /\ List.filter (selects VKNodeLabel) [n] = [].
Proof.
  destruct gpu_answer as [[n|e|p] []] eqn:E; [|exfalso..].
  - destruct (partition_reaches_node bool_text AtoiR AtoiR (fun _ => true) header_add long_args libraries log_flags bool_text
      decoded "/srv" Ok (fun _ => []) (fun _ => []) long_args_words (CL := demo_clients) demo_cl conf "gpu" flags0 config0 files gpu_flags gpu_config files
      (Ok []) (Ok "Linux") "u" tt n tt tt files gpu_vk files demo_clean eq_refl gpu_ran E gpu_vk_made) as ((H1 & H2 & _) & H3 & H4 & H5).
    exists n. split; [done|]. split; [symmetry; by apply Ok_inj|]. split; [exact H2|]. split; [exact H3|]. split; [exact H4|exact H5].
  - assert (is_ok gpu_answer.1 = true) as H by (vm_compute; reflexivity). by rewrite E in H.
  - assert (is_ok gpu_answer.1 = true) as H by (vm_compute; reflexivity). by rewrite E in H.
Defined.

(** A configurator with a socket. *)
#[local] Instance demo_manager : ManagerLib unit := {|
  NewManager _ _ _ := mret tt; kube_NewForConfigOrDie := mret tt; controller_New _ _ := mret tt; controller_Watch _ := mret tt;
  AddHealthzCheck _ := mret tt; AddReadyzCheck _ := mret tt; mgr_Start := mret tt |}.
Definition demo_env (name : string) : string := if bool_decide (name = "KUBELET_IMAGE") then "kubelet:v1" else "".
Definition sock_conf : SlurmBridgeConfigurator := mkConfigurator "unix:///run/agent.sock" "default" "" "kubelet:v1".
Definition sock_run := RunE bool_text AtoiR AtoiR (fun _ => true) header_add long_args libraries log_flags bool_text decoded "/srv" Ok
  (fun _ => []) (fun _ => []) flags0 config0 (kubelet_args sock_conf "gpu") files.
Definition sock_flags : SlurmVirtualKubeletFlags := match sock_run.1 with Ok (Some (f, _)) => f | _ => flags0 end.
Definition sock_config : SlurmVirtualKubeletConfiguration := match sock_run.1 with Ok (Some (_, c)) => c | _ => config0 end.
Lemma sock_ran : RunE bool_text AtoiR AtoiR (fun _ => true) header_add long_args libraries log_flags bool_text decoded "/srv" Ok
  (fun _ => []) (fun _ => []) flags0 config0 (kubelet_args sock_conf "gpu") files = (Ok (Some (sock_flags, sock_config)), files).
Proof. vm_compute. reflexivity. Qed.
Lemma sock_endpoint : fl_AgentEndpoint sock_flags = "unix:///run/agent.sock".
Proof. vm_compute. reflexivity. Qed.

Definition sock_vk : SlurmVirtualKubelet unit :=
  mkVK sock_flags sock_config (fl_NodeName sock_flags) tt (dial_address (fl_AgentEndpoint sock_flags)).
Lemma sock_vk_made : NewSlurmVirtualKubelet (W := MemFs) (CL := demo_clients) (Some (sock_flags, sock_config)) tt files = (Ok sock_vk, files).
Proof. unfold NewSlurmVirtualKubelet. rewrite bool_decide_eq_false_2 by (by rewrite sock_endpoint). reflexivity. Qed.

Lemma kubelet_dials_agent_witness : vk_SlurmClient sock_vk = "unix://unix:///run/agent.sock".
Proof.
  destruct (kubelet_dials_agent bool_text AtoiR AtoiR (fun _ => true) header_add long_args libraries log_flags bool_text
    decoded "/srv" Ok (fun _ => []) (fun _ => []) long_args_words (V := unit) (CL := demo_clients) (CF := demo_clients) (ML := demo_manager) demo_env ":8080" ":8081" ":9999" "/run/agent.sock" tt
    sock_conf tt demo_cl "gpu" flags0 config0 files sock_flags sock_config files tt files sock_vk files
    ltac:(vm_compute; reflexivity) demo_clean sock_ran sock_vk_made) as (_ & H & _).
  exact (H ltac:(done) ltac:(vm_compute; reflexivity)).
Defined.
End DeploymentExamples.
