(* ===== verification/EndToEnd.v ===== *)
(** * The whole system

    The components composed as they are deployed: the API server, and the
    Slurm agent on its machine, both reached from the virtual kubelet.
    What the user writes in a SlurmBridgeJob is what [sbatch] is told, once,
    but for three options that get lost; and what [scontrol] says about the
    Slurm job is what the status of the SlurmBridgeJob shows. *)

From S2P Require Import Prelude GoStrings GoNum GoTime KeyValue AgentParse AgentClient Workload AgentServer.
From S2P Require Import Kube Crd OperatorPod VKStatus Cluster Reconcile VKReader VKProvider.

(** The environment of the virtual kubelet: the API server and the agent. *)
Record World (H : Type) := mkWorld { wd_server : Server; wd_agent : Srv H }.
Arguments mkWorld {H}.
Arguments wd_server {H}.
Arguments wd_agent {H}.

Section world.
Context {H : Type} {SH : SlurmHost H} {PT : ProtoTime}.

Definition on_server {A} (m : M Server A) : M (World H) A :=
  fun w => let '(r, s) := m (wd_server w) in (r, mkWorld s (wd_agent w)).
Definition on_agent {A} (m : M (Srv H) A) : M (World H) A :=
  fun w => let '(r, a) := m (wd_agent w) in (r, mkWorld (wd_server w) a).

#[export] Instance world_api : KubeAPI (World H) := {|
  api_GetPod k := on_server (api_GetPod k);
  api_CreatePod p := on_server (api_CreatePod p);
  api_DeletePod k := on_server (api_DeletePod k);
  api_ListPods := on_server api_ListPods;
  api_UpdatePodStatus p := on_server (api_UpdatePodStatus p);
  api_ListNodes sel := on_server (api_ListNodes sel);
  api_GetJob k := on_server (api_GetJob k);
  api_CreateJob j := on_server (api_CreateJob j);
  api_GetSBJ k := on_server (api_GetSBJ k);
  api_UpdateSBJStatus j := on_server (api_UpdateSBJStatus j);
  api_Event e := on_server (api_Event e) |}.

#[export] Instance world_agent : WorkloadManager (World H) := {|
  rpc_SubmitJob r := on_agent (rpc_SubmitJob r);
  rpc_CancelJob r := on_agent (rpc_CancelJob r);
  rpc_JobInfo r := on_agent (rpc_JobInfo r);
  rpc_Partition r := on_agent (rpc_Partition r);
  rpc_Partitions := on_agent rpc_Partitions;
  rpc_Nodes r := on_agent (rpc_Nodes r) |}.
End world.

(** A creation that is answered with a job id goes through: the API server
    takes events, and a failing update of the pod is ignored. *)
Lemma CreatePod_answered {H : Type} {SH : SlurmHost H} {PT : ProtoTime} vk pod req id known server (agent agent' : Srv H) :
  needReconcile pod = true -> validateCreatePod pod = None -> newSubmitRequestForPod vk pod = Ok req ->
  SubmitJob req agent = (Ok (mkSubmitJobResponse id), agent') ->
  let pod' := with_job_id vk pod (FormatInt id) in
  exists server', CreatePod vk pod (mkProv known (mkWorld server agent)) =
    (Ok pod', mkProv (<[pod_uid pod := FormatInt id]> known) (mkWorld server' agent')) /\
    (is_Some (s_pods (sv_store server) !! pod_key pod) -> sv_store server' = put_pod (sv_store server) (pod_key pod) pod').
Proof.
  intros Hn Hv Hreq Hsub. unfold CreatePod. rewrite Hn, Hv. cbn [negb]. unfold mbind, M_bind, lift. rewrite Hreq.
  unfold on_env. cbn [pv_w knownPods rpc_SubmitJob world_agent]. unfold on_agent. cbn [wd_agent wd_server].
  cbn [rpc_SubmitJob agent_service]. rewrite Hsub. cbn [pv_w knownPods sjr_JobId].
  unfold addAndUpdateSlurmJobInfo. rewrite (needReconcile_unlabelled pod Hn).
  unfold mbind, M_bind, attempt, on_env, store_known, modify. cbn -[with_job_id pod_key].
  unfold on_server. cbn [wd_server sv_store wd_agent].
  change (pod_key (with_job_id vk pod (FormatInt id))) with (pod_key pod).
  destruct (s_pods (sv_store server) !! pod_key pod) as [p|]; (eexists; split; [reflexivity|]); [done|by intros []].
Qed.

(** ** From the specification to sbatch *)

(** What the specification asks of [sbatch], option by option; an empty text
    asks for nothing. *)
Definition asked_options (j : SlurmBridgeJob) : list (string * string) :=
  let sp := sbj_Spec j in
  [("--partition", sp_Partition sp); ("--uid", from_option FormatInt "" (sp_RunAsUser sp));
   ("--gid", from_option FormatInt "" (sp_RunAsGroup sp)); ("--array", sp_Array sp);
   ("--cpus-per-task", count_text (sp_CpusPerTask sp)); ("--mem-per-cpu", count_text (sp_MemPerCpu sp));
   ("--nodes", count_text (sp_Nodes sp)); ("--ntasks", count_text (sp_Ntasks sp));
   ("--ntasks-per-node", count_text (sp_NtasksPerNode sp)); ("--job-name", sbj_name j); ("--chdir", sp_WorkingDir sp);
   ("--gres", sp_Gres sp); ("--licenses", sp_Licenses sp)].

(** What gets lost on the way: the sizing pod has the group only in its own
    security context, where the virtual kubelet does not look, and the
    generic resources and the licenses nowhere. *)
Definition lost_options : list string := ["--gid"; "--gres"; "--licenses"].

(** The options are those asked for, but the lost ones, and no others. *)
Definition asked_but_lost (j : SlurmBridgeJob) (opts : list string) : Prop :=
  (forall name v, (name, v) ∈ asked_options j -> last_str name opts = if bool_decide (name ∈ lost_options) then "" else v) /\
  (forall o, o ∈ opts -> o = "--parsable" \/
     exists name v, (name, v) ∈ asked_options j /\ name ∉ lost_options /\ v <> "" /\ o = name +:+ "=" +:+ v).

(** The request the agent passes to [sbatch] for a job. *)
Definition sent_sbatch (j : SlurmBridgeJob) : SbatchRequest := {|
  sb_Script := sp_SbatchScript (sbj_Spec j);
  sb_Partition := sp_Partition (sbj_Spec j);
  sb_RunAsUser := from_option FormatInt "" (sp_RunAsUser (sbj_Spec j));
  sb_RunAsGroup := "";
  sb_CpufsPerTask := Z.max 0 (sp_CpusPerTask (sbj_Spec j));
  sb_MemPerCpu := Z.max 0 (sp_MemPerCpu (sbj_Spec j));
  sb_NtasksPerNode := Z.max 0 (sp_NtasksPerNode (sbj_Spec j));
  sb_Array := sp_Array (sbj_Spec j);
  sb_Ntasks := Z.max 0 (sp_Ntasks (sbj_Spec j));
  sb_Nodes := Z.max 0 (sp_Nodes (sbj_Spec j));
  sb_JobName := sbj_name j;
  sb_WorkingDir := sp_WorkingDir (sbj_Spec j) |}.

Lemma count_text_max n : count_text (Z.max 0 n) = count_text n.
Proof.
  unfold count_text. destruct (decide (0 < n)%Z) as [H|H].
  - by rewrite Z.max_r by lia.
  - rewrite Z.max_l by lia. by rewrite !bool_decide_eq_false_2 by lia.
Qed.

(** A member of a list that is written out. *)
#[local] Ltac in_list := first [apply list_elem_of_here|apply list_elem_of_further; in_list].

Lemma sent_request_options j :
  let sp := sbj_Spec j in
  request_options (sent_sbatch j) =
  [("--partition", sp_Partition sp); ("--uid", from_option FormatInt "" (sp_RunAsUser sp)); ("--gid", "");
   ("--array", sp_Array sp); ("--cpus-per-task", count_text (sp_CpusPerTask sp)); ("--mem-per-cpu", count_text (sp_MemPerCpu sp));
   ("--nodes", count_text (sp_Nodes sp)); ("--ntasks", count_text (sp_Ntasks sp));
   ("--ntasks-per-node", count_text (sp_NtasksPerNode sp)); ("--job-name", sbj_name j); ("--chdir", sp_WorkingDir sp)].
Proof. unfold request_options. cbn. by rewrite !count_text_max. Qed.

Lemma sent_options j : asked_but_lost j (getSbatchOpts (sent_sbatch j)).
Proof.
  destruct (getSbatchOpts_options (sent_sbatch j)) as (Hin & Hout & Honly). rewrite sent_request_options in *. split.
  - assert (Hno : forall name, name ∈ ["--gres"; "--licenses"] -> last_str name (getSbatchOpts (sent_sbatch j)) = "").
    { intros name H. apply Hout; rewrite !elem_of_cons in H; (destruct H as [->|[->|[]%not_elem_of_nil]]; [|]); try reflexivity.
      all: intros name' H'; cbn [fmap list_fmap fst] in H'; rewrite !elem_of_cons in H';
        destruct_or! H'; [subst; by intros ?..|by apply not_elem_of_nil in H']. }
    intros name v H. unfold asked_options in H. rewrite !elem_of_cons in H.
    destruct_or! H; [injection H as -> ->..|by apply not_elem_of_nil in H].
    all: first [rewrite bool_decide_eq_false_2 by by_compute|rewrite bool_decide_eq_true_2 by by_compute].
    all: first [apply Hin; in_list|apply Hno; in_list].
  - intros o Ho. apply Honly in Ho as [->|(name & v & H & Hv & ->)]; [by left|]. right. exists name, v.
    rewrite !elem_of_cons in H. destruct_or! H; [injection H as -> ->..|by apply not_elem_of_nil in H]; try done.
    all: split_and!; [unfold asked_options; in_list|by_compute|done|done].
Qed.

Section submission.
Context {H : Type} {SH : SlurmHost H} {PT : ProtoTime}.
Context (SetControllerReference : SlurmBridgeJob -> ObjectMeta -> res ObjectMeta).
Hypothesis SetControllerReference_owner : forall j m m', SetControllerReference j m = Ok m' ->
  exists o, m' = add_owner m o /\ or_Kind o = SlurmBridgeJobKind.

(** The virtual kubelet gets the sizing pod of a new job. *)
Lemma sizecar_submitted vk j p server (agent : Srv H) known out id host' :
  newSizeCarPodForSJ SetControllerReference j = Ok p -> spec_ints_ok (sbj_Spec j) ->
  SlurmPartition vk = sp_Partition (sbj_Spec j) ->
  sp_Partition (sbj_Spec j) <> "" -> sp_SbatchScript (sbj_Spec j) <> "" ->
  let pod := admit_pod p in
  s_pods (sv_store server) !! pod_key pod = Some pod ->
  knownJobs agent !! pod_uid pod = None ->
  Command "sbatch" (getSbatchOpts (sent_sbatch j)) (sp_SbatchScript (sbj_Spec j)) (host agent) = (mkCmdResult out None None, host') ->
  AtoiR (TrimSpace out) = Ok id ->
  let pod' := with_job_id vk pod (FormatInt id) in
  exists server',
    CreatePod vk pod (mkProv known (mkWorld server agent)) =
      (Ok pod', mkProv (<[pod_uid pod := FormatInt id]> known)
                  (mkWorld server' (mkSrv (<[pod_uid pod := id]> (knownJobs agent)) host'))) /\
    sv_store server' = put_pod (sv_store server) (pod_key pod) pod'.
Proof.
  intros Hp Hints Hvk Hpart Hscript pod Hstored Hnew Hcmd Hid pod'.
  assert (Hadm : admitted p pod) by by split_and!.
  destruct (sizecar_request _ SetControllerReference_owner vk j p pod Hp Hadm Hints) as (Hnr & Hval & Hreq).
  assert (Huid : pod_uid pod <> "").
  { unfold pod, pod_uid. cbn. by destruct (pod_namespace p). }
  assert (Hsb : to_sbatch (spec_request vk j (pod_uid pod)) = sent_sbatch j).
  { unfold to_sbatch, spec_request, sent_sbatch. cbn. by rewrite Hvk. }
  assert (Hsub : SubmitJob (spec_request vk j (pod_uid pod)) agent =
    (Ok (mkSubmitJobResponse id), mkSrv (<[pod_uid pod := id]> (knownJobs agent)) host')).
  { unfold SubmitJob, invalid_submit. cbn [sj_Script sj_Partition sj_Uid spec_request]. rewrite Hvk.
    rewrite (bool_decide_eq_false_2 _ Hscript), (bool_decide_eq_false_2 _ Hpart), (bool_decide_eq_false_2 _ Huid). cbn [orb]. unfold mbind, M_bind, get. rewrite Hnew.
    unfold wrapM, on_host, SBatch, Output, mbind, M_bind, sbatchBinaryName. rewrite Hsb. cbn [sb_Script sent_sbatch].
    rewrite Hcmd. cbn [c_err c_out]. unfold lift. by rewrite Hid. }
  destruct (CreatePod_answered vk pod _ id known server agent _ Hnr Hval Hreq Hsub) as (server' & Hrun & Hs).
  exists server'. split; [exact Hrun|]. apply Hs. by eexists.
Qed.

(** C2. What Slurm is told about a job: when the virtual kubelet of the
    partition gets the sizing pod of a new job, the agent runs [sbatch] once,
    with the job's script on its input and exactly the options its
    specification asks for, except that the group, the generic resources and
    the licenses are lost; the id [sbatch] prints ends up with the agent
    under the pod's uid, with the virtual kubelet, and in the labels of the
    stored pod, next to the agent's address. *)
Theorem spec_reaches_slurm vk j p server (agent : Srv H) known :
  newSizeCarPodForSJ SetControllerReference j = Ok p -> spec_ints_ok (sbj_Spec j) ->
  SlurmPartition vk = sp_Partition (sbj_Spec j) ->
  sp_Partition (sbj_Spec j) <> "" -> sp_SbatchScript (sbj_Spec j) <> "" ->
  let pod := admit_pod p in
  s_pods (sv_store server) !! pod_key pod = Some pod ->
  knownJobs agent !! pod_uid pod = None ->
  exists opts, asked_but_lost j opts /\
  forall out id host',
  Command "sbatch" opts (sp_SbatchScript (sbj_Spec j)) (host agent) = (mkCmdResult out None None, host') ->
  AtoiR (TrimSpace out) = Ok id ->
  exists pod' server',
    CreatePod vk pod (mkProv known (mkWorld server agent)) =
      (Ok pod', mkProv (<[pod_uid pod := FormatInt id]> known)
                  (mkWorld server' (mkSrv (<[pod_uid pod := id]> (knownJobs agent)) host'))) /\
    sv_store server' = put_pod (sv_store server) (pod_key pod) pod' /\
    map_get (pod_labels pod') LabelSlurmBridgeJobId = Some (FormatInt id) /\
    map_get (pod_annotations pod') LabelAgentEndPoint = Some (AgentEndpoint vk).
Proof.
  intros Hp Hints Hvk Hpart Hscript pod Hstored Hnew. exists (getSbatchOpts (sent_sbatch j)).
  split; [apply sent_options|]. intros out id host' Hcmd Hid.
  destruct (sizecar_submitted vk j p server agent known out id host') as (server' & Hrun & Hs); [done..|].
  eexists _, server'. split; [exact Hrun|]. split; [done|].
  unfold map_get. cbn -[admit_pod]. by rewrite !lookup_insert_eq.
Qed.
End submission.

(** ** Submitting once *)

Section once.
Context {H : Type} {SH : SlurmHost H} {PT : ProtoTime} {US : UuidSource H}.
Variable s : Slurm.
Variable sprintf_other : string -> string -> string.
Abbreviation serve_all := (AgentServer.serve_all s sprintf_other).

(** The version of the pod that carries the id is not submitted. *)
Lemma needReconcile_labelled vk pod id : needReconcile (with_job_id vk pod id) = false.
Proof.
  unfold needReconcile, with_job_id. cbn -[map_get]. case_match; [done|].
  rewrite bool_decide_eq_true_2; [done|]. unfold map_get. cbn. rewrite lookup_insert_eq. by eexists.
Qed.

(** C4. A sizing pod is submitted to Slurm once. After a creation that
    succeeded, creating the pod again in the version without the job id, by
    a virtual kubelet that lost what it knew, with whatever the API server
    holds and whatever requests the agent served in between, gives the same
    pod with the same id and changes nothing at the agent: no command is
    run. Creating the version with the id does nothing at all. *)
Theorem submitted_once vk pod known server (agent : Srv H) pod' s1 :
  needReconcile pod = true -> CreatePod vk pod (mkProv known (mkWorld server agent)) = (Ok pod', s1) ->
  (forall rs known2 server2,
     let agent2 := serve_all rs (wd_agent (pv_w s1)) in
     exists server3, CreatePod vk pod (mkProv known2 (mkWorld server2 agent2)) =
       (Ok pod', mkProv (<[pod_uid pod := default "" (knownPods s1 !! pod_uid pod)]> known2) (mkWorld server3 agent2))) /\
  forall s2, CreatePod vk pod' s2 = (Ok pod', s2).
Proof.
  intros Hn Hc. destruct (CreatePod_submitted vk pod _ _ _ Hn Hc) as (req & id & w1 & Hreq & Hrpc & Hk & ->).
  assert (Hv : validateCreatePod pod = None).
  { unfold CreatePod in Hc. rewrite Hn in Hc. by destruct (validateCreatePod pod). }
  cbn [rpc_SubmitJob world_agent pv_w] in Hrpc. unfold on_agent in Hrpc. cbn [wd_agent wd_server rpc_SubmitJob agent_service] in Hrpc.
  destruct (SubmitJob req agent) as [r agent1] eqn:Hsub. injection Hrpc as -> _.
  destruct (CreatePod_answered vk pod req id known server agent agent1 Hn Hv Hreq Hsub) as (server1 & Hc1 & _).
  rewrite Hc1 in Hc. injection Hc as <-. cbn [pv_w wd_agent knownPods] in *. split.
  - intros rs known2 server2. destruct (SubmitJob_known _ _ _ _ Hsub) as [Hval Hkn].
    apply (serve_all_keeps s sprintf_other _ _ rs) in Hkn. cbn [sjr_JobId] in Hkn.
    destruct (CreatePod_answered vk pod req id known2 server2 _ _ Hn Hv Hreq (SubmitJob_again _ _ _ Hkn Hval)) as (server3 & H3 & _).
    exists server3. rewrite H3. by rewrite lookup_insert_eq.
  - intros s2. unfold CreatePod. by rewrite needReconcile_labelled.
Qed.
End once.

(** ** From scontrol to the status *)

(** What the status of a SlurmBridgeJob says about a Slurm job. The two
    output files have changed places. *)
Definition shows_subjob (j : AgentParse.JobInfo) (sub : SlurmSubjobStatus) : Prop :=
  [sub_ID sub; sub_UserID sub; sub_ArrayJobID sub; sub_Name sub; sub_ExitCode sub; sub_WorkDir sub;
   sub_StdOut sub; sub_StdErr sub; sub_Partition sub; sub_NodeList sub; sub_BatchHost sub; sub_NumNodes sub] =
  [si_ID j; si_UserID j; si_ArrayJobID j; si_Name j; si_ExitCode j; si_WorkDir j;
   si_StdErr j; si_StdOut j; si_Partition j; si_NodeList j; si_BatchHost j; si_NumNodes j] /\
  sub_State sub = JobStatus_String (status_of (si_State j)) /\
  (forall t, si_SubmitTime j = Some t -> sub_SubmitTime sub = Some t) /\
  (forall t, si_StartTime j = Some t -> sub_StartTime sub = Some t).

Section status.
Context {H : Type} {SH : SlurmHost H} {PT : ProtoTime} {PL : ProtoTimeLaws}.
Context {JR : Json JobInfoResponse} {JI : Json Workload.JobInfo}.

Lemma subjob_shows j i : shows_job j i -> shows_subjob j (subjob_of i).
Proof.
  intros (Htext & Hst & Hs1 & Hs2 & _). injection Htext as E1 E2 E3 E4 E5 E6 E7 E8 E9 E10 E11 E12 E13.
  unfold shows_subjob, subjob_of. cbn. split_and!; [congruence|by rewrite Hst| |].
  - intros t Ht. rewrite Ht in Hs1. destruct Hs1 as (ts & -> & <-). done.
  - intros t Ht. rewrite Ht in Hs2. destruct Hs2 as (ts & -> & <-). done.
Qed.

Lemma add_subjobs_other infos m k :
  k ∉ (ji_Id <$> infos) -> add_subjobs infos m !! k = m !! k.
Proof.
  unfold add_subjobs. revert m. induction infos as [|i infos IH]; intros m Hk; [done|].
  rewrite fmap_cons, elem_of_cons in Hk. cbn [foldl]. rewrite IH by tauto.
  by rewrite lookup_insert_ne by (intros E; apply Hk; by left).
Qed.

Lemma add_subjobs_lookup infos m i :
  NoDup (ji_Id <$> infos) -> i ∈ infos -> add_subjobs infos m !! ji_Id i = Some (subjob_of i).
Proof.
  revert m. induction infos as [|i0 infos IH]; intros m Hn Hi; [by apply elem_of_nil in Hi|].
  rewrite fmap_cons, list.NoDup_cons in Hn. destruct Hn as [Hn0 Hn]. unfold add_subjobs. cbn [foldl].
  fold (add_subjobs infos (<[ji_Id i0 := subjob_of i0]> m)).
  apply elem_of_cons in Hi as [->|Hi]; [|by apply IH].
  rewrite add_subjobs_other by done. by rewrite lookup_insert_eq.
Qed.

(** The state of a Slurm job always has a container state. *)
Lemma container_state_ok i : exists c, slurmState2ContainerState (Some i) = Ok c.
Proof.
  unfold slurmState2ContainerState. cbn [of_option mbind res_bind].
  destruct (ji_Status i); cbn [mbind res_bind]; try by eexists.
  all: unfold index; pose proof (Split_nonempty (GetExitCode (Some i)) ":") as Hne;
    destruct (Split _ _); [done|]; cbn; by eexists.
Qed.

Lemma sizecar_status pod infos :
  map_get (pod_labels pod) LabelsRole = Some SlurmBridgeJobPodRoleSizeCar ->
  spec_Containers (pod_spec pod) <> [] -> infos <> [] ->
  exists st, convertJobInfo2PodStatus pod (mkJobInfoResponse infos) = Ok st /\
    st_Phase st = slurmState2PodPhase (mkJobInfoResponse infos) /\
    st_Message st = detail (mkJobInfoResponse infos).
Proof.
  intros Hr Hc Hi. unfold convertJobInfo2PodStatus. cbn [jresp_Info].
  destruct infos as [|i infos]; [done|]. cbn [length Nat.eqb].
  unfold slurmState2ContainerStatuses. rewrite Hr. cbn [default from_option id].
  rewrite bool_decide_eq_true_2 by done. unfold index. destruct (spec_Containers (pod_spec pod)); [done|].
  destruct (container_state_ok i) as [cs Hs]. cbn -[slurmState2ContainerState]. rewrite Hs. by eexists.
Qed.

(** The status of a submitted sizing pod, from a listing. *)
Lemma GetPodStatus_listing ns n pod id server (agent : Srv H) known bs g js host' infos text :
  s_pods (sv_store server) !! ((ns, n) : Key) = Some pod ->
  map_get (pod_labels pod) LabelSlurmBridgeJobId = Some (FormatInt id) -> in_int64 id ->
  map_get (pod_labels pod) LabelsRole = Some SlurmBridgeJobPodRoleSizeCar -> spec_Containers (pod_spec pod) <> [] ->
  bs <> [] -> Forall block_wf bs -> blank g -> Forall2 describes_job bs js ->
  Forall (fun j => convertible (si_SubmitTime j) /\ convertible (si_StartTime j)) js ->
  answers (host agent) "scontrol" ["show"; "jobid"; FormatInt id] (print_blocks bs +:+ g) host' ->
  mapSInfoToProtoInfo js = Ok infos -> json_roundtrip (mkJobInfoResponse infos) text ->
  exists st,
    GetPodStatus ns n (mkProv known (mkWorld server agent)) =
      (Ok (Some st), mkProv known (mkWorld server (mkSrv (knownJobs agent) host'))) /\
    st_Phase st = slurmState2PodPhase (mkJobInfoResponse infos) /\ st_Message st = text /\
    Forall2 shows_job js infos /\ infos <> [].
Proof.
  intros Hpod Hl Hid Hrole Hcs Hne Hbs Hg Hj Hc Ha Hm [Hmar Hun].
  destruct (JobInfo_listing (mkJobInfoRequest id) agent bs g js host') as (infos' & Hm' & Hrun & Hshow); [done..|].
  assert (infos' = infos) as -> by congruence.
  assert (Hnil : infos <> []).
  { intros ->. apply Forall2_length in Hshow. apply Forall2_length in Hj. destruct js; [|done]. by destruct bs. }
  destruct (sizecar_status pod infos Hrole Hcs Hnil) as (st & Hst & Hphase & Hmsg).
  unfold detail in Hmsg. rewrite Hmar in Hmsg. exists st. split_and!; [|done..].
  unfold GetPodStatus, GetPod, getSlurmJobId. unfold mbind, M_bind, attempt, on_env.
  cbn [api_GetPod world_api pv_w knownPods]. unfold on_server. cbn [wd_server wd_agent]. cbn [api_GetPod store_api]. unfold sv_read.
  rewrite Hpod. unfold mret, M_ret. rewrite Hl. rewrite bool_decide_eq_false_2 by apply FormatInt_nonempty. cbn [negb].
  rewrite Hl. rewrite bool_decide_eq_false_2 by apply FormatInt_nonempty.
  unfold lift. rewrite ParseIntR_FormatInt by done. cbn [rpc_JobInfo world_agent pv_w knownPods]. unfold on_agent.
  cbn [rpc_JobInfo agent_service wd_agent wd_server]. by rewrite Hrun, Hst.
Qed.

Lemma shown_ids js infos : Forall2 shows_job js infos -> (ji_Id <$> infos) = (si_ID <$> js).
Proof. induction 1 as [|j i js infos (Ht & _) _ IH]; [done|]. injection Ht as E _. csimpl. by rewrite IH, E. Qed.

(** The status of a SlurmBridgeJob that shows the jobs [js]. *)
Definition shows_jobs (js : list AgentParse.JobInfo) (status : SlurmBridgeJobStatus) : Prop :=
  Forall (fun j => exists sub, default ∅ (sjs_SubjobStatus status) !! si_ID j = Some sub /\ shows_subjob j sub) js.

Lemma observed_shows seen infos s js :
  st_Message (pod_status seen) <> "" -> Forall2 shows_job js infos -> NoDup (si_ID <$> js) ->
  sjs_State (observed seen (mkJobInfoResponse infos) s) = st_Phase (pod_status seen) /\
  shows_jobs js (observed seen (mkJobInfoResponse infos) s).
Proof.
  intros Hmsg Hshow Hnd. unfold observed. rewrite bool_decide_eq_false_2 by done.
  split; [destruct (map_get (pod_annotations seen) _); reflexivity|].
  assert (Hids : NoDup (ji_Id <$> infos)) by by rewrite (shown_ids js infos Hshow).
  apply list.Forall_forall. intros j Hin. apply list_elem_of_lookup in Hin as [k Hk].
  destruct (Forall2_lookup_l _ _ _ _ _ Hshow Hk) as (i & Hi & Hji).
  exists (subjob_of i). split; [|by apply subjob_shows]. destruct Hji as (Ht & _). injection Ht as E _.
  rewrite <- E. cbn [sjs_SubjobStatus set_subjobs default from_option].
  apply add_subjobs_lookup; [done|]. by eapply list_elem_of_lookup_2.
Qed.

End status.

(** ** Examples *)

Module EndToEndExamples.
Import ServerExamples.

Definition demo_ref (j : SlurmBridgeJob) (m : ObjectMeta) : res ObjectMeta :=
  Ok (add_owner m (mkOwnerReference GroupVersion_String SlurmBridgeJobKind (sbj_name j) (m_UID (sbj_meta j)) true true)).
Lemma demo_ref_owner : forall j m m', demo_ref j m = Ok m' ->
  exists o, m' = add_owner m o /\ or_Kind o = SlurmBridgeJobKind.
Proof. intros j m m' [= <-]. by eexists. Defined.

Definition demo_vk : KubeletServer := mkKubeletServer "debug" "agent:9999".
Definition demo_sbj : SlurmBridgeJob :=
  mkSlurmBridgeJob (new_meta "train" "default" None)
    (mkSlurmBridgeJobSpec "debug" "#!/bin/sh" (Some 1000%Z) (Some 1000%Z) "0-3" 2 0 (-1) 4 "/work" 0 "" "" None) zero_Status.
Definition sizecar : Pod := match newSizeCarPodForSJ demo_ref demo_sbj with Ok p => p | _ => zero_Pod end.
Definition demo_server : Server :=
  mkServer (mkStore {[pod_key sizecar := admit_pod sizecar]} ∅ ∅ []) [].
(** A cluster that prints the id 53 whatever it is asked. *)
Definition id_host : SlurmHost unit := printing_host ("53" +:+ LF).

Lemma spec_reaches_slurm_witness :
  let pod := admit_pod sizecar in
  exists opts, asked_but_lost demo_sbj opts /\
  exists pod' server',
    CreatePod (WM := world_agent (SH := id_host) (PT := proto_time_impl)) demo_vk pod
      (mkProv ∅ (mkWorld demo_server fresh)) =
      (Ok pod', mkProv (<[pod_uid pod := FormatInt 53]> ∅)
                  (mkWorld server' (mkSrv (<[pod_uid pod := 53%Z]> (knownJobs fresh)) tt))) /\
    sv_store server' = put_pod (sv_store demo_server) (pod_key pod) pod' /\
    map_get (pod_labels pod') LabelSlurmBridgeJobId = Some (FormatInt 53) /\
    map_get (pod_annotations pod') LabelAgentEndPoint = Some (AgentEndpoint demo_vk).
Proof.
  intros pod.
  destruct (spec_reaches_slurm (SH := id_host) (PT := proto_time_impl) demo_ref demo_ref_owner demo_vk demo_sbj sizecar
    demo_server fresh ∅) as (opts & Ho & Hrun).
  - vm_compute; reflexivity.
  - by_compute.
  - reflexivity.
  - discriminate.
  - discriminate.
  - vm_compute; reflexivity.
  - vm_compute; reflexivity.
  - exists opts. split; [exact Ho|]. apply (Hrun ("53" +:+ LF) 53%Z tt); [reflexivity|vm_compute; reflexivity].
Defined.

#[local] Instance demo_uuid : UuidSource unit := fun w => ("u", w).

(** A restarted virtual kubelet, and an API server that lost the label. *)
Lemma submitted_once_witness :
  let pod := admit_pod sizecar in
  let pod' := with_job_id demo_vk pod (FormatInt 53) in
  let agent2 := AgentServer.serve_all (SH := id_host) (PT := proto_time_impl) slurm (fun f _ => f) [RPartitions]
    (mkSrv (<[pod_uid pod := 53%Z]> ∅) tt) in
  exists server3, CreatePod (WM := world_agent (SH := id_host) (PT := proto_time_impl)) demo_vk pod (mkProv ∅ (mkWorld demo_server agent2)) =
    (Ok pod', mkProv (<[pod_uid pod := FormatInt 53]> ∅) (mkWorld server3 agent2)).
Proof.
  destruct (submitted_once (SH := id_host) (PT := proto_time_impl) slurm (fun f _ => f) demo_vk (admit_pod sizecar) ∅ demo_server fresh
    (with_job_id demo_vk (admit_pod sizecar) (FormatInt 53))
    (CreatePod (WM := world_agent (SH := id_host) (PT := proto_time_impl)) demo_vk (admit_pod sizecar) (mkProv ∅ (mkWorld demo_server fresh))).2
    ltac:(vm_compute; reflexivity) ltac:(vm_compute; reflexivity)) as [Hagain _].
  exact (Hagain [RPartitions] ∅ demo_server).
Defined.

Definition shown_pod : Pod :=
  mkPod (mkObjectMeta "train-sizecar" "default" "u-1"
           (Some {[LabelsRole := SlurmBridgeJobPodRoleSizeCar; LabelSlurmBridgeJobId := "53"]}) None [] None)
        (pod_spec sizecar) zero_PodStatus.
Definition shown_server : Server := mkServer (mkStore {[pod_key shown_pod := shown_pod]} ∅ ∅ []) [].
Definition shown_infos : list Workload.JobInfo :=
  match mapSInfoToProtoInfo (PT := proto_time_impl) [job; pending_job] with Ok infos => infos | _ => [] end.
#[local] Instance demo_json : Json JobInfoResponse :=
  {| Marshal _ := Ok "info"; Unmarshal _ := Ok (mkJobInfoResponse shown_infos) |}.
#[local] Instance demo_json_info : Json Workload.JobInfo :=
  {| Marshal _ := Ok "info"; Unmarshal _ := Err (ErrExternal "json") |}.

End EndToEndExamples.
