(* ===== verification/Lifecycle.v ===== *)
(** * The life of a job

    From a SlurmBridgeJob a user just created to its worker pod, through the
    operator, the virtual kubelet, the agent and the Slurm binaries: the
    operator reconciles, the virtual kubelet gets the sizing pod and is asked
    for its status, and the operator reconciles again. What is between these
    calls, storing the pod and its status, is what the API server and the
    virtual-kubelet library do. *)

From S2P Require Import Prelude GoStrings GoNum GoTime KeyValue AgentParse AgentClient Workload AgentServer AgentTypes.
From S2P Require Import Kube Crd OperatorPod VKStatus Cluster Reconcile VKReader VKProvider EndToEnd.

Section lifecycle.
Context {H : Type} {SH : SlurmHost H} {PT : ProtoTime} {PL : ProtoTimeLaws}.
Context {JR : Json JobInfoResponse} {JI : Json Workload.JobInfo}.
Context (SetControllerReference : SlurmBridgeJob -> ObjectMeta -> res ObjectMeta).
Context (NameIsDNS1035Label : string -> list string).
Context (range_order : gmap string SlurmSubjobStatus -> list SlurmSubjobStatus).
Hypothesis SetControllerReference_owner : forall j m m', SetControllerReference j m = Ok m' ->
  exists o, m' = add_owner m o /\ or_Kind o = SlurmBridgeJobKind.
Hypothesis SetControllerReference_works : forall j m, is_ok (SetControllerReference j m) = true.

Abbreviation reconcile := (Reconcile SetControllerReference NameIsDNS1035Label range_order).

Lemma SetControllerReference_meta j m m' : SetControllerReference j m = Ok m' -> exists o, m' = add_owner m o.
Proof. intros [o [-> _]]%SetControllerReference_owner. by exists o. Qed.

(** The job after its first reconciliation. *)
Definition pending (j : SlurmBridgeJob) : SlurmBridgeJob := with_status j (set_state PodPending (sbj_Status j)).

Lemma pending_due req j w w' :
  due NameIsDNS1035Label req j w -> s_sbjs (sv_store w') !! req = Some (pending j) -> due NameIsDNS1035Label req (pending j) w'.
Proof. intros (_ & Hk & Hv & Hd & _) Hw. by split_and!. Qed.

(** The sizing pod with its job id, and with the status the library stored. *)
Definition submitted (vk : KubeletServer) (p : Pod) (id : Z) : Pod := with_job_id vk (admit_pod p) (FormatInt id).
Definition with_pod_status (p : Pod) (st : PodStatus) : Pod := mkPod (pod_meta p) (pod_spec p) st.

Lemma submitted_labels vk j p id :
  newSizeCarPodForSJ SetControllerReference j = Ok p ->
  map_get (pod_labels (submitted vk p id)) LabelSlurmBridgeJobId = Some (FormatInt id) /\
  map_get (pod_labels (submitted vk p id)) LabelsRole = Some SlurmBridgeJobPodRoleSizeCar /\
  map_get (pod_annotations (submitted vk p id)) LabelAgentEndPoint = Some (AgentEndpoint vk) /\
  spec_Containers (pod_spec (submitted vk p id)) <> [] /\
  is_Some (pod_labels (submitted vk p id)).
Proof.
  intros Hp. destruct (sizecar_shape _ SetControllerReference_owner j p Hp) as (Hl & _ & c & Hc & _).
  unfold submitted, map_get. cbn. unfold pod_labels, admit_pod in *. cbn. rewrite Hl, Hc. cbn.
  rewrite lookup_insert_eq, lookup_insert_ne, lookup_insert_eq by done. unfold pod_annotations. cbn.
  rewrite lookup_insert_eq. by split_and!.
Qed.

Lemma sizecar_pod_key j p : newSizeCarPodForSJ SetControllerReference j = Ok p -> pod_key (admit_pod p) = sizecar_key j.
Proof.
  intros Hp. destruct (newSizeCarPod_meta _ SetControllerReference_meta j p Hp) as [o Ho].
  unfold pod_key, pod_namespace, pod_name. cbn. by rewrite Ho.
Qed.

(** The worker pod can be made from any pod with labels. *)
Lemma newWorkerPod_Ok sp j info :
  is_Some (pod_labels sp) -> exists wp, newWorkerPodForSJ SetControllerReference sp j info = Ok wp.
Proof.
  intros [labels Hl]. unfold newWorkerPodForSJ. rewrite Hl. cbn.
  pose proof (SetControllerReference_works j (new_meta (genPodNameByPodRole j SlurmBridgeJobPodRoleSizeWorker) (sbj_namespace j)
    (Some (<[LabelsRole := SlurmBridgeJobPodRoleSizeWorker]> labels)))) as Hw.
  destruct (SetControllerReference j _) as [m|e|x]; [|done..]. by eexists.
Qed.

(** C1. A job from its creation to its worker pod. The operator creates the
    sizing pod of a new job; the virtual kubelet of the partition submits it
    and learns the id [sbatch] prints; asked for the status, it reports the
    jobs [scontrol] lists for that id; and once this status is stored, the
    operator gives the SlurmBridgeJob the state they have together, the
    agent's address and an entry for every one of them, and creates the
    worker pod with one container for each. *)
Theorem job_lifecycle req j p vk server (agent : Srv H) known out id host1 bs g js host2 infos text :
  due NameIsDNS1035Label req j server -> size (subjobs j) = 0%nat ->
  s_pods (sv_store server) !! sizecar_key j = None -> s_pods (sv_store server) !! worker_key j = None ->
  newSizeCarPodForSJ SetControllerReference j = Ok p -> spec_ints_ok (sbj_Spec j) ->
  SlurmPartition vk = sp_Partition (sbj_Spec j) -> sp_Partition (sbj_Spec j) <> "" -> sp_SbatchScript (sbj_Spec j) <> "" ->
  knownJobs agent !! pod_uid (admit_pod p) = None ->
  Command "sbatch" (getSbatchOpts (sent_sbatch j)) (sp_SbatchScript (sbj_Spec j)) (host agent) = (mkCmdResult out None None, host1) ->
  AtoiR (TrimSpace out) = Ok id ->
  bs <> [] -> Forall block_wf bs -> blank g -> Forall2 describes_job bs js ->
  Forall (fun job => convertible (si_SubmitTime job) /\ convertible (si_StartTime job)) js -> NoDup (si_ID <$> js) ->
  answers host1 "scontrol" ["show"; "jobid"; FormatInt id] (print_blocks bs +:+ g) host2 ->
  mapSInfoToProtoInfo js = Ok infos -> json_roundtrip (mkJobInfoResponse infos) text -> text <> "" ->
  let key := sizecar_key j in
  let uid := pod_uid (admit_pod p) in
  let known1 := <[uid := FormatInt id]> known in
  let jobs1 := <[uid := id]> (knownJobs agent) in
  exists server1 server2 st,
    reconcile req server = (Ok (zero_Result, None), server1) /\
    CreatePod vk (admit_pod p) (mkProv known (mkWorld server1 agent)) =
      (Ok (submitted vk p id), mkProv known1 (mkWorld server2 (mkSrv jobs1 host1))) /\
    GetPodStatus key.1 key.2 (mkProv known1 (mkWorld server2 (mkSrv jobs1 host1))) =
      (Ok (Some st), mkProv known1 (mkWorld server2 (mkSrv jobs1 host2))) /\
  forall server3, sv_store server3 = put_pod (sv_store server2) key (with_pod_status (submitted vk p id) st) ->
  exists server4 wp status,
    reconcile req server3 = (Ok (zero_Result, None), server4) /\
    sv_store server4 = put_sbj (put_pod (sv_store server3) (worker_key j) (admit_pod wp)) req (with_status j status) /\
    sjs_State status = slurmState2PodPhase (mkJobInfoResponse infos) /\
    sjs_ClusterEndPoint status = AgentEndpoint vk /\ shows_jobs js status /\
    (ct_Name <$> spec_Containers (pod_spec wp)) = (si_ID <$> js).
Proof.
  intros Hdue Hsub Hsc Hwk Hp Hints Hvk Hpart Hscript Hnew Hcmd Hid Hne Hbs Hg Hj Hc Hnd Ha Hm Hjson Htext key uid known1 jobs1.
  destruct (Reconcile_creates_sizecar _ NameIsDNS1035Label range_order SetControllerReference_meta req j p server)
    as (server1 & Hrec1 & Hs1); [done..|]. fold (pending j) in Hs1.
  pose proof (sizecar_pod_key j p Hp) as Hkey. destruct (submitted_labels vk j p id Hp) as (Hl1 & Hl2 & Hl3 & Hcs & Hls).
  destruct (sizecar_submitted _ SetControllerReference_owner vk j p server1 agent known out id host1) as (server2 & Hcreate & Hs2); try done.
  { rewrite Hs1, Hkey. cbn. by rewrite lookup_insert_eq. }
  rewrite Hkey in Hs2. fold (submitted vk p id) in Hs2, Hcreate.
  destruct (GetPodStatus_listing key.1 key.2 (submitted vk p id) id server2 (mkSrv jobs1 host1) known1 bs g js host2 infos text)
    as (st & Hst & Hphase & Hmsg & Hshow & Hnil); try done.
  { rewrite Hs2. cbn -[submitted]. unfold key. by rewrite lookup_insert_eq. }
  { by eapply AtoiR_range. }
  exists server1, server2, st. split_and!; [done..|]. intros server3 Hs3.
  set (sp := with_pod_status (submitted vk p id) st) in *.
  destruct (newWorkerPod_Ok sp (with_status (pending j) (observed sp (mkJobInfoResponse infos) (sbj_Status (pending j)))) (mkJobInfoResponse infos) Hls) as [wp Hwp].
  destruct (Reconcile_creates_worker _ NameIsDNS1035Label range_order SetControllerReference_meta req (pending j) sp (mkJobInfoResponse infos) wp server3)
    as (server4 & Hrec4 & Hs4 & Hcts & _); try done.
  - apply (pending_due req j server); [done|]. rewrite Hs3, Hs2, Hs1. cbn -[pending]. by rewrite lookup_insert_eq.
  - rewrite Hs3. cbn -[sp]. change (sizecar_key (pending j)) with key. by rewrite lookup_insert_eq.
  - change (worker_key (pending j)) with (worker_key j). rewrite Hs3, Hs2, Hs1. cbn -[sp submitted]. unfold key.
    rewrite !lookup_insert_ne; [done|..]; unfold sizecar_key, worker_key, genPodNameByPodRole; intros [= E]; by apply (inj (String.append _)) in E.
  - cbn. by rewrite Hmsg.
  - cbn. rewrite Hmsg. apply Hjson.
  - destruct (observed_shows sp infos (sbj_Status (pending j)) js) as [Hstate Hshows]; [by rewrite <- Hmsg in Htext|exact Hshow|exact Hnd|].
    exists server4, wp, (observed sp (mkJobInfoResponse infos) (sbj_Status (pending j))). split_and!; [done|exact Hs4| | |done|].
    + rewrite Hstate. cbn. exact Hphase.
    + unfold observed. change (pod_annotations sp) with (pod_annotations (submitted vk p id)). rewrite Hl3.
      cbn. by case_bool_decide.
    + rewrite Hcts. by apply shown_ids.
Qed.
End lifecycle.

Module LifecycleExamples.
Import ServerExamples EndToEndExamples.
#[local] Existing Instances EndToEndExamples.demo_json EndToEndExamples.demo_json_info.

(** A cluster where [sbatch] prints the id 53 and [scontrol] lists that job. *)
Definition cluster : SlurmHost unit := {|
  LookPath _ _ := None;
  Command bin _ _ w := (mkCmdResult (if bool_decide (bin = "sbatch") then "53" +:+ LF else print_blocks [job_block; pending_block] +:+ LFLF) None None, w) |}.

Definition no_problem (name : string) : list string := [].
Definition some_order (m : gmap string SlurmSubjobStatus) : list SlurmSubjobStatus := (map_to_list m).*2.
Definition demo_req : Key := ("default", "train").
Definition first_server : Server := mkServer (mkStore ∅ ∅ {[demo_req := demo_sbj]} []) [].
Definition run1 : Server := (Reconcile (PT := proto_time_impl) demo_ref no_problem some_order demo_req first_server).2.

Lemma job_lifecycle_witness : exists server2 st,
  CreatePod (WM := world_agent (SH := cluster) (PT := proto_time_impl)) demo_vk (admit_pod sizecar) (mkProv ∅ (mkWorld run1 fresh)) =
    (Ok (submitted demo_vk sizecar 53), mkProv {[pod_uid (admit_pod sizecar) := "53"]}
      (mkWorld server2 (mkSrv {[pod_uid (admit_pod sizecar) := 53%Z]} tt))) /\
  forall server3, sv_store server3 = put_pod (sv_store server2) (sizecar_key demo_sbj) (with_pod_status (submitted demo_vk sizecar 53) st) ->
  exists server4 wp status,
    Reconcile (PT := proto_time_impl) demo_ref no_problem some_order demo_req server3 = (Ok (zero_Result, None), server4) /\
    sv_store server4 = put_sbj (put_pod (sv_store server3) (worker_key demo_sbj) (admit_pod wp)) demo_req (with_status demo_sbj status) /\
    sjs_State status = PodRunning /\ sjs_ClusterEndPoint status = "agent:9999" /\ shows_jobs [job; pending_job] status /\
    (ct_Name <$> spec_Containers (pod_spec wp)) = ["53"; "52"].
Proof.
  destruct (job_lifecycle (SH := cluster) (PT := proto_time_impl) (PL := proto_time_impl_laws) demo_ref no_problem some_order demo_ref_owner
    ltac:(done) demo_req demo_sbj sizecar demo_vk first_server fresh ∅ ("53" +:+ LF) 53 tt [job_block; pending_block] LFLF [job; pending_job] tt shown_infos "info")
    as (server1 & server2 & st & Hrec & Hcreate & _ & Hlife).
  - by split_and!.
  - reflexivity.
  - reflexivity.
  - reflexivity.
  - vm_compute; reflexivity.
  - by_compute.
  - reflexivity.
  - discriminate.
  - discriminate.
  - reflexivity.
  - reflexivity.
  - vm_compute; reflexivity.
  - discriminate.
  - by_compute.
  - reflexivity.
  - constructor; [apply job_described|constructor; [apply pending_described|constructor]].
  - repeat constructor.
  - by_compute.
  - reflexivity.
  - vm_compute; reflexivity.
  - split; reflexivity.
  - discriminate.
  - exists server2, st. split; [|exact Hlife].
    replace server1 with run1 in Hcreate by (unfold run1; by rewrite Hrec). exact Hcreate.
Defined.
End LifecycleExamples.
